(** * Cognitive Insight Engine: a shallow embedding of the analysis pipeline

    The development follows the JavaScript sources of the repository:
    - [public/core/knowledge.js]  the static knowledge base,
    - [public/core/engine.js]     the engine, version 3.2 ([Module Engine]),
    - the version 3.0 engine      ([Module EngineV30]),
    - the conflict module         ([Module ConflictResolver]),
    - the confidence module       ([Module ConfidenceScorer]),
    - the HTTP server             ([Module Server]).

    Numbers.  JavaScript numbers are IEEE doubles; here a number that
    the pipeline computes with is an exact rational ([Q]), token indices
    and counts are [nat].  Where the code can divide by zero or compute
    with a value that is not a number, in the confidence module, the
    model computes in [JS.number], which has [NaN] and the infinities;
    where a result is decided by the rounding of the doubles, in the
    cutoff of the conflict module, in [toFixed] and in [Math.round],
    the model rounds with [JS.double].  Magnitudes beyond the range of
    the normal doubles are outside the model.  The literal that the
    sources write [1.0] is the number [1].  Text is a [string] of 8-bit
    code units (U+0000 to U+00FF), with [toLowerCase] and the class
    [\s] as JavaScript has them on these.

    Objects used as maps ([patternScores], [driverScores], the lexicon)
    are association lists in insertion order, which is the order
    [Object.keys] and [Object.entries] enumerate them in (no key of the
    knowledge base is a canonical array index). *)

From Stdlib Require Import QArith Qminmax Qabs Qround Qpower Lqa.
From Stdlib Require Import String Ascii DecimalString List Sorted Bool Arith Lia ZArith.
Import ListNotations.

Open Scope Q_scope.

(* ================================================================== *)
(** ** JavaScript idioms used by the sources *)
(* ================================================================== *)

Module JS.

(** [x < y] on numbers. *)
Definition ltb (x y : Q) : bool := negb (Qle_bool y x).

(** [x || d] where [x] is a possibly absent number: [undefined] and
    [0] are both falsy. *)
Definition or_num (x : option Q) (d : Q) : Q :=
  match x with
  | Some v => if Qeq_bool v 0 then d else v
  | None => d
  end.

(** [n] as a number. *)
Definition num (n : nat) : Q := inject_Z (Z.of_nat n).

(** [xs.reduce((a, b) => a + b, 0)]. *)
Definition sum (xs : list Q) : Q := fold_left Qplus xs 0.

(** [arr.includes(w)] on an array of strings. *)
Definition includes (arr : list string) (w : string) : bool :=
  existsb (String.eqb w) arr.

(** [s.includes(p)] on strings. *)
Definition str_includes (s p : string) : bool :=
  match index 0 p s with Some _ => true | None => false end.

(** [arr.join(sep)]. *)
Definition join (sep : string) (arr : list string) : string :=
  String.concat sep arr.

(** [arr.slice(a, b)] for [0 <= a], [0 <= b]. *)
Definition slice {A} (xs : list A) (a b : nat) : list A :=
  firstn (b - a) (skipn a xs).

(** A call either returns or throws. *)
Inductive completion (A : Type) : Type :=
| Return (a : A)
| Throw (message : string).
Arguments Return {A} a.
Arguments Throw {A} message.

(** [obj[key]] on an object used as a map. *)
Fixpoint get {A} (obj : list (string * A)) (key : string) : option A :=
  match obj with
  | [] => None
  | (k, v) :: rest => if String.eqb k key then Some v else get rest key
  end.

(** [obj[key] = f(obj[key])] for a key that is present. *)
Fixpoint update {A} (obj : list (string * A)) (key : string) (f : A -> A)
  : list (string * A) :=
  match obj with
  | [] => []
  | (k, v) :: rest =>
      if String.eqb k key then (k, f v) :: rest
      else (k, v) :: update rest key f
  end.

(** [Object.keys(obj)]. *)
Definition keys {A} (obj : list (string * A)) : list string := map fst obj.

(** [arr.sort(cmp)] where [cmp a b] is negative when [a] goes first:
    the sort is stable, so with [leb a b := (cmp a b <= 0)] it is the
    stable insertion sort. *)
Section Sort.
Context {A : Type} (leb : A -> A -> bool).

Fixpoint insert (x : A) (sorted : list A) : list A :=
  match sorted with
  | [] => [x]
  | y :: rest => if leb x y then x :: sorted else y :: insert x rest
  end.

Definition sort (xs : list A) : list A :=
  fold_right insert [] xs.
End Sort.

(** *** Numbers that need not be finite

    Where the code divides by a number that can be zero, or computes
    with a value that is not a number, the model computes in [number]:
    a rational, one of the two infinities, or [NaN].  The operations
    are those of the doubles on these values.  There is one zero, the
    positive one: the code modelled with [number] produces no negative
    zero from arguments that are not negative zero. *)
Inductive number : Type :=
| Finite (q : Q)
| PosInfinity
| NegInfinity
| NaN.

(** The infinity of the sign of [q], or of the opposite sign;
    [NaN] for the zero. *)
Definition infinityOf (q : Q) (same : bool) : number :=
  match q ?= 0 with
  | Eq => NaN
  | Gt => if same then PosInfinity else NegInfinity
  | Lt => if same then NegInfinity else PosInfinity
  end.

(** [- x]. *)
Definition neg (x : number) : number :=
  match x with
  | Finite q => Finite (- q)
  | PosInfinity => NegInfinity
  | NegInfinity => PosInfinity
  | NaN => NaN
  end.

(** [x + y]. *)
Definition add (x y : number) : number :=
  match x, y with
  | NaN, _ | _, NaN => NaN
  | Finite a, Finite b => Finite (a + b)
  | PosInfinity, NegInfinity | NegInfinity, PosInfinity => NaN
  | PosInfinity, _ | _, PosInfinity => PosInfinity
  | NegInfinity, _ | _, NegInfinity => NegInfinity
  end.

(** [x - y]. *)
Definition sub (x y : number) : number := add x (neg y).

(** [x * y]. *)
Definition mul (x y : number) : number :=
  match x, y with
  | NaN, _ | _, NaN => NaN
  | Finite a, Finite b => Finite (a * b)
  | Finite a, PosInfinity | PosInfinity, Finite a => infinityOf a true
  | Finite a, NegInfinity | NegInfinity, Finite a => infinityOf a false
  | PosInfinity, PosInfinity | NegInfinity, NegInfinity => PosInfinity
  | PosInfinity, NegInfinity | NegInfinity, PosInfinity => NegInfinity
  end.

(** [x / y]: a number other than zero divided by zero is an infinity,
    zero divided by zero is [NaN]. *)
Definition div (x y : number) : number :=
  match x, y with
  | NaN, _ | _, NaN => NaN
  | Finite a, Finite b =>
      if Qeq_bool b 0 then infinityOf a true else Finite (a / b)
  | Finite _, _ => Finite 0
  | PosInfinity, Finite b => if ltb b 0 then NegInfinity else PosInfinity
  | NegInfinity, Finite b => if ltb b 0 then PosInfinity else NegInfinity
  | _, _ => NaN
  end.

(** [x < y]: false when either is [NaN]. *)
Definition lt (x y : number) : bool :=
  match x, y with
  | NaN, _ | _, NaN => false
  | Finite a, Finite b => ltb a b
  | _, NegInfinity | PosInfinity, _ => false
  | _, _ => true
  end.

(** [Math.max(x, y)] and [Math.min(x, y)]: [NaN] when either is. *)
Definition Math_max (x y : number) : number :=
  match x, y with
  | NaN, _ | _, NaN => NaN
  | _, _ => if lt x y then y else x
  end.

Definition Math_min (x y : number) : number :=
  match x, y with
  | NaN, _ | _, NaN => NaN
  | _, _ => if lt y x then y else x
  end.

(** *** Plain objects

    The names that every plain object inherits from
    [Object.prototype]: eleven functions and the accessor
    [__proto__], whose value is the prototype object. *)
Definition objectPrototypeMembers : list string :=
  [ "constructor"; "__defineGetter__"; "__defineSetter__"; "hasOwnProperty";
    "__lookupGetter__"; "__lookupSetter__"; "isPrototypeOf";
    "propertyIsEnumerable"; "toString"; "valueOf"; "__proto__";
    "toLocaleString" ]%string.

(** [obj[key] || d], used as a number, for an object literal [obj]
    whose own values are numbers.  An own value counts unless it is
    0.  For a name that [obj] inherits the value is a function or an
    object: it is truthy, so it is kept, and arithmetic turns it
    into [NaN].  Any other name gives [undefined], hence [d]. *)
Definition number_or (obj : list (string * Q)) (key : string) (d : Q) : number :=
  match get obj key with
  | Some v => Finite (or_num (Some v) d)
  | None => if includes objectPrototypeMembers key then NaN else Finite d
  end.

(** *** Doubles

    Where a branch of the code is decided by the rounding of the
    doubles, the model rounds as the code does.  [double q] is the
    double nearest to [q], ties going to the even significand, for
    [q] in the range of the normal doubles: [q] is scaled by a power
    of two to a number in [2^52, 2^53), rounded to an integer and
    scaled back. *)
Definition nearestEven (x : Q) : Z :=
  let f := Qfloor x in
  let r := x - inject_Z f in
  if ltb r (1 # 2) then f
  else if ltb (1 # 2) r then (f + 1)%Z
  else if Z.even f then f else (f + 1)%Z.

(** For [0 < a], the [e] with [2^52 <= a / 2^e < 2^53]. *)
Definition exponent (a : Q) : Z :=
  let k := (Z.log2 (Qnum a) - Z.log2 (Zpos (Qden a)))%Z in
  if Qle_bool (2 ^ k) a then (k - 52)%Z else (k - 53)%Z.

Definition double (q : Q) : Q :=
  if Qeq_bool q 0 then 0
  else
    let a := Qabs q in
    let e := exponent a in
    let m := inject_Z (nearestEven (a / 2 ^ e)) * 2 ^ e in
    if Qle_bool 0 q then m else - m.

End JS.

(* ================================================================== *)
(** ** knowledge.js *)
(* ================================================================== *)

Module Knowledge.

(** An entry of [valid_contexts]. *)
Record ContextConfig := {
  ctx_weight : option Q;
  ctx_subcategory : string
}.

(** A lexicon entry; the fields are those the pipeline reads.  An
    absent [contradicts] or [valid_contexts] is the empty list: the
    code returns early on an absent one and finds nothing in an empty
    one. *)
Record LexiconEntry := {
  category : string;
  subcategory : option string;
  weight : Q;
  context_required : bool;
  valid_contexts : list (string * ContextConfig);
  contradicts : list string;
  emotional_valence : option Q
}.

(** A pattern definition; an absent [driver] is the empty string,
    which is falsy as well. *)
Record PatternDef := {
  pattern_name : string;
  driver : string;
  severity_threshold : option Q;
  weight_multiplier : option Q
}.

Record DriverDef := {
  driver_name : string;
  conflicts_with : list string
}.

Record KnowledgeBase := {
  lexicon : list (string * LexiconEntry);
  patterns : list (string * PatternDef);
  drivers : list (string * DriverDef);
  amplifiers_extreme : list string;
  amplifiers_moderate : list string;
  amplifiers_emotional : list string;
  diminishers_uncertainty : list string;
  diminishers_qualification : list string;
  diminishers_minimization : list string;
  hard_negation : list string;
  soft_negation : list string;
  conditional_negation : list string;
  window_size : nat
}.

Definition entry (cat : string) (sub : option string) (w : Q)
    (contra : list string) (val : Q) : LexiconEntry :=
  {| category := cat; subcategory := sub; weight := w;
     context_required := false; valid_contexts := [];
     contradicts := contra; emotional_valence := Some val |}.

Definition ctx (w : Q) (sub : string) : ContextConfig :=
  {| ctx_weight := Some w; ctx_subcategory := sub |}.

Definition pat (name drv : string) (thr mult : Q) : PatternDef :=
  {| pattern_name := name; driver := drv;
     severity_threshold := Some thr; weight_multiplier := Some mult |}.

Definition the_lexicon : list (string * LexiconEntry) :=
  [ ("always"%string,
      entry "absolutist" (Some "temporal_absolutism"%string) 2.5
            ["sometimes"; "occasionally"; "rarely"]%string (-0.3));
    ("never"%string,
      entry "absolutist" (Some "temporal_absolutism"%string) 2.5
            ["sometimes"; "often"; "usually"]%string (-0.4));
    ("everything"%string,
      entry "absolutist" (Some "binary_thinking"%string) 2.2
            ["some"; "few"; "partial"]%string (-0.2));
    ("nothing"%string,
      entry "absolutist" (Some "binary_thinking"%string) 2.4
            ["something"; "anything"]%string (-0.5));
    ("should"%string,
      {| category := "imperative"; subcategory := None; weight := 3.0;
         context_required := true;
         valid_contexts :=
           [ ("i_should"%string, ctx 4.0 "self_directed");
             ("you_should"%string, ctx 2.5 "other_directed");
             ("should_have"%string, ctx 5.0 "regret_focus");
             ("should_not"%string, ctx 3.5 "prohibitive") ];
         contradicts := []; emotional_valence := Some (-0.6) |});
    ("must"%string, entry "imperative" None 3.5 [] (-0.7));
    ("have_to"%string,
      {| category := "imperative"; subcategory := None; weight := 2.8;
         context_required := true; valid_contexts := [];
         contradicts := []; emotional_valence := Some (-0.5) |});
    ("disaster"%string, entry "catastrophizing" None 4.0 [] (-0.9));
    ("terrible"%string, entry "catastrophizing" None 3.2 [] (-0.8));
    ("worst"%string,
      entry "catastrophizing" None 3.5 ["best"; "good"; "okay"]%string (-0.7));
    ("failure"%string, entry "self_critic" None 3.8 [] (-0.8));
    ("stupid"%string, entry "self_critic" None 3.0 [] (-0.7));
    ("useless"%string, entry "self_critic" None 3.5 [] (-0.8));
    ("my_fault"%string, entry "personalization" None 4.0 [] (-0.7));
    ("because_of_me"%string, entry "personalization" None 3.5 [] (-0.6));
    ("they_think"%string, entry "mind_reading" None 2.5 [] (-0.4));
    ("probably_thinks"%string, entry "mind_reading" None 2.2 [] (-0.3));
    ("feel_like"%string, entry "emotional_reasoning" None 2.0 [] (-0.2)) ].

Definition the_patterns : list (string * PatternDef) :=
  [ ("absolutist"%string, pat "All-or-Nothing Thinking" "control" 3 1.2);
    ("imperative"%string, pat "Imperative Thinking" "validation" 2 1.3);
    ("catastrophizing"%string, pat "Catastrophic Thinking" "safety" 2 1.5);
    ("self_critic"%string, pat "Self-Critical Thinking" "validation" 2 1.4);
    ("personalization"%string, pat "Personalization" "responsibility" 1 1.3);
    ("mind_reading"%string, pat "Mind Reading" "validation" 2 1.1);
    ("emotional_reasoning"%string, pat "Emotional Reasoning" "certainty" 2 1.1) ].

Definition the_drivers : list (string * DriverDef) :=
  [ ("control"%string,
      {| driver_name := "Control & Certainty";
         conflicts_with := ["acceptance"; "flexibility"]%string |});
    ("validation"%string,
      {| driver_name := "Validation & Worth";
         conflicts_with := ["autonomy"; "self_compassion"]%string |});
    ("safety"%string,
      {| driver_name := "Safety & Protection";
         conflicts_with := ["exploration"; "growth"]%string |});
    ("responsibility"%string,
      {| driver_name := "Responsibility & Agency";
         conflicts_with := ["self_compassion"; "delegation"]%string |});
    ("autonomy"%string,
      {| driver_name := "Autonomy & Self-Determination";
         conflicts_with := ["connection"; "compliance"]%string |}) ].

Definition KNOWLEDGE_BASE : KnowledgeBase :=
  {| lexicon := the_lexicon;
     patterns := the_patterns;
     drivers := the_drivers;
     amplifiers_extreme :=
       ["very"; "extremely"; "completely"; "totally"; "utterly"; "absolutely"]%string;
     amplifiers_moderate :=
       ["really"; "quite"; "particularly"; "especially"]%string;
     amplifiers_emotional :=
       ["horribly"; "terribly"; "awfully"; "dreadfully"]%string;
     diminishers_uncertainty :=
       ["somewhat"; "kind_of"; "a_bit"; "slightly"; "maybe"; "perhaps"]%string;
     diminishers_qualification :=
       ["almost"; "nearly"; "practically"; "virtually"]%string;
     diminishers_minimization :=
       ["just"; "only"; "merely"; "simply"]%string;
     hard_negation :=
       ["not"; "never"; "no"; "don't"; "won't"; "can't"; "isn't"; "wasn't"]%string;
     soft_negation :=
       ["barely"; "hardly"; "scarcely"; "rarely"; "seldom"]%string;
     conditional_negation :=
       ["unless"; "except"; "but"; "however"; "although"]%string;
     window_size := 5 |}.

End Knowledge.

(* ================================================================== *)
(** ** Conflict records *)
(* ================================================================== *)

Module Conflicts.

Inductive ConflictType :=
| driver_conflict
| lexical_contradiction
| self_negation
| modifier_conflict
| pattern_conflict
| reinforced_conflict
| temporal_conflict
| language_inconsistency
| negation_paradox.

(** A conflict object.  The objects are duck-typed in the source: each
    kind sets its own fields and later stages test for a field's
    presence, so a field that a kind does not set is absent ([None],
    or the empty list for an array).  The fields kept are those that
    some stage reads back; [recommendation], the display names and
    the like are written once and never read. *)
Record Conflict := {
  conflict_type : ConflictType;
  severity : Q;
  words : list string;
  conflict_positions : list nat;
  conflict_distance : option Q;
  distanceFactor : option Q;
  conflict_drivers : option (list string);
  conflict_word : option string;
  conflict_weight : option Q;
  interpretation : option string
}.

Definition severityOf (c : Conflict) : Q := severity c.

(** [conflicts.sort((a, b) => b.severity - a.severity)]. *)
Definition sortBySeverity (conflicts : list Conflict) : list Conflict :=
  JS.sort (fun a b => Qle_bool (severity b) (severity a)) conflicts.

End Conflicts.

(* ================================================================== *)
(** ** engine.js, version 3.2 *)
(* ================================================================== *)

Module Engine.
Import JS Knowledge Conflicts.

(** *** Construction *)

Record ConstructorOptions := {
  opt_contextWindow : option nat;
  opt_temporalSegments : option nat;
  opt_minConfidence : option Q;
  opt_advancedFeatures : option bool
}.

Definition no_options : ConstructorOptions :=
  {| opt_contextWindow := None; opt_temporalSegments := None;
     opt_minConfidence := None; opt_advancedFeatures := None |}.

(** The fields of [this] that the analysis reads.  The cache and the
    statistics, which the analysis writes, are in [EngineState]. *)
Record CognitiveEngine := {
  kb : KnowledgeBase;
  contextWindow : nat;
  temporalSegments : nat;
  minConfidenceThreshold : Q;
  enableAdvancedFeatures : bool
}.

Definition or_nat (x : option nat) (d : nat) : nat :=
  match x with
  | Some 0%nat | None => d
  | Some n => n
  end.

Definition constructor (knowledgeBase : KnowledgeBase)
    (options : ConstructorOptions) : CognitiveEngine :=
  {| kb := knowledgeBase;
     contextWindow :=
       or_nat (opt_contextWindow options)
              (or_nat (Some (window_size knowledgeBase)) 5);
     temporalSegments := or_nat (opt_temporalSegments options) 3;
     minConfidenceThreshold := or_num (opt_minConfidence options) 0.3;
     enableAdvancedFeatures :=
       match opt_advancedFeatures options with
       | Some false => false
       | _ => true
       end |}.

(** *** Tokenization *)

Record Token := {
  word : string;
  original : string;
  position : nat;
  charPosition : nat;
  isPunctuation : bool
}.

(** A string is a sequence of 8-bit code units, U+0000 to U+00FF.
    [toLowerCase] on them: the capitals [A] to [Z], and of the upper
    half U+00C0 to U+00DE without the multiplication sign U+00D7, each
    32 below its small letter. *)
Definition toLowerChar (c : ascii) : ascii :=
  let n := nat_of_ascii c in
  if ((65 <=? n) && (n <=? 90))%nat then ascii_of_nat (n + 32)
  else if ((192 <=? n) && (n <=? 222) && negb (n =? 215))%nat
       then ascii_of_nat (n + 32)
  else c.

Fixpoint toLowerCase (s : string) : string :=
  match s with
  | EmptyString => EmptyString
  | String c rest => String (toLowerChar c) (toLowerCase rest)
  end.

(** The punctuation class of [tokenize]: the full stop, comma,
    exclamation and question marks, semicolon, colon, both quotes,
    and the round, square, curly and angle brackets. *)
Definition isPunctuationChar (c : ascii) : bool :=
  existsb (Ascii.eqb c)
    (list_ascii_of_string ".,!?;:'()[]{}<>" ++ [ascii_of_nat 34]).

(** The class [\s] on 8-bit code units: the space, the controls
    U+0009 to U+000D and the no-break space U+00A0. *)
Definition isWhitespace (c : ascii) : bool :=
  let n := nat_of_ascii c in
  ((n =? 32) || ((9 <=? n) && (n <=? 13)) || (n =? 160))%nat.

(** [.replace(punctuation, ' $& ')]: every punctuation character gets
    a space on either side. *)
Fixpoint padPunctuation (s : string) : string :=
  match s with
  | EmptyString => EmptyString
  | String c rest =>
      if isPunctuationChar c
      then String " " (String c (String " " (padPunctuation rest)))
      else String c (padPunctuation rest)
  end.

Definition flush (acc : list ascii) : list string :=
  match acc with
  | [] => []
  | _ => [string_of_list_ascii (rev acc)]
  end.

(** [.split(/\s+/).filter(token => token.length > 0)]: the maximal
    runs of characters that are not white space. *)
Fixpoint splitWords (acc : list ascii) (s : string) : list string :=
  match s with
  | EmptyString => flush acc
  | String c rest =>
      if isWhitespace c then flush acc ++ splitWords [] rest
      else splitWords (c :: acc) rest
  end.

(** The test of [isPunctuation]: a non-empty word of punctuation
    characters only. *)
Definition isPunctuationWord (w : string) : bool :=
  match list_ascii_of_string w with
  | [] => false
  | cs => forallb isPunctuationChar cs
  end.

(** The [forEach] of [tokenize]: [position] is the running character
    offset, [count] is [tokens.length]. *)
Fixpoint makeTokens (text : string) (words : list string)
    (position count : nat) : list Token :=
  match words with
  | [] => []
  | w :: rest =>
      {| word := w;
         original := substring position (String.length w) text;
         position := count;
         charPosition := position;
         isPunctuation := isPunctuationWord w |}
      :: makeTokens text rest (position + String.length w + 1) (S count)
  end.

(** [tokenize(text, options)].  The sentence indices that
    [detectSentences] adds are read by [extractEnhancedContext] alone,
    for the [sentence] field of a hit's display context, and are left
    out. *)
Definition tokenize (text : string) : list Token :=
  let words := splitWords [] (padPunctuation (toLowerCase text)) in
  makeTokens text words 0 0.

(** [tokens[i]?.word.toLowerCase()]. *)
Definition wordAt (tokens : list Token) (i : nat) : option string :=
  option_map (fun t => toLowerCase (word t)) (nth_error tokens i).

Definition includesOpt (arr : list string) (w : option string) : bool :=
  match w with
  | Some s => includes arr s
  | None => false
  end.

(** The indices [Math.max(0, tokenIndex - n) .. tokenIndex - 1]. *)
Definition windowBefore (tokenIndex n : nat) : list nat :=
  seq (tokenIndex - n) (tokenIndex - (tokenIndex - n)).

(** *** Context extraction *)

Record Context := {
  preceding : list string;
  following : list string;
  fullWindow : list string;
  positionInWindow : nat
}.

Definition extractEnhancedContext (this : CognitiveEngine)
    (tokens : list Token) (index : nat) : Context :=
  let windowSize := contextWindow this in
  let start := (index - windowSize)%nat in
  let end_ := Nat.min (length tokens) (index + windowSize + 1) in
  {| preceding := map word (slice tokens start index);
     following := map word (slice tokens (index + 1) end_);
     fullWindow := map word (slice tokens start end_);
     positionInWindow := index - start |}.

(** *** Negation *)

Inductive NegationType := NegNone | Hard | Soft | Conditional | DoubleNegative.

Record NegationState := {
  isNegated : bool;
  negType : NegationType;
  strength : Q;
  negator : option string;
  distance : option nat
}.

Definition negationTypes (this : CognitiveEngine)
  : list (NegationType * (list string * Q)) :=
  [ (Hard, (hard_negation (kb this), 1));
    (Soft, (soft_negation (kb this), 0.6));
    (Conditional, (conditional_negation (kb this), 0.3)) ].

(** One iteration of the inner loop over [negationTypes]. *)
Definition negationCandidate (tokenIndex i : nat) (w : option string)
    (best : NegationState) (entry : NegationType * (list string * Q))
  : NegationState :=
  let '(type, (words, typeStrength)) := entry in
  if includesOpt words w then
    let dist := (tokenIndex - i)%nat in
    let effectiveness := typeStrength * (1 - num dist / 6) in
    if ltb (strength best) effectiveness then
      {| isNegated := true; negType := type; strength := effectiveness;
         negator := w; distance := Some dist |}
    else best
  else best.

(** The scan of the five preceding tokens. *)
Definition scanNegation (this : CognitiveEngine) (tokenIndex : nat)
    (tokens : list Token) : NegationState :=
  fold_left
    (fun best i =>
       fold_left (negationCandidate tokenIndex i (wordAt tokens i))
                 (negationTypes this) best)
    (windowBefore tokenIndex 5)
    {| isNegated := false; negType := NegNone; strength := 0;
       negator := None; distance := None |}.

(** [doubleNegationCount]: the hard negators among the three
    preceding tokens. *)
Definition doubleNegationCount (this : CognitiveEngine) (tokenIndex : nat)
    (tokens : list Token) : nat :=
  length (filter (fun i => includesOpt (hard_negation (kb this)) (wordAt tokens i))
                 (windowBefore tokenIndex 3)).

Definition detectNegationAdvanced (this : CognitiveEngine) (context : Context)
    (tokenIndex : nat) (tokens : list Token) : NegationState :=
  let bestNegation := scanNegation this tokenIndex tokens in
  if isNegated bestNegation then
    let count := doubleNegationCount this tokenIndex tokens in
    if ((1 <? count) && (count mod 2 =? 0))%nat then
      {| isNegated := false; negType := DoubleNegative; strength := 0;
         negator := negator bestNegation; distance := distance bestNegation |}
    else bestNegation
  else bestNegation.

(** *** Modifiers *)

Record Modifier := {
  mod_word : option string;
  mod_type : string;
  mod_distance : nat
}.

Record ModifierEffect := {
  multiplier : Q;
  intensifiers : list Modifier;
  diminishers : list Modifier;
  hasConflict : bool
}.

(** The loop state of [analyzeModifiersAdvanced]. *)
Record ModifierScan := {
  scan_multiplier : Q;
  scan_intensifiers : list Modifier;
  scan_diminishers : list Modifier
}.

Definition addIntensifier (s : ModifierScan) (bonus : Q) (m : Modifier) :=
  {| scan_multiplier := scan_multiplier s + bonus;
     scan_intensifiers := scan_intensifiers s ++ [m];
     scan_diminishers := scan_diminishers s |}.

Definition addDiminisher (s : ModifierScan) (penalty : Q) (m : Modifier) :=
  {| scan_multiplier := scan_multiplier s - penalty;
     scan_intensifiers := scan_intensifiers s;
     scan_diminishers := scan_diminishers s ++ [m] |}.

Definition modifierStep (this : CognitiveEngine) (tokenIndex : nat)
    (tokens : list Token) (s : ModifierScan) (i : nat) : ModifierScan :=
  let w := wordAt tokens i in
  let dist := (tokenIndex - i)%nat in
  let distanceWeight := Qmax 0.5 (1 - num dist * 0.2) in
  let mk type := {| mod_word := w; mod_type := type; mod_distance := dist |} in
  let s1 :=
    if includesOpt (amplifiers_extreme (kb this)) w then
      addIntensifier s (0.5 * distanceWeight) (mk "extreme"%string)
    else if includesOpt (amplifiers_moderate (kb this)) w then
      addIntensifier s (0.3 * distanceWeight) (mk "moderate"%string)
    else if includesOpt (amplifiers_emotional (kb this)) w then
      addIntensifier s (0.4 * distanceWeight) (mk "emotional"%string)
    else s in
  if includesOpt (diminishers_uncertainty (kb this)) w then
    addDiminisher s1 (0.4 * distanceWeight) (mk "uncertainty"%string)
  else if includesOpt (diminishers_qualification (kb this)) w then
    addDiminisher s1 (0.3 * distanceWeight) (mk "qualification"%string)
  else if includesOpt (diminishers_minimization (kb this)) w then
    addDiminisher s1 (0.2 * distanceWeight) (mk "minimization"%string)
  else s1.

Definition nonEmpty {A} (xs : list A) : bool :=
  match xs with [] => false | _ => true end.

Definition analyzeModifiersAdvanced (this : CognitiveEngine) (context : Context)
    (tokenIndex : nat) (tokens : list Token) : ModifierEffect :=
  let s := fold_left (modifierStep this tokenIndex tokens)
             (windowBefore tokenIndex 3)
             {| scan_multiplier := 1; scan_intensifiers := [];
                scan_diminishers := [] |} in
  let conflict := nonEmpty (scan_intensifiers s) && nonEmpty (scan_diminishers s) in
  let m :=
    if conflict then
      let conflictFactor :=
        num (Nat.min (length (scan_intensifiers s)) (length (scan_diminishers s)))
        * 0.2 in
      scan_multiplier s * (1 - conflictFactor)
    else scan_multiplier s in
  {| multiplier := Qmax 0.1 (Qmin 3.0 m);
     intensifiers := scan_intensifiers s;
     diminishers := scan_diminishers s;
     hasConflict := conflict |}.

(** *** Marker weight *)

Record SemanticMatch := {
  smatch : bool;
  contextPattern : option string;
  contextWeight : option Q
}.

(** The [for ... of Object.entries(marker.valid_contexts)] loop: the
    first declared context found in either joined window wins. *)
Fixpoint firstValidContext (fullContext precedingContext : string)
    (contexts : list (string * ContextConfig))
  : option (string * ContextConfig) :=
  match contexts with
  | [] => None
  | (pattern, config) :: rest =>
      if str_includes fullContext pattern || str_includes precedingContext pattern
      then Some (pattern, config)
      else firstValidContext fullContext precedingContext rest
  end.

Definition matchSemanticPattern (this : CognitiveEngine) (token : string)
    (context : Context) : SemanticMatch :=
  match get (lexicon (kb this)) token with
  | None => {| smatch := false; contextPattern := None; contextWeight := None |}
  | Some marker =>
      let general :=
        {| smatch := true; contextPattern := Some "general"%string;
           contextWeight := Some (weight marker) |} in
      if context_required marker && nonEmpty (valid_contexts marker) then
        let fullContext := join "_" (fullWindow context) in
        let precedingContext := join "_" (preceding context) in
        match firstValidContext fullContext precedingContext
                (valid_contexts marker) with
        | Some (pattern, config) =>
            {| smatch := true; contextPattern := Some pattern;
               contextWeight := Some (or_num (ctx_weight config) (weight marker)) |}
        | None => general
        end
      else general
  end.

Definition calculateAdjustedWeight (baseWeight : Q)
    (negationState : NegationState) (modifierEffect : ModifierEffect)
    (semanticContext : SemanticMatch) : Q :=
  if negb (smatch semanticContext) then 0
  else
    let w0 := or_num (contextWeight semanticContext) baseWeight in
    let w1 := if isNegated negationState
              then w0 * (1 - strength negationState) else w0 in
    let w2 := w1 * multiplier modifierEffect in
    Qmax 0.1 w2.

Inductive Segment := early | middle | late.

Definition getTemporalSegment (this : CognitiveEngine)
    (position totalLength : nat) : Segment :=
  let segmentSize := num totalLength / num (temporalSegments this) in
  if ltb (num position) segmentSize then early
  else if ltb (num position) (segmentSize * 2) then middle
  else late.

(** *** Parsing *)

(** A hit.  The display fields [context], [clinicalNote] and the
    back-reference [token] are not read by any later stage and are
    left out. *)
Record Hit := {
  hit_word : string;
  originalWord : string;
  hit_position : nat;
  hit_charPosition : nat;
  hit_category : string;
  hit_subcategory : option string;
  baseWeight : Q;
  adjustedWeight : Q;
  hit_isNegated : bool;
  negationType : NegationType;
  negationStrength : Q;
  modifierEffect : Q;
  hit_intensifiers : list Modifier;
  hit_diminishers : list Modifier;
  hasModifierConflict : bool;
  semanticContext : option string;
  temporalSegment : Segment;
  emotionalValence : Q
}.

(** The body of the [for] loop of [parseTextWithEnhancements] at
    index [i]: the hit it pushes, if any. *)
Definition parseToken (this : CognitiveEngine) (tokens : list Token)
    (i : nat) (token : Token) : option Hit :=
  if isPunctuation token then None
  else
    match get (lexicon (kb this)) (word token) with
    | None => None
    | Some marker =>
        let context := extractEnhancedContext this tokens i in
        let negationState := detectNegationAdvanced this context i tokens in
        let modifiers := analyzeModifiersAdvanced this context i tokens in
        let semantic := matchSemanticPattern this (word token) context in
        let adjusted :=
          calculateAdjustedWeight (weight marker) negationState modifiers semantic in
        if ltb 0.3 adjusted then
          Some {| hit_word := word token;
                  originalWord := original token;
                  hit_position := i;
                  hit_charPosition := charPosition token;
                  hit_category := category marker;
                  hit_subcategory := subcategory marker;
                  baseWeight := weight marker;
                  adjustedWeight := adjusted;
                  hit_isNegated := isNegated negationState;
                  negationType := negType negationState;
                  negationStrength := strength negationState;
                  modifierEffect := multiplier modifiers;
                  hit_intensifiers := intensifiers modifiers;
                  hit_diminishers := diminishers modifiers;
                  hasModifierConflict := hasConflict modifiers;
                  semanticContext := contextPattern semantic;
                  temporalSegment := getTemporalSegment this i (length tokens);
                  emotionalValence := or_num (emotional_valence marker) 0 |}
        else None
    end.

Fixpoint parseFrom (this : CognitiveEngine) (tokens : list Token)
    (i : nat) (rest : list Token) : list Hit :=
  match rest with
  | [] => []
  | token :: rest' =>
      match parseToken this tokens i token with
      | Some hit => hit :: parseFrom this tokens (S i) rest'
      | None => parseFrom this tokens (S i) rest'
      end
  end.

Definition parseTextWithEnhancements (this : CognitiveEngine) (text : string)
  : list Hit :=
  let tokens := tokenize text in
  parseFrom this tokens 0 tokens.

(** *** Clusters *)

Record ClusterPatterns := {
  counts : list (string * nat);
  dominant : option (string * nat);
  diversity : nat
}.

Record Cluster := {
  cluster_id : nat;
  cluster_markers : list Hit;
  cluster_size : nat;
  cluster_patterns : ClusterPatterns;
  density : Q;
  startPosition : nat;
  endPosition : nat
}.

Definition increment (obj : list (string * nat)) (key : string)
  : list (string * nat) :=
  match get obj key with
  | Some _ => update obj key S
  | None => obj ++ [(key, 1%nat)]
  end.

Definition analyzeClusterPatterns (cluster : list Hit) : ClusterPatterns :=
  let patternCounts :=
    fold_left
      (fun acc hit =>
         if (String.length (hit_category hit) =? 0)%nat then acc
         else increment acc (hit_category hit))
      cluster [] in
  {| counts := patternCounts;
     dominant := hd_error (sort (fun a b => (snd b <=? snd a)%nat) patternCounts);
     diversity := length patternCounts |}.

Definition lastHit (cluster : list Hit) : option Hit :=
  nth_error cluster (length cluster - 1).

Definition closeCluster (clusters : list (list Hit)) (current : list Hit)
  : list (list Hit) :=
  if (2 <=? length current)%nat then clusters ++ [current] else clusters.

(** The grouping loop over the hits sorted by position; a hit joins
    the current cluster when it is at most [clusterThreshold = 5]
    positions after the cluster's last hit. *)
Fixpoint groupClusters (clusters : list (list Hit)) (current : list Hit)
    (sortedHits : list Hit) : list (list Hit) :=
  match sortedHits with
  | [] => closeCluster clusters current
  | hit :: rest =>
      match lastHit current with
      | None => groupClusters clusters [hit] rest
      | Some last =>
          if (Z.of_nat (hit_position hit) - Z.of_nat (hit_position last) <=? 5)%Z
          then groupClusters clusters (current ++ [hit]) rest
          else groupClusters (closeCluster clusters current) [hit] rest
      end
  end.

Definition positionOf (h : option Hit) : nat :=
  match h with Some hit => hit_position hit | None => 0%nat end.

Fixpoint makeClusters (index : nat) (groups : list (list Hit)) : list Cluster :=
  match groups with
  | [] => []
  | cluster :: rest =>
      let first := positionOf (hd_error cluster) in
      let last := positionOf (lastHit cluster) in
      {| cluster_id := index;
         cluster_markers := cluster;
         cluster_size := length cluster;
         cluster_patterns := analyzeClusterPatterns cluster;
         density := num (length cluster)
                    / inject_Z (Z.of_nat last - Z.of_nat first + 1);
         startPosition := first;
         endPosition := last |}
      :: makeClusters (S index) rest
  end.

Definition detectPatternClusters (hits : list Hit) : list Cluster :=
  if (length hits <? 2)%nat then []
  else
    let sortedHits :=
      sort (fun a b => (hit_position a <=? hit_position b)%nat) hits in
    makeClusters 0 (groupClusters [] [] sortedHits).

(** *** Pattern aggregation *)

Record Marker := {
  marker_word : string;
  marker_weight : Q;
  negated : bool;
  marker_position : nat
}.

Record ClusterRef := {
  ref_id : nat;
  ref_size : nat;
  ref_density : Q;
  ref_markers : nat
}.

Record SegmentScores := {
  in_early : Q;
  in_middle : Q;
  in_late : Q
}.

Record PatternScore := {
  score : Q;
  count : nat;
  weightedScore : Q;
  positions : list nat;
  subpatterns : list (string * (Q * nat));
  valences : list Q;
  confidence : Q;
  temporalDistribution : SegmentScores;
  markers : list Marker;
  clusters : list ClusterRef;
  avgValence : Q;
  pattern_severity : option bool;
  intensity : Q
}.

Definition emptyPatternScore : PatternScore :=
  {| score := 0; count := 0; weightedScore := 0; positions := [];
     subpatterns := []; valences := []; confidence := 0;
     temporalDistribution := {| in_early := 0; in_middle := 0; in_late := 0 |};
     markers := []; clusters := [];
     avgValence := 0; pattern_severity := None; intensity := 0 |}.

Definition addToSegment (d : SegmentScores) (seg : Segment) (w : Q)
  : SegmentScores :=
  match seg with
  | early => {| in_early := in_early d + w; in_middle := in_middle d; in_late := in_late d |}
  | middle => {| in_early := in_early d; in_middle := in_middle d + w; in_late := in_late d |}
  | late => {| in_early := in_early d; in_middle := in_middle d; in_late := in_late d + w |}
  end.

Definition addSubpattern (subs : list (string * (Q * nat)))
    (sub : option string) (w : Q) : list (string * (Q * nat)) :=
  match sub with
  | Some name =>
      if (String.length name =? 0)%nat then subs
      else
        let subs' := match get subs name with
                     | Some _ => subs
                     | None => subs ++ [(name, (0, 0%nat))]
                     end in
        update subs' name (fun '(sc, n) => (sc + w, S n))
  | None => subs
  end.

(** The updates of [patternScores[category]] for one hit. *)
Definition foldHit (hit : Hit) (data : PatternScore) : PatternScore :=
  {| score := score data + adjustedWeight hit;
     count := count data + 1;
     weightedScore :=
       weightedScore data
       + adjustedWeight hit * (if hit_isNegated hit then 0.5 else 1);
     positions := positions data ++ [hit_position hit];
     subpatterns :=
       addSubpattern (subpatterns data) (hit_subcategory hit) (adjustedWeight hit);
     valences := valences data ++ [emotionalValence hit];
     confidence := confidence data;
     temporalDistribution :=
       addToSegment (temporalDistribution data) (temporalSegment hit)
                    (adjustedWeight hit);
     markers :=
       markers data
       ++ [{| marker_word := hit_word hit; marker_weight := adjustedWeight hit;
              negated := hit_isNegated hit; marker_position := hit_position hit |}];
     clusters := clusters data;
     avgValence := avgValence data;
     pattern_severity := pattern_severity data;
     intensity := intensity data |}.

(** One iteration of the first [hits.forEach]. *)
Definition accumulateHit (patternScores : list (string * PatternScore))
    (hit : Hit) : list (string * PatternScore) :=
  let category := hit_category hit in
  let initialised :=
    match get patternScores category with
    | Some _ => patternScores
    | None => patternScores ++ [(category, emptyPatternScore)]
    end in
  update initialised category (foldHit hit).

Fixpoint gaps (positions : list nat) : list Q :=
  match positions with
  | p :: ((q :: _) as rest) =>
      inject_Z (Z.of_nat q - Z.of_nat p) :: gaps rest
  | _ => []
  end.

Definition calculateEnhancedDistributionScore (positions : list nat)
    (totalLength : nat) : Q :=
  if (length positions <? 2)%nat then 0.5
  else
    let gs := gaps positions in
    let avgGap := sum gs / num (length gs) in
    let idealGap := num totalLength / num (length positions) in
    let variance :=
      fold_left (fun acc gap => acc + (gap - avgGap) * (gap - avgGap)) gs 0
      / num (length gs) in
    let clusteringScore := if ltb variance (idealGap * 0.5) then 0.3 else 0.7 in
    Qmax 0.1 clusteringScore.

Definition calculatePatternIntensity (patternData : PatternScore) : Q :=
  let weightIntensity := Qmin 1 (weightedScore patternData / 20) in
  let countIntensity := Qmin 1 (num (count patternData) / 10) in
  let valenceIntensity := Qabs (avgValence patternData) in
  let clusterIntensity := Qmin 1 (num (length (clusters patternData)) / 3) in
  weightIntensity * 0.4 + countIntensity * 0.3
  + valenceIntensity * 0.2 + clusterIntensity * 0.1.

Definition countFactor (data : PatternScore) : Q :=
  Qmin (num (count data) / 5) 1.

Definition weightFactor (data : PatternScore) : Q :=
  weightedScore data / (num (count data) * 5).

Definition clusterFactor (data : PatternScore) : Q :=
  Qmin (num (length (clusters data)) / 3) 1.

Definition negationFactor (data : PatternScore) : Q :=
  1 - num (length (filter negated (markers data)))
      / num (length (markers data)) * 0.5.

(** The body of the second pass, [Object.keys(patternScores).forEach],
    for one category. *)
Definition scorePattern (this : CognitiveEngine) (totalHits : nat)
    (category : string) (data : PatternScore) : PatternScore :=
  let avg :=
    if (0 <? length (valences data))%nat
    then sum (valences data) / num (length (valences data)) else 0 in
  let distributionFactor :=
    calculateEnhancedDistributionScore (positions data) totalHits in
  let base :=
    countFactor data * 0.25 + weightFactor data * 0.25
    + distributionFactor * 0.2 + clusterFactor data * 0.2
    + negationFactor data * 0.1 in
  let pattern := get (patterns (kb this)) category in
  let scored :=
    {| score := score data; count := count data;
       weightedScore := weightedScore data; positions := positions data;
       subpatterns := subpatterns data; valences := valences data;
       confidence :=
         match pattern with
         | Some p => base * or_num (weight_multiplier p) 1
         | None => base
         end;
       temporalDistribution := temporalDistribution data;
       markers := markers data; clusters := clusters data;
       avgValence := avg;
       pattern_severity :=
         match pattern with
         | Some p => Some (Qle_bool (or_num (severity_threshold p) 2)
                                    (weightedScore data))
         | None => None
         end;
       intensity := 0 |} in
  {| score := score scored; count := count scored;
     weightedScore := weightedScore scored; positions := positions scored;
     subpatterns := subpatterns scored; valences := valences scored;
     confidence := confidence scored;
     temporalDistribution := temporalDistribution scored;
     markers := markers scored; clusters := clusters scored;
     avgValence := avgValence scored; pattern_severity := pattern_severity scored;
     intensity := calculatePatternIntensity scored |}.

Record Aggregation := {
  patternScores : list (string * PatternScore);
  agg_clusters : list Cluster
}.

(** [aggregatePatternsWithClusters(hits)].

    The pass that attaches clusters calls
    [cluster.patterns.counts.forEach(...)] for every cluster, and
    [counts] is the plain object that [analyzeClusterPatterns] builds,
    which has no [forEach]: with one cluster or more the call throws a
    [TypeError], and with none the pass does nothing.

    The tables [temporalDistribution] and [subpatternDistribution]
    that are returned next to [patternScores] feed the temporal-shift
    summary only and are left out. *)
Definition aggregatePatternsWithClusters (this : CognitiveEngine)
    (hits : list Hit) : completion Aggregation :=
  let found := detectPatternClusters hits in
  let accumulated := fold_left accumulateHit hits [] in
  match found with
  | _ :: _ => Throw "TypeError: cluster.patterns.counts.forEach is not a function"
  | [] =>
      Return
        {| patternScores :=
             map (fun '(category, data) =>
                    (category, scorePattern this (length hits) category data))
                 accumulated;
           agg_clusters := found |}
  end.

(** *** Driver inference *)

Record Contribution := {
  contributing_pattern : string;
  patternName : string;
  contribution_weight : Q;
  contribution : Q;
  contribution_confidence : Q;
  contribution_intensity : Q
}.

(** A driver score.  [normalizedScore], [primary] and the driver's
    [conflicts] are set by the second pass and hold [0], [false] and
    the empty list until then. *)
Record DriverScore := {
  driver_score : Q;
  driver_weightedScore : Q;
  contributingPatterns : list Contribution;
  driver_confidence : Q;
  normalizedScore : Q;
  primary : bool;
  driver_intensity : Q;
  driver_conflicts : list string
}.

Definition emptyDriverScore : DriverScore :=
  {| driver_score := 0; driver_weightedScore := 0; contributingPatterns := [];
     driver_confidence := 0; normalizedScore := 0; primary := false;
     driver_intensity := 0; driver_conflicts := [] |}.

Definition contribute (category : string) (pattern : PatternDef)
    (patternData : PatternScore) (d : DriverScore) : DriverScore :=
  let driverContribution :=
    weightedScore patternData * or_num (weight_multiplier pattern) 1 in
  {| driver_score := driver_score d + score patternData;
     driver_weightedScore := driver_weightedScore d + driverContribution;
     contributingPatterns :=
       contributingPatterns d
       ++ [{| contributing_pattern := category;
              patternName := pattern_name pattern;
              contribution_weight := weightedScore patternData;
              contribution := driverContribution;
              contribution_confidence := confidence patternData;
              contribution_intensity := intensity patternData |}];
     driver_confidence := Qmax (driver_confidence d) (confidence patternData);
     normalizedScore := normalizedScore d;
     primary := primary d;
     driver_intensity := driver_intensity d;
     driver_conflicts := driver_conflicts d |}.

(** One iteration of the first pass over [Object.keys(patternScores)]. *)
Definition inferStep (this : CognitiveEngine)
    (driverScores : list (string * DriverScore))
    (entry : string * PatternScore) : list (string * DriverScore) :=
  let '(category, patternData) := entry in
  match get (patterns (kb this)) category with
  | None => driverScores
  | Some pattern =>
      if (String.length (driver pattern) =? 0)%nat then driverScores
      else
        let initialised :=
          match get driverScores (driver pattern) with
          | Some _ => driverScores
          | None => driverScores ++ [(driver pattern, emptyDriverScore)]
          end in
        update initialised (driver pattern) (contribute category pattern patternData)
  end.

(** The second and third passes for one driver: normalisation,
    intensity, the knowledge-base fields, and the sort of the
    contributing patterns by contribution, largest first. *)
Definition finishDriver (this : CognitiveEngine) (name : string)
    (data : DriverScore) : DriverScore :=
  let normalized := Qmin 10 (driver_weightedScore data / 5) in
  let contributionIntensity := Qmin 1 (driver_weightedScore data / 30) in
  let patternIntensity :=
    sum (map contribution_intensity (contributingPatterns data))
    / num (length (contributingPatterns data)) in
  {| driver_score := driver_score data;
     driver_weightedScore := driver_weightedScore data;
     contributingPatterns :=
       sort (fun a b => Qle_bool (contribution b) (contribution a))
            (contributingPatterns data);
     driver_confidence := driver_confidence data;
     normalizedScore := normalized;
     primary := Qle_bool 5 normalized;
     driver_intensity := contributionIntensity * 0.6 + patternIntensity * 0.4;
     driver_conflicts :=
       match get (drivers (kb this)) name with
       | Some driverInfo => conflicts_with driverInfo
       | None => driver_conflicts data
       end |}.

Definition inferDriversWithConfidence (this : CognitiveEngine)
    (patternScores : list (string * PatternScore))
  : list (string * DriverScore) :=
  map (fun '(name, data) => (name, finishDriver this name data))
      (fold_left (inferStep this) patternScores []).

(** *** Conflict detection *)

(** [x.toFixed(1)] for [0 <= x]: the number of tenths nearest to the
    double that [x] is, the larger one of two that are equally
    near. *)
Definition toFixed1 (x : Q) : string :=
  let tenths := Z.to_N (Qfloor (double x * 10 + 0.5)) in
  (NilZero.string_of_uint (N.to_uint (tenths / 10)) ++ "."
   ++ NilZero.string_of_uint (N.to_uint (tenths mod 10)))%string.

(** The pairs [(xs[i], xs[j])], [i < j], in loop order. *)
Fixpoint pairs {A} (xs : list A) : list (A * A) :=
  match xs with
  | [] => []
  | x :: rest => map (pair x) rest ++ pairs rest
  end.

Definition driverConflict (this : CognitiveEngine)
    (pair : (string * DriverScore) * (string * DriverScore)) : list Conflict :=
  let '((d1, s1), (d2, s2)) := pair in
  match get (drivers (kb this)) d1, get (drivers (kb this)) d2 with
  | Some d1Info, Some d2Info =>
      if includes (conflicts_with d1Info) d2 then
        let d1Score := normalizedScore s1 in
        let d2Score := normalizedScore s2 in
        if ltb 3 d1Score && ltb 3 d2Score then
          [{| conflict_type := driver_conflict;
              severity := (d1Score + d2Score) / 20;
              words := []; conflict_positions := [];
              conflict_distance := None; distanceFactor := None;
              conflict_drivers := Some [d1; d2];
              conflict_word := None; conflict_weight := None;
              interpretation :=
                Some ("Strong tension between need for " ++ driver_name d1Info
                      ++ " (score: " ++ toFixed1 d1Score ++ ") and "
                      ++ driver_name d2Info
                      ++ " (score: " ++ toFixed1 d2Score
                      ++ "). This may cause internal conflict or decision paralysis.")%string |}]
        else []
      else []
  | _, _ => []
  end.

Definition quoted (s : string) : string :=
  (String (ascii_of_nat 34) s ++ String (ascii_of_nat 34) EmptyString)%string.

Definition lexicalContradiction (hit otherHit : Hit) : Conflict :=
  let dist := inject_Z (Z.of_nat (hit_position otherHit) - Z.of_nat (hit_position hit)) in
  let factor := Qmax 0 (1 - dist / 20) in
  {| conflict_type := lexical_contradiction;
     severity := (adjustedWeight hit + adjustedWeight otherHit) * factor * 0.3;
     words := [hit_word hit; hit_word otherHit];
     conflict_positions := [hit_position hit; hit_position otherHit];
     conflict_distance := Some dist; distanceFactor := Some factor;
     conflict_drivers := None; conflict_word := None; conflict_weight := None;
     interpretation :=
       Some ("Contradictory language: " ++ quoted (originalWord hit)
             ++ " (" ++ hit_category hit ++ ") vs " ++ quoted (originalWord otherHit)
             ++ " (" ++ hit_category otherHit ++ ")")%string |}.

(** The scan [hits.forEach((hit, i) => ...)] with its inner loop
    [for (j = i + 1; j < Math.min(i + 10, hits.length); j++)]:
    [later] holds [hits[i + 1 ..]], of which the loop visits the first
    nine. *)
Fixpoint lexicalScan (this : CognitiveEngine) (hits : list Hit) : list Conflict :=
  match hits with
  | [] => []
  | hit :: later =>
      match get (lexicon (kb this)) (hit_word hit) with
      | None => []
      | Some marker =>
          flat_map
            (fun otherHit =>
               if includes (contradicts marker) (hit_word otherHit)
               then [lexicalContradiction hit otherHit] else [])
            (firstn 9 later)
      end ++ lexicalScan this later
  end.

Definition selfNegation (hit : Hit) : list Conflict :=
  if hit_isNegated hit && ltb 2 (adjustedWeight hit) then
    [{| conflict_type := self_negation;
        severity := adjustedWeight hit * 0.2;
        words := []; conflict_positions := [hit_position hit];
        conflict_distance := None; distanceFactor := None;
        conflict_drivers := None;
        conflict_word := Some (hit_word hit);
        conflict_weight := Some (adjustedWeight hit);
        interpretation :=
          Some "Strong negation of significant cognitive marker. May indicate defensive response or underlying belief."%string |}]
  else [].

Definition modifierConflict (hit : Hit) : list Conflict :=
  if hasModifierConflict hit then
    [{| conflict_type := modifier_conflict;
        severity := adjustedWeight hit * 0.15;
        words := []; conflict_positions := [];
        conflict_distance := None; distanceFactor := None;
        conflict_drivers := None;
        conflict_word := Some (hit_word hit);
        conflict_weight := None;
        interpretation :=
          Some "Conflicting intensity modifiers suggest uncertainty about emotional expression."%string |}]
  else [].

Definition detectEnhancedConflicts (this : CognitiveEngine)
    (driverScores : list (string * DriverScore))
    (patternScores : list (string * PatternScore))
    (hits : list Hit) : list Conflict :=
  sortBySeverity
    (flat_map (driverConflict this) (pairs driverScores)
     ++ lexicalScan this hits
     ++ flat_map selfNegation hits
     ++ flat_map modifierConflict hits).

(** *** Coherence *)

Definition calculateDistributionBonus (hits : list Hit) : Q :=
  if (length hits <? 3)%nat then 0
  else
    let ps := map hit_position hits in
    let spread :=
      inject_Z (Z.of_nat (fold_right Nat.max 0%nat ps)
                - Z.of_nat (fold_right Nat.min (hd 0%nat ps) ps)) in
    let dens := num (length hits) / spread in
    let optimalDensity := 0.3 in
    let densityScore := 1 - Qmin 1 (Qabs (dens - optimalDensity) / optimalDensity) in
    densityScore * 0.1.

Definition calculateEnhancedCoherence (hits : list Hit)
    (conflicts : list Conflict) (found : list Cluster) : Q :=
  let baseCoherence := 0.7 in
  let conflictPenalty :=
    fold_left (fun acc conflict => acc + or_num (Some (severity conflict)) 0.5)
              conflicts 0 * 0.1 in
  let clusterBonus := Qmin 0.2 (num (length found) * 0.05) in
  let distributionBonus := calculateDistributionBonus hits in
  let sentimentBonus := 0 in
  Qmax 0.1 (Qmin 1 (baseCoherence - conflictPenalty + clusterBonus
                    + distributionBonus + sentimentBonus)).

(** *** The cache *)

Definition calculateAvgConfidence (patternScores : list (string * PatternScore)) : Q :=
  if (length patternScores =? 0)%nat then 0
  else
    fold_left (fun acc entry => acc + or_num (Some (confidence (snd entry))) 0)
              patternScores 0
    / num (length patternScores).

Record Metadata := {
  markerCount : nat;
  avgConfidence : Q;
  cacheKey : option string
}.

(** The analysis record.  [temporalShift], [sentiment] and [insights]
    are computed from the fields below by code that cannot throw and
    that nothing reads back; with the word count and the time stamps
    they are left out. *)
Record Analysis := {
  hits : list Hit;
  analysis_patterns : list (string * PatternScore);
  analysis_drivers : list (string * DriverScore);
  conflicts : list Conflict;
  analysis_clusters : list Cluster;
  coherence : Q;
  metadata : Metadata
}.

Record Stats := {
  analyses : nat;
  totalMarkers : nat;
  cacheHits : nat;
  cacheMisses : nat
}.

(** The mutable part of the engine.  [cache] is a [Map]: its entries
    are kept in insertion order, and setting a key that is present
    replaces the value where it stands. *)
Record EngineState := {
  cache : list (string * Analysis);
  stats : Stats
}.

Definition initialState : EngineState :=
  {| cache := [];
     stats := {| analyses := 0; totalMarkers := 0; cacheHits := 0; cacheMisses := 0 |} |}.

(** [ToInt32]. *)
Definition toInt32 (z : Z) : Z :=
  let m := (z mod 2 ^ 32)%Z in
  if (m <? 2 ^ 31)%Z then m else (m - 2 ^ 32)%Z.

Definition digit36 (d : N) : ascii :=
  if (d <? 10)%N then ascii_of_N (48 + d) else ascii_of_N (87 + d).

Fixpoint digits36 (fuel : nat) (n : N) (acc : string) : string :=
  match fuel with
  | O => acc
  | S fuel' =>
      let acc' := String (digit36 (n mod 36)) acc in
      if (n / 36 =? 0)%N then acc' else digits36 fuel' (n / 36) acc'
  end.

(** [hash.toString(36)] for a 32-bit [hash], which has at most seven
    digits in base 36. *)
Definition toString36 (hash : Z) : string :=
  if (hash <? 0)%Z
  then String "-" (digits36 7 (Z.to_N (- hash)) EmptyString)
  else digits36 7 (Z.to_N hash) EmptyString.

Definition simpleHash (str : string) : string :=
  toString36
    (fold_left
       (fun hash c =>
          let char := Z.of_nat (nat_of_ascii c) in
          toInt32 (toInt32 (Z.shiftl hash 5) - hash + char))
       (list_ascii_of_string str) 0%Z).

(** The [options] argument of [analyze]; [cache] is the one field the
    engine reads. *)
Record AnalyzeOptions := {
  opt_cache : option bool
}.

(** [JSON.stringify(options)]. *)
Definition stringify (options : AnalyzeOptions) : string :=
  match opt_cache options with
  | None => "{}"
  | Some b =>
      ("{" ++ quoted "cache" ++ ":" ++ (if b then "true" else "false") ++ "}")%string
  end.

Definition getCacheKey (text : string) (options : AnalyzeOptions) : string :=
  (simpleHash text ++ "-" ++ simpleHash (stringify options))%string.

Definition getFromCache (st : EngineState) (key : string)
  : option Analysis * EngineState :=
  match get (cache st) key with
  | Some cached =>
      (Some cached,
       {| cache := cache st;
          stats := {| analyses := analyses (stats st);
                      totalMarkers := totalMarkers (stats st);
                      cacheHits := S (cacheHits (stats st));
                      cacheMisses := cacheMisses (stats st) |} |})
  | None =>
      (None,
       {| cache := cache st;
          stats := {| analyses := analyses (stats st);
                      totalMarkers := totalMarkers (stats st);
                      cacheHits := cacheHits (stats st);
                      cacheMisses := S (cacheMisses (stats st)) |} |})
  end.

(** [Map.prototype.delete]. *)
Fixpoint mapDelete {A} (m : list (string * A)) (key : string) : list (string * A) :=
  match m with
  | [] => []
  | (k, v) :: rest => if String.eqb k key then rest else (k, v) :: mapDelete rest key
  end.

(** [Map.prototype.set]. *)
Definition mapSet {A} (m : list (string * A)) (key : string) (v : A)
  : list (string * A) :=
  match get m key with
  | Some _ => update m key (fun _ => v)
  | None => m ++ [(key, v)]
  end.

Definition setToCache {A} (m : list (string * A)) (key : string) (analysis : A)
  : list (string * A) :=
  let limited :=
    if (100 <? length m)%nat then
      match m with
      | (firstKey, _) :: _ => mapDelete m firstKey
      | [] => m
      end
    else m in
  mapSet limited key analysis.

(** *** The pipeline *)

(** The stages of [analyze] between the cache look-up and the cache
    write. *)
Definition runPipeline (this : CognitiveEngine) (text : string)
    (key : option string) : completion Analysis :=
  let found := parseTextWithEnhancements this text in
  match aggregatePatternsWithClusters this found with
  | Throw e => Throw e
  | Return agg =>
      let driverScores := inferDriversWithConfidence this (patternScores agg) in
      let detected :=
        detectEnhancedConflicts this driverScores (patternScores agg) found in
      Return
        {| hits := found;
           analysis_patterns := patternScores agg;
           analysis_drivers := driverScores;
           conflicts := detected;
           analysis_clusters := agg_clusters agg;
           coherence := calculateEnhancedCoherence found detected (agg_clusters agg);
           metadata :=
             {| markerCount := length found;
                avgConfidence := calculateAvgConfidence (patternScores agg);
                cacheKey := key |} |}
  end.

Definition recordAnalysis (st : EngineState) (key : option string)
    (analysis : Analysis) : EngineState :=
  {| cache := match key with
              | Some k => setToCache (cache st) k analysis
              | None => cache st
              end;
     stats := {| analyses := S (analyses (stats st));
                 totalMarkers := totalMarkers (stats st) + length (hits analysis);
                 cacheHits := cacheHits (stats st);
                 cacheMisses := cacheMisses (stats st) |} |}.

(** [analyze(text, options)]: the result and the engine's state after
    the call. *)
Definition analyze (this : CognitiveEngine) (st : EngineState)
    (text : string) (options : AnalyzeOptions)
  : completion Analysis * EngineState :=
  let key :=
    match opt_cache options with
    | Some false => None
    | _ => Some (getCacheKey text options)
    end in
  let '(cached, st1) :=
    match key with
    | Some k => getFromCache st k
    | None => (None, st)
    end in
  match cached with
  | Some analysis => (Return analysis, st1)
  | None =>
      match runPipeline this text key with
      | Throw e => (Throw e, st1)
      | Return analysis => (Return analysis, recordAnalysis st1 key analysis)
      end
  end.

(** *** Statistics *)

(** [Math.round(x)]: the integer nearest to the double that [x] is,
    the larger one of two that are equally near. *)
Definition Math_round (x : Q) : Z := Qfloor (double x + (1 # 2)).

(** The object that [getStatistics] returns: the counters of
    [this.stats] spread into it, and the derived figures. *)
Record Statistics := {
  stat_counters : Stats;
  cacheSize : nat;
  lexiconSize : nat;
  patternCount : nat;
  driverCount : nat;
  averageMarkersPerAnalysis : Z;
  cacheHitRate : Q
}.

Definition getStatistics (this : CognitiveEngine) (st : EngineState) : Statistics :=
  let s := stats st in
  {| stat_counters := s;
     cacheSize := length (cache st);
     lexiconSize := length (keys (lexicon (kb this)));
     patternCount := length (keys (patterns (kb this)));
     driverCount := length (keys (drivers (kb this)));
     averageMarkersPerAnalysis :=
       if (0 <? analyses s)%nat
       then Math_round (num (totalMarkers s) / num (analyses s))
       else 0%Z;
     cacheHitRate :=
       if (0 <? cacheHits s + cacheMisses s)%nat
       then num (cacheHits s) / num (cacheHits s + cacheMisses s) * 100
       else 0 |}.

(** [resetStatistics()]: the counters start again, the cache stays. *)
Definition resetStatistics (st : EngineState) : EngineState :=
  {| cache := cache st;
     stats := {| analyses := 0; totalMarkers := 0; cacheHits := 0; cacheMisses := 0 |} |}.

(** *** Batch processing *)

(** [error.message] of a thrown error, which the model carries in the
    form [name: message]. *)
Definition errorMessage (thrown : string) : string :=
  match index 0 ": "%string thrown with
  | Some n => substring (n + 2) (String.length thrown - (n + 2)) thrown
  | None => thrown
  end.

Record BatchResult := {
  batch_index : nat;
  batch_success : bool;
  batch_data : option Analysis;
  batch_error : option string
}.

Record BatchSummary := {
  summary_total : nat;
  summary_successful : nat;
  summary_failed : nat
}.

(** The loop of [analyzeBatch] from index [i] on: every call runs in
    its own [try], so a text whose analysis throws gives a failed
    entry and the loop goes on with the next text. *)
Fixpoint batchFrom (this : CognitiveEngine) (options : AnalyzeOptions)
    (i : nat) (texts : list string) (st : EngineState)
  : list BatchResult * EngineState :=
  match texts with
  | [] => ([], st)
  | text :: rest =>
      let '(result, st1) := analyze this st text options in
      let entry :=
        match result with
        | Return analysis =>
            {| batch_index := i; batch_success := true;
               batch_data := Some analysis; batch_error := None |}
        | Throw thrown =>
            {| batch_index := i; batch_success := false;
               batch_data := None; batch_error := Some (errorMessage thrown) |}
        end in
      let '(results, st2) := batchFrom this options (S i) rest st1 in
      (entry :: results, st2)
  end.

(** [analyzeBatch(texts, options)] for options without [delayBetween]:
    the value the returned promise resolves to, without the processing
    time, and the engine's state afterwards. *)
Definition analyzeBatch (this : CognitiveEngine) (st : EngineState)
    (texts : list string) (options : AnalyzeOptions)
  : (list BatchResult * BatchSummary) * EngineState :=
  let '(results, st') := batchFrom this options 0 texts st in
  ((results,
    {| summary_total := length results;
       summary_successful := length (filter batch_success results);
       summary_failed := length (filter (fun r => negb (batch_success r)) results) |}),
   st').

(** *** Validation *)

Record Validation := {
  valid : bool;
  validation_error : option string
}.

(** [/^[\x00-\x7F]*$/.test(text)]. *)
Definition isAsciiText (text : string) : bool :=
  forallb (fun c => (nat_of_ascii c <=? 127)%nat) (list_ascii_of_string text).

(** [b === s] for a boolean [b] and a string [s]: values of different
    types are never strictly equal. *)
Definition strictEquals_boolean_string (b : bool) (s : string) : bool := false.

(** [validateText(text)]; the argument is [None] for a value that is
    not a string.  The last test reads
    [!pattern.test(text) && !Buffer.from(text, 'utf8').toString('utf8') === text],
    where [!] applies to the decoded string before [===] compares the
    result with [text]; the decoded string of a well-formed text is
    the text itself. *)
Definition validateText (text : option string) : Validation :=
  match text with
  | None =>
      {| valid := false; validation_error := Some "Text must be a non-empty string"%string |}
  | Some text =>
      if (String.length text =? 0)%nat then
        {| valid := false; validation_error := Some "Text must be a non-empty string"%string |}
      else if (Z.of_nat (String.length text) <? 10)%Z then
        {| valid := false; validation_error := Some "Text must be at least 10 characters"%string |}
      else if (10000 <? Z.of_nat (String.length text))%Z then
        {| valid := false;
           validation_error := Some "Text must not exceed 10,000 characters"%string |}
      else if negb (isAsciiText text)
              && strictEquals_boolean_string (String.length text =? 0)%nat text then
        {| valid := false;
           validation_error := Some "Text contains invalid UTF-8 characters"%string |}
      else {| valid := true; validation_error := None |}
  end.

End Engine.

(* ================================================================== *)
(** ** The engine, version 3.0 *)
(* ================================================================== *)

Module EngineV30.
Import JS Knowledge Conflicts.

(** The punctuation class of this version has no brackets other than
    the round ones. *)
Definition isPunctuationChar (c : ascii) : bool :=
  existsb (Ascii.eqb c) (list_ascii_of_string ".,!?;:'()" ++ [ascii_of_nat 34]).

Fixpoint padPunctuation (s : string) : string :=
  match s with
  | EmptyString => EmptyString
  | String c rest =>
      if isPunctuationChar c
      then String " " (String c (String " " (padPunctuation rest)))
      else String c (padPunctuation rest)
  end.

Definition tokenize (text : string) : list string :=
  Engine.splitWords [] (padPunctuation (Engine.toLowerCase text)).

Definition extractContext (kb : KnowledgeBase) (tokens : list string)
    (index : nat) : Engine.Context :=
  let start := (index - window_size kb)%nat in
  let end_ := Nat.min (length tokens) (index + window_size kb + 1) in
  {| Engine.preceding := slice tokens start index;
     Engine.following := slice tokens (index + 1) end_;
     Engine.fullWindow := slice tokens start end_;
     Engine.positionInWindow := index - start |}.

Record NegationState := {
  isNegated : bool;
  negType : Engine.NegationType;
  strength : Q;
  negator : option string;
  distance : option nat
}.

(** [arr.indexOf(w)] for a [w] that occurs in [arr]. *)
Fixpoint indexOf (arr : list string) (w : string) : nat :=
  match arr with
  | [] => 0
  | x :: rest => if String.eqb x w then 0%nat else S (indexOf rest w)
  end.

(** The first loop of [detectNegation]: the first hard negator whose
    first occurrence is at most three places before the marker. *)
Fixpoint firstHardNegation (kb : KnowledgeBase) (preceding todo : list string)
  : option NegationState :=
  match todo with
  | [] => None
  | w :: rest =>
      let dist := (length preceding - indexOf preceding w - 1)%nat in
      if includes (hard_negation kb) w && (dist <=? 3)%nat then
        Some {| isNegated := true; negType := Engine.Hard; strength := 1;
                negator := Some w; distance := Some dist |}
      else firstHardNegation kb preceding rest
  end.

Definition detectNegation (kb : KnowledgeBase) (context : Engine.Context)
  : NegationState :=
  let preceding := Engine.preceding context in
  match firstHardNegation kb preceding preceding with
  | Some found => found
  | None =>
      match find (includes (soft_negation kb)) preceding with
      | Some w =>
          {| isNegated := true; negType := Engine.Soft; strength := 0.6;
             negator := Some w; distance := None |}
      | None =>
          {| isNegated := false; negType := Engine.NegNone; strength := 0;
             negator := None; distance := None |}
      end
  end.

Record ModifierEffect := {
  multiplier : Q;
  modifiers : list Engine.Modifier
}.

(** The [forEach] of [analyzeModifiers]: [todo] is
    [context.preceding[idx ..]], so its length is the [distance]
    [context.preceding.length - idx] of its first word. *)
Fixpoint scanModifiers (kb : KnowledgeBase) (todo : list string)
    (acc : ModifierEffect) : ModifierEffect :=
  match todo with
  | [] => acc
  | w :: rest =>
      let dist := length todo in
      let distanceWeight := Qmax 0.5 (1 - num dist * 0.2) in
      let push delta type :=
        {| multiplier := multiplier acc + delta;
           modifiers := modifiers acc
                        ++ [{| Engine.mod_word := Some w; Engine.mod_type := type;
                               Engine.mod_distance := dist |}] |} in
      scanModifiers kb rest
        (if includes (amplifiers_extreme kb) w then
           push (0.4 * distanceWeight) "extreme_amplifier"%string
         else if includes (amplifiers_moderate kb) w then
           push (0.2 * distanceWeight) "moderate_amplifier"%string
         else if includes (amplifiers_emotional kb) w then
           push (0.3 * distanceWeight) "emotional_amplifier"%string
         else if includes (diminishers_uncertainty kb) w then
           push (- (0.3 * distanceWeight)) "uncertainty_diminisher"%string
         else if includes (diminishers_qualification kb) w then
           push (- (0.2 * distanceWeight)) "qualification_diminisher"%string
         else acc)
  end.

Definition analyzeModifiers (kb : KnowledgeBase) (context : Engine.Context)
  : ModifierEffect :=
  let scanned :=
    scanModifiers kb (Engine.preceding context)
                  {| multiplier := 1; modifiers := [] |} in
  {| multiplier := Qmax 0.1 (Qmin 3.0 (multiplier scanned));
     modifiers := modifiers scanned |}.

Definition calculateAdjustedWeight (baseWeight : Q)
    (negationState : NegationState) (modifierEffect : ModifierEffect)
    (semanticContext : Engine.SemanticMatch) : Q :=
  if negb (Engine.smatch semanticContext) then 0
  else
    let w0 := or_num (Engine.contextWeight semanticContext) baseWeight in
    let w1 := if isNegated negationState
              then w0 * (1 - strength negationState) else w0 in
    Qmax 0.1 (w1 * multiplier modifierEffect).

Record Hit := {
  hit_word : string;
  hit_position : nat;
  hit_category : string;
  baseWeight : Q;
  adjustedWeight : Q;
  hit_isNegated : bool;
  modifierEffect : Q;
  hit_modifiers : list Engine.Modifier
}.

Definition parseToken (this : Engine.CognitiveEngine) (tokens : list string)
    (i : nat) (token : string) : option Hit :=
  match get (lexicon (Engine.kb this)) token with
  | None => None
  | Some marker =>
      let context := extractContext (Engine.kb this) tokens i in
      let negationState := detectNegation (Engine.kb this) context in
      let modifierEffect := analyzeModifiers (Engine.kb this) context in
      let semantic := Engine.matchSemanticPattern this token context in
      let adjusted :=
        calculateAdjustedWeight (weight marker) negationState modifierEffect semantic in
      if ltb 0.3 adjusted then
        Some {| hit_word := token; hit_position := i;
                hit_category := category marker;
                baseWeight := weight marker; adjustedWeight := adjusted;
                hit_isNegated := isNegated negationState;
                modifierEffect := multiplier modifierEffect;
                hit_modifiers := modifiers modifierEffect |}
      else None
  end.

Fixpoint parseFrom (this : Engine.CognitiveEngine) (tokens : list string)
    (i : nat) (rest : list string) : list Hit :=
  match rest with
  | [] => []
  | token :: rest' =>
      match parseToken this tokens i token with
      | Some hit => hit :: parseFrom this tokens (S i) rest'
      | None => parseFrom this tokens (S i) rest'
      end
  end.

(** This version's constructor takes the knowledge base only: the
    window comes from [context_config] and the threshold is [0.3]. *)
Definition constructor (knowledgeBase : KnowledgeBase) : Engine.CognitiveEngine :=
  {| Engine.kb := knowledgeBase;
     Engine.contextWindow := window_size knowledgeBase;
     Engine.temporalSegments := 3;
     Engine.minConfidenceThreshold := 0.3;
     Engine.enableAdvancedFeatures := false |}.

Definition parseText (this : Engine.CognitiveEngine) (input : string) : list Hit :=
  let tokens := tokenize input in
  parseFrom this tokens 0 tokens.

(** [calculateVariance(values)]. *)
Definition calculateVariance (values : list Q) : Q :=
  if (length values <? 2)%nat then 0
  else
    let mean := sum values / num (length values) in
    fold_left (fun acc val => acc + (val - mean) * (val - mean)) values 0
    / num (length values).

(** [calculateCoherence(hits, conflicts)] of this version. *)
Definition calculateCoherence (hits : list Hit) (conflicts : list Conflict) : Q :=
  let baseCoherence := 0.7 in
  let contradictionPenalty := num (length conflicts) * 0.1 in
  let positionVariance :=
    calculateVariance (map (fun h => num (hit_position h)) hits) in
  let flowBonus := if ltb 100 positionVariance then 0.1 else 0 in
  Qmax 0.1 (Qmin 1 (baseCoherence - contradictionPenalty + flowBonus)).

(** [calculateDistributionScore(positions, totalLength)]. *)
Definition calculateDistributionScore (positions : list nat) (totalLength : nat) : Q :=
  if (length positions <? 2)%nat then 0.5
  else
    let gs := Engine.gaps positions in
    let avgGap := sum gs / num (length gs) in
    let idealGap := num totalLength / num (length positions) in
    let variance :=
      fold_left (fun acc gap => acc + (gap - avgGap) * (gap - avgGap)) gs 0
      / num (length gs) in
    let normalizedVariance := variance / (idealGap * idealGap) in
    Qmax 0.1 (1 - Qmin 1 normalizedVariance).

(** *** Pattern aggregation *)

Record Marker := {
  marker_word : string;
  marker_weight : Q;
  negated : bool
}.

(** A pattern score of this version, with the fields that the
    confidence and the driver inference read.  The sub-pattern and
    segment tallies, the valences and the [severity] flag are written
    beside them and read by neither. *)
Record PatternScore := {
  score : Q;
  count : nat;
  weightedScore : Q;
  positions : list nat;
  confidence : Q;
  markers : list Marker
}.

Definition emptyPatternScore : PatternScore :=
  {| score := 0; count := 0; weightedScore := 0; positions := [];
     confidence := 0; markers := [] |}.

(** The updates of [patternScores[category]] for one hit. *)
Definition foldHit (hit : Hit) (data : PatternScore) : PatternScore :=
  {| score := score data + adjustedWeight hit;
     count := count data + 1;
     weightedScore :=
       weightedScore data
       + adjustedWeight hit * (if hit_isNegated hit then 0.5 else 1);
     positions := positions data ++ [hit_position hit];
     confidence := confidence data;
     markers :=
       markers data
       ++ [{| marker_word := hit_word hit; marker_weight := adjustedWeight hit;
              negated := hit_isNegated hit |}] |}.

(** One iteration of [hits.forEach]. *)
Definition accumulateHit (patternScores : list (string * PatternScore))
    (hit : Hit) : list (string * PatternScore) :=
  let category := hit_category hit in
  let initialised :=
    match get patternScores category with
    | Some _ => patternScores
    | None => patternScores ++ [(category, emptyPatternScore)]
    end in
  update initialised category (foldHit hit).

(** One iteration of the pass over [Object.keys(patternScores)] that
    computes the confidence; [totalHits] is [hits.length]. *)
Definition scorePattern (this : Engine.CognitiveEngine) (totalHits : nat)
    (category : string) (data : PatternScore) : PatternScore :=
  let countFactor := Qmin (num (count data) / 5) 1 in
  let weightFactor := weightedScore data / (num (count data) * 5) in
  let distributionFactor := calculateDistributionScore (positions data) totalHits in
  let negationFactor :=
    1 - num (length (filter negated (markers data)))
        / num (length (markers data)) * 0.5 in
  let confidence0 :=
    countFactor * 0.3 + weightFactor * 0.3
    + distributionFactor * 0.2 + negationFactor * 0.2 in
  {| score := score data;
     count := count data;
     weightedScore := weightedScore data;
     positions := positions data;
     confidence :=
       match get (patterns (Engine.kb this)) category with
       | Some pattern => confidence0 * or_num (weight_multiplier pattern) 1
       | None => confidence0
       end;
     markers := markers data |}.

(** [aggregatePatterns(hits).patternScores]. *)
Definition aggregatePatterns (this : Engine.CognitiveEngine) (hits : list Hit)
  : list (string * PatternScore) :=
  map (fun '(category, data) =>
         (category, scorePattern this (length hits) category data))
      (fold_left accumulateHit hits []).

(** *** Driver inference *)

Record Contribution := {
  contributing_pattern : string;
  patternName : string;
  contribution_weight : Q;
  contribution : Q;
  contribution_confidence : Q;
  contribution_markers : list Marker
}.

(** A driver score.  [normalizedScore], [primary] and the driver's
    [conflicts] are set by the second pass and hold [0], [false] and
    the empty list until then. *)
Record DriverScore := {
  driver_score : Q;
  driver_weightedScore : Q;
  contributingPatterns : list Contribution;
  driver_confidence : Q;
  normalizedScore : Q;
  primary : bool;
  driver_conflicts : list string
}.

Definition emptyDriverScore : DriverScore :=
  {| driver_score := 0; driver_weightedScore := 0; contributingPatterns := [];
     driver_confidence := 0; normalizedScore := 0; primary := false;
     driver_conflicts := [] |}.

Definition contribute (category : string) (pattern : PatternDef)
    (patternData : PatternScore) (d : DriverScore) : DriverScore :=
  let driverContribution :=
    weightedScore patternData * or_num (weight_multiplier pattern) 1 in
  {| driver_score := driver_score d + score patternData;
     driver_weightedScore := driver_weightedScore d + driverContribution;
     contributingPatterns :=
       contributingPatterns d
       ++ [{| contributing_pattern := category;
              patternName := pattern_name pattern;
              contribution_weight := weightedScore patternData;
              contribution := driverContribution;
              contribution_confidence := confidence patternData;
              contribution_markers := markers patternData |}];
     driver_confidence := Qmax (driver_confidence d) (confidence patternData);
     normalizedScore := normalizedScore d;
     primary := primary d;
     driver_conflicts := driver_conflicts d |}.

(** One iteration of the first pass over [Object.keys(patternScores)]. *)
Definition inferStep (this : Engine.CognitiveEngine)
    (driverScores : list (string * DriverScore))
    (entry : string * PatternScore) : list (string * DriverScore) :=
  let '(category, patternData) := entry in
  match get (patterns (Engine.kb this)) category with
  | None => driverScores
  | Some pattern =>
      if (String.length (driver pattern) =? 0)%nat then driverScores
      else
        let initialised :=
          match get driverScores (driver pattern) with
          | Some _ => driverScores
          | None => driverScores ++ [(driver pattern, emptyDriverScore)]
          end in
        update initialised (driver pattern) (contribute category pattern patternData)
  end.

(** The second pass for one driver.  This version does not sort the
    contributing patterns: they stay in the order of the first pass. *)
Definition finishDriver (this : Engine.CognitiveEngine) (name : string)
    (data : DriverScore) : DriverScore :=
  let normalized := Qmin 10 (driver_weightedScore data / 5) in
  {| driver_score := driver_score data;
     driver_weightedScore := driver_weightedScore data;
     contributingPatterns := contributingPatterns data;
     driver_confidence := driver_confidence data;
     normalizedScore := normalized;
     primary := Qle_bool 5 normalized;
     driver_conflicts :=
       match get (drivers (Engine.kb this)) name with
       | Some driverInfo => conflicts_with driverInfo
       | None => driver_conflicts data
       end |}.

Definition inferDrivers (this : Engine.CognitiveEngine)
    (patternScores : list (string * PatternScore))
  : list (string * DriverScore) :=
  map (fun '(name, data) => (name, finishDriver this name data))
      (fold_left (inferStep this) patternScores []).

End EngineV30.

(* ================================================================== *)
(** ** The conflict module *)
(* ================================================================== *)

Module ConflictResolver.
Import JS Knowledge Conflicts.

(** What [detectNarrativeConflicts] reads of a hit.  [modifiers] is the
    version 3.0 field; a hit of version 3.2 has none. *)
Record HitView := {
  word : string;
  position : nat;
  adjustedWeight : Q;
  isNegated : bool;
  modifiers : option (list Engine.Modifier)
}.

Definition ofHit (h : Engine.Hit) : HitView :=
  {| word := Engine.hit_word h; position := Engine.hit_position h;
     adjustedWeight := Engine.adjustedWeight h;
     isNegated := Engine.hit_isNegated h; modifiers := None |}.

Definition ofHitV30 (h : EngineV30.Hit) : HitView :=
  {| word := EngineV30.hit_word h; position := EngineV30.hit_position h;
     adjustedWeight := EngineV30.adjustedWeight h;
     isNegated := EngineV30.hit_isNegated h;
     modifiers := Some (EngineV30.hit_modifiers h) |}.

(** The body of the inner loop.  The cutoff [distanceFactor > 0.3] is
    decided by the rounding of the doubles: [14 / 20] rounds below 0.7,
    so at a distance of 14 the factor is 0.30000000000000004 and
    passes.  The factor is therefore computed as the code computes
    it, with [double] after the division and after the subtraction,
    and compared with the double that the literal [0.3] denotes. *)
Definition lexicalContradiction (hit1 hit2 : HitView) : list Conflict :=
  let dist := Qabs (inject_Z (Z.of_nat (position hit2) - Z.of_nat (position hit1))) in
  let factor := Qmax 0 (double (1 - double (dist / 20))) in
  if ltb (double 0.3) factor then
    [{| conflict_type := lexical_contradiction;
        severity := (adjustedWeight hit1 + adjustedWeight hit2) * factor * 0.5;
        words := [word hit1; word hit2];
        conflict_positions := [position hit1; position hit2];
        conflict_distance := Some dist; distanceFactor := Some factor;
        conflict_drivers := None; conflict_word := None; conflict_weight := None;
        interpretation :=
          Some ("Contradictory language detected: " ++ Engine.quoted (word hit1)
                ++ " vs " ++ Engine.quoted (word hit2))%string |}]
  else [].

(** The double loop [for i ... for (j = i + 1; j < hits.length; j++)]:
    every later hit is visited. *)
Fixpoint lexicalScan (kb : KnowledgeBase) (hits : list HitView) : list Conflict :=
  match hits with
  | [] => []
  | hit1 :: later =>
      match get (lexicon kb) (word hit1) with
      | None => []
      | Some marker1 =>
          flat_map
            (fun hit2 =>
               if includes (contradicts marker1) (word hit2)
               then lexicalContradiction hit1 hit2 else [])
            later
      end ++ lexicalScan kb later
  end.

Definition selfNegation (hit : HitView) : list Conflict :=
  if isNegated hit && ltb 1.5 (adjustedWeight hit) then
    [{| conflict_type := self_negation;
        severity := adjustedWeight hit * 0.3;
        words := []; conflict_positions := [position hit];
        conflict_distance := None; distanceFactor := None;
        conflict_drivers := None;
        conflict_word := Some (word hit);
        conflict_weight := Some (adjustedWeight hit);
        interpretation :=
          Some "Strong negation of significant marker may indicate defensive response or underlying belief"%string |}]
  else [].

Definition modifierConflict (hit : HitView) : list Conflict :=
  match modifiers hit with
  | Some ms =>
      if (1 <? length ms)%nat
         && existsb (fun m => str_includes (Engine.mod_type m) "amplifier") ms
         && existsb (fun m => str_includes (Engine.mod_type m) "diminisher") ms
      then
        [{| conflict_type := modifier_conflict;
            severity := adjustedWeight hit * 0.2;
            words := []; conflict_positions := [];
            conflict_distance := None; distanceFactor := None;
            conflict_drivers := None;
            conflict_word := Some (word hit); conflict_weight := None;
            interpretation :=
              Some "Conflicting modifiers suggest uncertainty about emotional intensity"%string |}]
      else []
  | None => []
  end.

Definition detectNarrativeConflicts (kb : KnowledgeBase) (hits : list HitView)
  : list Conflict :=
  lexicalScan kb hits ++ flat_map selfNegation hits ++ flat_map modifierConflict hits.

Definition totalSeverity (conflicts : list Conflict) : Q :=
  fold_left (fun acc c => acc + or_num (Some (severity c)) 0.5) conflicts 0.

Definition calculateCoherence (narrativeConflicts driverConflicts : list Conflict) : Q :=
  let totalConflicts := (length narrativeConflicts + length driverConflicts)%nat in
  if (totalConflicts =? 0)%nat then 0.9
  else
    let total := totalSeverity narrativeConflicts + totalSeverity driverConflicts in
    Qmax 0.1 (1 - total / (num totalConflicts * 2)).


End ConflictResolver.

(* ================================================================== *)
(** ** The confidence module *)
(* ================================================================== *)

Module ConfidenceScorer.
Import JS Knowledge Conflicts.

Section Scorer.

(** [Math.exp], of the JavaScript runtime. *)
Variable Math_exp : Q -> Q.

Variable kb : KnowledgeBase.

Definition baseProbabilities_patterns : list (string * Q) :=
  [ ("absolutist"%string, 0.15); ("imperative"%string, 0.25);
    ("catastrophizing"%string, 0.10); ("self_critic"%string, 0.20);
    ("personalization"%string, 0.08); ("mind_reading"%string, 0.12);
    ("emotional_reasoning"%string, 0.18) ].

Definition baseProbabilities_drivers : list (string * Q) :=
  [ ("control"%string, 0.30); ("validation"%string, 0.35);
    ("safety"%string, 0.25); ("responsibility"%string, 0.15);
    ("autonomy"%string, 0.20) ].







Definition variance (values : list Q) : Q :=
  let avg := sum values / num (length values) in
  fold_left (fun acc v => acc + (v - avg) * (v - avg)) values 0
  / num (length values).








Definition calculateConflictClarity (conflict : Conflict) : Q :=
  match conflict_type conflict with
  | lexical_contradiction =>
      match conflict_distance conflict with
      | Some d => if ltb d 10 then 0.8 else 0.5
      | None => 0.5
      end
  | driver_conflict => 0.7
  | pattern_conflict => 0.6
  | self_negation =>
      match conflict_weight conflict with
      | Some w => if ltb 2 w then 0.8 else 0.4
      | None => 0.4
      end
  | _ => 0.5
  end.

Definition calculateConflictEvidence (conflict : Conflict) : Q :=
  let fromDrivers :=
    match conflict_drivers conflict with
    | Some ds => if (length ds =? 2)%nat then 0.4 else 0
    | None => 0
    end in
  let fromInterpretation :=
    match interpretation conflict with
    | Some text => if (20 <? String.length text)%nat then 0.3 else 0
    | None => 0
    end in
  let fromSeverity := if ltb 3 (severity conflict) then 0.3 else 0 in
  fromDrivers + fromInterpretation + fromSeverity.

Definition calculateConflictConfidence (conflict : option Conflict) : Q :=
  match conflict with
  | None => 0
  | Some c =>
      let baseProb := 0.5 in
      let severityFactor := Qmin 1 (severity c / 10) in
      let clarityFactor := calculateConflictClarity c in
      let evidenceFactor := calculateConflictEvidence c in
      let confidence :=
        baseProb * (0.3 + severityFactor * 0.7)
        * (0.4 + clarityFactor * 0.6)
        * (0.5 + evidenceFactor * 0.5) in
      Qmin 0.95 confidence
  end.

End Scorer.

(** *** Calibration and reporting *)

(** [calibrateWithEvidence(pattern, evidenceCount, totalObservations)]. *)
Definition calibrateWithEvidence (pattern : string)
    (evidenceCount totalObservations : Q) : number :=
  let prior := number_or baseProbabilities_patterns pattern 0.1 in
  let likelihood := div (Finite evidenceCount) (Finite totalObservations) in
  let posterior :=
    div (mul prior likelihood)
        (add (mul prior likelihood)
             (mul (sub (Finite 1) prior) (sub (Finite 1) likelihood))) in
  Math_max (Finite 0.05) (Math_min (Finite 0.95) posterior).

Record ConfidenceBands := {
  lower : Q;
  upper : Q;
  margin : Q
}.

(** [getConfidenceBands(confidence)]. *)
Definition getConfidenceBands (confidence : Q) : ConfidenceBands :=
  let marginOfError := (1 - confidence) * 0.5 in
  {| lower := Qmax 0 (confidence - marginOfError);
     upper := Qmin 1 (confidence + marginOfError);
     margin := marginOfError |}.

Inductive ConfidenceLevel := level_high | level_moderate | level_low | level_very_low.

(** [interpretConfidenceLevel(confidence).level]. *)
Definition interpretConfidenceLevel (confidence : Q) : ConfidenceLevel :=
  if Qle_bool 0.8 confidence then level_high
  else if Qle_bool 0.6 confidence then level_moderate
  else if Qle_bool 0.4 confidence then level_low
  else level_very_low.

Record OverallConfidence := {
  overall : Z;
  component_patterns : Z;
  component_drivers : Z;
  component_conflicts : Z;
  component_coherence : Z;
  overall_level : ConfidenceLevel
}.

(** [xs.length > 0 ? xs.reduce((a, b) => a + b) / xs.length : d]. *)
Definition averageOr (xs : list Q) (d : Q) : Q :=
  if (0 <? length xs)%nat then sum xs / num (length xs) else d.

(** [calculateOverallConfidence(analysis)] on an analysis of the
    engine.  The percentages are rounded as the code rounds them:
    [Math.round(x * 100)] is taken of the double that the product of
    the double [x] and 100 is. *)
Definition calculateOverallConfidence (analysis : Engine.Analysis) : OverallConfidence :=
  let patternConfs :=
    map (fun p => or_num (Some (Engine.confidence (snd p))) 0)
        (Engine.analysis_patterns analysis) in
  let avgPatternConf := averageOr patternConfs 0 in
  let driverConfs :=
    map (fun d => or_num (Some (Engine.driver_confidence (snd d))) 0)
        (Engine.analysis_drivers analysis) in
  let avgDriverConf := averageOr driverConfs 0 in
  let conflictConfs :=
    map (fun c => calculateConflictConfidence (Some c)) (Engine.conflicts analysis) in
  let avgConflictConf := averageOr conflictConfs 0.5 in
  let coherence := or_num (Some (Engine.coherence analysis)) 0.5 in
  let overallConf :=
    avgPatternConf * 0.4 + avgDriverConf * 0.3
    + avgConflictConf * 0.2 + coherence * 0.1 in
  {| overall := Engine.Math_round (double overallConf * 100);
     component_patterns := Engine.Math_round (double avgPatternConf * 100);
     component_drivers := Engine.Math_round (double avgDriverConf * 100);
     component_conflicts := Engine.Math_round (double avgConflictConf * 100);
     component_coherence := Engine.Math_round (double coherence * 100);
     overall_level := interpretConfidenceLevel overallConf |}.

End ConfidenceScorer.

(* ================================================================== *)
(** ** The HTTP server *)
(* ================================================================== *)

Module Server.
Import JS Knowledge Engine.

(** [const engine = new CognitiveEngine(KNOWLEDGE_BASE)]: one engine
    for all requests, so its state goes from one request to the next. *)
Definition engine : CognitiveEngine := constructor KNOWLEDGE_BASE no_options.

(** What a handler sends: [res.json(body)], with status 200, or
    [res.status(code).json({ error, message })]. *)
Inductive Response (A : Type) : Type :=
| Sent (body : A)
| Refused (status : nat) (error message : string).
Arguments Sent {A} body.
Arguments Refused {A} status error message.

(** The body of a successful [/api/analyze] response, without the
    word count and the processing time. *)
Record AnalyzeBody := {
  body_data : Analysis;
  body_markerCount : nat
}.

(** [app.post('/api/analyze', ...)].  [text] is [None] when the request
    body has no [text] or one that is not a string.  The handler calls
    [engine.analyze(text)]: the [options] of the request body are not
    passed on.  The two fields that the handler writes into the
    analysis, [metadata.processingTime] and [metadata.serverVersion],
    are among the metadata that [Analysis] leaves out. *)
Definition postAnalyze (st : EngineState) (text : option string)
  : Response AnalyzeBody * EngineState :=
  match text with
  | None =>
      (Refused 400 "Invalid input"%string
               "Text parameter is required and must be a string"%string, st)
  | Some text =>
      if (String.length text =? 0)%nat then
        (Refused 400 "Invalid input"%string
                 "Text parameter is required and must be a string"%string, st)
      else if (Z.of_nat (String.length text) <? 10)%Z then
        (Refused 400 "Text too short"%string
                 "Please provide at least 10 characters for meaningful analysis"%string, st)
      else if (10000 <? Z.of_nat (String.length text))%Z then
        (Refused 400 "Text too long"%string "Maximum text length is 10,000 characters"%string, st)
      else
        match analyze engine st text {| opt_cache := None |} with
        | (Return analysis, st') =>
            (Sent {| body_data := analysis;
                     body_markerCount := length (hits analysis) |}, st')
        | (Throw thrown, st') =>
            (Refused 500 "Analysis failed"%string (errorMessage thrown), st')
        end
  end.

Record BatchEntry := {
  entry_index : nat;
  entry_success : bool;
  entry_data : option Analysis;
  entry_error : option string
}.

Record BatchBody := {
  results : list BatchEntry;
  total : nat;
  successful : nat;
  failed : nat
}.

(** The [texts.map((text, index) => ...)] of the batch handler from
    [index] on: an empty text is not analysed and gives a successful
    entry with [data: null]. *)
Fixpoint batchEntries (index : nat) (texts : list string) (st : EngineState)
  : list BatchEntry * EngineState :=
  match texts with
  | [] => ([], st)
  | text :: rest =>
      let '(entry, st1) :=
        if (String.length text =? 0)%nat then
          ({| entry_index := index; entry_success := true;
              entry_data := None; entry_error := None |}, st)
        else
          match analyze engine st text {| opt_cache := None |} with
          | (Return analysis, st') =>
              ({| entry_index := index; entry_success := true;
                  entry_data := Some analysis; entry_error := None |}, st')
          | (Throw thrown, st') =>
              ({| entry_index := index; entry_success := false;
                  entry_data := None;
                  entry_error := Some (errorMessage thrown) |}, st')
          end in
      let '(entries, st2) := batchEntries (S index) rest st1 in
      (entry :: entries, st2)
  end.

(** [app.post('/api/analyze/batch', ...)] for a [texts] that is an
    array of strings, or is not an array ([None]). *)
Definition postAnalyzeBatch (st : EngineState) (texts : option (list string))
  : Response BatchBody * EngineState :=
  match texts with
  | None => (Refused 400 "Invalid input"%string "Texts must be a non-empty array"%string, st)
  | Some texts =>
      if (length texts =? 0)%nat then
        (Refused 400 "Invalid input"%string "Texts must be a non-empty array"%string, st)
      else if (10 <? length texts)%nat then
        (Refused 400 "Too many texts"%string "Maximum 10 texts per batch request"%string, st)
      else
        let '(entries, st') := batchEntries 0 texts st in
        (Sent {| results := entries;
                 total := length entries;
                 successful := length (filter entry_success entries);
                 failed := length (filter (fun r => negb (entry_success r)) entries) |},
         st')
  end.

End Server.

(* ================================================================== *)
(** ** Runs of the engine *)
(* ================================================================== *)

Module Runs.
Import JS Knowledge Conflicts Engine.

(** [clearCache()]. *)
Definition clearCache (st : EngineState) : EngineState :=
  {| cache := []; stats := stats st |}.

(** The states an engine goes through: it starts with an empty cache,
    and every call of [analyze] or [clearCache] takes it to the next
    state. *)
Inductive Reachable (this : CognitiveEngine) : EngineState -> Prop :=
| reach_initial : Reachable this initialState
| reach_analyze st text options :
    Reachable this st -> Reachable this (snd (analyze this st text options))
| reach_clear st :
    Reachable this st -> Reachable this (clearCache st).

(** A sequence of [analyze] calls with the same options; the state
    after the last call. *)
Definition analyzeAll (this : CognitiveEngine) (options : AnalyzeOptions)
    (texts : list string) (st : EngineState) : EngineState :=
  fold_left (fun s text => snd (analyze this s text options)) texts st.

(** The texts ["sample text 0"], ["sample text 1"], ..., up to
    [n - 1] in decimal. *)
Definition sampleTexts (n : nat) : list string :=
  map (fun k => ("sample text " ++ NilZero.string_of_uint (Nat.to_uint k))%string)
      (seq 0 n).

(** The hits of a call's result, none if the call threw. *)
Definition hitsOf (result : completion Analysis) : list Hit :=
  match result with
  | Return analysis => hits analysis
  | Throw _ => []
  end.

(** Every declared weight multiplier of the knowledge base, with its
    default, is non-negative. *)
Definition multipliersNonNegative (kb : KnowledgeBase) : Prop :=
  Forall (fun entry => 0 <= or_num (weight_multiplier (snd entry)) 1)
         (patterns kb).

(** The text of the double-negation scenario. *)
Definition scenarioText : string := "I am not never going to fail.".

(** An engine on the knowledge base with the default options, and one
    constructed with [minConfidence: 0.5]. *)
Definition sampleEngine : CognitiveEngine := constructor KNOWLEDGE_BASE no_options.

Definition strictEngine : CognitiveEngine :=
  constructor KNOWLEDGE_BASE
    {| opt_contextWindow := None; opt_temporalSegments := None;
       opt_minConfidence := Some 0.5; opt_advancedFeatures := None |}.

(** The inner loop of the negation scan over the three tiers, for the
    token at [i]. *)
Definition scanToken (this : CognitiveEngine) (tokenIndex : nat)
    (tokens : list Token) (best : NegationState) (i : nat) : NegationState :=
  fold_left (negationCandidate tokenIndex i (wordAt tokens i))
            (negationTypes this) best.

(** What the negation scan keeps true of its best match: the strength
    is never negative, a match is flagged exactly when its strength is
    positive, and no match of the scan has the type [DoubleNegative]. *)
Definition scanInvariant (best : NegationState) : Prop :=
  0 <= strength best
  /\ (isNegated best = true <-> 0 < strength best)
  /\ negType best <> DoubleNegative.

(** The hits of one category, in the order of the hit list. *)
Definition ownHits (category : string) (found : list Hit) : list Hit :=
  filter (fun hit => String.eqb (hit_category hit) category) found.

(** The first pass of the aggregation restricted to one category. *)
Definition foldCategory (own : list Hit) : PatternScore :=
  fold_left (fun data hit => foldHit hit data) own emptyPatternScore.

(** What the first pass leaves under a key: nothing if the category
    has no hit, and the fold of its hits otherwise. *)
Definition accumulatedFor (found : list Hit) (category : string)
  : option PatternScore :=
  match ownHits category found with
  | [] => None
  | own => Some (foldCategory own)
  end.

Definition markerOf (hit : Hit) : Marker :=
  {| marker_word := hit_word hit; marker_weight := adjustedWeight hit;
     negated := hit_isNegated hit; marker_position := hit_position hit |}.

(** The weight a hit adds to [weightedScore]: halved when negated. *)
Definition discountedWeight (hit : Hit) : Q :=
  adjustedWeight hit * (if hit_isNegated hit then 0.5 else 1).

(** The multiplier that scales a category's confidence:
    [pattern.weight_multiplier || 1.0] for a declared pattern, and no
    scaling for a category that the pattern table does not have. *)
Definition declaredMultiplier (this : CognitiveEngine) (category : string) : Q :=
  match get (patterns (kb this)) category with
  | Some pattern => or_num (weight_multiplier pattern) 1
  | None => 1
  end.

(** What the first pass of the driver inference keeps true of a driver
    that has received a contribution, relative to the pattern scores
    [scores] it reads: the list of contributions is not empty, every
    contribution records the confidence of a pattern score, and the
    driver's confidence is the largest of the recorded confidences. *)
Definition driverInvariant (scores : list (string * PatternScore))
    (d : DriverScore) : Prop :=
  contributingPatterns d <> []
  /\ (forall c, In c (contributingPatterns d) ->
        (exists data, In (contributing_pattern c, data) scores
                      /\ contribution_confidence c = confidence data)
        /\ contribution_confidence c <= driver_confidence d)
  /\ (exists c, In c (contributingPatterns d)
                /\ contribution_confidence c == driver_confidence d).

(** A text with one [imperative] marker and two [self_critic] markers,
    six tokens apart, and the drivers of its analysis: pattern,
    contribution and confidence of each contributing pattern, and the
    driver's confidence. *)
Definition twoPatternText : string :=
  "must x x x x x failure x x x x x failure".

Definition expectedDrivers : list (string * list (string * Q * Q) * Q) :=
  [ ("validation"%string,
     [ ("self_critic"%string, 266 # 25, 63 # 100);
       ("imperative"%string, 91 # 20, 221 # 400) ],
     63 # 100) ].

(** No string occurs twice. *)
Fixpoint distinct (xs : list string) : bool :=
  match xs with
  | [] => true
  | x :: rest => negb (includes rest x) && distinct rest
  end.

(** The knowledge base with one more marker, [sometimes], which the
    entry of [always] lists as contradicting, and a text whose eleven
    tokens are eleven hits: [always] first, [sometimes] last. *)
Definition contrastKB : KnowledgeBase :=
  {| lexicon :=
       the_lexicon
       ++ [("sometimes"%string, entry "flexibility" None 2.0 ["always"%string] 0.1)];
     patterns := the_patterns;
     drivers := the_drivers;
     amplifiers_extreme := amplifiers_extreme KNOWLEDGE_BASE;
     amplifiers_moderate := amplifiers_moderate KNOWLEDGE_BASE;
     amplifiers_emotional := amplifiers_emotional KNOWLEDGE_BASE;
     diminishers_uncertainty := diminishers_uncertainty KNOWLEDGE_BASE;
     diminishers_qualification := diminishers_qualification KNOWLEDGE_BASE;
     diminishers_minimization := diminishers_minimization KNOWLEDGE_BASE;
     hard_negation := hard_negation KNOWLEDGE_BASE;
     soft_negation := soft_negation KNOWLEDGE_BASE;
     conditional_negation := conditional_negation KNOWLEDGE_BASE;
     window_size := window_size KNOWLEDGE_BASE |}.

Definition contrastEngine : CognitiveEngine := constructor contrastKB no_options.

Definition contrastHits : list Hit :=
  parseTextWithEnhancements contrastEngine
    "always must must must must must must must must must sometimes".

(** No position occurs twice. *)
Fixpoint distinctNat (ps : list nat) : bool :=
  match ps with
  | [] => true
  | p :: rest => negb (existsb (Nat.eqb p) rest) && distinctNat rest
  end.







(** The first text of the repository's test script. *)
Definition testText : string :=
  "I always feel like I should be doing more, but nothing ever feels good enough. It's a disaster waiting to happen, and it's probably all my fault.".

(** Two texts with the same cache key: the update [hash * 31 + char]
    gives [110 * 31 + 101 = 111 * 31 + 70] for [ne] and [oF]. *)
Definition collidingText1 : string := "I am never happy today".

Definition collidingText2 : string := "I am oFver happy today".

(** The strength of a negation tier, and the words that the knowledge
    base lists in it. *)
Definition tierStrength (type : NegationType) : Q :=
  match type with
  | Hard => 1
  | Soft => 0.6
  | Conditional => 0.3
  | _ => 0
  end.

Definition tierWords (this : CognitiveEngine) (type : NegationType) : list string :=
  match type with
  | Hard => hard_negation (kb this)
  | Soft => soft_negation (kb this)
  | Conditional => conditional_negation (kb this)
  | _ => []
  end.

(** What a negation state says about the marker at [tokenIndex]: the
    negator is the word [d] tokens before the marker, [1 <= d <= 5],
    it is listed in the tier of the state's type, and the strength is
    the tier's strength decayed over the distance. *)
Definition negationRecord (this : CognitiveEngine) (tokenIndex : nat)
    (tokens : list Token) (type : NegationType) (s : NegationState) : Prop :=
  exists (w : string) (d : nat),
    negator s = Some w /\ distance s = Some d
    /\ (1 <= d <= 5)%nat /\ (d <= tokenIndex)%nat
    /\ wordAt tokens (tokenIndex - d) = Some w
    /\ includes (tierWords this type) w = true
    /\ strength s == tierStrength type * (1 - num d / 6).

(** The weights that a lexicon entry declares for its word: its own,
    and that of each of its valid contexts. *)
Definition declaredWeights (marker : LexiconEntry) : list Q :=
  weight marker
  :: map (fun c => or_num (ctx_weight (snd c)) (weight marker))
         (valid_contexts marker).

(** The state that the negation scan starts from, and what the scan
    keeps true of its best match. *)
Definition noNegation : NegationState :=
  {| isNegated := false; negType := NegNone; strength := 0;
     negator := None; distance := None |}.

Definition scanned (this : CognitiveEngine) (tokenIndex : nat)
    (tokens : list Token) (best : NegationState) : Prop :=
  best = noNegation
  \/ (isNegated best = true /\ 0 < strength best
      /\ negationRecord this tokenIndex tokens (negType best) best).

(** Two hits that are next to each other in the hit list stand at most
    five token positions apart. *)
Definition closeNeighbours (found : list Hit) : Prop :=
  exists i hi hj,
    nth_error found i = Some hi /\ nth_error found (S i) = Some hj
    /\ (hit_position hj <= hit_position hi + 5)%nat.

(** The same, as a scan from the hit [last] over the hits after it. *)
Fixpoint anyClose (last : Hit) (rest : list Hit) : bool :=
  match rest with
  | [] => false
  | hit :: rest' =>
      (Z.of_nat (hit_position hit) - Z.of_nat (hit_position last) <=? 5)%Z
      || anyClose hit rest'
  end.

(** No word that a lexicon entry lists under [contradicts] is itself a
    key of the lexicon. *)
Definition contradictionsUnlisted (kb : KnowledgeBase) : bool :=
  forallb
    (fun entry =>
       forallb (fun w => negb (includes (keys (lexicon kb)) w))
               (contradicts (snd entry)))
    (lexicon kb).

(** A text whose two markers, for [contrastKB], stand twenty-one
    tokens apart, and a conflict record of severity 0.5. *)
Definition farText : string :=
  "always x x x x x x x x x x x x x x x x x x x x sometimes".

Definition halfConflict : Conflict :=
  {| conflict_type := temporal_conflict; severity := 0.5;
     words := []; conflict_positions := [];
     conflict_distance := None; distanceFactor := None;
     conflict_drivers := None; conflict_word := None;
     conflict_weight := None; interpretation := None |}.

(** The books of a pattern score balance: the lists kept per hit have
    [count] entries, and the score is the sum over the three
    segments. *)
Definition balanced (data : PatternScore) : Prop :=
  length (positions data) = count data
  /\ length (markers data) = count data
  /\ length (valences data) = count data
  /\ score data
     == in_early (temporalDistribution data)
        + in_middle (temporalDistribution data)
        + in_late (temporalDistribution data).

(** The counts of all pattern scores together. *)
Definition totalCount (scores : list (string * PatternScore)) : nat :=
  list_sum (map (fun entry => count (snd entry)) scores).

(** What the driver inference records under the driver [name], relative
    to the pattern scores [scores] it reads: at least one contribution,
    each from a pattern score whose pattern the knowledge base assigns
    to this driver and each worth the pattern's weighted score times
    its declared multiplier, and a weighted score that is the sum of
    the contributions. *)
Definition driverBooks (this : CognitiveEngine)
    (scores : list (string * PatternScore)) (name : string) (d : DriverScore)
  : Prop :=
  contributingPatterns d <> []
  /\ (forall c, In c (contributingPatterns d) ->
        exists pattern data,
          get (patterns (kb this)) (contributing_pattern c) = Some pattern
          /\ driver pattern = name
          /\ In (contributing_pattern c, data) scores
          /\ contribution c
             = weightedScore data * or_num (weight_multiplier pattern) 1)
  /\ driver_weightedScore d == sum (map contribution (contributingPatterns d)).

(** The characters of a string, and the characters that are not white
    space. *)
Definition chars (s : string) : list ascii := list_ascii_of_string s.

Definition visible (c : ascii) : bool := negb (isWhitespace c).

(** A string in which every punctuation character stands between two
    spaces. *)
Inductive Padded : string -> Prop :=
| padded_end : Padded EmptyString
| padded_other c s :
    isPunctuationChar c = false -> Padded s -> Padded (String c s)
| padded_punctuation p s :
    isPunctuationChar p = true -> Padded s ->
    Padded (String " " (String p (String " " s))).

(** The state of the server's engine after the batch handler has gone
    through [texts]: an empty text is skipped. *)
Definition afterBatch (texts : list string) (st : EngineState) : EngineState :=
  fold_left
    (fun s text =>
       if (String.length text =? 0)%nat then s
       else snd (analyze Server.engine s text {| opt_cache := None |}))
    texts st.

(** The engine of version 3.0 on the knowledge base, and the drivers
    that it infers from a text. *)
Definition engineV30 : CognitiveEngine := EngineV30.constructor KNOWLEDGE_BASE.

Definition driversV30 (this : CognitiveEngine) (input : string)
  : list (string * EngineV30.DriverScore) :=
  EngineV30.inferDrivers this
    (EngineV30.aggregatePatterns this (EngineV30.parseText this input)).

(** The knowledge base assigns the pattern [category] to the driver
    [name]. *)
Definition drives (kb : KnowledgeBase) (name category : string) : bool :=
  match get (patterns kb) category with
  | Some pattern =>
      negb (String.length (driver pattern) =? 0)%nat
      && String.eqb (driver pattern) name
  | None => false
  end.

(** For version 3.0, what [driverInvariant] says of version 3.2. *)
Definition driverInvariantV30 (scores : list (string * EngineV30.PatternScore))
    (d : EngineV30.DriverScore) : Prop :=
  EngineV30.contributingPatterns d <> []
  /\ (forall c, In c (EngineV30.contributingPatterns d) ->
        (exists data, In (EngineV30.contributing_pattern c, data) scores
                      /\ EngineV30.contribution_confidence c
                         = EngineV30.confidence data)
        /\ EngineV30.contribution_confidence c <= EngineV30.driver_confidence d)
  /\ (exists c, In c (EngineV30.contributingPatterns d)
                /\ EngineV30.contribution_confidence c
                   == EngineV30.driver_confidence d).

(** What the first pass of version 3.0 has recorded after the pattern
    scores [done]: a driver is present exactly when a pattern of
    [done] is assigned to it, and its contributing patterns are these
    patterns in the order of [done]. *)
Definition recorded (this : CognitiveEngine)
    (scores done : list (string * EngineV30.PatternScore))
    (acc : list (string * EngineV30.DriverScore)) : Prop :=
  NoDup (keys acc)
  /\ Forall (fun e =>
               driverInvariantV30 scores (snd e)
               /\ map EngineV30.contributing_pattern
                      (EngineV30.contributingPatterns (snd e))
                  = filter (drives (kb this) (fst e)) (keys done))
            acc
  /\ (forall name, ~ In name (keys acc) ->
                   filter (drives (kb this) name) (keys done) = []).

(** The drivers that version 3.0 infers from [twoPatternText]: pattern,
    contribution and confidence of each contributing pattern, and the
    driver's confidence. *)
Definition expectedDriversV30 : list (string * list (string * Q * Q) * Q) :=
  [ ("validation"%string,
     [ ("imperative"%string, 91 # 20, 0.741);
       ("self_critic"%string, 266 # 25, 1309 # 1250) ],
     1309 # 1250) ].






(** The distance factor of the conflict module at the distance [n], as
    the code computes it. *)
Definition distanceFactorAt (n : Z) : Q :=
  Qmax 0 (double (1 - double (inject_Z n / 20))).

(** The hits of a text, for [contrastKB], whose two markers stand
    fourteen tokens apart. *)
Definition fourteenApart : list Hit :=
  parseTextWithEnhancements contrastEngine
    "always x x x x x x x x x x x x x sometimes".

(** A run of hits in the order of the text in which each hit stands at
    most five token positions after the one before it. *)
Fixpoint closeChain (run : list Hit) : Prop :=
  match run with
  | a :: ((b :: _) as rest) =>
      (hit_position a <= hit_position b <= hit_position a + 5)%nat
      /\ closeChain rest
  | _ => True
  end.

End Runs.

(* ================================================================== *)
(** ** The specification's formulas *)
(* ================================================================== *)

Module Spec.
Import JS Knowledge Conflicts.

(** The pattern confidence as section 4.6 words it:
    [0.25 countFactor + 0.25 weightFactor + 0.2 distributionFactor
     + 0.2 clusterFactor + 0.1 negationFactor], scaled by the
    category's weight multiplier. *)
Definition patternConfidence (count negatedCount clusterCount : nat)
    (weightedScore distributionFactor weightMultiplier : Q) : Q :=
  let countFactor := Qmin (num count / 5) 1 in
  let weightFactor := weightedScore / (num count * 5) in
  let clusterFactor := Qmin (num clusterCount / 3) 1 in
  let negationFactor := 1 - 0.5 * (num negatedCount / num count) in
  (0.25 * countFactor + 0.25 * weightFactor + 0.2 * distributionFactor
   + 0.2 * clusterFactor + 0.1 * negationFactor) * weightMultiplier.

(** The overall coherence as section 4.8 words it. *)
Definition coherence (conflictCount : nat) (totalConflictSeverity : Q) : Q :=
  if (conflictCount =? 0)%nat then 0.9
  else Qmax 0.1 (1 - totalConflictSeverity / (2 * num conflictCount)).

End Spec.

(* ================================================================== *)
(** ** Basic facts *)
(* ================================================================== *)

Module Facts.
Import JS Knowledge Conflicts Engine Runs.

Lemma ltb_lt (x y : Q) : ltb x y = true <-> x < y.
Proof.
  unfold ltb. rewrite negb_true_iff. split; intro H.
  - apply Qnot_le_lt. intro Hle. apply Qle_bool_iff in Hle. congruence.
  - destruct (Qle_bool y x) eqn:E; [|reflexivity].
    apply Qle_bool_iff in E. exfalso. apply (Qlt_not_le _ _ H E).
Qed.

Lemma ltb_ge (x y : Q) : ltb x y = false <-> y <= x.
Proof.
  unfold ltb. rewrite negb_false_iff. apply Qle_bool_iff.
Qed.

(** A value clamped by [Math.max(lo, Math.min(hi, x))] lies between
    the two bounds. *)
Lemma clamped (lo hi x : Q) :
  lo <= hi -> lo <= Qmax lo (Qmin hi x) /\ Qmax lo (Qmin hi x) <= hi.
Proof.
  intro Hle. split.
  - apply Q.le_max_l.
  - apply Q.max_lub; [exact Hle | apply Q.le_min_l].
Qed.

Lemma num_nonneg (n : nat) : 0 <= num n.
Proof.
  unfold num, Qle. simpl. lia.
Qed.

Lemma num_pos (n : nat) : (0 < n)%nat -> 0 < num n.
Proof.
  intro H. unfold num, Qlt. simpl. lia.
Qed.

Lemma num_le (n m : nat) : (n <= m)%nat -> num n <= num m.
Proof.
  intro H. unfold num, Qle. simpl. lia.
Qed.

(** *** Objects used as maps *)

Lemma get_In {A} (obj : list (string * A)) (key : string) (v : A) :
  get obj key = Some v -> In (key, v) obj.
Proof.
  induction obj as [|[k w] rest IH]; simpl; [discriminate|].
  destruct (String.eqb k key) eqn:E.
  - intro H. inversion H. subst. apply String.eqb_eq in E. subst. now left.
  - intro H. right. now apply IH.
Qed.

Lemma get_app_absent {A} (obj : list (string * A)) (key : string) (v : A) :
  get obj key = None -> get (obj ++ [(key, v)]) key = Some v.
Proof.
  induction obj as [|[k w] rest IH]; simpl.
  - now rewrite String.eqb_refl.
  - destruct (String.eqb k key); [discriminate | exact IH].
Qed.

Section Values.
Context {A : Type} (P : A -> Prop).

Lemma update_values (obj : list (string * A)) (key : string) (f : A -> A) :
  (forall v, get obj key = Some v -> P (f v)) ->
  Forall (fun entry => P (snd entry)) obj ->
  Forall (fun entry => P (snd entry)) (update obj key f).
Proof.
  induction obj as [|[k w] rest IH]; simpl; intros Hf Hall.
  - constructor.
  - inversion Hall as [|? ? Hw Hrest]; subst.
    destruct (String.eqb k key) eqn:E.
    + constructor; [apply Hf; reflexivity | exact Hrest].
    + constructor; [exact Hw | apply IH; assumption].
Qed.

Lemma mapDelete_values (obj : list (string * A)) (key : string) :
  Forall (fun entry => P (snd entry)) obj ->
  Forall (fun entry => P (snd entry)) (mapDelete obj key).
Proof.
  induction obj as [|[k w] rest IH]; simpl; intro Hall.
  - constructor.
  - inversion Hall; subst. destruct (String.eqb k key); [assumption|].
    constructor; [assumption | now apply IH].
Qed.

Lemma mapSet_values (obj : list (string * A)) (key : string) (v : A) :
  P v ->
  Forall (fun entry => P (snd entry)) obj ->
  Forall (fun entry => P (snd entry)) (mapSet obj key v).
Proof.
  unfold mapSet. intros Hv Hall.
  destruct (get obj key).
  - apply update_values; auto.
  - apply Forall_app. split; [assumption | repeat constructor; assumption].
Qed.

Lemma setToCache_values (obj : list (string * A)) (key : string) (v : A) :
  P v ->
  Forall (fun entry => P (snd entry)) obj ->
  Forall (fun entry => P (snd entry)) (setToCache obj key v).
Proof.
  unfold setToCache. intros Hv Hall. apply mapSet_values; [assumption|].
  destruct (100 <? length obj)%nat; [|assumption].
  destruct obj as [|[k w] rest]; [assumption|].
  now apply mapDelete_values.
Qed.

End Values.

(** *** Results of [analyze]

    A property of every analysis that the pipeline returns holds of
    every cached analysis of a reachable state, hence of every analysis
    that [analyze] returns. *)
Section PipelineInvariant.
Variable this : CognitiveEngine.
Variable P : Analysis -> Prop.
Hypothesis pipeline :
  forall text key analysis, runPipeline this text key = Return analysis -> P analysis.

Lemma getFromCache_cache (st : EngineState) (key : string) :
  cache (snd (getFromCache st key)) = cache st.
Proof.
  unfold getFromCache. now destruct (get (cache st) key).
Qed.

Lemma getFromCache_result (st : EngineState) (key : string) :
  fst (getFromCache st key) = get (cache st) key.
Proof.
  unfold getFromCache. now destruct (get (cache st) key).
Qed.

Lemma analyze_preserves (st : EngineState) (text : string) (options : AnalyzeOptions) :
  Forall (fun entry => P (snd entry)) (cache st) ->
  Forall (fun entry => P (snd entry)) (cache (snd (analyze this st text options))).
Proof.
  intro Hall. unfold analyze.
  set (key := match opt_cache options with
              | Some false => None
              | _ => Some (getCacheKey text options)
              end).
  destruct key as [k|].
  - pose proof (getFromCache_cache st k) as Hc.
    pose proof (getFromCache_result st k) as Hr.
    destruct (getFromCache st k) as [cached st1]. simpl in Hc, Hr. subst cached.
    destruct (get (cache st) k) as [a|] eqn:Hget; simpl.
    + now rewrite Hc.
    + destruct (runPipeline this text (Some k)) as [a|e] eqn:Hrun; simpl.
      * rewrite Hc. apply setToCache_values; [|assumption].
        eapply pipeline; eassumption.
      * now rewrite Hc.
  - destruct (runPipeline this text None) as [a|e]; simpl; assumption.
Qed.

Lemma reachable_cache (st : EngineState) :
  Reachable this st -> Forall (fun entry => P (snd entry)) (cache st).
Proof.
  induction 1 as [|st text options Hreach IH|st Hreach IH].
  - constructor.
  - now apply analyze_preserves.
  - constructor.
Qed.

Lemma analyze_result (st : EngineState) (text : string) (options : AnalyzeOptions)
    (analysis : Analysis) :
  Reachable this st ->
  fst (analyze this st text options) = Return analysis ->
  P analysis.
Proof.
  intros Hreach. pose proof (reachable_cache st Hreach) as Hall.
  unfold analyze.
  set (key := match opt_cache options with
              | Some false => None
              | _ => Some (getCacheKey text options)
              end).
  destruct key as [k|].
  - pose proof (getFromCache_result st k) as Hr.
    destruct (getFromCache st k) as [cached st1]. simpl in Hr. subst cached.
    destruct (get (cache st) k) as [a|] eqn:Hget; simpl.
    + intro H. inversion H. subst.
      apply get_In in Hget. rewrite Forall_forall in Hall.
      exact (Hall _ Hget).
    + destruct (runPipeline this text (Some k)) as [a|e] eqn:Hrun; simpl;
        intro H; inversion H. subst. eapply pipeline; eassumption.
  - destruct (runPipeline this text None) as [a|e] eqn:Hrun; simpl;
      intro H; inversion H. subst. eapply pipeline; eassumption.
Qed.

End PipelineInvariant.

End Facts.

(* ================================================================== *)
(** ** Modifier multiplier *)
(* ================================================================== *)

Section ModifierBounds.
Import JS Knowledge Conflicts Engine Facts.

(** Claim C9.  For every engine, token index and token sequence, so for
    every combination of preceding amplifiers and diminishers, the
    multiplier that [analyzeModifiersAdvanced] returns lies in
    [0.1, 3.0]; the same holds of [analyzeModifiers] of version 3.0. *)
Theorem modifier_multiplier_within_bounds :
  (forall (this : CognitiveEngine) (context : Context) (tokenIndex : nat)
          (tokens : list Token),
      0.1 <= multiplier (analyzeModifiersAdvanced this context tokenIndex tokens)
      /\ multiplier (analyzeModifiersAdvanced this context tokenIndex tokens) <= 3.0)
  /\
  (forall (kb : KnowledgeBase) (context : Context),
      0.1 <= EngineV30.multiplier (EngineV30.analyzeModifiers kb context)
      /\ EngineV30.multiplier (EngineV30.analyzeModifiers kb context) <= 3.0).
Proof.
  split; intros; simpl; apply clamped; unfold Qle; simpl; lia.
Qed.

(** Three extreme amplifiers in a row, at distances 3, 2 and 1, give
    [1 + 0.5 * (0.5 + 0.6 + 0.8)]. *)
Example multiplier_after_three_amplifiers :
  let this := constructor KNOWLEDGE_BASE no_options in
  let tokens := tokenize "very very very disaster" in
  multiplier (analyzeModifiersAdvanced this (extractEnhancedContext this tokens 3) 3 tokens)
  == 1.95.
Proof. vm_compute. reflexivity. Qed.

End ModifierBounds.

(* ================================================================== *)
(** ** The weight threshold of a hit *)
(* ================================================================== *)

Section HitThreshold.
Import JS Knowledge Conflicts Engine Runs Facts.

Lemma parseToken_weight (this : CognitiveEngine) (tokens : list Token)
    (i : nat) (token : Token) (hit : Hit) :
  parseToken this tokens i token = Some hit -> 0.3 < adjustedWeight hit.
Proof.
  unfold parseToken.
  destruct (isPunctuation token); [discriminate|].
  destruct (get (lexicon (kb this)) (word token)) as [marker|]; [|discriminate].
  match goal with |- context [ltb 0.3 ?w] => destruct (ltb 0.3 w) eqn:E end;
    [|discriminate].
  intro H. inversion H. simpl. now apply ltb_lt.
Qed.

Lemma parseToken_position (this : CognitiveEngine) (tokens : list Token)
    (i : nat) (token : Token) (hit : Hit) :
  parseToken this tokens i token = Some hit -> hit_position hit = i.
Proof.
  unfold parseToken.
  destruct (isPunctuation token); [discriminate|].
  destruct (get (lexicon (kb this)) (word token)) as [marker|]; [|discriminate].
  match goal with |- context [ltb 0.3 ?w] => destruct (ltb 0.3 w) end;
    [|discriminate].
  intro H. inversion H. reflexivity.
Qed.

Lemma parseFrom_weights (this : CognitiveEngine) (tokens rest : list Token) :
  forall i, Forall (fun hit => 0.3 < adjustedWeight hit) (parseFrom this tokens i rest).
Proof.
  induction rest as [|token rest IH]; intro i; simpl.
  - constructor.
  - destruct (parseToken this tokens i token) as [hit|] eqn:E.
    + constructor; [eapply parseToken_weight; eassumption | apply IH].
    + apply IH.
Qed.

Lemma parse_weights (this : CognitiveEngine) (text : string) :
  Forall (fun hit => 0.3 < adjustedWeight hit) (parseTextWithEnhancements this text).
Proof.
  apply parseFrom_weights.
Qed.

Lemma runPipeline_hits (this : CognitiveEngine) (text : string)
    (key : option string) (analysis : Analysis) :
  runPipeline this text key = Return analysis ->
  hits analysis = parseTextWithEnhancements this text.
Proof.
  unfold runPipeline.
  destruct (aggregatePatternsWithClusters this (parseTextWithEnhancements this text));
    [|discriminate].
  intro H. inversion H. reflexivity.
Qed.

(** Version 3.0 filters with the same constant. *)
Lemma parseText_weights (this : CognitiveEngine) (input : string) :
  Forall (fun hit => 0.3 < EngineV30.adjustedWeight hit) (EngineV30.parseText this input).
Proof.
  unfold EngineV30.parseText. generalize (EngineV30.tokenize input) at 2.
  intro rest. generalize 0%nat.
  induction rest as [|token rest IH]; intro i; simpl.
  - constructor.
  - destruct (EngineV30.parseToken this (EngineV30.tokenize input) i token)
      as [hit|] eqn:E; [|apply IH].
    constructor; [|apply IH].
    unfold EngineV30.parseToken in E.
    destruct (get (lexicon (kb this)) token) as [marker|]; [|discriminate].
    match type of E with context [ltb 0.3 ?w] => destruct (ltb 0.3 w) eqn:Ew end;
      [|discriminate].
    inversion E. simpl. now apply ltb_lt.
Qed.

(** Claim C1, as amended.  Every hit of an analysis that [analyze]
    returns, from a fresh pipeline run or from the cache, has an
    adjusted weight strictly above the constant [0.3], whatever
    [minConfidence] the engine was constructed with. *)
Theorem hits_exceed_fixed_threshold :
  forall (this : CognitiveEngine) (st : EngineState) (text : string)
         (options : AnalyzeOptions) (analysis : Analysis),
    Reachable this st ->
    fst (analyze this st text options) = Return analysis ->
    Forall (fun hit => 0.3 < adjustedWeight hit) (hits analysis).
Proof.
  intros this st text options analysis Hreach Hret.
  apply (analyze_result this
           (fun a => Forall (fun hit => 0.3 < adjustedWeight hit) (hits a)))
    with (st := st) (text := text) (options := options); try assumption.
  intros text' key a Hrun.
  rewrite (runPipeline_hits _ _ _ _ Hrun). apply parse_weights.
Qed.

Lemma hits_exceed_fixed_threshold_witness :
  exists analysis,
    fst (analyze strictEngine initialState scenarioText {| opt_cache := None |})
    = Return analysis
    /\ Forall (fun hit => 0.3 < adjustedWeight hit) (hits analysis).
Proof.
  eexists. split.
  - vm_compute. reflexivity.
  - apply (hits_exceed_fixed_threshold strictEngine initialState scenarioText
             {| opt_cache := None |}).
    + constructor.
    + vm_compute. reflexivity.
Defined.

(** Claim C1, counterexample.  An engine constructed with
    [minConfidence = 0.5] analyses ["I am not never going to fail."]:
    the marker [never] is negated by [not] at distance 1, its adjusted
    weight is [2.5 * (1 - 5/6) = 5/12], which passes the filter
    [> 0.3] and is below the configured threshold. *)
Lemma hit_below_configured_threshold :
  minConfidenceThreshold strictEngine == 0.5
  /\ map (fun hit => (hit_word hit, Qred (adjustedWeight hit)))
         (hitsOf (fst (analyze strictEngine initialState scenarioText
                               {| opt_cache := None |})))
     = [("never"%string, 5 # 12)]
  /\ ~ Forall (fun hit => minConfidenceThreshold strictEngine <= adjustedWeight hit)
              (hitsOf (fst (analyze strictEngine initialState scenarioText
                                    {| opt_cache := None |}))).
Proof.
  split; [reflexivity|]. split; [vm_compute; reflexivity|].
  intro H.
  assert (Hm : Forall (fun q => 0.5 <= q)
                 (map adjustedWeight
                    (hitsOf (fst (analyze strictEngine initialState scenarioText
                                          {| opt_cache := None |}))))).
  { rewrite Forall_map. revert H. apply Forall_impl. intros hit Hh.
    assert (Ht : minConfidenceThreshold strictEngine == 0.5) by reflexivity.
    now rewrite <- Ht. }
  vm_compute in Hm. inversion Hm as [|? ? Hq _]. apply Hq. reflexivity.
Qed.

End HitThreshold.

(** Linear arithmetic over [Q] after every division by a constant is
    turned into a multiplication. *)
Ltac constant_inverses :=
  unfold Qdiv in *;
  repeat match goal with
         | |- context [Qinv (Qmake ?n ?d)] =>
             let v := eval vm_compute in (Qinv (Qmake n d)) in
             change (Qinv (Qmake n d)) with v
         | H : context [Qinv (Qmake ?n ?d)] |- _ =>
             let v := eval vm_compute in (Qinv (Qmake n d)) in
             change (Qinv (Qmake n d)) with v in H
         end.

Ltac lra_div := constant_inverses; lra.

(* ================================================================== *)
(** ** The double-negative rule *)
(* ================================================================== *)

Section DoubleNegative.
Import JS Knowledge Conflicts Engine Runs Facts.

Lemma negationCandidate_invariant (this : CognitiveEngine) (tokenIndex i : nat)
    (w : option string) (best : NegationState)
    (entry : NegationType * (list string * Q)) :
  In entry (negationTypes this) ->
  scanInvariant best ->
  scanInvariant (negationCandidate tokenIndex i w best entry).
Proof.
  intros Hin (Hnn & Hflag & Hty).
  destruct entry as [type [ws typeStrength]]. unfold negationCandidate.
  destruct (includesOpt ws w); [|repeat split; tauto].
  match goal with |- context [ltb ?a ?b] => destruct (ltb a b) eqn:E end;
    [|repeat split; tauto].
  apply ltb_lt in E. unfold scanInvariant; simpl. repeat split.
  - lra.
  - intros _. lra.
  - simpl in Hin. intro Heq. subst type.
    destruct Hin as [H|[H|[H|[]]]]; inversion H.
Qed.

Lemma negationCandidate_monotone (tokenIndex i : nat) (w : option string)
    (best : NegationState) (entry : NegationType * (list string * Q)) :
  strength best <= strength (negationCandidate tokenIndex i w best entry).
Proof.
  destruct entry as [type [ws typeStrength]]. unfold negationCandidate.
  destruct (includesOpt ws w); [|lra].
  match goal with |- context [ltb ?a ?b] => destruct (ltb a b) eqn:E end; [|lra].
  apply ltb_lt in E. simpl. lra.
Qed.

Lemma scanToken_invariant (this : CognitiveEngine) (tokenIndex : nat)
    (tokens : list Token) (best : NegationState) (i : nat) :
  scanInvariant best -> scanInvariant (scanToken this tokenIndex tokens best i).
Proof.
  intro H. unfold scanToken.
  assert (Hsub : forall e, In e (negationTypes this) -> In e (negationTypes this))
    by auto.
  revert best H Hsub. generalize (negationTypes this) at 1 3.
  induction l as [|entry rest IH]; intros best H Hsub; cbn [fold_left]; [exact H|].
  apply IH.
  - apply (negationCandidate_invariant this); [apply Hsub; now left | exact H].
  - intros e He. apply Hsub. now right.
Qed.

Lemma scanToken_monotone (this : CognitiveEngine) (tokenIndex : nat)
    (tokens : list Token) (best : NegationState) (i : nat) :
  strength best <= strength (scanToken this tokenIndex tokens best i).
Proof.
  unfold scanToken. revert best.
  induction (negationTypes this) as [|entry rest IH]; intro best; cbn [fold_left];
    [lra|].
  eapply Qle_trans; [apply negationCandidate_monotone | apply IH].
Qed.

Lemma scanTokens_invariant (this : CognitiveEngine) (tokenIndex : nat)
    (tokens : list Token) (indices : list nat) :
  forall best, scanInvariant best ->
    scanInvariant (fold_left (scanToken this tokenIndex tokens) indices best).
Proof.
  induction indices as [|i rest IH]; intros best H; simpl; [exact H|].
  apply IH. now apply scanToken_invariant.
Qed.

Lemma scanTokens_monotone (this : CognitiveEngine) (tokenIndex : nat)
    (tokens : list Token) (indices : list nat) :
  forall best,
    strength best <= strength (fold_left (scanToken this tokenIndex tokens) indices best).
Proof.
  induction indices as [|i rest IH]; intro best; simpl; [lra|].
  eapply Qle_trans; [apply scanToken_monotone | apply IH].
Qed.

(** A hard negator at most five tokens back leaves a positive strength
    behind. *)
Lemma scanToken_hard (this : CognitiveEngine) (tokenIndex : nat)
    (tokens : list Token) (best : NegationState) (i : nat) :
  (tokenIndex - i <= 5)%nat ->
  includesOpt (hard_negation (kb this)) (wordAt tokens i) = true ->
  0 <= strength best ->
  0 < strength (scanToken this tokenIndex tokens best i).
Proof.
  intros Hd Hhard Hnn. unfold scanToken, negationTypes. cbn [fold_left].
  eapply Qlt_le_trans; [|apply negationCandidate_monotone].
  eapply Qlt_le_trans; [|apply negationCandidate_monotone].
  unfold negationCandidate. rewrite Hhard.
  assert (Heff : 0 < 1 * (1 - num (tokenIndex - i) / 6)).
  { assert (Hle : num (tokenIndex - i) <= num 5) by now apply num_le.
    assert (H5 : num 5 == 5) by reflexivity.
    rewrite H5 in Hle. lra_div. }
  match goal with |- context [ltb ?a ?b] => destruct (ltb a b) eqn:E end.
  - simpl. exact Heff.
  - apply ltb_ge in E. lra.
Qed.

Lemma windowBefore_In (tokenIndex n i : nat) :
  In i (windowBefore tokenIndex n) <-> (tokenIndex - n <= i < tokenIndex)%nat.
Proof.
  unfold windowBefore. rewrite in_seq. lia.
Qed.

Lemma scanNegation_unfold (this : CognitiveEngine) (tokenIndex : nat)
    (tokens : list Token) :
  scanNegation this tokenIndex tokens
  = fold_left (scanToken this tokenIndex tokens) (windowBefore tokenIndex 5)
      {| isNegated := false; negType := NegNone; strength := 0;
         negator := None; distance := None |}.
Proof. reflexivity. Qed.

Lemma initial_invariant :
  scanInvariant {| isNegated := false; negType := NegNone; strength := 0;
                   negator := None; distance := None |}.
Proof.
  unfold scanInvariant; simpl. repeat split; try lra; discriminate.
Qed.

Lemma scanNegation_invariant (this : CognitiveEngine) (tokenIndex : nat)
    (tokens : list Token) :
  scanInvariant (scanNegation this tokenIndex tokens).
Proof.
  rewrite scanNegation_unfold. apply scanTokens_invariant, initial_invariant.
Qed.

(** One hard negator or more among the three preceding tokens: the
    scan has chosen a match. *)
Lemma counted_negator_is_found (this : CognitiveEngine) (tokenIndex : nat)
    (tokens : list Token) :
  (1 <= doubleNegationCount this tokenIndex tokens)%nat ->
  isNegated (scanNegation this tokenIndex tokens) = true.
Proof.
  unfold doubleNegationCount. intro Hcount.
  destruct (filter (fun i => includesOpt (hard_negation (kb this)) (wordAt tokens i))
                   (windowBefore tokenIndex 3)) as [|i others] eqn:Ef;
    [simpl in Hcount; lia|].
  assert (Hi : In i (filter (fun i => includesOpt (hard_negation (kb this)) (wordAt tokens i))
                            (windowBefore tokenIndex 3)))
    by (rewrite Ef; now left).
  apply filter_In in Hi. destruct Hi as [Hwin Hhard].
  apply windowBefore_In in Hwin.
  assert (Hwin5 : In i (windowBefore tokenIndex 5)) by (apply windowBefore_In; lia).
  apply in_split in Hwin5. destruct Hwin5 as (before & after & Hsplit).
  pose proof (scanNegation_invariant this tokenIndex tokens) as (_ & Hflag & _).
  apply Hflag. rewrite scanNegation_unfold, Hsplit, fold_left_app. simpl.
  eapply Qlt_le_trans; [|apply scanTokens_monotone].
  apply scanToken_hard; [lia | exact Hhard |].
  apply scanTokens_invariant, initial_invariant.
Qed.

(** Claim C2, as amended.  In ["I am not never going to fail."] the
    marker [never] is token 3 and the one hard negator among the three
    tokens before it is [not]: the count is odd and [never] stays
    negated, with type [Hard], strength [5/6], negator [not] at
    distance 1.  In general the hard negators among the three preceding
    tokens are recounted: an even count of two or more cancels the
    negation ([isNegated = false], strength [0], type
    [DoubleNegative]), and an odd count leaves the chosen match as it
    is, negated and not of type [DoubleNegative]. *)
Theorem double_negative_rule :
  (let tokens := tokenize scenarioText in
   let state := detectNegationAdvanced sampleEngine
                  (extractEnhancedContext sampleEngine tokens 3) 3 tokens in
   option_map word (nth_error tokens 3) = Some "never"%string
   /\ doubleNegationCount sampleEngine 3 tokens = 1%nat
   /\ isNegated state = true /\ negType state = Hard /\ strength state == 5 # 6
   /\ negator state = Some "not"%string /\ distance state = Some 1%nat)
  /\
  (forall (this : CognitiveEngine) (context : Context) (tokenIndex : nat)
          (tokens : list Token),
      let count := doubleNegationCount this tokenIndex tokens in
      let state := detectNegationAdvanced this context tokenIndex tokens in
      ((2 <= count)%nat -> Nat.even count = true ->
       isNegated state = false /\ strength state == 0
       /\ negType state = DoubleNegative)
      /\
      (Nat.odd count = true ->
       state = scanNegation this tokenIndex tokens
       /\ isNegated state = true /\ negType state <> DoubleNegative)).
Proof.
  split.
  - vm_compute. repeat split; reflexivity.
  - intros this context tokenIndex tokens count state. split.
    + intros Hge Heven. subst state. unfold detectNegationAdvanced.
      rewrite counted_negator_is_found by (fold count; lia).
      fold count.
      assert (Hmod : (count mod 2 =? 0)%nat = true).
      { apply Nat.eqb_eq. apply Nat.even_spec in Heven.
        destruct Heven as [k Hk]. rewrite Hk.
        rewrite Nat.mul_comm. apply Nat.Div0.mod_mul. }
      assert (Hgt : (1 <? count)%nat = true) by (apply Nat.ltb_lt; lia).
      rewrite Hgt, Hmod. simpl. repeat split; reflexivity.
    + intro Hodd. subst state. unfold detectNegationAdvanced.
      assert (Hpos : (1 <= count)%nat).
      { destruct count; [discriminate Hodd | lia]. }
      pose proof (counted_negator_is_found this tokenIndex tokens Hpos) as Hneg.
      rewrite Hneg. fold count.
      assert (Hmod : (count mod 2 =? 0)%nat = false).
      { apply Nat.eqb_neq. apply Nat.odd_spec in Hodd.
        destruct Hodd as [k Hk]. rewrite Hk.
        rewrite Nat.add_comm, Nat.mul_comm, Nat.Div0.mod_add. discriminate. }
      rewrite Hmod, andb_false_r. repeat split.
      * exact Hneg.
      * apply scanNegation_invariant.
Qed.

Lemma double_negative_rule_witness :
  let tokens := tokenize "it is not never bad" in
  let state := detectNegationAdvanced sampleEngine
                 (extractEnhancedContext sampleEngine tokens 4) 4 tokens in
  doubleNegationCount sampleEngine 4 tokens = 2%nat
  /\ isNegated state = false /\ strength state == 0 /\ negType state = DoubleNegative.
Proof.
  intros tokens state. split; [vm_compute; reflexivity|].
  apply (proj1 (proj2 double_negative_rule sampleEngine
                      (extractEnhancedContext sampleEngine tokens 4) 4%nat tokens)).
  - vm_compute. lia.
  - vm_compute. reflexivity.
Defined.

(** Claim C2, counterexample.  For the scenario's input the negation
    state of [never] is not the cancelled one: the count of hard
    negators before it is 1, and it is negated with a positive
    strength. *)
Lemma never_is_not_cancelled :
  let tokens := tokenize scenarioText in
  let state := detectNegationAdvanced sampleEngine
                 (extractEnhancedContext sampleEngine tokens 3) 3 tokens in
  map word tokens = ["i"; "am"; "not"; "never"; "going"; "to"; "fail"; "."]%string
  /\ ~ (isNegated state = false /\ strength state == 0
        /\ negType state = DoubleNegative).
Proof.
  split; [vm_compute; reflexivity|].
  intros (H & _). vm_compute in H. discriminate H.
Qed.

End DoubleNegative.

(* ================================================================== *)
(** ** Facts about [sort] and sums *)
(* ================================================================== *)

Section SortFacts.
Import JS.
Context {A : Type} (leb : A -> A -> bool).

Lemma insert_In (x y : A) (sorted : list A) :
  In y (insert leb x sorted) <-> y = x \/ In y sorted.
Proof.
  induction sorted as [|z rest IH]; simpl.
  - intuition.
  - destruct (leb x z); simpl; [intuition|]. rewrite IH. intuition.
Qed.

Lemma sort_In (y : A) (xs : list A) : In y (sort leb xs) <-> In y xs.
Proof.
  induction xs as [|x rest IH]; simpl; [tauto|].
  rewrite insert_In, IH. intuition.
Qed.

Lemma sort_Forall (P : A -> Prop) (xs : list A) :
  Forall P xs <-> Forall P (sort leb xs).
Proof.
  rewrite !Forall_forall. split; intros H x Hx; apply H; now apply sort_In.
Qed.

Lemma sort_length (xs : list A) : length (sort leb xs) = length xs.
Proof.
  induction xs as [|x rest IH]; simpl; [reflexivity|].
  rewrite <- IH. generalize (sort leb rest). intro sorted.
  induction sorted as [|z more IHs]; simpl; [reflexivity|].
  destruct (leb x z); simpl; [reflexivity | now rewrite IHs].
Qed.

Hypothesis leb_total : forall a b, leb a b = true \/ leb b a = true.
Hypothesis leb_trans :
  forall a b c, leb a b = true -> leb b c = true -> leb a c = true.

Lemma insert_sorted (x : A) (sorted : list A) :
  StronglySorted (fun a b => leb a b = true) sorted ->
  StronglySorted (fun a b => leb a b = true) (insert leb x sorted).
Proof.
  induction 1 as [|z rest Hrest IH Hz]; simpl.
  - repeat constructor.
  - destruct (leb x z) eqn:E.
    + constructor; [now constructor|].
      constructor; [exact E|].
      rewrite Forall_forall in *. intros w Hw. eapply leb_trans; eauto.
    + constructor; [exact IH|].
      rewrite Forall_forall in *. intros w Hw. apply insert_In in Hw.
      destruct Hw as [->|Hw]; [|now apply Hz].
      destruct (leb_total x z) as [H|H]; [congruence | exact H].
Qed.

Lemma sort_sorted (xs : list A) :
  StronglySorted (fun a b => leb a b = true) (sort leb xs).
Proof.
  induction xs as [|x rest IH]; simpl; [constructor | now apply insert_sorted].
Qed.

End SortFacts.

Section SumFacts.
Import JS.

Lemma firstn_In {A} (n : nat) (x : A) (xs : list A) :
  In x (firstn n xs) -> In x xs.
Proof.
  revert xs. induction n as [|n IH]; intros [|y rest]; simpl; try tauto.
  intros [H|H]; [now left | right; now apply IH].
Qed.

Lemma fold_add_nonneg {A} (f : A -> Q) (xs : list A) :
  forall acc, 0 <= acc -> Forall (fun x => 0 <= f x) xs ->
    0 <= fold_left (fun a x => a + f x) xs acc.
Proof.
  induction xs as [|x rest IH]; intros acc Hacc Hall; simpl; [exact Hacc|].
  inversion Hall; subst. apply IH; [lra | assumption].
Qed.

Lemma or_num_nonneg (x d : Q) : 0 <= x -> 0 <= d -> 0 <= or_num (Some x) d.
Proof.
  intros Hx Hd. unfold or_num. now destruct (Qeq_bool x 0).
Qed.

Lemma div_nonneg (x y : Q) : 0 <= x -> 0 <= y -> 0 <= x / y.
Proof.
  intros Hx Hy. unfold Qdiv. apply Qmult_le_0_compat; [exact Hx|].
  now apply Qinv_le_0_compat.
Qed.

End SumFacts.

(* ================================================================== *)
(** ** Coherence *)
(* ================================================================== *)

Section Coherence.
Import JS Knowledge Conflicts Engine Runs Facts.





Lemma aggregate_no_clusters (this : CognitiveEngine) (found : list Hit)
    (agg : Aggregation) :
  aggregatePatternsWithClusters this found = Return agg ->
  detectPatternClusters found = [] /\ agg_clusters agg = [].
Proof.
  unfold aggregatePatternsWithClusters.
  destruct (detectPatternClusters found) eqn:E; [|discriminate].
  intro H. inversion H. simpl. split; reflexivity.
Qed.

Lemma runPipeline_coherence (this : CognitiveEngine) (text : string)
    (key : option string) (analysis : Analysis) :
  runPipeline this text key = Return analysis ->
  coherence analysis = calculateEnhancedCoherence (hits analysis) (conflicts analysis) [].
Proof.
  unfold runPipeline.
  destruct (aggregatePatternsWithClusters this (parseTextWithEnhancements this text))
    as [agg|e] eqn:E; [|discriminate].
  apply aggregate_no_clusters in E. destruct E as [_ E].
  intro H. inversion H. simpl. now rewrite E.
Qed.

(** *** Severities are never negative *)

Lemma lexicalContradiction_severity (hit otherHit : Hit) :
  0 <= adjustedWeight hit -> 0 <= adjustedWeight otherHit ->
  0 <= severity (lexicalContradiction hit otherHit).
Proof.
  intros H1 H2. unfold lexicalContradiction. cbn [severity].
  apply Qmult_le_0_compat; [|lra].
  apply Qmult_le_0_compat; [lra | apply Q.le_max_l].
Qed.

Lemma lexicalScan_severity (this : CognitiveEngine) (found : list Hit) :
  Forall (fun hit => 0 <= adjustedWeight hit) found ->
  Forall (fun c => 0 <= severity c) (lexicalScan this found).
Proof.
  induction 1 as [|hit later Hhit Hlater IH]; cbn [lexicalScan]; [constructor|].
  apply Forall_app. split; [|exact IH].
  destruct (get (lexicon (kb this)) (hit_word hit)) as [marker|]; [|constructor].
  apply Forall_flat_map. rewrite Forall_forall. intros other Hother.
  destruct (includes (contradicts marker) (hit_word other)); [|constructor].
  repeat constructor. apply lexicalContradiction_severity; [exact Hhit|].
  rewrite Forall_forall in Hlater. apply Hlater.
  eapply firstn_In. exact Hother.
Qed.

Lemma driverConflict_severity (this : CognitiveEngine)
    (pair : (string * DriverScore) * (string * DriverScore)) :
  Forall (fun c => 0 <= severity c) (driverConflict this pair).
Proof.
  destruct pair as [[d1 s1] [d2 s2]]. unfold driverConflict.
  destruct (get (drivers (kb this)) d1) as [d1Info|]; [|constructor].
  destruct (get (drivers (kb this)) d2) as [d2Info|]; [|constructor].
  destruct (includes (conflicts_with d1Info) d2); [|constructor].
  destruct (ltb 3 (normalizedScore s1)) eqn:E1; [|constructor].
  destruct (ltb 3 (normalizedScore s2)) eqn:E2; [|constructor].
  apply ltb_lt in E1. apply ltb_lt in E2.
  repeat constructor. cbn [severity]. lra_div.
Qed.

Lemma detectEnhancedConflicts_severity (this : CognitiveEngine)
    (driverScores : list (string * DriverScore))
    (scores : list (string * PatternScore)) (found : list Hit) :
  Forall (fun hit => 0 <= adjustedWeight hit) found ->
  Forall (fun c => 0 <= severity c)
         (detectEnhancedConflicts this driverScores scores found).
Proof.
  intro Hw. unfold detectEnhancedConflicts, sortBySeverity.
  apply sort_Forall. repeat (apply Forall_app; split).
  - apply Forall_flat_map. rewrite Forall_forall. intros p _.
    apply driverConflict_severity.
  - now apply lexicalScan_severity.
  - apply Forall_flat_map. revert Hw. apply Forall_impl. intros hit Hhit.
    unfold selfNegation. destruct (hit_isNegated hit && ltb 2 (adjustedWeight hit));
      repeat constructor. cbn [severity]. lra.
  - apply Forall_flat_map. revert Hw. apply Forall_impl. intros hit Hhit.
    unfold modifierConflict. destruct (hasModifierConflict hit);
      repeat constructor. cbn [severity]. lra.
Qed.



Lemma runPipeline_conflicts (this : CognitiveEngine) (text : string)
    (key : option string) (analysis : Analysis) :
  runPipeline this text key = Return analysis ->
  Forall (fun hit => 0.3 < adjustedWeight hit) (hits analysis)
  /\ Forall (fun c => 0 <= severity c) (conflicts analysis).
Proof.
  unfold runPipeline.
  destruct (aggregatePatternsWithClusters this (parseTextWithEnhancements this text))
    as [agg|e]; [|discriminate].
  intro H. inversion H. cbn [hits conflicts]. split; [apply parse_weights|].
  apply detectEnhancedConflicts_severity.
  generalize (parse_weights this text). apply Forall_impl. intros hit Hhit. lra.
Qed.




End Coherence.

(* ================================================================== *)
(** ** Pattern aggregation *)
(* ================================================================== *)

Section MapFacts.
Import JS.
Context {A : Type}.

Lemma get_update (obj : list (string * A)) (key key' : string) (f : A -> A) :
  get (update obj key f) key'
  = if String.eqb key key' then option_map f (get obj key) else get obj key'.
Proof.
  induction obj as [|[k v] rest IH]; simpl.
  - now destruct (String.eqb key key').
  - destruct (String.eqb k key) eqn:Ek; simpl.
    + apply String.eqb_eq in Ek. subst k.
      now destruct (String.eqb key key').
    + destruct (String.eqb k key') eqn:Ek'.
      * apply String.eqb_eq in Ek'. subst k.
        rewrite String.eqb_sym, Ek. reflexivity.
      * exact IH.
Qed.

Lemma get_app (obj more : list (string * A)) (key : string) :
  get (obj ++ more) key
  = match get obj key with Some v => Some v | None => get more key end.
Proof.
  induction obj as [|[k v] rest IH]; simpl; [reflexivity|].
  now destruct (String.eqb k key).
Qed.

Lemma keys_update (obj : list (string * A)) (key : string) (f : A -> A) :
  keys (update obj key f) = keys obj.
Proof.
  unfold keys. induction obj as [|[k v] rest IH]; simpl; [reflexivity|].
  destruct (String.eqb k key); simpl; [reflexivity | now rewrite IH].
Qed.

Lemma get_None_keys (obj : list (string * A)) (key : string) :
  get obj key = None -> ~ In key (keys obj).
Proof.
  unfold keys. induction obj as [|[k v] rest IH]; simpl; [tauto|].
  destruct (String.eqb k key) eqn:E; [discriminate|].
  intros H [Hk|Hin]; [|now apply IH].
  subst. rewrite String.eqb_refl in E. discriminate.
Qed.

Lemma In_get (obj : list (string * A)) (key : string) (v : A) :
  NoDup (keys obj) -> In (key, v) obj -> get obj key = Some v.
Proof.
  unfold keys. induction obj as [|[k w] rest IH]; simpl; [tauto|].
  intros Hnd [Heq|Hin].
  - inversion Heq. subst. now rewrite String.eqb_refl.
  - inversion Hnd as [|? ? Hnotin Hrest]; subst.
    destruct (String.eqb k key) eqn:E; [|now apply IH].
    apply String.eqb_eq in E. subst k. exfalso. apply Hnotin.
    change key with (fst (key, v)). now apply in_map.
Qed.

End MapFacts.

Section Aggregation.
Import JS Knowledge Conflicts Engine Runs Facts.

Lemma accumulateHit_get (scores : list (string * PatternScore)) (hit : Hit)
    (key : string) :
  get (accumulateHit scores hit) key
  = if String.eqb (hit_category hit) key
    then Some (foldHit hit (match get scores (hit_category hit) with
                            | Some data => data
                            | None => emptyPatternScore
                            end))
    else get scores key.
Proof.
  unfold accumulateHit. rewrite get_update.
  destruct (String.eqb (hit_category hit) key) eqn:E.
  - destruct (get scores (hit_category hit)) as [data|] eqn:G.
    + now rewrite G.
    + now rewrite (get_app_absent _ _ emptyPatternScore G).
  - destruct (get scores (hit_category hit)) as [data|]; [reflexivity|].
    rewrite get_app. destruct (get scores key); [reflexivity|].
    simpl. now rewrite E.
Qed.

Lemma accumulateHit_keys (scores : list (string * PatternScore)) (hit : Hit) :
  NoDup (keys scores) -> NoDup (keys (accumulateHit scores hit)).
Proof.
  intro Hnd. unfold accumulateHit. rewrite keys_update.
  destruct (get scores (hit_category hit)) eqn:G; [exact Hnd|].
  unfold keys. rewrite map_app. simpl.
  apply NoDup_app; [exact Hnd | repeat constructor; simpl; tauto |].
  intros key Hin [Heq|[]]. subst key.
  now apply (get_None_keys _ _ G).
Qed.

Lemma ownHits_app (category : string) (found more : list Hit) :
  ownHits category (found ++ more) = ownHits category found ++ ownHits category more.
Proof.
  unfold ownHits. apply filter_app.
Qed.

(** The first pass, key by key. *)
Lemma accumulated_get (rest : list Hit) :
  forall (scores : list (string * PatternScore)) (processed : list Hit),
    (forall key, get scores key = accumulatedFor processed key) ->
    forall key,
      get (fold_left accumulateHit rest scores) key
      = accumulatedFor (processed ++ rest) key.
Proof.
  induction rest as [|hit rest IH]; intros scores processed Hget key; simpl.
  - now rewrite app_nil_r.
  - replace (processed ++ hit :: rest) with ((processed ++ [hit]) ++ rest)
      by now rewrite <- app_assoc.
    apply IH. clear key. intro key. rewrite accumulateHit_get, !Hget.
    unfold accumulatedFor. rewrite ownHits_app.
    assert (Hone : ownHits key [hit]
                   = if String.eqb (hit_category hit) key then [hit] else []).
    { unfold ownHits. simpl. now destruct (String.eqb (hit_category hit) key). }
    rewrite Hone.
    destruct (String.eqb (hit_category hit) key) eqn:E.
    + apply String.eqb_eq in E. subst key.
      destruct (ownHits (hit_category hit) processed) as [|h own]; simpl.
      * reflexivity.
      * unfold foldCategory. simpl. now rewrite fold_left_app.
    + rewrite app_nil_r. reflexivity.
Qed.

Lemma accumulated_keys (rest : list Hit) :
  forall scores : list (string * PatternScore),
    NoDup (keys scores) -> NoDup (keys (fold_left accumulateHit rest scores)).
Proof.
  induction rest as [|hit rest IH]; intros scores Hnd; simpl; [exact Hnd|].
  apply IH. now apply accumulateHit_keys.
Qed.

(** Every entry that the first pass leaves is the fold of the hits of
    its category, and there is one hit of it at least. *)
Lemma accumulated_entry (found : list Hit) (category : string) (data : PatternScore) :
  In (category, data) (fold_left accumulateHit found []) ->
  ownHits category found <> [] /\ data = foldCategory (ownHits category found).
Proof.
  intro Hin.
  assert (Hget : get (fold_left accumulateHit found []) category = Some data).
  { apply In_get; [|exact Hin]. apply accumulated_keys. constructor. }
  rewrite (accumulated_get found [] []) in Hget by reflexivity.
  simpl in Hget. unfold accumulatedFor in Hget.
  destruct (ownHits category found) as [|h own]; [discriminate|].
  inversion Hget. split; [discriminate | reflexivity].
Qed.

(** The fields that the fold of a category's hits builds. *)
Lemma foldHits_fields (own : list Hit) :
  forall data,
    let folded := fold_left (fun d hit => foldHit hit d) own data in
    count folded = (count data + length own)%nat
    /\ markers folded = markers data ++ map markerOf own
    /\ positions folded = positions data ++ map hit_position own
    /\ clusters folded = clusters data
    /\ weightedScore folded
       = fold_left (fun acc hit => acc + discountedWeight hit) own (weightedScore data).
Proof.
  induction own as [|hit own IH]; intro data; simpl.
  - rewrite !app_nil_r. repeat split; lia.
  - destruct (IH (foldHit hit data)) as (Hc & Hm & Hp & Hk & Hw).
    rewrite Hc, Hm, Hp, Hk, Hw. simpl.
    rewrite <- !app_assoc. simpl. repeat split. lia.
Qed.

Lemma foldCategory_fields (own : list Hit) :
  count (foldCategory own) = length own
  /\ markers (foldCategory own) = map markerOf own
  /\ positions (foldCategory own) = map hit_position own
  /\ clusters (foldCategory own) = []
  /\ weightedScore (foldCategory own)
     = fold_left (fun acc hit => acc + discountedWeight hit) own 0.
Proof.
  exact (foldHits_fields own emptyPatternScore).
Qed.

Lemma negated_markers (own : list Hit) :
  length (filter negated (map markerOf own)) = length (filter hit_isNegated own).
Proof.
  induction own as [|hit own IH]; simpl; [reflexivity|].
  destruct (hit_isNegated hit); simpl; now rewrite IH.
Qed.

(** The second pass: the confidence of a category whose first-pass
    record is the fold of its hits. *)
Lemma scorePattern_confidence (this : CognitiveEngine) (total : nat)
    (category : string) (own : list Hit) :
  confidence (scorePattern this total category (foldCategory own))
  == Spec.patternConfidence (length own) (length (filter hit_isNegated own)) 0
       (fold_left (fun acc hit => acc + discountedWeight hit) own 0)
       (calculateEnhancedDistributionScore (map hit_position own) total)
       (declaredMultiplier this category).
Proof.
  destruct (foldCategory_fields own) as (Hc & Hm & Hp & Hk & Hw).
  unfold scorePattern, Spec.patternConfidence, declaredMultiplier.
  cbn [confidence]. unfold countFactor, weightFactor, clusterFactor, negationFactor.
  rewrite Hc, Hm, Hp, Hk, Hw, negated_markers, length_map. cbn [length].
  destruct (get (patterns (kb this)) category) as [pattern|]; ring.
Qed.

End Aggregation.

Section PatternConfidence.
Import JS Knowledge Conflicts Engine Runs Facts.

Lemma aggregate_scores (this : CognitiveEngine) (found : list Hit)
    (agg : Aggregation) :
  aggregatePatternsWithClusters this found = Return agg ->
  patternScores agg
  = map (fun '(category, data) =>
           (category, scorePattern this (length found) category data))
        (fold_left accumulateHit found []).
Proof.
  unfold aggregatePatternsWithClusters.
  destruct (detectPatternClusters found); [|discriminate].
  intro H. inversion H. reflexivity.
Qed.

Lemma aggregate_entry (this : CognitiveEngine) (found : list Hit)
    (agg : Aggregation) (category : string) (data : PatternScore) :
  aggregatePatternsWithClusters this found = Return agg ->
  In (category, data) (patternScores agg) ->
  ownHits category found <> []
  /\ data = scorePattern this (length found) category
              (foldCategory (ownHits category found)).
Proof.
  intros Hagg Hin. rewrite (aggregate_scores _ _ _ Hagg) in Hin.
  apply in_map_iff in Hin. destruct Hin as ([c d] & Heq & Hin).
  inversion Heq. subst c data.
  apply accumulated_entry in Hin. destruct Hin as [Hne ->]. now split.
Qed.

(** The fields of a pattern score that the aggregator returns. *)
Lemma aggregate_entry_fields (this : CognitiveEngine) (found : list Hit)
    (agg : Aggregation) (category : string) (data : PatternScore) :
  aggregatePatternsWithClusters this found = Return agg ->
  In (category, data) (patternScores agg) ->
  let own := ownHits category found in
  (1 <= count data)%nat
  /\ count data = length own
  /\ weightedScore data
     = fold_left (fun acc hit => acc + discountedWeight hit) own 0
  /\ confidence data
     == Spec.patternConfidence
          (count data) (length (filter hit_isNegated own))
          (length (clusters data)) (weightedScore data)
          (calculateEnhancedDistributionScore (positions data) (length found))
          (declaredMultiplier this category).
Proof.
  intros Hagg Hin own.
  destruct (aggregate_entry _ _ _ _ _ Hagg Hin) as [Hne Hdata].
  fold own in Hne, Hdata.
  destruct (foldCategory_fields own) as (Hc & Hm & Hp & Hk & Hw).
  assert (Hcount : count data = length own) by (subst data; exact Hc).
  assert (Hweight : weightedScore data
                    = fold_left (fun acc hit => acc + discountedWeight hit) own 0)
    by (subst data; exact Hw).
  assert (Hpos : positions data = map hit_position own) by (subst data; exact Hp).
  assert (Hclu : clusters data = []) by (subst data; exact Hk).
  split; [|split; [exact Hcount|split; [exact Hweight|]]].
  - rewrite Hcount. destruct own; [congruence | simpl; lia].
  - rewrite Hcount, Hweight, Hpos, Hclu. subst data.
    apply scorePattern_confidence.
Qed.

(** The formula of section 4.6.  The aggregator returns whenever no
    cluster is detected, and when it returns, every category of a hit
    has a pattern score, and the confidence of every pattern score is
    the weighted sum [0.25 countFactor + 0.25 weightFactor
    + 0.2 distributionFactor + 0.2 clusterFactor + 0.1 negationFactor]
    scaled by the category's declared weight multiplier (1 when there
    is none), where [count] is the number of the category's hits,
    [weightedScore] their negation-discounted weight and
    [negatedCount] the number of negated ones. *)
Lemma pattern_confidence_formula :
  forall (this : CognitiveEngine) (found : list Hit),
    (detectPatternClusters found = [] ->
     exists agg, aggregatePatternsWithClusters this found = Return agg)
    /\
    (forall agg : Aggregation,
       aggregatePatternsWithClusters this found = Return agg ->
       (forall hit, In hit found ->
          exists data, In (hit_category hit, data) (patternScores agg))
       /\
       (forall category data,
          In (category, data) (patternScores agg) ->
          let own := ownHits category found in
          (1 <= count data)%nat
          /\ count data = length own
          /\ weightedScore data
             = fold_left (fun acc hit => acc + discountedWeight hit) own 0
          /\ confidence data
             == Spec.patternConfidence
                  (count data) (length (filter hit_isNegated own))
                  (length (clusters data)) (weightedScore data)
                  (calculateEnhancedDistributionScore (positions data) (length found))
                  (declaredMultiplier this category))).
Proof.
  intros this found. split.
  - intro Hnone. unfold aggregatePatternsWithClusters. rewrite Hnone.
    eexists. reflexivity.
  - intros agg Hagg. split.
    + intros hit Hin.
      assert (Hown : In hit (ownHits (hit_category hit) found)).
      { unfold ownHits. apply filter_In. split; [exact Hin | apply String.eqb_refl]. }
      pose proof (accumulated_get found [] [] (fun _ => eq_refl) (hit_category hit))
        as Hget.
      simpl in Hget. unfold accumulatedFor in Hget.
      destruct (ownHits (hit_category hit) found) as [|h own] eqn:E;
        [destruct Hown|].
      apply get_In in Hget. rewrite (aggregate_scores _ _ _ Hagg).
      eexists. apply in_map_iff.
      exists (hit_category hit, foldCategory (h :: own)).
      split; [reflexivity | exact Hget].
    + intros category data Hin.
      exact (aggregate_entry_fields this found agg category data Hagg Hin).
Qed.

(** With a cluster the aggregator throws, whatever the hits are. *)
Lemma aggregate_throws_iff (this : CognitiveEngine) (found : list Hit) :
  detectPatternClusters found <> []
  <-> aggregatePatternsWithClusters this found
      = Throw "TypeError: cluster.patterns.counts.forEach is not a function".
Proof.
  unfold aggregatePatternsWithClusters.
  destruct (detectPatternClusters found); split; try congruence; discriminate.
Qed.

(** Claim C5, at the failing input.  In the first text of the test
    script the hits [always] and [should] are at positions 1 and 5, at
    most five apart, and form a cluster; [nothing] at 11 and
    [disaster] at 21 stay alone.  The pass that attaches the cluster to
    its patterns calls [forEach] on the plain object of pattern counts:
    the aggregator throws, and so does [analyze], before the
    confidence of any category is computed. *)
Theorem aggregator_throws_on_clustered_hits :
  map (fun hit => (hit_word hit, hit_position hit))
      (parseTextWithEnhancements sampleEngine testText)
  = [("always", 1); ("should", 5); ("nothing", 11); ("disaster", 21)]%string%nat
  /\ map (fun cluster => (startPosition cluster, endPosition cluster,
                          counts (cluster_patterns cluster)))
         (detectPatternClusters (parseTextWithEnhancements sampleEngine testText))
     = [(1, 5, [("absolutist", 1); ("imperative", 1)])]%string%nat
  /\ aggregatePatternsWithClusters sampleEngine
       (parseTextWithEnhancements sampleEngine testText)
     = Throw "TypeError: cluster.patterns.counts.forEach is not a function"
  /\ fst (analyze sampleEngine initialState testText {| opt_cache := None |})
     = Throw "TypeError: cluster.patterns.counts.forEach is not a function".
Proof.
  repeat split; vm_compute; reflexivity.
Qed.

(** For the marker [never] of ["I am not never going to fail."], with
    adjusted weight [5/12] and negated: [(0.25 * 0.2 + 0.25 * (5/24)/5
    + 0.2 * 0.5 + 0.2 * 0 + 0.1 * 0.5) * 1.2]. *)
Example confidence_of_a_single_negated_hit :
  match aggregatePatternsWithClusters sampleEngine
          (parseTextWithEnhancements sampleEngine scenarioText) with
  | Return agg =>
      map (fun entry => (fst entry, Qred (confidence (snd entry)))) (patternScores agg)
      = [("absolutist"%string, 101 # 400)]
  | Throw _ => False
  end.
Proof. vm_compute. reflexivity. Qed.

(** *** The sign of a confidence *)

Lemma distribution_score_nonneg (ps : list nat) (total : nat) :
  0 <= calculateEnhancedDistributionScore ps total.
Proof.
  unfold calculateEnhancedDistributionScore.
  destruct (length ps <? 2)%nat; [lra|].
  eapply Qle_trans; [|apply Q.le_max_l]. lra.
Qed.

Lemma discounted_nonneg (hit : Hit) :
  0 <= adjustedWeight hit -> 0 <= discountedWeight hit.
Proof.
  intro H. unfold discountedWeight. destruct (hit_isNegated hit);
    apply Qmult_le_0_compat; lra.
Qed.

Lemma ratio_at_most_one (n m : nat) : (n <= m)%nat -> num n / num m <= 1.
Proof.
  intro Hle. destruct m as [|m].
  - assert (n = 0%nat) by lia. subst. vm_compute. discriminate.
  - apply Qle_shift_div_r; [apply num_pos; lia|].
    rewrite Qmult_1_l. now apply num_le.
Qed.

Lemma patternConfidence_nonneg (n negatedCount clusterCount : nat)
    (weighted distribution mult : Q) :
  (negatedCount <= n)%nat ->
  0 <= weighted -> 0 <= distribution -> 0 <= mult ->
  0 <= Spec.patternConfidence n negatedCount clusterCount weighted distribution mult.
Proof.
  intros Hneg Hw Hd Hm. unfold Spec.patternConfidence.
  apply Qmult_le_0_compat; [|exact Hm].
  assert (H1 : 0 <= Qmin (num n / 5) 1).
  { apply Q.min_glb; [|lra]. pose proof (num_nonneg n). lra_div. }
  assert (H2 : 0 <= weighted / (num n * 5)).
  { apply div_nonneg; [exact Hw|]. pose proof (num_nonneg n). lra. }
  assert (H3 : 0 <= Qmin (num clusterCount / 3) 1).
  { apply Q.min_glb; [|lra]. pose proof (num_nonneg clusterCount). lra_div. }
  pose proof (ratio_at_most_one _ _ Hneg) as H4.
  lra.
Qed.

Lemma declaredMultiplier_nonneg (this : CognitiveEngine) (category : string) :
  multipliersNonNegative (kb this) -> 0 <= declaredMultiplier this category.
Proof.
  unfold multipliersNonNegative, declaredMultiplier. intro Hall.
  destruct (get (patterns (kb this)) category) as [pattern|] eqn:G; [|lra].
  apply get_In in G. rewrite Forall_forall in Hall. exact (Hall _ G).
Qed.

Lemma ownHits_weights (P : Hit -> Prop) (category : string) (found : list Hit) :
  Forall P found -> Forall P (ownHits category found).
Proof.
  rewrite !Forall_forall. intros H hit Hin. apply H.
  unfold ownHits in Hin. now apply filter_In in Hin.
Qed.

Lemma aggregate_confidence_nonneg (this : CognitiveEngine) (found : list Hit)
    (agg : Aggregation) :
  multipliersNonNegative (kb this) ->
  Forall (fun hit => 0 <= adjustedWeight hit) found ->
  aggregatePatternsWithClusters this found = Return agg ->
  Forall (fun entry => 0 <= confidence (snd entry)) (patternScores agg).
Proof.
  intros Hmult Hw Hagg. rewrite Forall_forall. intros [category data] Hin.
  destruct (aggregate_entry_fields _ _ _ category data Hagg Hin)
    as (_ & Hcount & Hweight & Hconf).
  simpl. rewrite Hconf. apply patternConfidence_nonneg.
  - rewrite Hcount. apply filter_length_le.
  - rewrite Hweight. apply fold_add_nonneg; [lra|].
    apply (ownHits_weights (fun hit => 0 <= discountedWeight hit)).
    revert Hw. apply Forall_impl. apply discounted_nonneg.
  - apply distribution_score_nonneg.
  - now apply declaredMultiplier_nonneg.
Qed.

Lemma runPipeline_aggregate (this : CognitiveEngine) (text : string)
    (key : option string) (analysis : Analysis) :
  runPipeline this text key = Return analysis ->
  Forall (fun hit => 0.3 < adjustedWeight hit) (hits analysis)
  /\ aggregatePatternsWithClusters this (hits analysis)
     = Return {| patternScores := analysis_patterns analysis;
                 agg_clusters := analysis_clusters analysis |}
  /\ analysis_drivers analysis
     = inferDriversWithConfidence this (analysis_patterns analysis).
Proof.
  unfold runPipeline.
  destruct (aggregatePatternsWithClusters this (parseTextWithEnhancements this text))
    as [agg|e] eqn:E; [|discriminate].
  intro H. inversion H. cbn [hits analysis_patterns analysis_clusters analysis_drivers].
  split; [apply parse_weights|]. split; [|reflexivity].
  rewrite E. now destruct agg.
Qed.

(** Claim C7, as amended.  In every analysis that [analyze] returns,
    on a knowledge base whose weight multipliers are not negative, the
    confidence of every pattern score is the value computed by the
    second pass from the completed fold of the category's hits, weight
    multiplier included, and it is not negative.  It is not bounded by
    1. *)
Theorem pattern_confidence_nonnegative :
  forall (this : CognitiveEngine) (st : EngineState) (text : string)
         (options : AnalyzeOptions) (analysis : Analysis),
    multipliersNonNegative (kb this) ->
    Reachable this st ->
    fst (analyze this st text options) = Return analysis ->
    forall category data,
      In (category, data) (analysis_patterns analysis) ->
      data = scorePattern this (length (hits analysis)) category
               (foldCategory (ownHits category (hits analysis)))
      /\ 0 <= confidence data.
Proof.
  intros this st text options analysis Hmult Hreach Hret category data Hin.
  assert (Hinv :
    Forall (fun hit => 0.3 < adjustedWeight hit) (hits analysis)
    /\ aggregatePatternsWithClusters this (hits analysis)
       = Return {| patternScores := analysis_patterns analysis;
                   agg_clusters := analysis_clusters analysis |}
    /\ analysis_drivers analysis
       = inferDriversWithConfidence this (analysis_patterns analysis)).
  { apply (analyze_result this
             (fun a =>
                Forall (fun hit => 0.3 < adjustedWeight hit) (hits a)
                /\ aggregatePatternsWithClusters this (hits a)
                   = Return {| patternScores := analysis_patterns a;
                               agg_clusters := analysis_clusters a |}
                /\ analysis_drivers a
                   = inferDriversWithConfidence this (analysis_patterns a)))
      with (st := st) (text := text) (options := options); try assumption.
    intros text' key a. apply runPipeline_aggregate. }
  destruct Hinv as (Hw & Hagg & _). split.
  - apply (aggregate_entry _ _ _ _ _ Hagg Hin).
  - assert (Hnn : Forall (fun hit => 0 <= adjustedWeight hit) (hits analysis)).
    { revert Hw. apply Forall_impl. intros hit Hhit. lra. }
    pose proof (aggregate_confidence_nonneg _ _ _ Hmult Hnn Hagg) as Hall.
    rewrite Forall_forall in Hall. exact (Hall _ Hin).
Qed.

Lemma knowledge_base_multipliers : multipliersNonNegative KNOWLEDGE_BASE.
Proof.
  unfold multipliersNonNegative. simpl.
  repeat (constructor; [vm_compute; discriminate|]). constructor.
Qed.

Lemma pattern_confidence_nonnegative_witness :
  exists analysis,
    fst (analyze sampleEngine initialState scenarioText
                 {| opt_cache := None |})
    = Return analysis
    /\ forall category data,
         In (category, data) (analysis_patterns analysis) -> 0 <= confidence data.
Proof.
  eexists. split; [vm_compute; reflexivity|].
  match goal with
  | |- forall category data, In _ (analysis_patterns ?a) -> _ =>
      assert (Hret : fst (analyze sampleEngine initialState
                            scenarioText {| opt_cache := None |})
                     = Return a)
        by (vm_compute; reflexivity)
  end.
  intros category data Hin.
  apply (pattern_confidence_nonnegative sampleEngine _ _ _ _
           knowledge_base_multipliers (reach_initial _) Hret category data Hin).
Defined.

(** Claim C7, counterexample.  Three hits of [disaster], each after
    three extreme amplifiers, at positions 3, 10 and 19: no two are
    within five positions, so there is no cluster; each has weight
    [4 * 1.95 = 7.8]; the gaps 7 and 9 have variance 1, above half the
    ideal gap; the confidence is
    [(0.25 * 0.6 + 0.25 * 1.56 + 0.2 * 0.7 + 0.2 * 0 + 0.1 * 1) * 1.5
     = 1.17]. *)
Lemma pattern_confidence_above_one :
  exists analysis data,
    fst (analyze sampleEngine initialState
           "very very very disaster a b c very very very disaster a b c d e very very very disaster"
           {| opt_cache := None |})
    = Return analysis
    /\ map hit_position (hits analysis) = [3; 10; 19]%nat
    /\ In ("catastrophizing"%string, data) (analysis_patterns analysis)
    /\ confidence data == 1.17
    /\ ~ (0 <= confidence data /\ confidence data <= 1).
Proof.
  eexists. eexists. split; [vm_compute; reflexivity|].
  split; [reflexivity|]. split; [left; reflexivity|].
  split; [vm_compute; reflexivity|].
  intros [_ H]. vm_compute in H. apply H. reflexivity.
Qed.

End PatternConfidence.

(* ================================================================== *)
(** ** Driver inference *)
(* ================================================================== *)

Section Drivers.
Import JS Knowledge Conflicts Engine Runs Facts.

Lemma update_app_absent {A} (obj : list (string * A)) (key : string) (v : A)
    (f : A -> A) :
  get obj key = None ->
  update (obj ++ [(key, v)]) key f = obj ++ [(key, f v)].
Proof.
  induction obj as [|[k w] rest IH]; simpl.
  - now rewrite String.eqb_refl.
  - destruct (String.eqb k key); [discriminate|].
    intro H. now rewrite IH.
Qed.

Lemma contribute_first (scores : list (string * PatternScore))
    (category : string) (pattern : PatternDef) (data : PatternScore) :
  In (category, data) scores -> 0 <= confidence data ->
  driverInvariant scores (contribute category pattern data emptyDriverScore).
Proof.
  intros Hin Hnn. unfold driverInvariant, contribute. cbn.
  split; [discriminate|]. split.
  - intros c [<-|[]]. cbn. split; [now exists data | apply Q.le_max_r].
  - eexists. split; [now left|]. cbn. symmetry. now apply Q.max_r.
Qed.

Lemma contribute_next (scores : list (string * PatternScore))
    (category : string) (pattern : PatternDef) (data : PatternScore)
    (d : DriverScore) :
  In (category, data) scores ->
  driverInvariant scores d ->
  driverInvariant scores (contribute category pattern data d).
Proof.
  intros Hin (Hne & Hall & c0 & Hc0 & Hmax). unfold driverInvariant, contribute. cbn.
  split; [now destruct (contributingPatterns d)|]. split.
  - intros c Hc. apply in_app_or in Hc. destruct Hc as [Hc|[<-|[]]].
    + destruct (Hall c Hc) as [Hsrc Hle]. split; [exact Hsrc|].
      eapply Qle_trans; [exact Hle | apply Q.le_max_l].
    + cbn. split; [now exists data | apply Q.le_max_r].
  - destruct (Qlt_le_dec (confidence data) (driver_confidence d)) as [Hlt|Hle].
    + exists c0. split; [apply in_or_app; now left|].
      rewrite Hmax. symmetry. apply Q.max_l. lra.
    + eexists. split; [apply in_or_app; right; now left|].
      cbn. symmetry. now apply Q.max_r.
Qed.

Lemma inferStep_invariant (this : CognitiveEngine)
    (scores : list (string * PatternScore))
    (driverScores : list (string * DriverScore)) (entry : string * PatternScore) :
  In entry scores -> 0 <= confidence (snd entry) ->
  Forall (fun e => driverInvariant scores (snd e)) driverScores ->
  Forall (fun e => driverInvariant scores (snd e)) (inferStep this driverScores entry).
Proof.
  destruct entry as [category data]. intros Hin Hnn Hall. unfold inferStep.
  destruct (get (patterns (kb this)) category) as [pattern|]; [|exact Hall].
  destruct (String.length (driver pattern) =? 0)%nat; [exact Hall|].
  destruct (get driverScores (driver pattern)) as [d|] eqn:G.
  - apply update_values; [|exact Hall].
    intros v Hv. apply contribute_next; [exact Hin|].
    apply get_In in Hv. rewrite Forall_forall in Hall. exact (Hall _ Hv).
  - rewrite (update_app_absent _ _ _ _ G). apply Forall_app. split; [exact Hall|].
    constructor; [|constructor]. cbn [snd]. now apply contribute_first.
Qed.

Lemma inferSteps_invariant (this : CognitiveEngine)
    (scores : list (string * PatternScore)) (rest : list (string * PatternScore)) :
  forall driverScores,
    (forall entry, In entry rest -> In entry scores /\ 0 <= confidence (snd entry)) ->
    Forall (fun e => driverInvariant scores (snd e)) driverScores ->
    Forall (fun e => driverInvariant scores (snd e))
           (fold_left (inferStep this) rest driverScores).
Proof.
  induction rest as [|entry rest IH]; intros driverScores Hrest Hall; simpl;
    [exact Hall|].
  apply IH.
  - intros e He. apply Hrest. now right.
  - destruct (Hrest entry (or_introl eq_refl)). now apply inferStep_invariant.
Qed.

Lemma by_contribution_total (a b : Contribution) :
  Qle_bool (contribution b) (contribution a) = true
  \/ Qle_bool (contribution a) (contribution b) = true.
Proof.
  rewrite !Qle_bool_iff.
  destruct (Qlt_le_dec (contribution a) (contribution b)); [right | left]; lra.
Qed.

Lemma by_contribution_trans (a b c : Contribution) :
  Qle_bool (contribution b) (contribution a) = true ->
  Qle_bool (contribution c) (contribution b) = true ->
  Qle_bool (contribution c) (contribution a) = true.
Proof.
  rewrite !Qle_bool_iff. intros. lra.
Qed.

Lemma contributions_sorted (cs : list Contribution) :
  StronglySorted (fun a b => contribution b <= contribution a)
    (sort (fun a b => Qle_bool (contribution b) (contribution a)) cs).
Proof.
  pose proof (sort_sorted (fun a b => Qle_bool (contribution b) (contribution a))
                by_contribution_total by_contribution_trans cs) as H.
  induction H as [|a rest Hrest IH Ha]; constructor; [exact IH|].
  revert Ha. apply Forall_impl. intros b Hb. now apply Qle_bool_iff.
Qed.

(** The drivers that [inferDriversWithConfidence] returns, for pattern
    scores without a negative confidence. *)
Lemma inferDrivers_maximum (this : CognitiveEngine)
    (scores : list (string * PatternScore)) (name : string) (d : DriverScore) :
  Forall (fun entry => 0 <= confidence (snd entry)) scores ->
  In (name, d) (inferDriversWithConfidence this scores) ->
  driverInvariant scores d
  /\ StronglySorted (fun a b => contribution b <= contribution a)
                    (contributingPatterns d).
Proof.
  intros Hnn Hin. unfold inferDriversWithConfidence in Hin.
  apply in_map_iff in Hin. destruct Hin as ([n d0] & Heq & Hin).
  inversion Heq. subst n d. clear Heq.
  assert (Hinv : driverInvariant scores d0).
  { assert (Hall : Forall (fun e => driverInvariant scores (snd e))
                          (fold_left (inferStep this) scores [])).
    { apply inferSteps_invariant; [|constructor].
      intros entry He. split; [exact He|].
      rewrite Forall_forall in Hnn. now apply Hnn. }
    rewrite Forall_forall in Hall. exact (Hall _ Hin). }
  destruct Hinv as (Hne & Hall & c0 & Hc0 & Hmax).
  split; [|apply contributions_sorted].
  unfold driverInvariant, finishDriver. cbn. split; [|split].
  - intro Hnil. apply Hne. apply length_zero_iff_nil.
    rewrite <- (sort_length (fun a b => Qle_bool (contribution b) (contribution a))).
    now rewrite Hnil.
  - intros c Hc. apply sort_In in Hc. now apply Hall.
  - exists c0. split; [now apply sort_In | exact Hmax].
Qed.

(** In every analysis that [analyze] returns, on a knowledge
    base whose weight multipliers are not negative, every driver has a
    contributing pattern; each contribution records the confidence of
    one of the analysis' pattern scores; the driver's confidence is
    the maximum of these confidences, being an upper bound of all and
    equal to one of them; and the contributions are sorted by
    contribution, largest first. *)
Lemma analysis_driver_confidence :
  forall (this : CognitiveEngine) (st : EngineState) (text : string)
         (options : AnalyzeOptions) (analysis : Analysis),
    multipliersNonNegative (kb this) ->
    Reachable this st ->
    fst (analyze this st text options) = Return analysis ->
    forall name d,
      In (name, d) (analysis_drivers analysis) ->
      contributingPatterns d <> []
      /\ (forall c, In c (contributingPatterns d) ->
            (exists data, In (contributing_pattern c, data) (analysis_patterns analysis)
                          /\ contribution_confidence c = confidence data)
            /\ contribution_confidence c <= driver_confidence d)
      /\ (exists c, In c (contributingPatterns d)
                    /\ contribution_confidence c == driver_confidence d)
      /\ StronglySorted (fun a b => contribution b <= contribution a)
                        (contributingPatterns d).
Proof.
  intros this st text options analysis Hmult Hreach Hret name d Hin.
  assert (Hinv :
    Forall (fun hit => 0.3 < adjustedWeight hit) (hits analysis)
    /\ aggregatePatternsWithClusters this (hits analysis)
       = Return {| patternScores := analysis_patterns analysis;
                   agg_clusters := analysis_clusters analysis |}
    /\ analysis_drivers analysis
       = inferDriversWithConfidence this (analysis_patterns analysis)).
  { apply (analyze_result this
             (fun a =>
                Forall (fun hit => 0.3 < adjustedWeight hit) (hits a)
                /\ aggregatePatternsWithClusters this (hits a)
                   = Return {| patternScores := analysis_patterns a;
                               agg_clusters := analysis_clusters a |}
                /\ analysis_drivers a
                   = inferDriversWithConfidence this (analysis_patterns a)))
      with (st := st) (text := text) (options := options); try assumption.
    intros text' key a. apply runPipeline_aggregate. }
  destruct Hinv as (Hw & Hagg & Hdrv). rewrite Hdrv in Hin.
  assert (Hnn : Forall (fun entry => 0 <= confidence (snd entry))
                       (analysis_patterns analysis)).
  { apply (aggregate_confidence_nonneg this (hits analysis)
             {| patternScores := analysis_patterns analysis;
                agg_clusters := analysis_clusters analysis |}); try assumption.
    revert Hw. apply Forall_impl. intros hit Hhit. lra. }
  destruct (inferDrivers_maximum this _ name d Hnn Hin)
    as ((Hne & Hall & Hmax) & Hsorted).
  split; [exact Hne|]. split; [exact Hall|]. split; [exact Hmax | exact Hsorted].
Qed.

End Drivers.

(* ================================================================== *)
(** ** The result cache *)
(* ================================================================== *)

Section Cache.
Import JS Knowledge Conflicts Engine Runs Facts.

Lemma mapSet_length {A} (m : list (string * A)) (key : string) (v : A) :
  (length (mapSet m key v) <= S (length m))%nat.
Proof.
  unfold mapSet. destruct (get m key).
  - assert (H : length (update m key (fun _ => v)) = length m).
    { induction m as [|[k w] rest IH]; simpl; [reflexivity|].
      destruct (String.eqb k key); simpl; [reflexivity | now rewrite IH]. }
    lia.
  - rewrite length_app. simpl. lia.
Qed.

(** [setToCache] evicts when the size is above 100 before the
    insertion, so the size after it can be 101 and no more. *)
Lemma setToCache_length {A} (m : list (string * A)) (key : string) (v : A) :
  (length m <= 101)%nat -> (length (setToCache m key v) <= 101)%nat.
Proof.
  intro Hle. unfold setToCache.
  destruct (100 <? length m)%nat eqn:E.
  - destruct m as [|[k w] rest]; [simpl in E; discriminate|].
    simpl. rewrite String.eqb_refl.
    pose proof (mapSet_length rest key v). simpl in Hle. lia.
  - apply Nat.ltb_ge in E. pose proof (mapSet_length m key v). lia.
Qed.

(** The entry that goes is the oldest one: on a cache above the limit,
    a key that is not among the remaining ones goes to the end and the
    first entry is dropped. *)
Lemma setToCache_evicts_oldest {A} (oldest : string * A) (m : list (string * A))
    (key : string) (v : A) :
  (100 <= length m)%nat ->
  get m key = None ->
  setToCache (oldest :: m) key v = m ++ [(key, v)].
Proof.
  intros Hlen Hget. unfold setToCache. destruct oldest as [k w].
  assert (E : (100 <? length ((k, w) :: m))%nat = true)
    by (apply Nat.ltb_lt; simpl; lia).
  rewrite E. simpl. rewrite String.eqb_refl. unfold mapSet. now rewrite Hget.
Qed.

Lemma analyze_cache_length (this : CognitiveEngine) (st : EngineState)
    (text : string) (options : AnalyzeOptions) :
  (length (cache st) <= 101)%nat ->
  (length (cache (snd (analyze this st text options))) <= 101)%nat.
Proof.
  intro Hle. unfold analyze.
  set (key := match opt_cache options with
              | Some false => None
              | _ => Some (getCacheKey text options)
              end).
  destruct key as [k|].
  - pose proof (getFromCache_cache st k) as Hc.
    destruct (getFromCache st k) as [[cached|] st1]; simpl in Hc |- *.
    + now rewrite Hc.
    + destruct (runPipeline this text (Some k)); simpl; rewrite Hc;
        [now apply setToCache_length | exact Hle].
  - now destruct (runPipeline this text None).
Qed.

(** The bound that the engine keeps is 101 entries. *)
Lemma cache_size_at_most_101 (this : CognitiveEngine) (st : EngineState) :
  Reachable this st -> (length (cache st) <= 101)%nat.
Proof.
  induction 1; simpl; [lia | now apply analyze_cache_length | lia].
Qed.

Lemma distinct_NoDup (xs : list string) : distinct xs = true -> NoDup xs.
Proof.
  induction xs as [|x rest IH]; simpl; [constructor|].
  rewrite andb_true_iff, negb_true_iff. intros [Hx Hrest].
  constructor; [|now apply IH].
  intro Hin. unfold includes in Hx.
  assert (Hex : existsb (String.eqb x) rest = true).
  { apply existsb_exists. exists x. split; [exact Hin | apply String.eqb_refl]. }
  congruence.
Qed.

(** Claim C8, at the failing input.  After [analyze] has been called
    on the 101 texts ["sample text 0"], ..., ["sample text 100"],
    whose cache keys differ, with caching enabled, the cache holds 101
    entries: the 102nd call is the first that evicts, and it leaves
    101 entries, the key of ["sample text 0"] being the one that
    went. *)
Theorem cache_holds_101_entries :
  length (cache (analyzeAll sampleEngine {| opt_cache := None |}
                   (sampleTexts 101) initialState)) = 101%nat
  /\ NoDup (map (fun text => getCacheKey text {| opt_cache := None |}) (sampleTexts 102))
  /\ map fst (cache (analyzeAll sampleEngine {| opt_cache := None |}
                       (sampleTexts 102) initialState))
     = map (fun text => getCacheKey text {| opt_cache := None |}) (tl (sampleTexts 102)).
Proof.
  split; [vm_compute; reflexivity|]. split; [|vm_compute; reflexivity].
  apply distinct_NoDup. vm_compute. reflexivity.
Qed.

End Cache.

(* ================================================================== *)
(** ** The window of the lexical-contradiction scan *)
(* ================================================================== *)

Section LexicalWindow.
Import JS Knowledge Conflicts Engine Runs Facts.

Lemma firstn_nth_error {A} (n : nat) (x : A) (xs : list A) :
  In x (firstn n xs) <-> exists k, (k < n)%nat /\ nth_error xs k = Some x.
Proof.
  revert xs. induction n as [|n IH]; intros [|y rest]; simpl.
  - split; [tauto | intros (k & Hk & _); lia].
  - split; [tauto | intros (k & Hk & _); lia].
  - split; [tauto | intros (k & _ & H); destruct k; discriminate].
  - rewrite IH. split.
    + intros [->|(k & Hk & Hnth)].
      * exists 0%nat. split; [lia | reflexivity].
      * exists (S k). split; [lia | exact Hnth].
    + intros ([|k] & Hk & Hnth).
      * left. now inversion Hnth.
      * right. exists k. split; [lia | exact Hnth].
Qed.

(** Every conflict of the scan pairs a hit with one of the nine hits
    that follow it in the list. *)
Lemma lexicalScan_sound (this : CognitiveEngine) (found : list Hit) (c : Conflict) :
  In c (lexicalScan this found) ->
  exists i j hi hj,
    nth_error found i = Some hi /\ nth_error found j = Some hj
    /\ (i < j <= i + 9)%nat /\ c = lexicalContradiction hi hj.
Proof.
  induction found as [|hit later IH]; cbn [lexicalScan]; [intros []|].
  intro Hin. apply in_app_or in Hin. destruct Hin as [Hin|Hin].
  - destruct (get (lexicon (kb this)) (hit_word hit)) as [marker|]; [|destruct Hin].
    apply in_flat_map in Hin. destruct Hin as (other & Hother & Hc).
    destruct (includes (contradicts marker) (hit_word other)); [|destruct Hc].
    destruct Hc as [<-|[]].
    apply firstn_nth_error in Hother. destruct Hother as (k & Hk & Hnth).
    exists 0%nat, (S k), hit, other. repeat split; try assumption; lia.
  - destruct (IH Hin) as (i & j & hi & hj & Hi & Hj & Hij & Hc).
    exists (S i), (S j), hi, hj. repeat split; try assumption; lia.
Qed.

(** And every such pair whose first word lists the second as
    contradicting is reported, whatever the distance. *)
Lemma lexicalScan_complete (this : CognitiveEngine) (found : list Hit) :
  forall i j hi hj marker,
    nth_error found i = Some hi -> nth_error found j = Some hj ->
    (i < j <= i + 9)%nat ->
    get (lexicon (kb this)) (hit_word hi) = Some marker ->
    includes (contradicts marker) (hit_word hj) = true ->
    In (lexicalContradiction hi hj) (lexicalScan this found).
Proof.
  induction found as [|hit later IH]; intros i j hi hj marker Hi Hj Hij Hget Hinc.
  - destruct i; discriminate.
  - cbn [lexicalScan]. apply in_or_app. destruct i as [|i].
    + left. inversion Hi. subst hit. rewrite Hget.
      destruct j as [|j]; [lia|]. simpl in Hj.
      apply in_flat_map. exists hj. split.
      * apply firstn_nth_error. exists j. split; [lia | exact Hj].
      * rewrite Hinc. now left.
    + right. destruct j as [|j]; [lia|].
      apply (IH i j hi hj marker); try assumption. lia.
Qed.

Lemma lexical_conflicts_of_scan (this : CognitiveEngine)
    (driverScores : list (string * DriverScore))
    (scores : list (string * PatternScore)) (found : list Hit) (c : Conflict) :
  In c (detectEnhancedConflicts this driverScores scores found) ->
  conflict_type c = lexical_contradiction ->
  In c (lexicalScan this found).
Proof.
  unfold detectEnhancedConflicts, sortBySeverity. intros Hin Htype.
  apply sort_In in Hin.
  apply in_app_or in Hin. destruct Hin as [Hin|Hin].
  { apply in_flat_map in Hin. destruct Hin as ([[d1 s1] [d2 s2]] & _ & Hc).
    unfold driverConflict in Hc.
    destruct (get (drivers (kb this)) d1); [|destruct Hc].
    destruct (get (drivers (kb this)) d2); [|destruct Hc].
    destruct (includes _ d2); [|destruct Hc].
    destruct (ltb 3 (normalizedScore s1) && ltb 3 (normalizedScore s2));
      [|destruct Hc].
    destruct Hc as [<-|[]]. discriminate Htype. }
  apply in_app_or in Hin. destruct Hin as [Hin|Hin]; [exact Hin|].
  apply in_app_or in Hin. destruct Hin as [Hin|Hin].
  - apply in_flat_map in Hin. destruct Hin as (hit & _ & Hc).
    unfold selfNegation in Hc.
    destruct (hit_isNegated hit && ltb 2 (adjustedWeight hit)); [|destruct Hc].
    destruct Hc as [<-|[]]. discriminate Htype.
  - apply in_flat_map in Hin. destruct Hin as (hit & _ & Hc).
    unfold modifierConflict in Hc.
    destruct (hasModifierConflict hit); [|destruct Hc].
    destruct Hc as [<-|[]]. discriminate Htype.
Qed.

(** The conflict module visits every later hit. *)
Lemma narrative_scan_complete (kb : KnowledgeBase)
    (found : list ConflictResolver.HitView) :
  forall i j hi hj marker c,
    nth_error found i = Some hi -> nth_error found j = Some hj ->
    (i < j)%nat ->
    get (lexicon kb) (ConflictResolver.word hi) = Some marker ->
    includes (contradicts marker) (ConflictResolver.word hj) = true ->
    In c (ConflictResolver.lexicalContradiction hi hj) ->
    In c (ConflictResolver.lexicalScan kb found).
Proof.
  induction found as [|hit later IH]; intros i j hi hj marker c Hi Hj Hij Hget Hinc Hc.
  - destruct i; discriminate Hi.
  - cbn [ConflictResolver.lexicalScan]. apply in_or_app. destruct i as [|i].
    + left. inversion Hi. subst hit. rewrite Hget.
      destruct j as [|j]; [lia|]. simpl in Hj.
      apply in_flat_map. exists hj. split.
      * eapply nth_error_In. exact Hj.
      * now rewrite Hinc.
    + right. destruct j as [|j]; [lia|].
      apply (IH i j hi hj marker); try assumption. lia.
Qed.

Lemma distinct_positions (found : list Hit) :
  distinctNat (map hit_position found) = true -> NoDup (map hit_position found).
Proof.
  generalize (map hit_position found). intro ps.
  induction ps as [|p rest IH]; simpl; [constructor|].
  rewrite andb_true_iff, negb_true_iff. intros [Hp Hrest].
  constructor; [|now apply IH].
  intro Hin.
  assert (Hex : existsb (Nat.eqb p) rest = true).
  { apply existsb_exists. exists p. split; [exact Hin | apply Nat.eqb_refl]. }
  congruence.
Qed.

(** Claim C10.  In [detectEnhancedConflicts] every conflict of type
    [lexical_contradiction] pairs a hit with one of the nine hits that
    follow it in the hit list, and every such pair with a listed
    contradiction is reported; so for hits at distinct positions, a
    pair that is ten or more places apart in the list is never
    reported, however close its token positions are.  In the conflict
    module, [detectNarrativeConflicts] reports the conflict of every
    pair of a hit and a later hit, at any separation in the list, that
    passes its distance cutoff. *)
Theorem lexical_scan_examines_next_nine_hits :
  (forall (this : CognitiveEngine) (driverScores : list (string * DriverScore))
          (scores : list (string * PatternScore)) (found : list Hit),
      (forall c,
          In c (detectEnhancedConflicts this driverScores scores found) ->
          conflict_type c = lexical_contradiction ->
          exists i j hi hj,
            nth_error found i = Some hi /\ nth_error found j = Some hj
            /\ (i < j <= i + 9)%nat /\ c = lexicalContradiction hi hj)
      /\
      (forall i j hi hj marker,
          nth_error found i = Some hi -> nth_error found j = Some hj ->
          (i < j <= i + 9)%nat ->
          get (lexicon (kb this)) (hit_word hi) = Some marker ->
          includes (contradicts marker) (hit_word hj) = true ->
          In (lexicalContradiction hi hj)
             (detectEnhancedConflicts this driverScores scores found))
      /\
      (forall i j hi hj,
          NoDup (map hit_position found) ->
          nth_error found i = Some hi -> nth_error found j = Some hj ->
          (i + 10 <= j)%nat ->
          ~ exists c,
              In c (detectEnhancedConflicts this driverScores scores found)
              /\ conflict_type c = lexical_contradiction
              /\ conflict_positions c = [hit_position hi; hit_position hj]))
  /\
  (forall (kb : KnowledgeBase) (found : list ConflictResolver.HitView)
          i j hi hj marker c,
      nth_error found i = Some hi -> nth_error found j = Some hj ->
      (i < j)%nat ->
      get (lexicon kb) (ConflictResolver.word hi) = Some marker ->
      includes (contradicts marker) (ConflictResolver.word hj) = true ->
      In c (ConflictResolver.lexicalContradiction hi hj) ->
      In c (ConflictResolver.detectNarrativeConflicts kb found)).
Proof.
  split.
  - intros this driverScores scores found.
    assert (Hsound : forall c,
               In c (detectEnhancedConflicts this driverScores scores found) ->
               conflict_type c = lexical_contradiction ->
               exists i j hi hj,
                 nth_error found i = Some hi /\ nth_error found j = Some hj
                 /\ (i < j <= i + 9)%nat /\ c = lexicalContradiction hi hj).
    { intros c Hin Htype. apply (lexicalScan_sound this).
      now apply (lexical_conflicts_of_scan this driverScores scores). }
    split; [exact Hsound|]. split.
    + intros i j hi hj marker Hi Hj Hij Hget Hinc.
      unfold detectEnhancedConflicts, sortBySeverity. apply sort_In.
      apply in_or_app. right. apply in_or_app. left.
      now apply (lexicalScan_complete this found i j hi hj marker).
    + intros i j hi hj Hnd Hi Hj Hfar (c & Hin & Htype & Hpos).
      destruct (Hsound c Hin Htype) as (i' & j' & hi' & hj' & Hi' & Hj' & Hij' & ->).
      cbn [lexicalContradiction conflict_positions] in Hpos.
      inversion Hpos as [[Hpi Hpj]].
      assert (Hsame : forall a b ha hb,
                 nth_error found a = Some ha -> nth_error found b = Some hb ->
                 hit_position ha = hit_position hb -> a = b).
      { intros a b ha hb Ha Hb Heq.
        apply (proj1 (NoDup_nth_error (map hit_position found)) Hnd).
        - rewrite length_map. apply nth_error_Some. congruence.
        - rewrite !nth_error_map, Ha, Hb. simpl. now rewrite Heq. }
      assert (i' = i) by now apply (Hsame i' i hi' hi).
      assert (j' = j) by now apply (Hsame j' j hj' hj).
      lia.
  - intros kb found i j hi hj marker c Hi Hj Hij Hget Hinc Hc.
    unfold ConflictResolver.detectNarrativeConflicts. apply in_or_app. left.
    apply (narrative_scan_complete kb found i j hi hj marker); assumption.
Qed.

(** With the marker [sometimes] added to the lexicon, [always] and
    [sometimes] are the first and the last of eleven hits at token
    positions 0 to 10: the engine reports no contradiction for the
    pair, the conflict module does. *)
Lemma lexical_scan_examines_next_nine_hits_witness :
  map (fun hit => (hit_word hit, hit_position hit)) contrastHits
  = [("always", 0); ("must", 1); ("must", 2); ("must", 3); ("must", 4);
     ("must", 5); ("must", 6); ("must", 7); ("must", 8); ("must", 9);
     ("sometimes", 10)]%string%nat
  /\ (~ exists c,
          In c (detectEnhancedConflicts contrastEngine [] [] contrastHits)
          /\ conflict_type c = lexical_contradiction
          /\ conflict_positions c = [0; 10]%nat)
  /\ (exists c,
         In c (ConflictResolver.detectNarrativeConflicts contrastKB
                 (map ConflictResolver.ofHit contrastHits))
         /\ conflict_type c = lexical_contradiction
         /\ conflict_positions c = [0; 10]%nat).
Proof.
  split; [vm_compute; reflexivity|].
  assert (H0 : exists hi, nth_error contrastHits 0 = Some hi
                          /\ hit_position hi = 0%nat /\ hit_word hi = "always"%string)
    by (eexists; split; [vm_compute; reflexivity | split; reflexivity]).
  assert (H10 : exists hj, nth_error contrastHits 10 = Some hj
                           /\ hit_position hj = 10%nat
                           /\ hit_word hj = "sometimes"%string)
    by (eexists; split; [vm_compute; reflexivity | split; reflexivity]).
  destruct H0 as (hi & Hi & Hpi & Hwi). destruct H10 as (hj & Hj & Hpj & Hwj).
  split.
  - replace [0; 10]%nat with [hit_position hi; hit_position hj]
      by (now rewrite Hpi, Hpj).
    apply (proj2 (proj2 (proj1 lexical_scan_examines_next_nine_hits
                           contrastEngine [] [] contrastHits)) 0%nat 10%nat hi hj).
    + apply distinct_positions. vm_compute. reflexivity.
    + exact Hi.
    + exact Hj.
    + lia.
  - assert (Hmarker : exists marker,
               get (lexicon contrastKB) (hit_word hi) = Some marker
               /\ includes (contradicts marker) (hit_word hj) = true).
    { rewrite Hwi, Hwj. eexists. split; [vm_compute; reflexivity | reflexivity]. }
    destruct Hmarker as (marker & Hget & Hinc).
    assert (Hc : exists c,
               In c (ConflictResolver.lexicalContradiction
                       (ConflictResolver.ofHit hi) (ConflictResolver.ofHit hj))
               /\ conflict_type c = lexical_contradiction
               /\ conflict_positions c = [0; 10]%nat).
    { unfold ConflictResolver.lexicalContradiction, ConflictResolver.ofHit.
      cbn [ConflictResolver.position ConflictResolver.word
           ConflictResolver.adjustedWeight].
      rewrite Hpi, Hpj.
      assert (Hpass :
        ltb (double 0.3)
            (Qmax 0 (double (1 - double (Qabs (inject_Z (Z.of_nat 10 - Z.of_nat 0)) / 20))))
        = true) by (vm_compute; reflexivity).
      rewrite Hpass. eexists. split; [left; reflexivity|].
      split; reflexivity. }
    destruct Hc as (c & Hc & Htype & Hpos).
    exists c. split; [|split; assumption].
    apply (proj2 lexical_scan_examines_next_nine_hits contrastKB
                 (map ConflictResolver.ofHit contrastHits) 0%nat 10%nat
                 (ConflictResolver.ofHit hi) (ConflictResolver.ofHit hj) marker c).
    + rewrite nth_error_map, Hi. reflexivity.
    + rewrite nth_error_map, Hj. reflexivity.
    + lia.
    + exact Hget.
    + exact Hinc.
    + exact Hc.
Defined.

End LexicalWindow.

(* ================================================================== *)
(** ** Confidence scores *)
(* ================================================================== *)

Section ConfidenceBounds.
Import JS Knowledge Conflicts Engine Runs Facts.
Import ConfidenceScorer.

















(** No key of the two tables of base probabilities is an inherited
    name, so a lookup gives [NaN] exactly for the inherited names. *)
Lemma base_probability_nan (name : string) (d : Q) :
  (number_or baseProbabilities_patterns name d = NaN
   <-> includes objectPrototypeMembers name = true)
  /\ (number_or baseProbabilities_drivers name d = NaN
      <-> includes objectPrototypeMembers name = true).
Proof.
  unfold number_or. split.
  - destruct (get baseProbabilities_patterns name) as [v|] eqn:G.
    + unfold baseProbabilities_patterns in G. cbn [get] in G.
      repeat match type of G with
             | (if String.eqb ?k name then _ else _) = _ =>
                 let E := fresh "E" in
                 destruct (String.eqb k name) eqn:E;
                 [ apply String.eqb_eq in E; subst name;
                   split; [discriminate | intro H; vm_compute in H; discriminate H]
                 | ]
             end.
      discriminate G.
    + destruct (includes objectPrototypeMembers name);
        split; congruence.
  - destruct (get baseProbabilities_drivers name) as [v|] eqn:G.
    + unfold baseProbabilities_drivers in G. cbn [get] in G.
      repeat match type of G with
             | (if String.eqb ?k name then _ else _) = _ =>
                 let E := fresh "E" in
                 destruct (String.eqb k name) eqn:E;
                 [ apply String.eqb_eq in E; subst name;
                   split; [discriminate | intro H; vm_compute in H; discriminate H]
                 | ]
             end.
      discriminate G.
    + destruct (includes objectPrototypeMembers name);
        split; congruence.
Qed.







End ConfidenceBounds.

(* ================================================================== *)
(** ** Tokens *)
(* ================================================================== *)

Section Tokens.
Import JS Knowledge Conflicts Engine Runs Facts.

Lemma toLowerChar_idempotent (c : ascii) :
  toLowerChar (toLowerChar c) = toLowerChar c.
Proof.
  destruct c as [[] [] [] [] [] [] [] []]; reflexivity.
Qed.

Lemma punctuation_is_visible (c : ascii) :
  isPunctuationChar c = true -> visible c = true.
Proof.
  destruct c as [[] [] [] [] [] [] [] []]; vm_compute; congruence.
Qed.

Lemma chars_string (cs : list ascii) : chars (string_of_list_ascii cs) = cs.
Proof.
  apply list_ascii_of_string_of_list_ascii.
Qed.

Lemma chars_toLowerCase (s : string) :
  chars (toLowerCase s) = map toLowerChar (chars s).
Proof.
  induction s as [|c s IH]; simpl; [reflexivity | now rewrite <- IH].
Qed.

Lemma toLowerCase_chars (s : string) :
  Forall (fun c => toLowerChar c = c) (chars s) -> toLowerCase s = s.
Proof.
  induction s as [|c s IH]; simpl; [reflexivity|].
  intro H. inversion H; subst. f_equal; [assumption | now apply IH].
Qed.

Lemma visible_padPunctuation (s : string) :
  filter visible (chars (padPunctuation s)) = filter visible (chars s).
Proof.
  induction s as [|c s IH]; simpl; [reflexivity|].
  destruct (isPunctuationChar c) eqn:E; simpl.
  - change (visible " ") with false. cbn [negb].
    rewrite (punctuation_is_visible c E), IH. reflexivity.
  - now rewrite IH.
Qed.

(** The words that [split] and [filter] leave: each is a maximal run of
    visible characters, and together they are the visible characters
    of the string. *)
Lemma splitWords_words (s : string) :
  forall acc,
    Forall (fun c => visible c = true) acc ->
    concat (map chars (splitWords acc s)) = rev acc ++ filter visible (chars s)
    /\ Forall (fun w => w <> EmptyString
                        /\ Forall (fun c => visible c = true) (chars w))
              (splitWords acc s).
Proof.
  assert (Hflush : forall acc,
             Forall (fun c => visible c = true) acc ->
             concat (map chars (flush acc)) = rev acc
             /\ Forall (fun w => w <> EmptyString
                                 /\ Forall (fun c => visible c = true) (chars w))
                       (flush acc)).
  { intros [|c acc] Hacc; [split; [reflexivity | constructor]|].
    unfold flush. cbn [map concat]. rewrite chars_string, app_nil_r.
    split; [reflexivity|]. constructor; [|constructor]. split.
    - intro Hnil. apply (f_equal chars) in Hnil. rewrite chars_string in Hnil.
      simpl in Hnil. destruct (rev acc); discriminate.
    - rewrite chars_string. apply Forall_rev. exact Hacc. }
  induction s as [|c s IH]; intros acc Hacc; cbn [splitWords].
  - destruct (Hflush acc Hacc) as [Hc Hw]. simpl. rewrite app_nil_r.
    split; assumption.
  - cbn [chars list_ascii_of_string filter]. fold (chars s).
    assert (Hvis : visible c = negb (isWhitespace c)) by reflexivity.
    rewrite Hvis. destruct (isWhitespace c) eqn:E; cbn [negb].
    + destruct (Hflush acc Hacc) as [Hc Hw].
      destruct (IH [] (Forall_nil _)) as [Hc' Hw'].
      rewrite map_app, concat_app, Hc, Hc'. split; [reflexivity|].
      apply Forall_app. split; assumption.
    + destruct (IH (c :: acc)) as [Hc' Hw'].
      { constructor; [exact Hvis | exact Hacc]. }
      split; [|exact Hw']. rewrite Hc'. simpl. now rewrite <- app_assoc.
Qed.

Lemma makeTokens_fields (text : string) (words : list string) :
  forall position count,
    map word (makeTokens text words position count) = words
    /\ map Engine.position (makeTokens text words position count)
       = seq count (length words)
    /\ map isPunctuation (makeTokens text words position count)
       = map isPunctuationWord words.
Proof.
  induction words as [|w words IH]; intros p n; cbn [makeTokens map length seq].
  - repeat split.
  - destruct (IH (p + String.length w + 1)%nat (S n)) as (Hw & Hp & Hq).
    rewrite Hw, Hp, Hq. repeat split.
Qed.

(** Property X1.
    [tokenize] numbers the tokens from 0 in the order of the text.  No
    token is empty or holds a white-space character, and every token
    is in lower case already, so the [toLowerCase] that the later
    stages apply to a token changes nothing.  Read one after the other,
    the tokens are the text in lower case without its white space:
    tokenizing loses nothing else. *)
Theorem tokens_are_the_text_without_spaces :
  forall text : string,
    let tokens := tokenize text in
    map Engine.position tokens = seq 0 (length tokens)
    /\ Forall (fun t => word t <> EmptyString
                        /\ Forall (fun c => isWhitespace c = false) (chars (word t))
                        /\ toLowerCase (word t) = word t)
              tokens
    /\ concat (map (fun t => chars (word t)) tokens)
       = filter visible (chars (toLowerCase text)).
Proof.
  intros text tokens. unfold tokens, tokenize.
  set (words := splitWords [] (padPunctuation (toLowerCase text))).
  destruct (makeTokens_fields text words 0 0) as (Hw & Hp & _).
  destruct (splitWords_words (padPunctuation (toLowerCase text)) [] (Forall_nil _))
    as [Hconcat Hwords]. fold words in Hconcat, Hwords.
  cbn [rev app] in Hconcat. rewrite visible_padPunctuation in Hconcat.
  assert (Hlen : length (makeTokens text words 0 0) = length words)
    by (rewrite <- Hw at 2; now rewrite length_map).
  split; [now rewrite Hlen|]. split.
  - assert (Hlower : Forall (fun c => toLowerChar c = c) (concat (map chars words))).
    { rewrite Hconcat, chars_toLowerCase. apply Forall_forall. intros c Hc.
      apply filter_In in Hc. destruct Hc as [Hc _]. apply in_map_iff in Hc.
      destruct Hc as (c0 & <- & _). apply toLowerChar_idempotent. }
    rewrite <- Hw in Hwords, Hlower. rewrite map_map in Hlower.
    rewrite Forall_map in Hwords. rewrite Forall_forall in *.
    intros t Ht. destruct (Hwords t Ht) as [Hne Hvis].
    split; [exact Hne|]. split.
    + revert Hvis. apply Forall_impl. intros c Hc. unfold visible in Hc.
      now destruct (isWhitespace c).
    + apply toLowerCase_chars. apply Forall_forall. intros c Hc.
      apply Hlower. apply in_concat. exists (chars (word t)). split; [|exact Hc].
      apply in_map_iff. now exists t.
  - rewrite <- Hconcat. rewrite <- Hw at 2. now rewrite map_map.
Qed.

Lemma padPunctuation_padded (s : string) : Padded (padPunctuation s).
Proof.
  induction s as [|c s IH]; simpl; [constructor|].
  destruct (isPunctuationChar c) eqn:E; now constructor.
Qed.

Lemma splitWords_padded (s : string) :
  Padded s ->
  forall acc,
    Forall (fun c => isPunctuationChar c = false) acc ->
    Forall (fun w =>
              (exists p, w = String p EmptyString /\ isPunctuationChar p = true)
              \/ (w <> EmptyString
                  /\ Forall (fun c => isPunctuationChar c = false) (chars w)))
           (splitWords acc s).
Proof.
  assert (Hflush : forall acc,
             Forall (fun c => isPunctuationChar c = false) acc ->
             Forall (fun w =>
                       (exists p, w = String p EmptyString
                                  /\ isPunctuationChar p = true)
                       \/ (w <> EmptyString
                           /\ Forall (fun c => isPunctuationChar c = false) (chars w)))
                    (flush acc)).
  { intros [|c acc] Hacc; [constructor|]. unfold flush.
    constructor; [|constructor]. right. split.
    - intro Hnil. apply (f_equal chars) in Hnil. rewrite chars_string in Hnil.
      simpl in Hnil. destruct (rev acc); discriminate.
    - rewrite chars_string. apply Forall_rev. exact Hacc. }
  induction 1 as [|c s Hc Hs IH|p s Hp Hs IH]; intros acc Hacc.
  - cbn [splitWords]. now apply Hflush.
  - cbn [splitWords]. destruct (isWhitespace c).
    + apply Forall_app. split; [now apply Hflush | apply IH; constructor].
    + apply IH. now constructor.
  - cbn [splitWords]. change (isWhitespace " ") with true. cbn iota.
    pose proof (punctuation_is_visible p Hp) as Hvis. unfold visible in Hvis.
    destruct (isWhitespace p); [discriminate|].
    apply Forall_app. split; [now apply Hflush|].
    apply Forall_app. split; [|apply IH; constructor].
    constructor; [|constructor]. left. exists p. split; [reflexivity | exact Hp].
Qed.

(** The text of the code units 201, 84, 201, 160, 120: lower-casing
    takes the capital 201 to 233, and the no-break space 160 separates
    two tokens. *)
Lemma tokenize_upper_half :
  map (fun t => map nat_of_ascii (chars (word t)))
      (tokenize (string_of_list_ascii
                   (map ascii_of_nat [201; 84; 201; 160; 120]%nat)))
  = [[233; 116; 233]; [120]]%nat.
Proof.
  vm_compute. reflexivity.
Qed.

(** Property X2.
    [tokenize] isolates punctuation: a token is either one single
    punctuation character, and then it is flagged [isPunctuation], or
    it holds no punctuation character at all, and then it is not
    flagged.  So a marker that is followed by a comma or a full stop is
    still found under its own word. *)
Theorem tokens_isolate_punctuation :
  forall text : string,
    Forall (fun t =>
              (isPunctuation t = true
               /\ exists p, word t = String p EmptyString
                            /\ isPunctuationChar p = true)
              \/ (isPunctuation t = false
                  /\ Forall (fun c => isPunctuationChar c = false) (chars (word t))))
           (tokenize text).
Proof.
  intro text. unfold tokenize.
  set (words := splitWords [] (padPunctuation (toLowerCase text))).
  destruct (makeTokens_fields text words 0 0) as (Hw & _ & Hq).
  pose proof (splitWords_padded _ (padPunctuation_padded (toLowerCase text)) []
                (Forall_nil _)) as Hwords. fold words in Hwords.
  assert (Hflag : Forall (fun t => isPunctuation t = isPunctuationWord (word t))
                         (makeTokens text words 0 0)).
  { rewrite <- Hw in Hq at 2. rewrite map_map in Hq. clear - Hq.
    induction (makeTokens text words 0 0) as [|t ts IH]; [constructor|].
    simpl in Hq. inversion Hq. constructor; [assumption | now apply IH]. }
  rewrite <- Hw in Hwords. rewrite Forall_map in Hwords.
  rewrite Forall_forall in *. intros t Ht.
  rewrite (Hflag t Ht). destruct (Hwords t Ht) as [(p & Hp & Hpunct)|[Hne Hnone]].
  - left. split; [|now exists p]. rewrite Hp. unfold isPunctuationWord. simpl.
    now rewrite Hpunct.
  - right. split; [|exact Hnone]. unfold isPunctuationWord. fold (chars (word t)).
    destruct (chars (word t)) as [|c cs] eqn:E; [reflexivity|].
    inversion Hnone; subst. cbn [forallb]. 
    match goal with H : isPunctuationChar c = false |- _ => now rewrite H end.
Qed.

End Tokens.

(* ================================================================== *)
(** ** Negation states and hits *)
(* ================================================================== *)

Section Hits.
Import JS Knowledge Conflicts Engine Runs Facts.

Lemma decay_bounds (d : nat) :
  (1 <= d <= 5)%nat -> 1 # 6 <= 1 - num d / 6 /\ 1 - num d / 6 <= 5 # 6.
Proof.
  intros [H1 H5].
  assert (Hlo : num 1 <= num d) by now apply num_le.
  assert (Hhi : num d <= num 5) by now apply num_le.
  assert (E1 : num 1 == 1) by reflexivity.
  assert (E5 : num 5 == 5) by reflexivity.
  rewrite E1 in Hlo. rewrite E5 in Hhi. split; lra_div.
Qed.

Lemma includesOpt_Some (ws : list string) (w : option string) :
  includesOpt ws w = true -> exists s, w = Some s /\ includes ws s = true.
Proof.
  destruct w as [s|]; [|discriminate]. intro H. now exists s.
Qed.

Lemma negationCandidate_scanned (this : CognitiveEngine) (tokenIndex i : nat)
    (tokens : list Token) (best : NegationState)
    (entry : NegationType * (list string * Q)) :
  (tokenIndex - 5 <= i < tokenIndex)%nat ->
  In entry (negationTypes this) ->
  scanned this tokenIndex tokens best ->
  scanned this tokenIndex tokens
          (negationCandidate tokenIndex i (wordAt tokens i) best entry).
Proof.
  intros Hi Hin Hbest. destruct entry as [type [ws typeStrength]].
  unfold negationCandidate.
  destruct (includesOpt ws (wordAt tokens i)) eqn:Hinc; [|exact Hbest].
  match goal with |- context [ltb ?a ?b] => destruct (ltb a b) eqn:E end;
    [|exact Hbest].
  apply ltb_lt in E. right. cbn [isNegated strength negType].
  apply includesOpt_Some in Hinc. destruct Hinc as (s & Hs & Hincl).
  assert (Htier : ws = tierWords this type /\ typeStrength = tierStrength type).
  { simpl in Hin.
    destruct Hin as [H|[H|[H|[]]]]; inversion H; subst; split; reflexivity. }
  destruct Htier as [-> ->].
  split; [reflexivity|]. split.
  - destruct Hbest as [->|(_ & Hpos & _)]; [exact E | lra].
  - exists s, (tokenIndex - i)%nat. cbn [negator distance strength].
    replace (tokenIndex - (tokenIndex - i))%nat with i by lia.
    repeat split; try assumption; try lia.
Qed.

Lemma scanNegation_scanned (this : CognitiveEngine) (tokenIndex : nat)
    (tokens : list Token) :
  scanned this tokenIndex tokens (scanNegation this tokenIndex tokens).
Proof.
  unfold scanNegation.
  assert (Hwin : forall i, In i (windowBefore tokenIndex 5) ->
                           (tokenIndex - 5 <= i < tokenIndex)%nat).
  { intros i Hi. now apply windowBefore_In. }
  assert (Hstart : scanned this tokenIndex tokens noNegation) by now left.
  revert Hwin Hstart. fold noNegation. generalize noNegation.
  induction (windowBefore tokenIndex 5) as [|i rest IH]; intros best Hwin Hbest;
    cbn [fold_left]; [exact Hbest|].
  apply IH; [intros j Hj; apply Hwin; now right|].
  assert (Hi : (tokenIndex - 5 <= i < tokenIndex)%nat) by (apply Hwin; now left).
  assert (Hsub : forall e, In e (negationTypes this) -> In e (negationTypes this))
    by auto.
  revert best Hbest Hsub. generalize (negationTypes this) at 1 3.
  induction l as [|entry more IHl]; intros best Hbest Hsub; cbn [fold_left];
    [exact Hbest|].
  apply IHl; [|intros e He; apply Hsub; now right].
  apply negationCandidate_scanned; [exact Hi | apply Hsub; now left | exact Hbest].
Qed.

(** The two outcomes of [detectNegationAdvanced]. *)
Lemma detectNegationAdvanced_cases (this : CognitiveEngine) (context : Context)
    (tokenIndex : nat) (tokens : list Token) :
  let s := detectNegationAdvanced this context tokenIndex tokens in
  (isNegated s = true /\ 0 < strength s
   /\ negationRecord this tokenIndex tokens (negType s) s)
  \/ (isNegated s = false /\ strength s = 0
      /\ (negType s = NegNone \/ negType s = DoubleNegative)).
Proof.
  unfold detectNegationAdvanced.
  destruct (scanNegation_scanned this tokenIndex tokens) as [Hnone|Hfound].
  - rewrite Hnone. cbn. right. auto.
  - destruct Hfound as (Hneg & Hpos & Hrec). rewrite Hneg.
    match goal with |- context [if ?c then _ else _] => destruct c end.
    + right. cbn. auto.
    + left. auto.
Qed.

Lemma tier_strength_bounds (type : NegationType) (d : nat) :
  (1 <= d <= 5)%nat -> tierStrength type * (1 - num d / 6) <= 5 # 6.
Proof.
  intro Hd. destruct (decay_bounds d Hd) as [Hlo Hhi].
  set (x := 1 - num d / 6) in *. destruct type; simpl; lra.
Qed.

(** Property X3.
    For every token sequence and marker index, the state that
    [detectNegationAdvanced] returns has a strength between 0 and 5/6.
    When it is flagged as negated, the strength is positive, the
    negator is a word of the tier of the state's type standing one to
    five tokens before the marker, and the strength is the tier's
    strength (1, 0.6 or 0.3) times [1 - distance / 6].  When it is not
    flagged, the strength is 0 and the type is [none] or
    [double_negative]. *)
Theorem negation_state_is_consistent :
  forall (this : CognitiveEngine) (context : Context) (tokenIndex : nat)
         (tokens : list Token),
    let s := detectNegationAdvanced this context tokenIndex tokens in
    0 <= strength s /\ strength s <= 5 # 6
    /\ (isNegated s = true ->
        0 < strength s /\ negationRecord this tokenIndex tokens (negType s) s)
    /\ (isNegated s = false ->
        strength s == 0 /\ (negType s = NegNone \/ negType s = DoubleNegative)).
Proof.
  intros this context tokenIndex tokens s.
  destruct (detectNegationAdvanced_cases this context tokenIndex tokens)
    as [(Hneg & Hpos & Hrec)|(Hneg & Hzero & Htype)].
  - fold s in Hneg, Hpos, Hrec.
    assert (Hhi : strength s <= 5 # 6).
    { destruct Hrec as (w & d & _ & _ & Hd & _ & _ & _ & Hs).
      rewrite Hs. now apply tier_strength_bounds. }
    split; [lra|]. split; [exact Hhi|]. split.
    + intros _. split; assumption.
    + intro H. congruence.
  - fold s in Hneg, Hzero, Htype. rewrite Hzero.
    split; [lra|]. split; [lra|]. split.
    + intro H. congruence.
    + intros _. split; [reflexivity | exact Htype].
Qed.

(** What [parseToken] reads off the token and the lexicon entry. *)
Lemma parseToken_fields (this : CognitiveEngine) (tokens : list Token)
    (i : nat) (token : Token) (hit : Hit) :
  parseToken this tokens i token = Some hit ->
  exists marker,
    isPunctuation token = false
    /\ get (lexicon (kb this)) (word token) = Some marker
    /\ hit
       = let context := extractEnhancedContext this tokens i in
         let negationState := detectNegationAdvanced this context i tokens in
         let modifiers := analyzeModifiersAdvanced this context i tokens in
         let semantic := matchSemanticPattern this (word token) context in
         {| hit_word := word token;
            originalWord := original token;
            hit_position := i;
            hit_charPosition := charPosition token;
            hit_category := category marker;
            hit_subcategory := subcategory marker;
            baseWeight := weight marker;
            adjustedWeight :=
              calculateAdjustedWeight (weight marker) negationState modifiers semantic;
            hit_isNegated := isNegated negationState;
            negationType := negType negationState;
            negationStrength := strength negationState;
            modifierEffect := multiplier modifiers;
            hit_intensifiers := intensifiers modifiers;
            hit_diminishers := diminishers modifiers;
            hasModifierConflict := hasConflict modifiers;
            semanticContext := contextPattern semantic;
            temporalSegment := getTemporalSegment this i (length tokens);
            emotionalValence := or_num (emotional_valence marker) 0 |}.
Proof.
  unfold parseToken.
  destruct (isPunctuation token); [discriminate|].
  destruct (get (lexicon (kb this)) (word token)) as [marker|]; [|discriminate].
  match goal with |- context [ltb 0.3 ?w] => destruct (ltb 0.3 w) end;
    [|discriminate].
  intro H. inversion H. exists marker. repeat split.
Qed.

Lemma parseFrom_In (this : CognitiveEngine) (tokens rest : list Token) (hit : Hit) :
  forall i,
    In hit (parseFrom this tokens i rest) ->
    exists j token,
      nth_error rest j = Some token
      /\ parseToken this tokens (i + j) token = Some hit.
Proof.
  induction rest as [|token rest IH]; intros i Hin; cbn [parseFrom] in Hin;
    [destruct Hin|].
  assert (Hrest : In hit (parseFrom this tokens (S i) rest) ->
                  exists j t, nth_error (token :: rest) j = Some t
                              /\ parseToken this tokens (i + j) t = Some hit).
  { intro H. destruct (IH _ H) as (j & t & Hj & Hp).
    exists (S j), t. split; [exact Hj|].
    replace (i + S j)%nat with (S i + j)%nat by lia. exact Hp. }
  destruct (parseToken this tokens i token) as [h|] eqn:E; [|now apply Hrest].
  destruct Hin as [<-|Hin]; [|now apply Hrest].
  exists 0%nat, token. split; [reflexivity|].
  now rewrite Nat.add_0_r.
Qed.

Lemma parseFrom_positions (this : CognitiveEngine) (tokens rest : list Token) :
  forall i,
    Forall (fun hit => (i <= hit_position hit)%nat) (parseFrom this tokens i rest)
    /\ StronglySorted (fun a b => (hit_position a < hit_position b)%nat)
                      (parseFrom this tokens i rest).
Proof.
  induction rest as [|token rest IH]; intro i; cbn [parseFrom].
  - split; constructor.
  - destruct (IH (S i)) as [Hlow Hsorted].
    assert (Hlow' : Forall (fun hit => (i <= hit_position hit)%nat)
                           (parseFrom this tokens (S i) rest)).
    { revert Hlow. apply Forall_impl. intros h Hh. lia. }
    destruct (parseToken this tokens i token) as [hit|] eqn:E;
      [|split; assumption].
    apply parseToken_position in E. split.
    + constructor; [lia | exact Hlow'].
    + constructor; [exact Hsorted|].
      revert Hlow. apply Forall_impl. intros h Hh. lia.
Qed.

(** Property X4.
    The hits of [parseTextWithEnhancements] come in the order of the
    text, at most one per token: their positions are strictly
    increasing, and each hit stands at a token that is not punctuation
    and whose word is a key of the lexicon, from whose entry the hit
    takes its category and base weight. *)
Theorem hits_follow_the_tokens :
  forall (this : CognitiveEngine) (text : string),
    let tokens := tokenize text in
    let found := parseTextWithEnhancements this text in
    StronglySorted (fun a b => (hit_position a < hit_position b)%nat) found
    /\ Forall
         (fun hit =>
            exists token marker,
              nth_error tokens (hit_position hit) = Some token
              /\ isPunctuation token = false
              /\ hit_word hit = word token
              /\ originalWord hit = original token
              /\ get (lexicon (kb this)) (hit_word hit) = Some marker
              /\ hit_category hit = category marker
              /\ baseWeight hit = weight marker)
         found.
Proof.
  intros this text tokens found. split.
  - apply parseFrom_positions.
  - apply Forall_forall. intros hit Hin.
    apply parseFrom_In in Hin. destruct Hin as (j & token & Hj & Hp).
    destruct (parseToken_fields _ _ _ _ _ Hp) as (marker & Hpunct & Hget & ->).
    exists token, marker. cbn. repeat split; assumption.
Qed.

Lemma or_num_idempotent (x : option Q) (d : Q) :
  or_num (Some (or_num x d)) d = or_num x d.
Proof.
  unfold or_num. destruct x as [v|].
  - destruct (Qeq_bool v 0) eqn:E.
    + now destruct (Qeq_bool d 0).
    + now rewrite E.
  - now destruct (Qeq_bool d 0).
Qed.

(** The weight that [calculateAdjustedWeight] starts from is one of
    the entry's declared weights. *)
Lemma semantic_weight_declared (this : CognitiveEngine) (token : string)
    (context : Context) (marker : LexiconEntry) :
  get (lexicon (kb this)) token = Some marker ->
  smatch (matchSemanticPattern this token context) = true
  /\ In (or_num (contextWeight (matchSemanticPattern this token context))
                (weight marker))
        (declaredWeights marker).
Proof.
  intro Hget. unfold matchSemanticPattern. rewrite Hget.
  assert (Hgeneral :
            or_num (Some (weight marker)) (weight marker) = weight marker).
  { unfold or_num. now destruct (Qeq_bool (weight marker) 0). }
  destruct (context_required marker && nonEmpty (valid_contexts marker));
    [|split; [reflexivity | cbn [contextWeight]; rewrite Hgeneral; now left]].
  destruct (firstValidContext _ _ (valid_contexts marker))
    as [[pattern config]|] eqn:Hfirst;
    [|split; [reflexivity | cbn [contextWeight]; rewrite Hgeneral; now left]].
  split; [reflexivity|]. cbn [contextWeight]. rewrite or_num_idempotent. right.
  revert Hfirst. generalize (valid_contexts marker). intro contexts.
  induction contexts as [|[p c] rest IH]; simpl; [discriminate|].
  destruct (str_includes _ p || str_includes _ p).
  - intro H. inversion H. subst. now left.
  - intro H. right. now apply IH.
Qed.

(** Property X5.
    For every hit, the floor [Math.max(0.1, .)] of
    [calculateAdjustedWeight] is not active: the adjusted weight is
    the product of a weight [w0] that the lexicon entry declares (its
    own or that of one of its valid contexts), of [1 - negationStrength]
    when the hit is negated, and of the modifier multiplier.  The
    multiplier lies in [0.1, 3] and the negation strength in
    [0, 5/6], so the adjusted weight is at most [3 * w0]. *)
Theorem hit_weight_is_a_product :
  forall (this : CognitiveEngine) (text : string),
    Forall
      (fun hit =>
         exists marker w0,
           get (lexicon (kb this)) (hit_word hit) = Some marker
           /\ In w0 (declaredWeights marker)
           /\ adjustedWeight hit
              == w0 * (if hit_isNegated hit then 1 - negationStrength hit else 1)
                 * modifierEffect hit
           /\ 0.1 <= modifierEffect hit /\ modifierEffect hit <= 3
           /\ 0 <= negationStrength hit /\ negationStrength hit <= 5 # 6
           /\ adjustedWeight hit <= 3 * w0)
      (parseTextWithEnhancements this text).
Proof.
  intros this text. apply Forall_forall. intros hit Hin.
  pose proof (proj1 (Forall_forall _ _) (parse_weights this text) hit Hin) as Hw.
  apply parseFrom_In in Hin. destruct Hin as (j & token & Hj & Hp).
  destruct (parseToken_fields _ _ _ _ _ Hp) as (marker & Hpunct & Hget & Hhit).
  cbv zeta in Hhit.
  set (context := extractEnhancedContext this (tokenize text) (0 + j)) in *.
  set (neg := detectNegationAdvanced this context (0 + j) (tokenize text)) in *.
  set (mods := analyzeModifiersAdvanced this context (0 + j) (tokenize text)) in *.
  set (sem := matchSemanticPattern this (word token) context) in *.
  destruct (semantic_weight_declared this (word token) context marker Hget)
    as [Hmatch Hdeclared]. fold sem in Hmatch, Hdeclared.
  set (w0 := or_num (contextWeight sem) (weight marker)) in *.
  assert (Hm : 0.1 <= multiplier mods /\ multiplier mods <= 3).
  { unfold mods, analyzeModifiersAdvanced. cbn [multiplier].
    assert (E3 : 3.0 <= 3) by (unfold Qle; simpl; lia).
    match goal with |- _ <= Qmax _ (Qmin _ ?m) /\ _ =>
      destruct (clamped 0.1 3.0 m) as [Hlo Hhi]; [unfold Qle; simpl; lia|] end.
    split; [exact Hlo | eapply Qle_trans; [exact Hhi | exact E3]]. }
  assert (Hs : 0 <= strength neg /\ strength neg <= 5 # 6).
  { pose proof (detectNegationAdvanced_cases this context (0 + j) (tokenize text))
      as Hcases. cbv zeta in Hcases. fold neg in Hcases.
    destruct Hcases as [(_ & Hpos & Hrec)|(_ & Hzero & _)].
    - split; [lra|]. destruct Hrec as (w & d & _ & _ & Hd & _ & _ & _ & Hst).
      rewrite Hst. now apply tier_strength_bounds.
    - rewrite Hzero. split; lra. }
  rewrite Hhit in Hw |- *. cbn in Hw |- *.
  unfold calculateAdjustedWeight in Hw |- *. rewrite Hmatch in Hw |- *.
  cbn [negb] in Hw |- *. fold w0 in Hw |- *.
  set (factor := if isNegated neg then 1 - strength neg else 1).
  assert (Hw1 : (if isNegated neg then w0 * (1 - strength neg) else w0)
                == w0 * factor).
  { unfold factor. destruct (isNegated neg); ring. }
  assert (Hfactor : 0 < factor /\ factor <= 1).
  { unfold factor. destruct (isNegated neg); lra. }
  set (raw := (if isNegated neg then w0 * (1 - strength neg) else w0)
              * multiplier mods) in *.
  assert (Hraw : 0.3 < raw).
  { destruct (Q.max_spec 0.1 raw) as [[_ E]|[_ E]]; rewrite E in Hw; lra. }
  assert (Hmax : Qmax 0.1 raw == raw) by (apply Q.max_r; lra).
  assert (Hprod : raw == w0 * factor * multiplier mods).
  { unfold raw. rewrite Hw1. reflexivity. }
  exists marker, w0. split; [exact Hget|]. split; [exact Hdeclared|].
  split; [rewrite Hmax; exact Hprod|].
  split; [tauto|]. split; [tauto|]. split; [tauto|]. split; [tauto|].
  rewrite Hmax, Hprod.
  destruct Hfactor as [Hf0 Hf1]. destruct Hm as [Hm0 Hm1].
  assert (Hw0 : 0 < w0).
  { destruct (Qlt_le_dec 0 w0) as [H|H]; [exact H|].
    assert (Hwf : w0 * factor <= 0) by nra.
    assert (w0 * factor * multiplier mods <= 0) by nra. lra. }
  assert (Hwf0 : 0 <= w0 * factor) by nra.
  assert (Hwf1 : w0 * factor <= w0) by nra.
  nra.
Qed.

End Hits.

(* ================================================================== *)
(** ** Clusters, and when the pipeline throws *)
(* ================================================================== *)

Section Clusters.
Import JS Knowledge Conflicts Engine Runs Facts.

(** Sorting a list that is in order leaves it as it is. *)
Lemma sort_in_order {A} (leb : A -> A -> bool) (xs : list A) :
  StronglySorted (fun a b => leb a b = true) xs -> sort leb xs = xs.
Proof.
  induction 1 as [|x rest Hrest IH Hx]; simpl; [reflexivity|].
  rewrite IH. destruct rest as [|y more]; simpl; [reflexivity|].
  inversion Hx as [|? ? Hy _]; subst. now rewrite Hy.
Qed.

Lemma lastHit_snoc (current : list Hit) (hit : Hit) :
  lastHit (current ++ [hit]) = Some hit.
Proof.
  unfold lastHit. rewrite length_app, Nat.add_sub. simpl.
  rewrite nth_error_app2 by lia. now rewrite Nat.sub_diag.
Qed.

Lemma lastHit_nonempty (current : list Hit) (last : Hit) :
  lastHit current = Some last -> (1 <= length current)%nat.
Proof.
  destruct current; [discriminate | simpl; lia].
Qed.

Lemma closeCluster_nil (clusters : list (list Hit)) (current : list Hit) :
  closeCluster clusters current = []
  <-> clusters = [] /\ (length current < 2)%nat.
Proof.
  unfold closeCluster. destruct (2 <=? length current)%nat eqn:E.
  - apply Nat.leb_le in E. split.
    + intro H. destruct clusters; discriminate.
    + intros [_ H]. lia.
  - apply Nat.leb_gt in E. tauto.
Qed.

(** The grouping loop leaves no cluster exactly when it starts with
    none, the current group is a single hit, and no hit that follows is
    within five positions of the one before it. *)
Lemma groupClusters_nil (rest : list Hit) :
  forall (clusters : list (list Hit)) (current : list Hit) (last : Hit),
    lastHit current = Some last ->
    (groupClusters clusters current rest = []
     <-> clusters = [] /\ (length current < 2)%nat /\ anyClose last rest = false).
Proof.
  induction rest as [|hit rest IH]; intros clusters current last Hlast.
  - cbn [groupClusters anyClose]. rewrite closeCluster_nil. tauto.
  - cbn [groupClusters anyClose]. rewrite Hlast.
    pose proof (lastHit_nonempty _ _ Hlast) as Hlen.
    destruct (Z.of_nat (hit_position hit) - Z.of_nat (hit_position last) <=? 5)%Z.
    + rewrite (IH clusters (current ++ [hit]) hit (lastHit_snoc _ _)).
      rewrite length_app. simpl. split; [lia | intros (_ & _ & H); discriminate].
    + rewrite (IH (closeCluster clusters current) [hit] hit eq_refl).
      rewrite closeCluster_nil. simpl. intuition lia.
Qed.

Lemma makeClusters_nil (index : nat) (groups : list (list Hit)) :
  makeClusters index groups = [] <-> groups = [].
Proof.
  destruct groups; simpl; split; congruence.
Qed.

Lemma anyClose_neighbours (rest : list Hit) :
  forall last, anyClose last rest = true <-> closeNeighbours (last :: rest).
Proof.
  induction rest as [|hit rest IH]; intro last; cbn [anyClose].
  - split; [discriminate|]. intros (i & hi & hj & _ & Hj & _).
    destruct i; simpl in Hj; [discriminate | destruct i; discriminate].
  - rewrite orb_true_iff, IH, Z.leb_le. split.
    + intros [Hclose|(i & hi & hj & Hi & Hj & Hd)].
      * exists 0%nat, last, hit. repeat split. lia.
      * exists (S i), hi, hj. repeat split; assumption.
    + intros (i & hi & hj & Hi & Hj & Hd). destruct i as [|i].
      * simpl in Hi, Hj. inversion Hi. inversion Hj. subst. left. lia.
      * right. exists i, hi, hj. repeat split; assumption.
Qed.

Lemma detectPatternClusters_in_order (found : list Hit) :
  StronglySorted (fun a b => (hit_position a < hit_position b)%nat) found ->
  (detectPatternClusters found <> [] <-> closeNeighbours found).
Proof.
  intro Hsorted. unfold detectPatternClusters.
  assert (Hkeep : sort (fun a b => (hit_position a <=? hit_position b)%nat) found
                  = found).
  { apply sort_in_order. revert Hsorted.
    induction 1 as [|x rest Hrest IH Hx]; constructor; [exact IH|].
    revert Hx. apply Forall_impl. intros y Hy. apply Nat.leb_le. lia. }
  rewrite Hkeep.
  destruct found as [|first rest].
  { simpl. split; [congruence|]. intros (i & hi & hj & Hi & _).
    destruct i; discriminate. }
  destruct rest as [|second rest].
  { simpl. split; [congruence|]. intros (i & hi & hj & _ & Hj & _).
    destruct i; simpl in Hj; [discriminate | destruct i; discriminate]. }
  cbn [length Nat.ltb Nat.leb]. rewrite <- anyClose_neighbours.
  cbn [groupClusters lastHit length Nat.sub nth_error].
  split.
  - intro Hne. destruct (anyClose first (second :: rest)) eqn:E; [reflexivity|].
    exfalso. apply Hne. apply makeClusters_nil.
    apply (groupClusters_nil (second :: rest) [] [first] first eq_refl).
    simpl. repeat split; [lia | exact E].
  - intros Hclose Hnil. apply makeClusters_nil in Hnil.
    apply (groupClusters_nil (second :: rest) [] [first] first eq_refl) in Hnil.
    destruct Hnil as (_ & _ & Hnil). congruence.
Qed.

Lemma parse_in_order (this : CognitiveEngine) (text : string) :
  StronglySorted (fun a b => (hit_position a < hit_position b)%nat)
                 (parseTextWithEnhancements this text).
Proof.
  apply parseFrom_positions.
Qed.

Lemma close_hits_throw (this : CognitiveEngine) (text : string)
    (key : option string) :
  closeNeighbours (parseTextWithEnhancements this text) ->
  runPipeline this text key
  = Throw "TypeError: cluster.patterns.counts.forEach is not a function".
Proof.
  intro Hclose.
  apply (detectPatternClusters_in_order _ (parse_in_order this text)) in Hclose.
  apply aggregate_throws_iff with (this := this) in Hclose.
  unfold runPipeline. now rewrite Hclose.
Qed.

(** Property X6.
    A run of the pipeline throws exactly when two hits that follow
    one another in the text stand at most five token positions apart:
    these form a cluster, and attaching a cluster to the pattern scores
    fails.  The error is the [TypeError] of that loop. *)
Theorem pipeline_throws_iff_hits_are_close :
  forall (this : CognitiveEngine) (text : string) (key : option string),
    (closeNeighbours (parseTextWithEnhancements this text)
     <-> runPipeline this text key
         = Throw "TypeError: cluster.patterns.counts.forEach is not a function")
    /\ (~ closeNeighbours (parseTextWithEnhancements this text)
        <-> exists analysis, runPipeline this text key = Return analysis).
Proof.
  intros this text key.
  pose proof (detectPatternClusters_in_order _ (parse_in_order this text)) as Hiff.
  pose proof (aggregate_throws_iff this (parseTextWithEnhancements this text)) as Hagg.
  unfold runPipeline.
  destruct (aggregatePatternsWithClusters this (parseTextWithEnhancements this text))
    as [agg|e] eqn:E.
  - split.
    + split; [|discriminate]. intro Hclose. apply Hiff, Hagg in Hclose. discriminate.
    + split; [intros _; eexists; reflexivity|].
      intros _ Hclose. apply Hiff, Hagg in Hclose. discriminate.
  - assert (Hthrown : detectPatternClusters (parseTextWithEnhancements this text) <> []).
    { unfold aggregatePatternsWithClusters in E.
      destruct (detectPatternClusters (parseTextWithEnhancements this text));
        [discriminate | congruence]. }
    split.
    + split; [intros _; f_equal; apply Hagg in Hthrown; congruence|].
      intros _. now apply Hiff.
    + split; [intro Hno; exfalso; apply Hno; now apply Hiff|].
      intros [analysis H]. discriminate.
Qed.

Lemma distributionBonus_bounds (found : list Hit) :
  0 <= calculateDistributionBonus found /\ calculateDistributionBonus found <= 0.1.
Proof.
  unfold calculateDistributionBonus.
  destruct (length found <? 3)%nat; [split; lra|].
  match goal with |- context [Qmin 1 ?x] =>
    assert (Hx : 0 <= x)
      by (apply div_nonneg; [apply Qabs_nonneg | lra]);
    pose proof (Q.le_min_l 1 x) as Hmin;
    assert (Hmin0 : 0 <= Qmin 1 x) by (apply Q.min_glb; lra);
    set (m := Qmin 1 x) in *
  end.
  split; lra.
Qed.

Lemma severities_nonneg (cs : list Conflict) :
  Forall (fun c => 0 <= severity c) cs ->
  0 <= fold_left (fun acc conflict => acc + or_num (Some (severity conflict)) 0.5)
                 cs 0.
Proof.
  intro Hall. apply (fold_add_nonneg (fun c => or_num (Some (severity c)) 0.5));
    [lra|].
  revert Hall. apply Forall_impl. intros c Hc. apply or_num_nonneg; lra.
Qed.

Lemma scorePattern_clusters (this : CognitiveEngine) (total : nat)
    (category : string) (data : PatternScore) :
  clusters (scorePattern this total category data) = clusters data.
Proof. reflexivity. Qed.

(** Property X7.
    Every analysis that [analyze] returns is one without clusters:
    its [clusters] list is empty and so is the [clusters] list of each
    of its patterns, for a run that finds a cluster throws.  With no
    cluster bonus the coherence of a returned analysis is at most
    0.8. *)
Theorem returned_analysis_has_no_clusters :
  forall (this : CognitiveEngine) (st : EngineState) (text : string)
         (options : AnalyzeOptions) (analysis : Analysis),
    Reachable this st ->
    fst (analyze this st text options) = Return analysis ->
    analysis_clusters analysis = []
    /\ Forall (fun entry => clusters (snd entry) = []) (analysis_patterns analysis)
    /\ coherence analysis <= 0.8.
Proof.
  intros this st text options analysis Hreach Hret.
  apply (analyze_result this
           (fun a => analysis_clusters a = []
                     /\ Forall (fun entry => clusters (snd entry) = [])
                               (analysis_patterns a)
                     /\ coherence a <= 0.8))
    with (st := st) (text := text) (options := options); try assumption.
  clear. intros text key a Hrun.
  pose proof (runPipeline_coherence _ _ _ _ Hrun) as Hco.
  destruct (runPipeline_conflicts _ _ _ _ Hrun) as [_ Hsev].
  destruct (runPipeline_aggregate _ _ _ _ Hrun) as (_ & Hagg & _).
  split; [|split].
  - now destruct (aggregate_no_clusters _ _ _ Hagg) as [_ H].
  - apply Forall_forall. intros [category data] Hin.
    destruct (aggregate_entry _ _ _ category data Hagg Hin) as [_ ->].
    cbn [snd]. rewrite scorePattern_clusters.
    now destruct (foldCategory_fields (ownHits category (hits a)))
      as (_ & _ & _ & H & _).
  - rewrite Hco. unfold calculateEnhancedCoherence.
    pose proof (severities_nonneg _ Hsev) as Hpen.
    destruct (distributionBonus_bounds (hits a)) as [_ Hbonus].
    cbn [length]. set (penalty := fold_left _ (conflicts a) 0) in *.
    set (bonus := calculateDistributionBonus (hits a)) in *.
    assert (Hzero : Qmin 0.2 (num 0 * 0.05) == 0) by (vm_compute; reflexivity).
    rewrite Hzero.
    apply Q.max_lub; [lra|].
    eapply Qle_trans; [apply Q.le_min_r | lra].
Qed.

Lemma returned_analysis_has_no_clusters_witness :
  exists analysis,
    fst (analyze sampleEngine initialState twoPatternText {| opt_cache := None |})
    = Return analysis
    /\ map fst (analysis_patterns analysis)
       = ["imperative"; "self_critic"]%string
    /\ analysis_clusters analysis = []
    /\ Forall (fun entry => clusters (snd entry) = []) (analysis_patterns analysis)
    /\ coherence analysis <= 0.8.
Proof.
  eexists.
  assert (Hret : fst (analyze sampleEngine initialState twoPatternText
                              {| opt_cache := None |}) = Return _)
    by (vm_compute; reflexivity).
  split; [exact Hret|]. split; [vm_compute; reflexivity|].
  apply (returned_analysis_has_no_clusters sampleEngine initialState twoPatternText
           {| opt_cache := None |}); [constructor | exact Hret].
Defined.

End Clusters.

(* ================================================================== *)
(** ** The clusters that [detectPatternClusters] builds *)
(* ================================================================== *)

Section ClusterShape.
Import JS Knowledge Conflicts Engine Runs Facts.

Lemma by_position_total (a b : Hit) :
  (hit_position a <=? hit_position b)%nat = true
  \/ (hit_position b <=? hit_position a)%nat = true.
Proof.
  rewrite !Nat.leb_le. lia.
Qed.

Lemma by_position_trans (a b c : Hit) :
  (hit_position a <=? hit_position b)%nat = true ->
  (hit_position b <=? hit_position c)%nat = true ->
  (hit_position a <=? hit_position c)%nat = true.
Proof.
  rewrite !Nat.leb_le. lia.
Qed.

Lemma closeChain_snoc (run : list Hit) (last hit : Hit) :
  closeChain run -> lastHit run = Some last ->
  (hit_position last <= hit_position hit <= hit_position last + 5)%nat ->
  closeChain (run ++ [hit]).
Proof.
  induction run as [|a run IH]; [discriminate|].
  destruct run as [|b run].
  - intros _ Hlast Hclose. inversion Hlast. subst. simpl. auto.
  - intros [Hab Hrest] Hlast Hclose. cbn [app closeChain]. split; [exact Hab|].
    apply IH; [exact Hrest | | exact Hclose].
    unfold lastHit in *. cbn [length Nat.sub] in *.
    now rewrite Nat.sub_0_r in *.
Qed.

Lemma closeChain_ends (run : list Hit) (first last : Hit) :
  closeChain run -> hd_error run = Some first -> lastHit run = Some last ->
  (hit_position first <= hit_position last)%nat.
Proof.
  revert first. induction run as [|a run IH]; intros first; [discriminate|].
  destruct run as [|b run].
  - intros _ Hf Hl. inversion Hf. inversion Hl. subst. lia.
  - intros [Hab Hrest] Hf Hl. inversion Hf. subst a.
    assert (Hb : (hit_position b <= hit_position last)%nat).
    { apply (IH b Hrest eq_refl). unfold lastHit in *.
      cbn [length Nat.sub] in *. now rewrite Nat.sub_0_r in *. }
    lia.
Qed.

(** The groups of the grouping loop. *)
Lemma groupClusters_groups (found rest : list Hit) :
  forall (clusters : list (list Hit)) (current : list Hit),
    Forall (fun run => (2 <= length run)%nat /\ closeChain run /\ incl run found)
           clusters ->
    closeChain current -> incl current found -> incl rest found ->
    (forall last, lastHit current = Some last ->
                  Forall (fun h => (hit_position last <= hit_position h)%nat) rest) ->
    StronglySorted (fun a b => (hit_position a <= hit_position b)%nat) rest ->
    Forall (fun run => (2 <= length run)%nat /\ closeChain run /\ incl run found)
           (groupClusters clusters current rest).
Proof.
  assert (Hclose : forall clusters current,
             Forall (fun run => (2 <= length run)%nat /\ closeChain run
                                /\ incl run found) clusters ->
             closeChain current -> incl current found ->
             Forall (fun run => (2 <= length run)%nat /\ closeChain run
                                /\ incl run found)
                    (closeCluster clusters current)).
  { intros clusters current Hcl Hchain Hincl. unfold closeCluster.
    destruct (2 <=? length current)%nat eqn:E; [|exact Hcl].
    apply Nat.leb_le in E. apply Forall_app. split; [exact Hcl|].
    constructor; [|constructor]. auto. }
  induction rest as [|hit rest IH];
    intros clusters current Hcl Hchain Hincl Hrest Hlast Hsorted;
    cbn [groupClusters].
  - now apply Hclose.
  - inversion Hsorted as [|? ? Hsorted' Hhit]; subst.
    assert (Hin : In hit found) by (apply Hrest; now left).
    assert (Hrest' : incl rest found) by (intros h Hh; apply Hrest; now right).
    assert (Hone : forall last, lastHit [hit] = Some last ->
                     Forall (fun h => (hit_position last <= hit_position h)%nat) rest).
    { intros last Hl. inversion Hl. subst. exact Hhit. }
    destruct (lastHit current) as [last|] eqn:El.
    + specialize (Hlast last eq_refl). inversion Hlast as [|? ? Hle _]; subst.
      destruct (Z.of_nat (hit_position hit) - Z.of_nat (hit_position last) <=? 5)%Z
        eqn:E.
      * apply Z.leb_le in E. apply IH; try assumption.
        -- apply (closeChain_snoc current last hit); [assumption..|lia].
        -- intros h Hh. apply in_app_or in Hh.
           destruct Hh as [Hh|[<-|[]]]; [now apply Hincl | exact Hin].
        -- intros l Hl. rewrite lastHit_snoc in Hl. inversion Hl. subst.
           exact Hhit.
      * apply IH; try assumption.
        -- now apply Hclose.
        -- exact I.
        -- intros h [<-|[]]. exact Hin.
    + apply IH; try assumption.
      * exact I.
      * intros h [<-|[]]. exact Hin.
Qed.

Lemma makeClusters_fields (groups : list (list Hit)) :
  forall index,
    map cluster_id (makeClusters index groups) = seq index (length groups)
    /\ map cluster_markers (makeClusters index groups) = groups
    /\ Forall (fun c =>
                 cluster_size c = length (cluster_markers c)
                 /\ startPosition c = positionOf (hd_error (cluster_markers c))
                 /\ endPosition c = positionOf (lastHit (cluster_markers c)))
              (makeClusters index groups).
Proof.
  induction groups as [|group groups IH]; intro index; cbn [makeClusters map length seq].
  - repeat split. constructor.
  - destruct (IH (S index)) as (Hid & Hm & Hf). rewrite Hid, Hm.
    repeat split. constructor; [cbn; auto | exact Hf].
Qed.

(** Property X8.
    The clusters of [detectPatternClusters] are numbered from 0.  Each
    holds two or more of the given hits, in the order of their
    positions, each at most five token positions after the one before
    it; its [size] is the number of its markers, and it starts at the
    position of its first marker and ends at that of its last. *)
Theorem clusters_are_runs_of_close_hits :
  forall found : list Hit,
    let clusters := detectPatternClusters found in
    map cluster_id clusters = seq 0 (length clusters)
    /\ Forall
         (fun c =>
            cluster_size c = length (cluster_markers c)
            /\ (2 <= cluster_size c)%nat
            /\ incl (cluster_markers c) found
            /\ closeChain (cluster_markers c)
            /\ startPosition c = positionOf (hd_error (cluster_markers c))
            /\ endPosition c = positionOf (lastHit (cluster_markers c))
            /\ (startPosition c <= endPosition c)%nat)
         clusters.
Proof.
  intros found clusters. unfold clusters, detectPatternClusters.
  destruct (length found <? 2)%nat; [split; [reflexivity | constructor]|].
  set (sorted := sort (fun a b => (hit_position a <=? hit_position b)%nat) found).
  assert (Hsorted : StronglySorted
                      (fun a b => (hit_position a <= hit_position b)%nat) sorted).
  { pose proof (sort_sorted _ by_position_total by_position_trans found) as H.
    fold sorted in H. induction H as [|h hs Hhs IH Hh]; constructor; [exact IH|].
    revert Hh. apply Forall_impl. intros h' Hh'. now apply Nat.leb_le. }
  assert (Hincl : incl sorted found).
  { intros h Hh. unfold sorted in Hh. now apply sort_In in Hh. }
  pose proof (groupClusters_groups found sorted [] []
                (Forall_nil _) I (fun h H => match H with end) Hincl
                (fun last H => ltac:(discriminate)) Hsorted) as Hgroups.
  set (groups := groupClusters [] [] sorted) in *.
  destruct (makeClusters_fields groups 0) as (Hid & Hm & Hf).
  assert (Hlen : length (makeClusters 0 groups) = length groups).
  { rewrite <- Hm at 2. now rewrite length_map. }
  split; [now rewrite Hlen|].
  rewrite <- Hm in Hgroups. rewrite Forall_map in Hgroups.
  rewrite Forall_forall in *. intros c Hc.
  destruct (Hf c Hc) as (Hsize & Hstart & Hend).
  destruct (Hgroups c Hc) as (Htwo & Hchain & Hsub).
  split; [exact Hsize|]. split; [now rewrite Hsize|].
  split; [exact Hsub|]. split; [exact Hchain|].
  split; [exact Hstart|]. split; [exact Hend|].
  rewrite Hstart, Hend.
  destruct (cluster_markers c) as [|first run] eqn:E; [simpl in Htwo; lia|].
  assert (Hl : exists last, lastHit (first :: run) = Some last).
  { unfold lastHit. destruct (nth_error (first :: run) (length (first :: run) - 1))
      eqn:En; [eauto|]. apply nth_error_None in En. simpl in En. lia. }
  destruct Hl as [last Hl]. rewrite Hl. cbn [hd_error positionOf].
  now apply (closeChain_ends (first :: run) first last).
Qed.

End ClusterShape.

(* ================================================================== *)
(** ** The books of the pattern aggregation *)
(* ================================================================== *)

Section PatternBooks.
Import JS Knowledge Conflicts Engine Runs Facts.

(** What the first pass keeps true of a pattern score: the per-hit
    lists have [count] entries, the score is the sum over the three
    segments, and, when no weight is negative, the weighted score lies
    between half the score and the score. *)
Lemma foldHit_balanced (hit : Hit) (data : PatternScore) :
  balanced data -> balanced (foldHit hit data).
Proof.
  unfold balanced. intros (Hp & Hm & Hv & Hs).
  cbn [foldHit count positions markers valences score temporalDistribution].
  rewrite !length_app, Hp, Hm, Hv. cbn [length].
  repeat split; try lia.
  destruct (temporalSegment hit); cbn; lra.
Qed.

Lemma foldCategory_balanced (own : list Hit) : balanced (foldCategory own).
Proof.
  unfold foldCategory.
  assert (Hempty : balanced emptyPatternScore).
  { unfold balanced. cbn. repeat split; lra. }
  revert Hempty. generalize emptyPatternScore.
  induction own as [|hit own IH]; intros data Hdata; cbn [fold_left];
    [exact Hdata|].
  apply IH. now apply foldHit_balanced.
Qed.

Lemma foldHits_weights (own : list Hit) :
  Forall (fun hit => 0 <= adjustedWeight hit) own ->
  forall data,
    score data / 2 <= weightedScore data /\ weightedScore data <= score data ->
    let folded := fold_left (fun d hit => foldHit hit d) own data in
    score folded / 2 <= weightedScore folded /\ weightedScore folded <= score folded.
Proof.
  induction 1 as [|hit own Hhit _ IH]; intros data Hdata; cbn [fold_left];
    [exact Hdata|].
  apply IH. cbn [foldHit score weightedScore].
  destruct Hdata as [Hlo Hhi]. destruct (hit_isNegated hit); split; lra_div.
Qed.

Lemma scorePattern_books (this : CognitiveEngine) (total : nat)
    (category : string) (data : PatternScore) :
  let scored := scorePattern this total category data in
  count scored = count data /\ positions scored = positions data
  /\ markers scored = markers data /\ valences scored = valences data
  /\ score scored = score data /\ weightedScore scored = weightedScore data
  /\ temporalDistribution scored = temporalDistribution data.
Proof.
  cbn. repeat split.
Qed.

(** One hit raises the total of the counts by one. *)
Lemma update_counts (scores : list (string * PatternScore)) (key : string)
    (f : PatternScore -> PatternScore) (data : PatternScore) :
  get scores key = Some data ->
  (forall d, count (f d) = S (count d)) ->
  totalCount (update scores key f) = S (totalCount scores).
Proof.
  unfold totalCount. intros Hget Hf.
  induction scores as [|[k d] rest IH]; simpl in *; [discriminate|].
  destruct (String.eqb k key); simpl.
  - rewrite Hf. lia.
  - rewrite IH by assumption. lia.
Qed.

Lemma accumulateHit_counts (scores : list (string * PatternScore)) (hit : Hit) :
  totalCount (accumulateHit scores hit) = S (totalCount scores).
Proof.
  unfold accumulateHit.
  assert (Hf : forall d, count (foldHit hit d) = S (count d))
    by (intro d; cbn; lia).
  destruct (get scores (hit_category hit)) as [data|] eqn:Hget.
  - now apply update_counts with (data := data).
  - rewrite update_counts with (data := emptyPatternScore);
      [|now apply get_app_absent | exact Hf].
    unfold totalCount. rewrite map_app, list_sum_app. simpl. lia.
Qed.

Lemma accumulated_counts (found : list Hit) :
  forall scores,
    totalCount (fold_left accumulateHit found scores)
    = (totalCount scores + length found)%nat.
Proof.
  induction found as [|hit found IH]; intro scores; cbn [fold_left length];
    [lia|].
  rewrite IH, accumulateHit_counts. lia.
Qed.

Lemma ownHits_nonempty (category : string) (found : list Hit) :
  ownHits category found <> [] <-> In category (map hit_category found).
Proof.
  unfold ownHits. rewrite in_map_iff. split.
  - intro Hne. destruct (filter _ found) as [|hit own] eqn:E; [congruence|].
    assert (Hin : In hit (filter (fun h => String.eqb (hit_category h) category)
                                 found)) by (rewrite E; now left).
    apply filter_In in Hin. destruct Hin as [Hin Heq].
    apply String.eqb_eq in Heq. now exists hit.
  - intros (hit & Hcat & Hin) Hnil.
    assert (Hown : In hit (filter (fun h => String.eqb (hit_category h) category)
                                  found)).
    { apply filter_In. split; [exact Hin | now apply String.eqb_eq]. }
    rewrite Hnil in Hown. destruct Hown.
Qed.

(** Property X9.
    When the aggregation returns, its pattern scores keep the books of
    the hits: there is one score per category that has a hit, and none
    else; each hit is counted once, so the counts add up to the number
    of hits; a score's [count] is the number of hits of its category
    and the length of its [positions] and [markers]; its [score] is the
    sum of its three temporal segments; and, no weight being negative,
    its [weightedScore] lies between half its [score] and its
    [score]. *)
Theorem pattern_scores_keep_the_books :
  forall (this : CognitiveEngine) (found : list Hit) (agg : Aggregation),
    aggregatePatternsWithClusters this found = Return agg ->
    NoDup (keys (patternScores agg))
    /\ (forall category,
          In category (keys (patternScores agg))
          <-> In category (map hit_category found))
    /\ totalCount (patternScores agg) = length found
    /\ Forall
         (fun entry =>
            count (snd entry) = length (ownHits (fst entry) found)
            /\ positions (snd entry) = map hit_position (ownHits (fst entry) found)
            /\ balanced (snd entry)
            /\ (Forall (fun hit => 0 <= adjustedWeight hit) found ->
                score (snd entry) / 2 <= weightedScore (snd entry)
                /\ weightedScore (snd entry) <= score (snd entry)))
         (patternScores agg).
Proof.
  intros this found agg Hagg.
  pose proof (aggregate_scores _ _ _ Hagg) as Hscores.
  assert (Hkeys : keys (patternScores agg) = keys (fold_left accumulateHit found [])).
  { rewrite Hscores. unfold keys. rewrite map_map. apply map_ext.
    now intros [category data]. }
  assert (Hnodup : NoDup (keys (patternScores agg))).
  { rewrite Hkeys. apply accumulated_keys. constructor. }
  split; [exact Hnodup|]. split; [|split].
  - intro category. rewrite Hkeys, <- ownHits_nonempty.
    pose proof (accumulated_get found [] [] (fun _ => eq_refl) category) as Hget.
    cbn [app] in Hget. unfold accumulatedFor in Hget. split.
    + intros Hin Hnil. rewrite Hnil in Hget.
      apply get_None_keys in Hget. contradiction.
    + intro Hne. destruct (ownHits category found) as [|h own]; [congruence|].
      apply get_In in Hget. unfold keys. apply in_map_iff.
      now exists (category, foldCategory (h :: own)).
  - pose proof (accumulated_counts found []) as Hcounts.
    change (totalCount []) with 0%nat in Hcounts. cbn [Nat.add] in Hcounts.
    rewrite <- Hcounts.
    rewrite Hscores. unfold totalCount. rewrite map_map. f_equal.
    apply map_ext. now intros [category data].
  - apply Forall_forall. intros [category data] Hin. cbn [fst snd].
    destruct (aggregate_entry _ _ _ _ _ Hagg Hin) as [_ ->].
    destruct (scorePattern_books this (length found) category
                (foldCategory (ownHits category found)))
      as (Hc & Hp & Hm & Hv & Hs & Hw & Ht).
    destruct (foldCategory_fields (ownHits category found))
      as (Hcount & _ & Hpos & _ & _).
    split; [now rewrite Hc|]. split; [now rewrite Hp|]. split.
    + pose proof (foldCategory_balanced (ownHits category found)) as Hb.
      unfold balanced in *. rewrite Hc, Hp, Hm, Hv, Hs, Ht. exact Hb.
    + intro Hall. rewrite Hs, Hw. unfold foldCategory.
      apply foldHits_weights.
      * apply Forall_forall. intros hit Hown. unfold ownHits in Hown.
        apply filter_In in Hown. rewrite Forall_forall in Hall.
        now apply Hall.
      * cbn. split; [unfold Qle; simpl; lia | lra].
Qed.

Lemma pattern_scores_keep_the_books_witness :
  exists agg,
    aggregatePatternsWithClusters sampleEngine
      (parseTextWithEnhancements sampleEngine twoPatternText) = Return agg
    /\ map (fun entry => (fst entry, count (snd entry))) (patternScores agg)
       = [("imperative"%string, 1%nat); ("self_critic"%string, 2%nat)]
    /\ totalCount (patternScores agg)
       = length (parseTextWithEnhancements sampleEngine twoPatternText).
Proof.
  eexists.
  assert (Hagg : aggregatePatternsWithClusters sampleEngine
                   (parseTextWithEnhancements sampleEngine twoPatternText)
                 = Return _) by (vm_compute; reflexivity).
  split; [exact Hagg|]. split; [vm_compute; reflexivity|].
  exact (proj1 (proj2 (proj2
           (pattern_scores_keep_the_books sampleEngine _ _ Hagg)))).
Defined.

End PatternBooks.

(* ================================================================== *)
(** ** The books of the driver inference *)
(* ================================================================== *)

Section DriverBooks.
Import JS Knowledge Conflicts Engine Runs Facts.

Lemma sum_from (xs : list Q) (acc : Q) :
  fold_left Qplus xs acc == acc + sum xs.
Proof.
  unfold sum. revert acc. induction xs as [|x xs IH]; intro acc; simpl; [lra|].
  rewrite (IH (acc + x)), (IH (0 + x)). lra.
Qed.

Lemma sum_cons (x : Q) (xs : list Q) : sum (x :: xs) == x + sum xs.
Proof.
  unfold sum at 1. simpl. rewrite sum_from. lra.
Qed.

Lemma sum_app (xs ys : list Q) : sum (xs ++ ys) == sum xs + sum ys.
Proof.
  induction xs as [|x xs IH]; simpl.
  - unfold sum at 2. simpl. lra.
  - rewrite !sum_cons, IH. lra.
Qed.

(** Sorting does not change a sum. *)
Lemma sum_sort {A} (leb : A -> A -> bool) (f : A -> Q) (xs : list A) :
  sum (map f (sort leb xs)) == sum (map f xs).
Proof.
  induction xs as [|x xs IH]; simpl; [reflexivity|].
  rewrite sum_cons, <- IH. generalize (sort leb xs). intro sorted.
  induction sorted as [|y more IHs]; simpl; [now rewrite sum_cons|].
  destruct (leb x y); simpl; rewrite !sum_cons; [reflexivity|].
  rewrite IHs. lra.
Qed.

Lemma update_entries {A} (P : string -> A -> Prop) (obj : list (string * A))
    (key : string) (f : A -> A) :
  (forall v, P key v -> P key (f v)) ->
  Forall (fun entry => P (fst entry) (snd entry)) obj ->
  Forall (fun entry => P (fst entry) (snd entry)) (update obj key f).
Proof.
  intros Hf. induction 1 as [|[k v] rest Hv Hrest IH]; simpl; [constructor|].
  destruct (String.eqb k key) eqn:E.
  - apply String.eqb_eq in E. subst k. constructor; [now apply Hf | exact Hrest].
  - constructor; assumption.
Qed.

Lemma update_appended {A} (obj : list (string * A)) (key : string) (v : A)
    (f : A -> A) :
  get obj key = None ->
  update (obj ++ [(key, v)]) key f = obj ++ [(key, f v)].
Proof.
  induction obj as [|[k w] rest IH]; simpl.
  - now rewrite String.eqb_refl.
  - destruct (String.eqb k key); [discriminate|]. intro H. now rewrite IH.
Qed.

Lemma NoDup_snoc {A} (xs : list A) (x : A) :
  NoDup xs -> ~ In x xs -> NoDup (xs ++ [x]).
Proof.
  induction 1 as [|y ys Hy Hys IH]; intro Hx; simpl.
  - constructor; [intros [] | constructor].
  - constructor.
    + intro Hin. apply in_app_or in Hin. destruct Hin as [Hin|[<-|[]]].
      * contradiction.
      * apply Hx. now left.
    + apply IH. intro Hin. apply Hx. now right.
Qed.

Lemma contribute_books (this : CognitiveEngine)
    (scores : list (string * PatternScore)) (category : string)
    (pattern : PatternDef) (data : PatternScore) (d : DriverScore) :
  get (patterns (kb this)) category = Some pattern ->
  In (category, data) scores ->
  d = emptyDriverScore \/ driverBooks this scores (driver pattern) d ->
  driverBooks this scores (driver pattern) (contribute category pattern data d).
Proof.
  intros Hget Hin Hd. unfold driverBooks.
  cbn [contribute contributingPatterns driver_weightedScore].
  assert (Hnew : forall c,
             c = {| contributing_pattern := category;
                    patternName := pattern_name pattern;
                    contribution_weight := weightedScore data;
                    contribution :=
                      weightedScore data * or_num (weight_multiplier pattern) 1;
                    contribution_confidence := confidence data;
                    contribution_intensity := intensity data |} ->
             exists p dt,
               get (patterns (kb this)) (contributing_pattern c) = Some p
               /\ driver p = driver pattern
               /\ In (contributing_pattern c, dt) scores
               /\ contribution c = weightedScore dt * or_num (weight_multiplier p) 1).
  { intros c ->. exists pattern, data. cbn. repeat split; assumption. }
  split; [now destruct (contributingPatterns d)|]. split.
  - intros c Hc. apply in_app_or in Hc. destruct Hc as [Hc|[Hc|[]]].
    + destruct Hd as [->|(_ & Hold & _)]; [destruct Hc | now apply Hold].
    + now apply Hnew.
  - rewrite map_app, sum_app. cbn [map contribution]. rewrite sum_cons.
    destruct Hd as [->|(_ & _ & Hsum)].
    + cbn. unfold sum. simpl. lra.
    + rewrite Hsum. unfold sum at 3. simpl. lra.
Qed.

Lemma inferStep_books (this : CognitiveEngine)
    (scores : list (string * PatternScore))
    (driverScores : list (string * DriverScore)) (entry : string * PatternScore) :
  In entry scores ->
  NoDup (keys driverScores)
  /\ Forall (fun e => driverBooks this scores (fst e) (snd e)) driverScores ->
  NoDup (keys (inferStep this driverScores entry))
  /\ Forall (fun e => driverBooks this scores (fst e) (snd e))
            (inferStep this driverScores entry).
Proof.
  intros Hin [Hnd Hall]. destruct entry as [category data]. unfold inferStep.
  destruct (get (patterns (kb this)) category) as [pattern|] eqn:Hget;
    [|split; assumption].
  destruct (String.length (driver pattern) =? 0)%nat; [split; assumption|].
  destruct (get driverScores (driver pattern)) as [d|] eqn:Hd.
  - split; [now rewrite keys_update|].
    apply (update_entries (driverBooks this scores)); [|exact Hall].
    intros v Hv. apply contribute_books; auto.
  - rewrite update_appended by exact Hd. split.
    + unfold keys. rewrite map_app. cbn [map fst].
      apply NoDup_snoc; [exact Hnd | now apply get_None_keys in Hd].
    + apply Forall_app. split; [exact Hall|]. constructor; [|constructor].
      cbn [fst snd]. apply contribute_books; auto.
Qed.

Lemma inferSteps_books (this : CognitiveEngine)
    (scores rest : list (string * PatternScore)) :
  forall driverScores,
    (forall entry, In entry rest -> In entry scores) ->
    NoDup (keys driverScores)
    /\ Forall (fun e => driverBooks this scores (fst e) (snd e)) driverScores ->
    NoDup (keys (fold_left (inferStep this) rest driverScores))
    /\ Forall (fun e => driverBooks this scores (fst e) (snd e))
              (fold_left (inferStep this) rest driverScores).
Proof.
  induction rest as [|entry rest IH]; intros driverScores Hsub Hinv;
    cbn [fold_left]; [exact Hinv|].
  apply IH; [intros e He; apply Hsub; now right|].
  apply inferStep_books; [apply Hsub; now left | exact Hinv].
Qed.

(** Property X10.
    The driver scores keep the books of the pattern scores they are
    inferred from.  There is one score per driver.  Each driver has at
    least one contributing pattern; every contribution comes from a
    pattern that the knowledge base assigns to that driver and is the
    pattern's weighted score times its declared multiplier; the
    driver's weighted score is the sum of its contributions; its
    normalized score is that sum divided by 5 and capped at 10; and the
    driver is primary exactly when the normalized score is at least
    5. *)
Theorem driver_scores_keep_the_books :
  forall (this : CognitiveEngine) (scores : list (string * PatternScore)),
    let inferred := inferDriversWithConfidence this scores in
    NoDup (keys inferred)
    /\ Forall
         (fun entry =>
            driverBooks this scores (fst entry) (snd entry)
            /\ normalizedScore (snd entry)
               == Qmin 10 (sum (map contribution (contributingPatterns (snd entry))) / 5)
            /\ normalizedScore (snd entry) <= 10
            /\ (primary (snd entry) = true <-> 5 <= normalizedScore (snd entry)))
         inferred.
Proof.
  intros this scores inferred.
  destruct (inferSteps_books this scores scores [] (fun _ H => H))
    as [Hnd Hall].
  { split; constructor. }
  unfold inferred, inferDriversWithConfidence. split.
  - unfold keys. rewrite map_map.
    replace (map (fun x => fst (let '(name, data) := x in
                                (name, finishDriver this name data)))
                 (fold_left (inferStep this) scores []))
      with (keys (fold_left (inferStep this) scores [])); [exact Hnd|].
    unfold keys. apply map_ext. now intros [name data].
  - apply Forall_map. revert Hall. apply Forall_impl.
    intros [name d] (Hne & Hcs & Hsum). cbn [fst snd] in *.
    assert (Hsorted :
              sum (map contribution
                       (sort (fun a b => Qle_bool (contribution b) (contribution a))
                             (contributingPatterns d)))
              == sum (map contribution (contributingPatterns d)))
      by apply sum_sort.
    split; [|split; [|split]].
    + unfold driverBooks.
      cbn [finishDriver contributingPatterns driver_weightedScore].
      split; [|split].
      * intro Hnil. apply Hne.
        apply (f_equal (@length Contribution)) in Hnil.
        rewrite sort_length in Hnil.
        now destruct (contributingPatterns d).
      * intros c Hc. apply sort_In in Hc. now apply Hcs.
      * now rewrite Hsorted.
    + cbn [finishDriver normalizedScore contributingPatterns].
      rewrite Hsorted, <- Hsum. reflexivity.
    + cbn [finishDriver normalizedScore]. apply Q.le_min_l.
    + cbn [finishDriver normalizedScore primary]. apply Qle_bool_iff.
Qed.

End DriverBooks.

(* ================================================================== *)
(** ** Driver confidence in the two versions of the engine *)
(* ================================================================== *)

Section DriverVersions.
Import JS Knowledge Conflicts Engine Runs Facts.

Lemma share_at_most_one (k n : nat) : (k <= n)%nat -> num k / num n <= 1.
Proof.
  intro Hkn. destruct n as [|n].
  - assert (k = 0%nat) by lia. subst k. vm_compute. discriminate.
  - apply Qle_shift_div_r.
    + unfold num. change 0 with (inject_Z 0). rewrite <- Zlt_Qlt. lia.
    + rewrite Qmult_1_l. unfold num. rewrite <- Zle_Qle. lia.
Qed.

Lemma filter_at_most {A} (f : A -> bool) (xs : list A) :
  (length (filter f xs) <= length xs)%nat.
Proof.
  induction xs as [|x xs IH]; simpl; [lia|]. destruct (f x); simpl; lia.
Qed.

Lemma v30_weightedScore_nonneg (found : list EngineV30.Hit) :
  Forall (fun hit => 0 <= EngineV30.adjustedWeight hit) found ->
  forall acc,
    Forall (fun e => 0 <= EngineV30.weightedScore (snd e)) acc ->
    Forall (fun e => 0 <= EngineV30.weightedScore (snd e))
           (fold_left EngineV30.accumulateHit found acc).
Proof.
  induction 1 as [|hit found Hhit _ IH]; intros acc Hacc; cbn [fold_left];
    [exact Hacc|].
  apply IH. unfold EngineV30.accumulateHit.
  assert (Hstep : forall data,
             0 <= EngineV30.weightedScore data ->
             0 <= EngineV30.weightedScore (EngineV30.foldHit hit data)).
  { intros data Hdata. cbn [EngineV30.foldHit EngineV30.weightedScore].
    destruct (EngineV30.hit_isNegated hit); lra. }
  apply (update_values (fun data => 0 <= EngineV30.weightedScore data)).
  - intros v Hv. apply Hstep.
    destruct (get acc (EngineV30.hit_category hit)) as [v0|] eqn:G.
    + apply get_In in Hv. rewrite Forall_forall in Hacc. exact (Hacc _ Hv).
    + rewrite get_app, G in Hv. cbn [get] in Hv.
      rewrite String.eqb_refl in Hv. inversion Hv. cbn. lra.
  - destruct (get acc (EngineV30.hit_category hit)); [exact Hacc|].
    apply Forall_app. split; [exact Hacc|]. constructor; [cbn; lra | constructor].
Qed.

(** The confidence that version 3.0 computes for a pattern is not
    negative when neither the weights nor the multipliers are. *)
Lemma v30_confidence_nonneg (this : CognitiveEngine) (found : list EngineV30.Hit) :
  multipliersNonNegative (kb this) ->
  Forall (fun hit => 0 <= EngineV30.adjustedWeight hit) found ->
  Forall (fun e => 0 <= EngineV30.confidence (snd e))
         (EngineV30.aggregatePatterns this found).
Proof.
  intros Hmult Hw. unfold EngineV30.aggregatePatterns.
  pose proof (v30_weightedScore_nonneg found Hw [] (Forall_nil _)) as Hscores.
  apply Forall_map. revert Hscores. apply Forall_impl.
  intros [category data] Hdata. cbn [snd] in *.
  cbn [EngineV30.scorePattern EngineV30.confidence].
  assert (Hcount : 0 <= Qmin (num (EngineV30.count data) / 5) 1).
  { apply Q.min_glb; [|lra]. apply div_nonneg; [|lra].
    unfold num. change 0 with (inject_Z 0). rewrite <- Zle_Qle. lia. }
  assert (Hweight : 0 <= EngineV30.weightedScore data
                         / (num (EngineV30.count data) * 5)).
  { apply div_nonneg; [exact Hdata|].
    apply Qmult_le_0_compat; [|lra].
    unfold num. change 0 with (inject_Z 0). rewrite <- Zle_Qle. lia. }
  assert (Hdist : 0 <= EngineV30.calculateDistributionScore
                         (EngineV30.positions data) (length found)).
  { unfold EngineV30.calculateDistributionScore.
    destruct (length (EngineV30.positions data) <? 2)%nat; [lra|].
    cbv zeta. eapply Qle_trans; [|apply Q.le_max_l]. lra. }
  pose proof (share_at_most_one _ _
                (filter_at_most EngineV30.negated (EngineV30.markers data)))
    as Hshare.
  set (cf := Qmin (num (EngineV30.count data) / 5) 1) in *.
  set (wf := EngineV30.weightedScore data / (num (EngineV30.count data) * 5)) in *.
  set (df := EngineV30.calculateDistributionScore _ _) in *.
  set (share := num (length (filter EngineV30.negated (EngineV30.markers data)))
                / num (length (EngineV30.markers data))) in *.
  assert (Hconf : 0 <= cf * 0.3 + wf * 0.3 + df * 0.2 + (1 - share * 0.5) * 0.2)
    by lra.
  destruct (get (patterns (kb this)) category) as [pattern|] eqn:G; [|exact Hconf].
  apply Qmult_le_0_compat; [exact Hconf|].
  apply get_In in G. unfold multipliersNonNegative in Hmult.
  rewrite Forall_forall in Hmult. exact (Hmult _ G).
Qed.

Lemma v30_contribute_first (scores : list (string * EngineV30.PatternScore))
    (category : string) (pattern : PatternDef) (data : EngineV30.PatternScore) :
  In (category, data) scores -> 0 <= EngineV30.confidence data ->
  driverInvariantV30 scores
    (EngineV30.contribute category pattern data EngineV30.emptyDriverScore).
Proof.
  intros Hin Hnn. unfold driverInvariantV30, EngineV30.contribute. cbn.
  split; [discriminate|]. split.
  - intros c [<-|[]]. cbn. split; [now exists data | apply Q.le_max_r].
  - eexists. split; [now left|]. cbn. symmetry. now apply Q.max_r.
Qed.

Lemma v30_contribute_next (scores : list (string * EngineV30.PatternScore))
    (category : string) (pattern : PatternDef) (data : EngineV30.PatternScore)
    (d : EngineV30.DriverScore) :
  In (category, data) scores ->
  driverInvariantV30 scores d ->
  driverInvariantV30 scores (EngineV30.contribute category pattern data d).
Proof.
  intros Hin (Hne & Hall & c0 & Hc0 & Hmax).
  unfold driverInvariantV30, EngineV30.contribute. cbn.
  split; [now destruct (EngineV30.contributingPatterns d)|]. split.
  - intros c Hc. apply in_app_or in Hc. destruct Hc as [Hc|[<-|[]]].
    + destruct (Hall c Hc) as [Hsrc Hle]. split; [exact Hsrc|].
      eapply Qle_trans; [exact Hle | apply Q.le_max_l].
    + cbn. split; [now exists data | apply Q.le_max_r].
  - destruct (Qlt_le_dec (EngineV30.confidence data) (EngineV30.driver_confidence d))
      as [Hlt|Hle].
    + exists c0. split; [apply in_or_app; now left|].
      rewrite Hmax. symmetry. apply Q.max_l. lra.
    + eexists. split; [apply in_or_app; right; now left|].
      cbn. symmetry. now apply Q.max_r.
Qed.

Lemma filter_snoc {A} (f : A -> bool) (xs : list A) (x : A) :
  filter f (xs ++ [x]) = filter f xs ++ (if f x then [x] else []).
Proof.
  rewrite filter_app. reflexivity.
Qed.

(** An update under [key] of an object without a repeated key: the
    entry of [key] changes, every other entry stays. *)
Lemma update_one {A} (P Q : string -> A -> Prop) (obj : list (string * A))
    (key : string) (f : A -> A) :
  (forall k v, k <> key -> P k v -> Q k v) ->
  (forall v, P key v -> Q key (f v)) ->
  NoDup (keys obj) ->
  Forall (fun e => P (fst e) (snd e)) obj ->
  Forall (fun e => Q (fst e) (snd e)) (update obj key f).
Proof.
  intros Hother Hkey. unfold keys.
  induction obj as [|[k v] rest IH]; intros Hnd Hall; cbn [update];
    [constructor|].
  inversion Hall as [|? ? Hv Hrest]; subst. cbn [fst snd] in Hv.
  inversion Hnd as [|? ? Hnotin Hnd']; subst. cbn [map fst] in *.
  destruct (String.eqb k key) eqn:E.
  - apply String.eqb_eq in E. subst k. constructor; [now apply Hkey|].
    rewrite Forall_forall in *. intros [k' v'] Hin. cbn [fst snd].
    apply Hother; [|exact (Hrest _ Hin)].
    intro Heq. subst k'. apply Hnotin. change key with (fst (key, v')).
    now apply in_map.
  - constructor; [|now apply IH]. cbn [fst snd]. apply Hother; [|exact Hv].
    intro Heq. subst k. rewrite String.eqb_refl in E. discriminate.
Qed.

Lemma v30_inferStep_recorded (this : CognitiveEngine)
    (scores done : list (string * EngineV30.PatternScore))
    (acc : list (string * EngineV30.DriverScore))
    (entry : string * EngineV30.PatternScore) :
  In entry scores -> 0 <= EngineV30.confidence (snd entry) ->
  recorded this scores done acc ->
  recorded this scores (done ++ [entry]) (EngineV30.inferStep this acc entry).
Proof.
  destruct entry as [category data]. intros Hin Hnn (Hnd & Hall & Habsent).
  cbn [snd] in Hnn.
  assert (Hkeys : keys (done ++ [(category, data)]) = keys done ++ [category]).
  { unfold keys. rewrite map_app. reflexivity. }
  unfold recorded. rewrite Hkeys. unfold EngineV30.inferStep.
  assert (Hskip :
    (forall name, drives (kb this) name category = false) ->
    NoDup (keys acc)
    /\ Forall (fun e =>
                 driverInvariantV30 scores (snd e)
                 /\ map EngineV30.contributing_pattern
                        (EngineV30.contributingPatterns (snd e))
                    = filter (drives (kb this) (fst e)) (keys done ++ [category]))
              acc
    /\ (forall name, ~ In name (keys acc) ->
                     filter (drives (kb this) name) (keys done ++ [category]) = [])).
  { intro Hno. split; [exact Hnd|]. split.
    - revert Hall. apply Forall_impl. intros e [Hinv Hord].
      split; [exact Hinv|]. rewrite filter_snoc, Hno, app_nil_r. exact Hord.
    - intros name Hname. rewrite filter_snoc, Hno, app_nil_r. now apply Habsent. }
  destruct (get (patterns (kb this)) category) as [pattern|] eqn:Hget.
  2:{ apply Hskip. intro name. unfold drives. now rewrite Hget. }
  destruct (String.length (driver pattern) =? 0)%nat eqn:Hlen.
  { apply Hskip. intro name. unfold drives. now rewrite Hget, Hlen. }
  assert (Hdrives : forall name,
             drives (kb this) name category = String.eqb (driver pattern) name).
  { intro name. unfold drives. now rewrite Hget, Hlen. }
  destruct (get acc (driver pattern)) as [d|] eqn:Hd.
  - split; [now rewrite keys_update|]. split.
    + apply (update_one
               (fun name d =>
                  driverInvariantV30 scores d
                  /\ map EngineV30.contributing_pattern
                         (EngineV30.contributingPatterns d)
                     = filter (drives (kb this) name) (keys done))
               (fun name d =>
                  driverInvariantV30 scores d
                  /\ map EngineV30.contributing_pattern
                         (EngineV30.contributingPatterns d)
                     = filter (drives (kb this) name) (keys done ++ [category])));
        [| |exact Hnd|exact Hall].
      * intros k v Hk [Hinv Hord]. split; [exact Hinv|].
        rewrite filter_snoc, Hdrives.
        destruct (String.eqb (driver pattern) k) eqn:E.
        { apply String.eqb_eq in E. congruence. }
        now rewrite app_nil_r.
      * intros v [Hinv Hord]. split; [now apply v30_contribute_next|].
        rewrite filter_snoc, Hdrives, String.eqb_refl.
        cbn [EngineV30.contribute EngineV30.contributingPatterns].
        rewrite map_app, Hord. reflexivity.
    + intros name Hname. rewrite keys_update in Hname.
      rewrite filter_snoc, Hdrives.
      destruct (String.eqb (driver pattern) name) eqn:E.
      { apply String.eqb_eq in E. subst name. exfalso. apply Hname.
        apply get_In in Hd. change (driver pattern) with (fst (driver pattern, d)).
        now apply in_map. }
      rewrite app_nil_r. now apply Habsent.
  - rewrite update_appended by exact Hd.
    pose proof (get_None_keys _ _ Hd) as Hnew.
    split; [|split].
    + unfold keys. rewrite map_app. cbn [map fst].
      apply NoDup_snoc; [exact Hnd | exact Hnew].
    + apply Forall_app. split.
      * rewrite Forall_forall in *. intros [k v] Hkv. cbn [fst snd].
        destruct (Hall _ Hkv) as [Hinv Hord]. cbn [fst snd] in Hord.
        split; [exact Hinv|].
        rewrite filter_snoc, Hdrives.
        destruct (String.eqb (driver pattern) k) eqn:E.
        { apply String.eqb_eq in E. subst k. exfalso. apply Hnew.
          change (driver pattern) with (fst (driver pattern, v)).
          now apply in_map. }
        now rewrite app_nil_r.
      * constructor; [|constructor]. cbn [fst snd].
        split; [now apply v30_contribute_first|].
        rewrite filter_snoc, Hdrives, String.eqb_refl, (Habsent _ Hnew).
        reflexivity.
    + intros name Hname. unfold keys in Hname. rewrite map_app in Hname.
      cbn [map fst] in Hname.
      rewrite filter_snoc, Hdrives.
      destruct (String.eqb (driver pattern) name) eqn:E.
      { apply String.eqb_eq in E. subst name. exfalso. apply Hname.
        apply in_or_app. right. now left. }
      rewrite app_nil_r. apply Habsent. intro H. apply Hname.
      apply in_or_app. now left.
Qed.

Lemma v30_inferSteps_recorded (this : CognitiveEngine)
    (scores : list (string * EngineV30.PatternScore))
    (rest : list (string * EngineV30.PatternScore)) :
  forall done acc,
    (forall entry, In entry rest ->
                   In entry scores /\ 0 <= EngineV30.confidence (snd entry)) ->
    recorded this scores done acc ->
    recorded this scores (done ++ rest)
             (fold_left (EngineV30.inferStep this) rest acc).
Proof.
  induction rest as [|entry rest IH]; intros done acc Hrest Hrec; cbn [fold_left].
  - now rewrite app_nil_r.
  - replace (done ++ entry :: rest) with ((done ++ [entry]) ++ rest)
      by (now rewrite <- app_assoc).
    apply IH; [intros e He; apply Hrest; now right|].
    destruct (Hrest entry (or_introl eq_refl)). now apply v30_inferStep_recorded.
Qed.

(** The drivers that [inferDrivers] of version 3.0 returns, for
    pattern scores without a negative confidence. *)
Lemma v30_inferDrivers_maximum (this : CognitiveEngine)
    (scores : list (string * EngineV30.PatternScore)) (name : string)
    (d : EngineV30.DriverScore) :
  Forall (fun entry => 0 <= EngineV30.confidence (snd entry)) scores ->
  In (name, d) (EngineV30.inferDrivers this scores) ->
  driverInvariantV30 scores d
  /\ map EngineV30.contributing_pattern (EngineV30.contributingPatterns d)
     = filter (drives (kb this) name) (keys scores).
Proof.
  intros Hnn Hin. unfold EngineV30.inferDrivers in Hin.
  apply in_map_iff in Hin. destruct Hin as ([n d0] & Heq & Hin).
  inversion Heq. subst n d. clear Heq.
  assert (Hrec : recorded this scores ([] ++ scores)
                          (fold_left (EngineV30.inferStep this) scores [])).
  { apply v30_inferSteps_recorded.
    - intros entry He. split; [exact He|].
      rewrite Forall_forall in Hnn. now apply Hnn.
    - split; [constructor|]. split; [constructor|]. reflexivity. }
  destruct Hrec as (_ & Hall & _). rewrite Forall_forall in Hall.
  destruct (Hall _ Hin) as [Hinv Hord]. cbn [fst snd app] in *.
  split; [|exact Hord].
  unfold driverInvariantV30, EngineV30.finishDriver. cbn. exact Hinv.
Qed.

(** Claim C6, as amended.  On a knowledge base whose weight
    multipliers are not negative, both versions of the engine give a
    driver the maximum of the confidences of its contributing
    patterns: every driver has a contributing pattern, each
    contribution records the confidence of one of the pattern scores,
    and the driver's confidence is an upper bound of these confidences
    and equal to one of them.  In every analysis that [analyze] of
    version 3.2 returns the contributions are sorted by contribution,
    largest first.  [inferDrivers] of version 3.0 does not sort: its
    contributions stand in the order of the pattern scores they come
    from. *)
Theorem driver_confidence_is_maximum :
  forall this : CognitiveEngine,
    multipliersNonNegative (kb this) ->
    (forall (st : EngineState) (text : string) (options : AnalyzeOptions)
            (analysis : Analysis),
        Reachable this st ->
        fst (analyze this st text options) = Return analysis ->
        forall name d,
          In (name, d) (analysis_drivers analysis) ->
          contributingPatterns d <> []
          /\ (forall c, In c (contributingPatterns d) ->
                (exists data,
                    In (contributing_pattern c, data) (analysis_patterns analysis)
                    /\ contribution_confidence c = confidence data)
                /\ contribution_confidence c <= driver_confidence d)
          /\ (exists c, In c (contributingPatterns d)
                        /\ contribution_confidence c == driver_confidence d)
          /\ StronglySorted (fun a b => contribution b <= contribution a)
                            (contributingPatterns d))
    /\ (forall (input : string) name d,
          In (name, d) (driversV30 this input) ->
          EngineV30.contributingPatterns d <> []
          /\ (forall c, In c (EngineV30.contributingPatterns d) ->
                (exists data,
                    In (EngineV30.contributing_pattern c, data)
                       (EngineV30.aggregatePatterns this
                          (EngineV30.parseText this input))
                    /\ EngineV30.contribution_confidence c
                       = EngineV30.confidence data)
                /\ EngineV30.contribution_confidence c
                   <= EngineV30.driver_confidence d)
          /\ (exists c, In c (EngineV30.contributingPatterns d)
                        /\ EngineV30.contribution_confidence c
                           == EngineV30.driver_confidence d)
          /\ map EngineV30.contributing_pattern (EngineV30.contributingPatterns d)
             = filter (drives (kb this) name)
                      (keys (EngineV30.aggregatePatterns this
                               (EngineV30.parseText this input)))).
Proof.
  intros this Hmult. split.
  - intros st text options analysis Hreach Hret name d Hin.
    exact (analysis_driver_confidence this st text options analysis
             Hmult Hreach Hret name d Hin).
  - intros input name d Hin. unfold driversV30 in Hin.
    assert (Hnn : Forall (fun entry => 0 <= EngineV30.confidence (snd entry))
                         (EngineV30.aggregatePatterns this
                            (EngineV30.parseText this input))).
    { apply v30_confidence_nonneg; [exact Hmult|].
      pose proof (parseText_weights this input) as Hw.
      revert Hw. apply Forall_impl. intros hit Hhit. lra. }
    destruct (v30_inferDrivers_maximum this _ name d Hnn Hin)
      as ((Hne & Hall & Hmax) & Hord).
    split; [exact Hne|]. split; [exact Hall|]. split; [exact Hmax | exact Hord].
Qed.

Lemma driver_confidence_is_maximum_witness :
  (exists analysis,
      fst (analyze sampleEngine initialState twoPatternText {| opt_cache := None |})
      = Return analysis
      /\ map (fun entry =>
                (fst entry,
                 map (fun c => (contributing_pattern c, Qred (contribution c),
                                Qred (contribution_confidence c)))
                     (contributingPatterns (snd entry)),
                 Qred (driver_confidence (snd entry))))
             (analysis_drivers analysis)
         = expectedDrivers
      /\ forall name d,
           In (name, d) (analysis_drivers analysis) ->
           StronglySorted (fun a b => contribution b <= contribution a)
                          (contributingPatterns d))
  /\ map (fun entry =>
            (fst entry,
             map (fun c => (EngineV30.contributing_pattern c,
                            Qred (EngineV30.contribution c),
                            Qred (EngineV30.contribution_confidence c)))
                 (EngineV30.contributingPatterns (snd entry)),
             Qred (EngineV30.driver_confidence (snd entry))))
         (driversV30 engineV30 twoPatternText)
     = expectedDriversV30
  /\ (forall name d,
         In (name, d) (driversV30 engineV30 twoPatternText) ->
         exists c, In c (EngineV30.contributingPatterns d)
                   /\ EngineV30.contribution_confidence c
                      == EngineV30.driver_confidence d).
Proof.
  split; [|split; [vm_compute; reflexivity|]].
  - eexists. split; [vm_compute; reflexivity|]. split; [vm_compute; reflexivity|].
    match goal with
    | |- forall name d, In _ (analysis_drivers ?a) -> _ =>
        assert (Hret : fst (analyze sampleEngine initialState twoPatternText
                              {| opt_cache := None |}) = Return a)
          by (vm_compute; reflexivity)
    end.
    intros name d Hin.
    exact (proj2 (proj2 (proj2
             (proj1 (driver_confidence_is_maximum sampleEngine
                       knowledge_base_multipliers)
                    _ _ _ _ (reach_initial _) Hret name d Hin)))).
  - intros name d Hin.
    exact (proj1 (proj2 (proj2
             (proj2 (driver_confidence_is_maximum engineV30
                       knowledge_base_multipliers)
                    twoPatternText name d Hin)))).
Defined.

(** Claim C6, counterexample.  For the text of one [imperative] and
    two [self_critic] markers, [inferDrivers] of version 3.0 returns
    the driver [validation] with the contributions 4.55 of
    [imperative] and 10.64 of [self_critic], in this order, which is
    the order of the markers in the text and not the descending
    one. *)
Lemma v30_contributing_patterns_unsorted :
  map (fun entry =>
         (fst entry,
          map (fun c => (EngineV30.contributing_pattern c,
                         Qred (EngineV30.contribution c)))
              (EngineV30.contributingPatterns (snd entry))))
      (driversV30 engineV30 twoPatternText)
  = [("validation", [("imperative", 91 # 20); ("self_critic", 266 # 25)])]%string
  /\ exists d,
       In ("validation"%string, d) (driversV30 engineV30 twoPatternText)
       /\ ~ StronglySorted
            (fun a b => EngineV30.contribution b <= EngineV30.contribution a)
            (EngineV30.contributingPatterns d).
Proof.
  split; [vm_compute; reflexivity|].
  assert (Hd : exists d,
             driversV30 engineV30 twoPatternText = [("validation"%string, d)]
             /\ map (fun c => Qred (EngineV30.contribution c))
                    (EngineV30.contributingPatterns d)
                = [91 # 20; 266 # 25]).
  { eexists. split; vm_compute; reflexivity. }
  destruct Hd as (d & Hd & Hc). exists d. split; [rewrite Hd; now left|].
  intro Hsorted.
  destruct (EngineV30.contributingPatterns d) as [|a [|b rest]];
    try discriminate Hc.
  cbn [map] in Hc. inversion Hc as [[Ha Hb Hrest]].
  inversion Hsorted as [|? ? _ Hall]. inversion Hall as [|? ? Hba _].
  rewrite <- (Qred_correct (EngineV30.contribution a)),
          <- (Qred_correct (EngineV30.contribution b)), Ha, Hb in Hba.
  vm_compute in Hba. apply Hba. reflexivity.
Qed.

End DriverVersions.

(* ================================================================== *)
(** ** The conflicts of an analysis *)
(* ================================================================== *)

Section ConflictFacts.
Import JS Knowledge Conflicts Engine Runs Facts.

Lemma by_severity_total (a b : Conflict) :
  Qle_bool (severity b) (severity a) = true
  \/ Qle_bool (severity a) (severity b) = true.
Proof.
  rewrite !Qle_bool_iff. destruct (Qlt_le_dec (severity a) (severity b)); [right|left];
    lra.
Qed.

Lemma by_severity_trans (a b c : Conflict) :
  Qle_bool (severity b) (severity a) = true ->
  Qle_bool (severity c) (severity b) = true ->
  Qle_bool (severity c) (severity a) = true.
Proof.
  rewrite !Qle_bool_iff. lra.
Qed.

(** Property X11.
    [detectEnhancedConflicts] returns the conflicts of all four kinds
    in one list ordered by severity, the most severe first; the list
    holds exactly the conflicts that the four scans find.  So the
    conflict that the insights report, [conflicts[0]], is one of the
    largest severity. *)
Theorem conflicts_are_ordered_by_severity :
  forall (this : CognitiveEngine) (driverScores : list (string * DriverScore))
         (scores : list (string * PatternScore)) (found : list Hit),
    let detected := detectEnhancedConflicts this driverScores scores found in
    StronglySorted (fun a b => severity b <= severity a) detected
    /\ (forall c,
          In c detected
          <-> In c (flat_map (driverConflict this) (pairs driverScores)
                    ++ lexicalScan this found
                    ++ flat_map selfNegation found
                    ++ flat_map modifierConflict found))
    /\ (forall first c, hd_error detected = Some first -> In c detected ->
                        severity c <= severity first).
Proof.
  intros this driverScores scores found detected.
  assert (Hsorted : StronglySorted (fun a b => severity b <= severity a) detected).
  { unfold detected, detectEnhancedConflicts, sortBySeverity.
    match goal with |- StronglySorted _ (sort ?leb ?xs) =>
      pose proof (sort_sorted leb by_severity_total by_severity_trans xs) as H;
      induction H as [|c cs Hcs IH Hc]; constructor; [exact IH|];
      revert Hc; apply Forall_impl; intros c' Hc'; now apply Qle_bool_iff
    end. }
  split; [exact Hsorted|]. split.
  - intro c. unfold detected, detectEnhancedConflicts, sortBySeverity.
    apply sort_In.
  - intros first c Hhd Hin. destruct detected as [|c0 rest]; [discriminate|].
    inversion Hhd. subst c0. inversion Hsorted as [|? ? _ Hfirst]; subst.
    destruct Hin as [<-|Hin]; [lra|].
    rewrite Forall_forall in Hfirst. now apply Hfirst.
Qed.

Lemma get_includes_keys {A} (obj : list (string * A)) (key : string) (v : A) :
  get obj key = Some v -> includes (keys obj) key = true.
Proof.
  induction obj as [|[k w] rest IH]; simpl; [discriminate|].
  rewrite (String.eqb_sym key k). destruct (String.eqb k key); [reflexivity|].
  exact IH.
Qed.

Lemma includes_In (arr : list string) (w : string) :
  includes arr w = true <-> In w arr.
Proof.
  unfold includes. rewrite existsb_exists. split.
  - intros (x & Hx & E). apply String.eqb_eq in E. now subst.
  - intro H. exists w. split; [exact H | apply String.eqb_refl].
Qed.

(** With a lexicon whose [contradicts] lists name no marker, no marker
    contradicts a marker. *)
Lemma unlisted_contradiction (kb : KnowledgeBase) (w other : string)
    (marker otherMarker : LexiconEntry) :
  contradictionsUnlisted kb = true ->
  get (lexicon kb) w = Some marker ->
  get (lexicon kb) other = Some otherMarker ->
  includes (contradicts marker) other = false.
Proof.
  unfold contradictionsUnlisted. rewrite forallb_forall.
  intros Hall Hget Hother.
  apply get_In in Hget. specialize (Hall _ Hget). cbn [snd] in Hall.
  rewrite forallb_forall in Hall.
  destruct (includes (contradicts marker) other) eqn:E; [|reflexivity].
  apply includes_In in E. specialize (Hall _ E).
  rewrite (get_includes_keys _ _ _ Hother) in Hall. discriminate.
Qed.

Lemma lexicalScan_nil (this : CognitiveEngine) (found : list Hit) :
  contradictionsUnlisted (kb this) = true ->
  Forall (fun hit => exists marker,
            get (lexicon (kb this)) (hit_word hit) = Some marker) found ->
  lexicalScan this found = [].
Proof.
  intros Hkb. induction 1 as [|hit later [marker Hget] Hlater IH];
    cbn [lexicalScan]; [reflexivity|].
  rewrite IH, Hget, app_nil_r.
  assert (Hnine : Forall (fun h => exists m,
                            get (lexicon (kb this)) (hit_word h) = Some m)
                         (firstn 9 later)).
  { apply Forall_forall. intros h Hh. apply firstn_In in Hh.
    rewrite Forall_forall in Hlater. now apply Hlater. }
  induction Hnine as [|other more [m Hm] _ IHn]; simpl; [reflexivity|].
  now rewrite (unlisted_contradiction _ _ _ _ _ Hkb Hget Hm), IHn.
Qed.

Lemma narrative_lexicalScan_nil (kb : KnowledgeBase)
    (found : list ConflictResolver.HitView) :
  contradictionsUnlisted kb = true ->
  Forall (fun hit => exists marker,
            get (lexicon kb) (ConflictResolver.word hit) = Some marker) found ->
  ConflictResolver.lexicalScan kb found = [].
Proof.
  intros Hkb. induction 1 as [|hit later [marker Hget] Hlater IH];
    cbn [ConflictResolver.lexicalScan]; [reflexivity|].
  rewrite IH, Hget, app_nil_r. clear IH.
  induction Hlater as [|other more [m Hm] _ IHn]; simpl; [reflexivity|].
  now rewrite (unlisted_contradiction _ _ _ _ _ Hkb Hget Hm).
Qed.

Lemma parse_words_are_markers (this : CognitiveEngine) (text : string) :
  Forall (fun hit => exists marker,
            get (lexicon (kb this)) (hit_word hit) = Some marker)
         (parseTextWithEnhancements this text).
Proof.
  apply Forall_forall. intros hit Hin.
  apply parseFrom_In in Hin. destruct Hin as (j & token & _ & Hp).
  destruct (parseToken_fields _ _ _ _ _ Hp) as (marker & _ & Hget & ->).
  now exists marker.
Qed.

Lemma runPipeline_detected (this : CognitiveEngine) (text : string)
    (key : option string) (analysis : Analysis) :
  runPipeline this text key = Return analysis ->
  hits analysis = parseTextWithEnhancements this text
  /\ conflicts analysis
     = detectEnhancedConflicts this (analysis_drivers analysis)
         (analysis_patterns analysis) (hits analysis).
Proof.
  unfold runPipeline.
  destruct (aggregatePatternsWithClusters this (parseTextWithEnhancements this text));
    [|discriminate].
  intro H. inversion H. split; reflexivity.
Qed.

(** Property X12.
    When no word that the lexicon lists under [contradicts] is itself
    a marker, which is the case for the knowledge base of the
    repository, the lexical scan finds nothing in the hits of any
    text, in the engine and in the conflict module alike, and no
    analysis that [analyze] returns has a conflict of type
    [lexical_contradiction]. *)
Theorem no_lexical_contradiction_without_listed_markers :
  forall this : CognitiveEngine,
    contradictionsUnlisted (kb this) = true ->
    (forall text,
        lexicalScan this (parseTextWithEnhancements this text) = []
        /\ ConflictResolver.lexicalScan (kb this)
             (map ConflictResolver.ofHit (parseTextWithEnhancements this text)) = [])
    /\ (forall st text options analysis,
          Reachable this st ->
          fst (analyze this st text options) = Return analysis ->
          Forall (fun c => conflict_type c <> lexical_contradiction)
                 (conflicts analysis)).
Proof.
  intros this Hkb.
  assert (Hscan : forall text,
             lexicalScan this (parseTextWithEnhancements this text) = []).
  { intro text. apply lexicalScan_nil; [exact Hkb | apply parse_words_are_markers]. }
  split.
  - intro text. split; [apply Hscan|].
    apply narrative_lexicalScan_nil; [exact Hkb|].
    apply Forall_map. exact (parse_words_are_markers this text).
  - intros st text options analysis Hreach Hret.
    apply (analyze_result this
             (fun a => Forall (fun c => conflict_type c <> lexical_contradiction)
                              (conflicts a)))
      with (st := st) (text := text) (options := options); try assumption.
    intros text' key a Hrun.
    destruct (runPipeline_detected _ _ _ _ Hrun) as [Hhits Hcs].
    apply Forall_forall. intros c Hin Htype. rewrite Hcs in Hin.
    apply lexical_conflicts_of_scan in Hin; [|exact Htype].
    rewrite Hhits, Hscan in Hin. destruct Hin.
Qed.

Lemma no_lexical_contradiction_without_listed_markers_witness :
  contradictionsUnlisted (kb sampleEngine) = true
  /\ lexicalScan sampleEngine
       (parseTextWithEnhancements sampleEngine
          "always x x x x x x sometimes x x x x x x never") = []
  /\ map hit_word
       (parseTextWithEnhancements sampleEngine
          "always x x x x x x sometimes x x x x x x never")
     = ["always"; "never"]%string.
Proof.
  assert (Hkb : contradictionsUnlisted (kb sampleEngine) = true)
    by (vm_compute; reflexivity).
  split; [exact Hkb|]. split; [|vm_compute; reflexivity].
  exact (proj1 (proj1 (no_lexical_contradiction_without_listed_markers
                         sampleEngine Hkb) _)).
Defined.

Lemma fold_severity_eq (cs : list Conflict) (x y : Q) :
  x == y ->
  fold_left (fun acc conflict => acc + or_num (Some (severity conflict)) 0.5) cs x
  == fold_left (fun acc conflict => acc + or_num (Some (severity conflict)) 0.5) cs y.
Proof.
  revert x y. induction cs as [|c cs IH]; intros x y Hxy; simpl; [exact Hxy|].
  apply IH. now rewrite Hxy.
Qed.

(** Property X13.
    In the coherence score a conflict of severity 0 is charged like one
    of severity 0.5, since [conflict.severity || 0.5] takes 0 for
    absent.  A lexical contradiction between hits twenty or more
    token positions apart is such a conflict: its distance factor and
    its severity are 0. *)
Theorem zero_severity_is_charged_as_half :
  (forall (found : list Hit) (c c' : Conflict) (cs : list Conflict)
          (groups : list Cluster),
      severity c == 0 -> severity c' == 0.5 ->
      calculateEnhancedCoherence found (c :: cs) groups
      == calculateEnhancedCoherence found (c' :: cs) groups)
  /\ (forall hit otherHit : Hit,
        (hit_position hit + 20 <= hit_position otherHit)%nat ->
        severity (lexicalContradiction hit otherHit) == 0).
Proof.
  split.
  - intros found c c' cs groups Hc Hc'. unfold calculateEnhancedCoherence.
    cbn [fold_left].
    assert (Hcharge : 0 + or_num (Some (severity c)) 0.5
                      == 0 + or_num (Some (severity c')) 0.5).
    { unfold or_num.
      assert (E : Qeq_bool (severity c) 0 = true) by now apply Qeq_bool_iff.
      assert (E' : Qeq_bool (severity c') 0 = false).
      { destruct (Qeq_bool (severity c') 0) eqn:E'; [|reflexivity].
        apply Qeq_bool_iff in E'. lra. }
      rewrite E, E'. lra. }
    rewrite (fold_severity_eq cs _ _ Hcharge). reflexivity.
  - intros hit otherHit Hfar. unfold lexicalContradiction. cbn [severity].
    set (dist := inject_Z (Z.of_nat (hit_position otherHit)
                           - Z.of_nat (hit_position hit))).
    assert (Hdist : 20 <= dist).
    { unfold dist, Qle. simpl. lia. }
    assert (Hfactor : Qmax 0 (1 - dist / 20) == 0).
    { apply Q.max_l. lra_div. }
    rewrite Hfactor. ring.
Qed.

Lemma zero_severity_is_charged_as_half_witness :
  exists hit otherHit,
    parseTextWithEnhancements contrastEngine farText = [hit; otherHit]
    /\ lexicalScan contrastEngine [hit; otherHit]
       = [lexicalContradiction hit otherHit]
    /\ severity (lexicalContradiction hit otherHit) == 0
    /\ calculateEnhancedCoherence [hit; otherHit]
         [lexicalContradiction hit otherHit] []
       == calculateEnhancedCoherence [hit; otherHit] [halfConflict] []
    /\ calculateEnhancedCoherence [hit; otherHit] [halfConflict] [] == 0.65.
Proof.
  eexists. eexists. split; [vm_compute; reflexivity|].
  split; [vm_compute; reflexivity|].
  match goal with |- severity ?c == 0 /\ _ =>
    assert (Hzero : severity c == 0)
      by (apply (proj2 zero_severity_is_charged_as_half); vm_compute; lia)
  end.
  split; [exact Hzero|]. split.
  - apply (proj1 zero_severity_is_charged_as_half); [exact Hzero | reflexivity].
  - vm_compute. reflexivity.
Defined.

End ConflictFacts.

(* ================================================================== *)
(** ** The cache seen from a caller *)
(* ================================================================== *)

Section CacheBehaviour.
Import JS Knowledge Conflicts Engine Runs Facts.

Lemma get_update_same {A} (obj : list (string * A)) (key : string) (f : A -> A) :
  get (update obj key f) key = option_map f (get obj key).
Proof.
  induction obj as [|[k w] rest IH]; simpl; [reflexivity|].
  destruct (String.eqb k key) eqn:E; simpl; rewrite E; [reflexivity | exact IH].
Qed.

Lemma get_mapSet {A} (m : list (string * A)) (key : string) (v : A) :
  get (mapSet m key v) key = Some v.
Proof.
  unfold mapSet. destruct (get m key) eqn:E.
  - rewrite get_update_same, E. reflexivity.
  - now apply get_app_absent.
Qed.

Lemma get_setToCache {A} (m : list (string * A)) (key : string) (v : A) :
  get (setToCache m key v) key = Some v.
Proof.
  unfold setToCache. apply get_mapSet.
Qed.

(** The key under which a call looks its text up, if it does. *)
Lemma analyze_hit (this : CognitiveEngine) (st : EngineState) (text : string)
    (options : AnalyzeOptions) (a : Analysis) :
  opt_cache options <> Some false ->
  get (cache st) (getCacheKey text options) = Some a ->
  analyze this st text options
  = (Return a,
     {| cache := cache st;
        stats := {| analyses := analyses (stats st);
                    totalMarkers := totalMarkers (stats st);
                    cacheHits := S (cacheHits (stats st));
                    cacheMisses := cacheMisses (stats st) |} |}).
Proof.
  intros Hopt Hget. unfold analyze, getFromCache.
  destruct (opt_cache options) as [[|]|]; try congruence; now rewrite Hget.
Qed.

Lemma analyze_caches (this : CognitiveEngine) (st : EngineState) (text : string)
    (options : AnalyzeOptions) (a : Analysis) :
  opt_cache options <> Some false ->
  fst (analyze this st text options) = Return a ->
  get (cache (snd (analyze this st text options))) (getCacheKey text options)
  = Some a.
Proof.
  intros Hopt. unfold analyze, getFromCache.
  destruct (opt_cache options) as [[|]|]; try congruence;
    (destruct (get (cache st) (getCacheKey text _)) as [c|] eqn:Hget; simpl;
     [ intro H; inversion H; subst; exact Hget
     | destruct (runPipeline this text _) as [r|e]; simpl; intro H; inversion H;
       subst; apply get_setToCache ]).
Qed.

(** Property X14.
    With caching on, a call that returned is answered from the cache
    when it is repeated: the same analysis comes back, the cache and
    the counters [analyses] and [totalMarkers] stay as they are, and
    [cacheHits] goes up by one. *)
Theorem repeated_call_is_served_from_cache :
  forall (this : CognitiveEngine) (st : EngineState) (text : string)
         (options : AnalyzeOptions) (a : Analysis),
    opt_cache options <> Some false ->
    fst (analyze this st text options) = Return a ->
    let st1 := snd (analyze this st text options) in
    analyze this st1 text options
    = (Return a,
       {| cache := cache st1;
          stats := {| analyses := analyses (stats st1);
                      totalMarkers := totalMarkers (stats st1);
                      cacheHits := S (cacheHits (stats st1));
                      cacheMisses := cacheMisses (stats st1) |} |}).
Proof.
  intros this st text options a Hopt Hret st1.
  apply analyze_hit; [exact Hopt|]. now apply analyze_caches.
Qed.

Lemma repeated_call_is_served_from_cache_witness :
  exists a,
    fst (analyze sampleEngine initialState scenarioText {| opt_cache := None |})
    = Return a
    /\ fst (analyze sampleEngine
              (snd (analyze sampleEngine initialState scenarioText
                            {| opt_cache := None |}))
              scenarioText {| opt_cache := None |})
       = Return a.
Proof.
  eexists.
  assert (Hret : fst (analyze sampleEngine initialState scenarioText
                              {| opt_cache := None |}) = Return _)
    by (vm_compute; reflexivity).
  split; [exact Hret|].
  rewrite (repeated_call_is_served_from_cache sampleEngine initialState
             scenarioText {| opt_cache := None |} _ ltac:(discriminate) Hret).
  reflexivity.
Defined.

(** Property X15.
    The cache is keyed by a hash of the text and never compares the
    texts themselves: when two texts have the same cache key, a call on
    the second after a call on the first returns the analysis of the
    first. *)
Theorem colliding_text_gets_the_cached_analysis :
  forall (this : CognitiveEngine) (st : EngineState) (text other : string)
         (options : AnalyzeOptions) (a : Analysis),
    opt_cache options <> Some false ->
    getCacheKey text options = getCacheKey other options ->
    fst (analyze this st text options) = Return a ->
    fst (analyze this (snd (analyze this st text options)) other options)
    = Return a.
Proof.
  intros this st text other options a Hopt Hkey Hret.
  rewrite (analyze_hit this _ other options a Hopt); [reflexivity|].
  rewrite <- Hkey. now apply analyze_caches.
Qed.

Lemma colliding_text_gets_the_cached_analysis_witness :
  exists a,
    getCacheKey collidingText1 {| opt_cache := None |}
    = getCacheKey collidingText2 {| opt_cache := None |}
    /\ fst (analyze sampleEngine initialState collidingText1 {| opt_cache := None |})
       = Return a
    /\ map hit_word (hits a) = ["never"%string]
    /\ map hit_word
         (hitsOf (fst (analyze sampleEngine initialState collidingText2
                               {| opt_cache := None |}))) = []
    /\ fst (analyze sampleEngine
              (snd (analyze sampleEngine initialState collidingText1
                            {| opt_cache := None |}))
              collidingText2 {| opt_cache := None |})
       = Return a.
Proof.
  eexists.
  assert (Hkey : getCacheKey collidingText1 {| opt_cache := None |}
                 = getCacheKey collidingText2 {| opt_cache := None |})
    by (vm_compute; reflexivity).
  assert (Hret : fst (analyze sampleEngine initialState collidingText1
                              {| opt_cache := None |}) = Return _)
    by (vm_compute; reflexivity).
  split; [exact Hkey|]. split; [exact Hret|].
  split; [vm_compute; reflexivity|]. split; [vm_compute; reflexivity|].
  apply (colliding_text_gets_the_cached_analysis sampleEngine initialState
           collidingText1 collidingText2 {| opt_cache := None |} _
           ltac:(discriminate) Hkey Hret).
Defined.

(** Property X16.
    A call that throws caches nothing and counts no analysis: the
    cache and the counters [analyses], [totalMarkers] and [cacheHits]
    are as before, and the same call throws again when it is
    repeated. *)
Theorem failed_call_is_not_cached :
  forall (this : CognitiveEngine) (st : EngineState) (text : string)
         (options : AnalyzeOptions) (thrown : string),
    fst (analyze this st text options) = Throw thrown ->
    let st1 := snd (analyze this st text options) in
    cache st1 = cache st
    /\ analyses (stats st1) = analyses (stats st)
    /\ totalMarkers (stats st1) = totalMarkers (stats st)
    /\ cacheHits (stats st1) = cacheHits (stats st)
    /\ fst (analyze this st1 text options) = Throw thrown.
Proof.
  intros this st text options thrown. unfold analyze, getFromCache.
  destruct (opt_cache options) as [[|]|];
    try (destruct (get (cache st) (getCacheKey text _)) as [c|] eqn:Hget; simpl;
         [ discriminate
         | destruct (runPipeline this text _) as [r|e] eqn:Hrun; simpl;
           [ discriminate
           | intro H; rewrite Hget; simpl; auto ] ]).
  destruct (runPipeline this text None) as [r|e] eqn:Hrun; simpl;
    [discriminate | intro H; simpl; auto].
Qed.

Lemma failed_call_is_not_cached_witness :
  exists thrown,
    fst (analyze sampleEngine initialState testText {| opt_cache := None |})
    = Throw thrown
    /\ cache (snd (analyze sampleEngine initialState testText {| opt_cache := None |}))
       = []
    /\ fst (analyze sampleEngine
              (snd (analyze sampleEngine initialState testText
                            {| opt_cache := None |}))
              testText {| opt_cache := None |})
       = Throw thrown.
Proof.
  eexists.
  assert (Hthrow : fst (analyze sampleEngine initialState testText
                                {| opt_cache := None |}) = Throw _)
    by (vm_compute; reflexivity).
  destruct (failed_call_is_not_cached sampleEngine initialState testText
              {| opt_cache := None |} _ Hthrow) as (Hc & _ & _ & _ & Hagain).
  split; [exact Hthrow|]. split; [exact Hc | exact Hagain].
Defined.

End CacheBehaviour.

(* ================================================================== *)
(** ** Cache keys *)
(* ================================================================== *)

Section CacheKeys.
Import JS Knowledge Conflicts Engine Runs Facts.

Lemma append_cancel (s a b : string) : (s ++ a = s ++ b)%string -> a = b.
Proof.
  induction s as [|c s IH]; simpl; [auto|]. intro H. inversion H. auto.
Qed.

Lemma runPipeline_other_key (this : CognitiveEngine) (text : string)
    (key key' : option string) (a : Analysis) :
  runPipeline this text key = Return a ->
  exists a', runPipeline this text key' = Return a' /\ hits a' = hits a.
Proof.
  unfold runPipeline.
  destruct (aggregatePatternsWithClusters this (parseTextWithEnhancements this text));
    [|discriminate].
  intro H. inversion H. eexists. split; reflexivity.
Qed.

(** Property X17.
    The options are part of the cache key: [analyze(text)] and
    [analyze(text, { cache: true })] look the text up under different
    keys.  So on a fresh engine the second of the two calls misses the
    cache, runs the pipeline again and stores a second entry for the
    same text. *)
Theorem options_are_part_of_the_cache_key :
  forall (this : CognitiveEngine) (text : string) (a : Analysis),
    fst (analyze this initialState text {| opt_cache := None |}) = Return a ->
    let st1 := snd (analyze this initialState text {| opt_cache := None |}) in
    let second := analyze this st1 text {| opt_cache := Some true |} in
    getCacheKey text {| opt_cache := None |}
    <> getCacheKey text {| opt_cache := Some true |}
    /\ (exists a', fst second = Return a' /\ hits a' = hits a)
    /\ keys (cache (snd second))
       = [getCacheKey text {| opt_cache := None |};
          getCacheKey text {| opt_cache := Some true |}]
    /\ cacheHits (stats (snd second)) = 0%nat
    /\ cacheMisses (stats (snd second)) = 2%nat
    /\ analyses (stats (snd second)) = 2%nat.
Proof.
  intros this text a Hret st1 second.
  assert (Hkeys : getCacheKey text {| opt_cache := None |}
                  <> getCacheKey text {| opt_cache := Some true |}).
  { unfold getCacheKey. intro H. apply append_cancel in H.
    apply append_cancel in H. vm_compute in H. discriminate. }
  split; [exact Hkeys|].
  remember (getCacheKey text {| opt_cache := None |}) as k1 eqn:E1.
  remember (getCacheKey text {| opt_cache := Some true |}) as k2 eqn:E2.
  assert (Hne : String.eqb k1 k2 = false) by now apply String.eqb_neq.
  assert (Hrun : runPipeline this text (Some k1) = Return a).
  { revert Hret. unfold analyze, getFromCache. cbn [opt_cache]. rewrite <- E1.
    cbn [initialState cache get fst].
    destruct (runPipeline this text (Some k1)); [|discriminate].
    intro H. now inversion H. }
  assert (Hst1 : st1 = {| cache := [(k1, a)];
                          stats := {| analyses := 1;
                                      totalMarkers := length (hits a);
                                      cacheHits := 0; cacheMisses := 1 |} |}).
  { unfold st1, analyze, getFromCache. cbn [opt_cache]. rewrite <- E1.
    cbn [initialState cache get]. rewrite Hrun. reflexivity. }
  destruct (runPipeline_other_key this text _ (Some k2) a Hrun)
    as (a' & Hrun' & Hhits).
  assert (Hsecond :
            second
            = (Return a',
               {| cache := [(k1, a); (k2, a')];
                  stats := {| analyses := 2;
                              totalMarkers := length (hits a) + length (hits a');
                              cacheHits := 0; cacheMisses := 2 |} |})).
  { unfold second. rewrite Hst1. unfold analyze, getFromCache.
    cbn [opt_cache]. rewrite <- E2. cbn [cache get]. rewrite Hne, Hrun'.
    unfold recordAnalysis, setToCache, mapSet.
    cbn [cache stats length Nat.ltb Nat.leb get analyses totalMarkers cacheHits
         cacheMisses]. rewrite Hne. reflexivity. }
  rewrite Hsecond. cbn [fst snd cache stats keys map cacheHits cacheMisses analyses].
  split; [now exists a'|]. repeat split.
Qed.

Lemma options_are_part_of_the_cache_key_witness :
  exists a,
    fst (analyze sampleEngine initialState scenarioText {| opt_cache := None |})
    = Return a
    /\ length (cache (snd (analyze sampleEngine
                             (snd (analyze sampleEngine initialState scenarioText
                                           {| opt_cache := None |}))
                             scenarioText {| opt_cache := Some true |}))) = 2%nat.
Proof.
  eexists.
  assert (Hret : fst (analyze sampleEngine initialState scenarioText
                              {| opt_cache := None |}) = Return _)
    by (vm_compute; reflexivity).
  split; [exact Hret|].
  destruct (options_are_part_of_the_cache_key sampleEngine scenarioText _ Hret)
    as (_ & _ & Hk & _).
  unfold keys in Hk. apply (f_equal (@length string)) in Hk.
  rewrite length_map in Hk. exact Hk.
Defined.

End CacheKeys.

(* ================================================================== *)
(** ** Batches and statistics *)
(* ================================================================== *)

Section Batches.
Import JS Knowledge Conflicts Engine Runs Facts.

Lemma filter_split {A} (f : A -> bool) (xs : list A) :
  (length (filter f xs) + length (filter (fun x => negb (f x)) xs))%nat = length xs.
Proof.
  induction xs as [|x xs IH]; simpl; [reflexivity|].
  destruct (f x); simpl; lia.
Qed.

(** The entry that [analyzeBatch] records for a call's completion. *)
Lemma batchFrom_entries (this : CognitiveEngine) (options : AnalyzeOptions)
    (texts : list string) :
  forall (i : nat) (st : EngineState),
    snd (batchFrom this options i texts st) = analyzeAll this options texts st
    /\ map batch_index (fst (batchFrom this options i texts st))
       = seq i (length texts)
    /\ (forall k text,
          nth_error texts k = Some text ->
          exists r,
            nth_error (fst (batchFrom this options i texts st)) k = Some r
            /\ r = match fst (analyze this
                                (analyzeAll this options (firstn k texts) st)
                                text options) with
                   | Return analysis =>
                       {| batch_index := i + k; batch_success := true;
                          batch_data := Some analysis; batch_error := None |}
                   | Throw thrown =>
                       {| batch_index := i + k; batch_success := false;
                          batch_data := None;
                          batch_error := Some (errorMessage thrown) |}
                   end).
Proof.
  induction texts as [|text texts IH]; intros i st.
  - cbn. repeat split. intros [|k] t H; discriminate.
  - cbn [batchFrom]. unfold analyzeAll. cbn [fold_left length seq].
    destruct (analyze this st text options) as [result st1] eqn:Ha.
    specialize (IH (S i) st1).
    destruct (batchFrom this options (S i) texts st1) as [results st2].
    cbn [fst snd] in *. destruct IH as (Hst & Hidx & Hnth).
    split; [exact Hst|]. split.
    + cbn [map]. rewrite Hidx. f_equal. now destruct result.
    + intros [|k] t Hk; cbn [nth_error firstn fold_left] in *.
      * inversion Hk. subst t. eexists. split; [reflexivity|].
        unfold analyzeAll. cbn [fold_left]. rewrite Ha. cbn [fst].
        rewrite Nat.add_0_r. reflexivity.
      * destruct (Hnth k t Hk) as (r & Hr & Heq). exists r. split; [exact Hr|].
        rewrite Heq. unfold analyzeAll. cbn [fold_left]. rewrite Ha. cbn [snd].
        now replace (i + S k)%nat with (S i + k)%nat by lia.
Qed.

(** Property X18.
    [analyzeBatch] reports one result per text, in the order of the
    texts and numbered from 0; [successful] and [failed] add up to
    [total], the number of texts.  The engine goes through the texts
    one after the other, each call starting in the state the call
    before left; a call that throws gives a failed result with the
    error's message and does not stop the batch. *)
Theorem batch_reports_every_text :
  forall (this : CognitiveEngine) (st : EngineState) (texts : list string)
         (options : AnalyzeOptions),
    let results := fst (fst (analyzeBatch this st texts options)) in
    let summary := snd (fst (analyzeBatch this st texts options)) in
    snd (analyzeBatch this st texts options) = analyzeAll this options texts st
    /\ map batch_index results = seq 0 (length texts)
    /\ summary_total summary = length texts
    /\ (summary_successful summary + summary_failed summary)%nat = length texts
    /\ (forall k text,
          nth_error texts k = Some text ->
          exists r,
            nth_error results k = Some r
            /\ r = match fst (analyze this
                                (analyzeAll this options (firstn k texts) st)
                                text options) with
                   | Return analysis =>
                       {| batch_index := k; batch_success := true;
                          batch_data := Some analysis; batch_error := None |}
                   | Throw thrown =>
                       {| batch_index := k; batch_success := false;
                          batch_data := None;
                          batch_error := Some (errorMessage thrown) |}
                   end).
Proof.
  intros this st texts options. unfold analyzeBatch.
  destruct (batchFrom_entries this options texts 0 st) as (Hst & Hidx & Hnth).
  destruct (batchFrom this options 0 texts st) as [results st'].
  cbn [fst snd] in *.
  assert (Hlen : length results = length texts).
  { rewrite <- (length_map batch_index), Hidx. apply length_seq. }
  cbn [summary_total summary_successful summary_failed].
  split; [exact Hst|]. split; [exact Hidx|]. split; [exact Hlen|].
  split; [rewrite filter_split; exact Hlen | exact Hnth].
Qed.

(** What the analysis of one text does to the counters. *)
Lemma analyze_counts (this : CognitiveEngine) (st : EngineState)
    (text : string) (options : AnalyzeOptions) :
  (length (cache st) <= analyses (stats st))%nat ->
  (length (cache (snd (analyze this st text options)))
   <= analyses (stats (snd (analyze this st text options))))%nat.
Proof.
  intro Hle. unfold analyze, getFromCache.
  assert (Hset : forall m key (a : Analysis),
             (length (setToCache m key a) <= S (length m))%nat).
  { intros m key a. unfold setToCache, mapSet.
    assert (Hdel : forall (m' : list (string * Analysis)) k,
               (length (mapDelete m' k) <= length m')%nat).
    { induction m' as [|[k' v] rest IHm]; intro k; simpl; [lia|].
      destruct (String.eqb k' k); simpl; [lia | specialize (IHm k); lia]. }
    assert (Hupd : forall (m' : list (string * Analysis)) k f,
               length (update m' k f) = length m').
    { induction m' as [|[k' v] rest IHm]; intros k f; simpl; [reflexivity|].
      destruct (String.eqb k' k); simpl; [reflexivity | now rewrite IHm]. }
    set (limited := if (100 <? length m)%nat then _ else m).
    assert (Hlim : (length limited <= length m)%nat).
    { unfold limited. destruct (100 <? length m)%nat; [|lia].
      destruct m as [|[k v] rest]; [lia | apply Hdel]. }
    destruct (get limited key); [rewrite Hupd; lia|].
    rewrite length_app. simpl. lia. }
  destruct (opt_cache options) as [[|]|];
    try (destruct (get (cache st) (getCacheKey text _)); cbn;
         [ exact Hle
         | destruct (runPipeline this text _); cbn;
           [ specialize (Hset (cache st) (getCacheKey text options)); 
             match goal with |- (length (setToCache _ _ ?a) <= _)%nat =>
               specialize (Hset a); lia end
           | exact Hle ] ]).
  destruct (runPipeline this text None); cbn; lia.
Qed.

Lemma hit_rate_bounds (hitCount missCount : nat) :
  (0 < hitCount + missCount)%nat ->
  0 <= num hitCount / num (hitCount + missCount) * 100
  /\ num hitCount / num (hitCount + missCount) * 100 <= 100.
Proof.
  intro Hpos.
  assert (Hh : 0 <= num hitCount) by apply num_nonneg.
  assert (Ht : 0 < num (hitCount + missCount)) by now apply num_pos.
  assert (Hle : num hitCount <= num (hitCount + missCount))
    by (apply num_le; lia).
  set (h := num hitCount) in *. set (t := num (hitCount + missCount)) in *.
  assert (Hr : 0 <= h / t /\ h / t <= 1).
  { split.
    - apply div_nonneg; lra.
    - apply Qle_shift_div_r; lra. }
  destruct Hr. split; lra.
Qed.

(** Property X19.
    The statistics of an engine that has only been used through
    [analyze] and [clearCache]: the cache never holds more entries
    than analyses were run, the hit rate is a percentage between 0 and
    100, and before the first analysis the average is 0.  After
    [resetStatistics] the counters are 0 while the cache keeps its
    entries, so [cacheSize] can exceed [analyses] from then on. *)
Theorem statistics_of_a_used_engine :
  forall (this : CognitiveEngine) (st : EngineState),
    Reachable this st ->
    let s := getStatistics this st in
    (cacheSize s <= analyses (stat_counters s))%nat
    /\ 0 <= cacheHitRate s /\ cacheHitRate s <= 100
    /\ (analyses (stat_counters s) = 0%nat -> averageMarkersPerAnalysis s = 0%Z)
    /\ cacheSize (getStatistics this (resetStatistics st)) = cacheSize s
    /\ analyses (stat_counters (getStatistics this (resetStatistics st))) = 0%nat.
Proof.
  intros this st Hreach s.
  assert (Hle : (length (cache st) <= analyses (stats st))%nat).
  { induction Hreach as [|st text options Hreach IH|st Hreach IH].
    - simpl. lia.
    - now apply analyze_counts.
    - simpl. lia. }
  unfold s, getStatistics.
  cbn [cacheSize stat_counters cacheHitRate averageMarkersPerAnalysis
       resetStatistics cache].
  split; [exact Hle|].
  destruct (0 <? cacheHits (stats st) + cacheMisses (stats st))%nat eqn:E.
  - apply Nat.ltb_lt in E. destruct (hit_rate_bounds _ _ E) as [Hlo Hhi].
    split; [exact Hlo|]. split; [exact Hhi|]. split; [|split; reflexivity].
    intros ->. reflexivity.
  - split; [lra|]. split; [lra|]. split; [|split; reflexivity].
    intros ->. reflexivity.
Qed.

Lemma statistics_of_a_used_engine_witness :
  let st := snd (analyze sampleEngine initialState scenarioText
                         {| opt_cache := None |}) in
  cacheSize (getStatistics sampleEngine st) = 1%nat
  /\ analyses (stat_counters (getStatistics sampleEngine st)) = 1%nat
  /\ cacheSize (getStatistics sampleEngine (resetStatistics st)) = 1%nat
  /\ analyses (stat_counters (getStatistics sampleEngine (resetStatistics st)))
     = 0%nat.
Proof.
  intro st.
  assert (Hreach : Reachable sampleEngine st) by (repeat constructor).
  destruct (statistics_of_a_used_engine sampleEngine st Hreach)
    as (_ & _ & _ & _ & Hsize & Hzero).
  assert (Hone : cacheSize (getStatistics sampleEngine st) = 1%nat)
    by (vm_compute; reflexivity).
  split; [exact Hone|]. split; [vm_compute; reflexivity|].
  split; [rewrite Hsize; exact Hone | exact Hzero].
Defined.

End Batches.

(* ================================================================== *)
(** ** Validation, batches and the server *)
(* ================================================================== *)

Section Callers.
Import JS Knowledge Conflicts Engine Runs Facts.

(** Property X20.
    [validateText] accepts exactly the strings of 10 to 10000
    characters: the test for invalid UTF-8 never rejects, since it
    compares a boolean with the text.  The checks of [/api/analyze] are
    the same ones: the handler refuses with status 400, and leaves the
    engine as it is, exactly the texts that [validateText] rejects; any
    other text it hands to [engine.analyze], answering with the
    analysis when the call returns and with status 500 and the error's
    message when it throws. *)
Theorem server_accepts_what_validateText_accepts :
  forall (st : EngineState) (text : option string),
    (valid (validateText text) = true
     <-> exists t, text = Some t
                   /\ (10 <= Z.of_nat (String.length t) <= 10000)%Z)
    /\ (valid (validateText text) = false
        <-> exists error message,
              Server.postAnalyze st text = (Server.Refused 400 error message, st))
    /\ (forall t, text = Some t -> valid (validateText text) = true ->
        Server.postAnalyze st text
        = match analyze Server.engine st t {| opt_cache := None |} with
          | (Return analysis, st') =>
              (Server.Sent {| Server.body_data := analysis;
                              Server.body_markerCount := length (hits analysis) |},
               st')
          | (Throw thrown, st') =>
              (Server.Refused 500 "Analysis failed" (errorMessage thrown), st')
          end).
Proof.
  intros st text. unfold validateText, Server.postAnalyze.
  destruct text as [t|].
  2:{ cbn. split; [|split].
      - split; [discriminate | intros (t & H & _); discriminate].
      - split; [intros _; eauto | reflexivity].
      - intros t H. discriminate. }
  unfold strictEquals_boolean_string. rewrite andb_false_r.
  destruct (String.length t =? 0)%nat eqn:E0.
  { apply Nat.eqb_eq in E0. cbn. split; [|split].
    - split; [discriminate|]. intros (t' & H & Hlen). inversion H. subst. lia.
    - split; [intros _; eauto | reflexivity].
    - intros t' _ H. discriminate. }
  destruct (Z.of_nat (String.length t) <? 10)%Z eqn:E10.
  { apply Z.ltb_lt in E10. cbn. split; [|split].
    - split; [discriminate|]. intros (t' & H & Hlen). inversion H. subst. lia.
    - split; [intros _; eauto | reflexivity].
    - intros t' _ H. discriminate. }
  destruct (10000 <? Z.of_nat (String.length t))%Z eqn:Ebig.
  { apply Z.ltb_lt in Ebig. cbn. split; [|split].
    - split; [discriminate|]. intros (t' & H & Hlen). inversion H. subst. lia.
    - split; [intros _; eauto | reflexivity].
    - intros t' _ H. discriminate. }
  apply Z.ltb_ge in E10, Ebig. cbn [valid]. split; [|split].
  - split; [intros _; exists t; split; [reflexivity | lia] | reflexivity].
  - split; [discriminate|]. intros (error & message & H).
    destruct (analyze Server.engine st t {| opt_cache := None |}) as [[a|e] st'];
      inversion H.
  - intros t' H _. inversion H. subst. reflexivity.
Qed.

(** Property X21.
    For a text of valid length that is not in the cache and whose hits
    include two neighbours at most five token positions apart,
    [/api/analyze] answers with status 500, [Analysis failed], and the
    message of the [TypeError] that the cluster loop throws; the engine
    counts a cache miss and nothing else. *)
Theorem server_fails_on_clustered_markers :
  forall (st : EngineState) (t : string),
    (10 <= Z.of_nat (String.length t) <= 10000)%Z ->
    get (cache st) (getCacheKey t {| opt_cache := None |}) = None ->
    closeNeighbours (parseTextWithEnhancements Server.engine t) ->
    Server.postAnalyze st (Some t)
    = (Server.Refused 500 "Analysis failed"
         "cluster.patterns.counts.forEach is not a function",
       {| cache := cache st;
          stats := {| analyses := analyses (stats st);
                      totalMarkers := totalMarkers (stats st);
                      cacheHits := cacheHits (stats st);
                      cacheMisses := S (cacheMisses (stats st)) |} |}).
Proof.
  intros st t Hlen Hmiss Hclose. unfold Server.postAnalyze.
  assert (E0 : (String.length t =? 0)%nat = false) by (apply Nat.eqb_neq; lia).
  assert (E10 : (Z.of_nat (String.length t) <? 10)%Z = false)
    by (apply Z.ltb_ge; lia).
  assert (Ebig : (10000 <? Z.of_nat (String.length t))%Z = false)
    by (apply Z.ltb_ge; lia).
  rewrite E0, E10, Ebig. unfold analyze, getFromCache. cbn [opt_cache].
  rewrite Hmiss. rewrite (close_hits_throw Server.engine t _ Hclose).
  reflexivity.
Qed.

Lemma server_fails_on_clustered_markers_witness :
  Server.postAnalyze initialState (Some testText)
  = (Server.Refused 500 "Analysis failed"
       "cluster.patterns.counts.forEach is not a function",
     {| cache := [];
        stats := {| analyses := 0; totalMarkers := 0; cacheHits := 0;
                    cacheMisses := 1 |} |}).
Proof.
  apply (server_fails_on_clustered_markers initialState testText).
  - vm_compute. split; discriminate.
  - reflexivity.
  - exists 0%nat. eexists. eexists. split; [vm_compute; reflexivity|].
    split; [vm_compute; reflexivity|]. vm_compute. lia.
Defined.

End Callers.

(* ================================================================== *)
(** ** The batch endpoint *)
(* ================================================================== *)

Section ServerBatch.
Import JS Knowledge Conflicts Engine Runs Facts.

Lemma batchEntries_entries (texts : list string) :
  forall (i : nat) (st : EngineState),
    snd (Server.batchEntries i texts st) = afterBatch texts st
    /\ map Server.entry_index (fst (Server.batchEntries i texts st))
       = seq i (length texts)
    /\ (forall k text,
          nth_error texts k = Some text ->
          exists r,
            nth_error (fst (Server.batchEntries i texts st)) k = Some r
            /\ r = if (String.length text =? 0)%nat then
                     {| Server.entry_index := i + k; Server.entry_success := true;
                        Server.entry_data := None; Server.entry_error := None |}
                   else
                     match fst (analyze Server.engine
                                  (afterBatch (firstn k texts) st)
                                  text {| opt_cache := None |}) with
                     | Return analysis =>
                         {| Server.entry_index := i + k;
                            Server.entry_success := true;
                            Server.entry_data := Some analysis;
                            Server.entry_error := None |}
                     | Throw thrown =>
                         {| Server.entry_index := i + k;
                            Server.entry_success := false;
                            Server.entry_data := None;
                            Server.entry_error := Some (errorMessage thrown) |}
                     end).
Proof.
  induction texts as [|text texts IH]; intros i st.
  - cbn. repeat split. intros [|k] t H; discriminate.
  - cbn [Server.batchEntries]. unfold afterBatch. cbn [fold_left length seq].
    set (step := if (String.length text =? 0)%nat then _ else _).
    assert (Hstep :
              snd step
              = (if (String.length text =? 0)%nat then st
                 else snd (analyze Server.engine st text {| opt_cache := None |}))
              /\ Server.entry_index (fst step) = i
              /\ fst step
                 = if (String.length text =? 0)%nat then
                     {| Server.entry_index := i + 0; Server.entry_success := true;
                        Server.entry_data := None; Server.entry_error := None |}
                   else
                     match fst (analyze Server.engine st text
                                        {| opt_cache := None |}) with
                     | Return analysis =>
                         {| Server.entry_index := i + 0;
                            Server.entry_success := true;
                            Server.entry_data := Some analysis;
                            Server.entry_error := None |}
                     | Throw thrown =>
                         {| Server.entry_index := i + 0;
                            Server.entry_success := false;
                            Server.entry_data := None;
                            Server.entry_error := Some (errorMessage thrown) |}
                     end).
    { unfold step. rewrite Nat.add_0_r.
      destruct (String.length text =? 0)%nat; [repeat split|].
      destruct (analyze Server.engine st text {| opt_cache := None |})
        as [[a|e] st1]; repeat split. }
    destruct step as [entry st1]. cbn [fst snd] in Hstep.
    destruct Hstep as (Hst1 & Hi & Hentry).
    specialize (IH (S i) st1).
    destruct (Server.batchEntries (S i) texts st1) as [entries st2].
    cbn [fst snd] in *. destruct IH as (Hst & Hidx & Hnth).
    rewrite <- Hst1. split; [exact Hst|]. split.
    + cbn [map]. now rewrite Hidx, Hi.
    + intros [|k] t Hk; cbn [nth_error firstn fold_left] in *.
      * inversion Hk. subst t. exists entry. split; [reflexivity | exact Hentry].
      * destruct (Hnth k t Hk) as (r & Hr & Heq). exists r. split; [exact Hr|].
        rewrite Heq. unfold afterBatch. cbn [fold_left]. rewrite <- Hst1.
        now replace (i + S k)%nat with (S i + k)%nat by lia.
Qed.

(** Property X22.
    The batch handler refuses with status 400, leaving the engine as
    it is, when [texts] is not an array, is empty or has more than ten
    entries.  Otherwise it answers with one entry per text, numbered
    from 0, and [successful] and [failed] add up to [total].  It checks
    no text's length: an empty text gives a successful entry without
    data and without a call of the engine, and every other text is
    analysed, however short; a call that throws gives a failed entry
    with the error's message. *)
Theorem batch_endpoint_reports_every_text :
  forall (st : EngineState) (texts : option (list string)),
    ((texts = None
      \/ exists l, texts = Some l /\ (length l = 0 \/ 10 < length l)%nat)
     <-> exists error message,
           Server.postAnalyzeBatch st texts
           = (Server.Refused 400 error message, st))
    /\ (forall l,
          texts = Some l -> (1 <= length l <= 10)%nat ->
          exists body,
            Server.postAnalyzeBatch st texts = (Server.Sent body, afterBatch l st)
            /\ Server.total body = length l
            /\ (Server.successful body + Server.failed body)%nat = length l
            /\ map Server.entry_index (Server.results body) = seq 0 (length l)
            /\ (forall k text,
                  nth_error l k = Some text ->
                  exists r,
                    nth_error (Server.results body) k = Some r
                    /\ r = if (String.length text =? 0)%nat then
                             {| Server.entry_index := k;
                                Server.entry_success := true;
                                Server.entry_data := None;
                                Server.entry_error := None |}
                           else
                             match fst (analyze Server.engine
                                          (afterBatch (firstn k l) st)
                                          text {| opt_cache := None |}) with
                             | Return analysis =>
                                 {| Server.entry_index := k;
                                    Server.entry_success := true;
                                    Server.entry_data := Some analysis;
                                    Server.entry_error := None |}
                             | Throw thrown =>
                                 {| Server.entry_index := k;
                                    Server.entry_success := false;
                                    Server.entry_data := None;
                                    Server.entry_error :=
                                      Some (errorMessage thrown) |}
                             end)).
Proof.
  intros st texts. unfold Server.postAnalyzeBatch.
  destruct texts as [l|].
  2:{ split; [|intros l H; discriminate].
      split; [intros _; eauto | intros _; now left]. }
  destruct (length l =? 0)%nat eqn:E0.
  { apply Nat.eqb_eq in E0. split.
    - split; [intros _; eauto|]. intros _. right. exists l. split; [reflexivity|lia].
    - intros l' H Hlen. inversion H. subst. lia. }
  apply Nat.eqb_neq in E0.
  destruct (10 <? length l)%nat eqn:E10.
  { apply Nat.ltb_lt in E10. split.
    - split; [intros _; eauto|]. intros _. right. exists l. split; [reflexivity|lia].
    - intros l' H Hlen. inversion H. subst. lia. }
  apply Nat.ltb_ge in E10.
  destruct (batchEntries_entries l 0 st) as (Hst & Hidx & Hnth).
  destruct (Server.batchEntries 0 l st) as [entries st'].
  cbn [fst snd] in *.
  assert (Hlen : length entries = length l).
  { rewrite <- (length_map Server.entry_index), Hidx. apply length_seq. }
  split.
  - split.
    + intros [H|(l' & H & Hl)]; [discriminate|]. inversion H. subst. lia.
    + intros (error & message & H). discriminate.
  - intros l' H _. inversion H. subst l'. eexists. split; [now rewrite Hst|].
    cbn [Server.total Server.successful Server.failed Server.results].
    split; [exact Hlen|]. split; [rewrite filter_split; exact Hlen|].
    split; [exact Hidx | exact Hnth].
Qed.

End ServerBatch.

(* ================================================================== *)
(** ** The engine of version 3.0 *)
(* ================================================================== *)

Section VersionThree.
Import JS Knowledge Conflicts Facts.

(** The three outcomes of [detectNegation]. *)
Lemma detectNegation_cases (kb : KnowledgeBase) (context : Engine.Context) :
  let s := EngineV30.detectNegation kb context in
  (EngineV30.negType s = Engine.Hard /\ EngineV30.isNegated s = true
   /\ EngineV30.strength s = 1)
  \/ (EngineV30.negType s = Engine.Soft /\ EngineV30.isNegated s = true
      /\ EngineV30.strength s = 0.6)
  \/ (EngineV30.negType s = Engine.NegNone /\ EngineV30.isNegated s = false
      /\ EngineV30.strength s = 0).
Proof.
  unfold EngineV30.detectNegation.
  destruct (EngineV30.firstHardNegation kb (Engine.preceding context)
              (Engine.preceding context)) as [found|] eqn:E.
  - left. revert E. generalize (Engine.preceding context) at 2.
    induction l as [|w rest IH]; simpl; [discriminate|].
    match goal with |- context [if ?c then _ else _] => destruct c end;
      [|exact IH].
    intro H. inversion H. cbn. auto.
  - destruct (find (includes (soft_negation kb)) (Engine.preceding context));
      cbn; auto.
Qed.

Lemma v30_parseFrom_In (this : Engine.CognitiveEngine) (tokens rest : list string)
    (hit : EngineV30.Hit) :
  forall i,
    In hit (EngineV30.parseFrom this tokens i rest) ->
    exists j token,
      nth_error rest j = Some token
      /\ EngineV30.parseToken this tokens (i + j) token = Some hit.
Proof.
  induction rest as [|token rest IH]; intros i Hin;
    cbn [EngineV30.parseFrom] in Hin; [destruct Hin|].
  assert (Hrest : In hit (EngineV30.parseFrom this tokens (S i) rest) ->
                  exists j t, nth_error (token :: rest) j = Some t
                              /\ EngineV30.parseToken this tokens (i + j) t
                                 = Some hit).
  { intro H. destruct (IH _ H) as (j & t & Hj & Hp).
    exists (S j), t. split; [exact Hj|].
    replace (i + S j)%nat with (S i + j)%nat by lia. exact Hp. }
  destruct (EngineV30.parseToken this tokens i token) as [h|] eqn:E;
    [|now apply Hrest].
  destruct Hin as [<-|Hin]; [|now apply Hrest].
  exists 0%nat, token. split; [reflexivity|]. now rewrite Nat.add_0_r.
Qed.

(** Property X23.
    In version 3.0 a hard negation has strength 1, so it takes the
    whole weight of the marker: the adjusted weight falls to the floor
    0.1, below the threshold 0.3, and the marker gives no hit.  Hence
    no hit of [parseText] stands under a hard negation, and a hit that
    is flagged as negated is negated softly, with strength 0.6. *)
Theorem v30_hard_negation_removes_the_marker :
  forall this : Engine.CognitiveEngine,
    (forall (tokens : list string) (i : nat) (token : string),
        EngineV30.negType
          (EngineV30.detectNegation (Engine.kb this)
             (EngineV30.extractContext (Engine.kb this) tokens i))
        = Engine.Hard ->
        EngineV30.parseToken this tokens i token = None)
    /\ (forall input : string,
          Forall
            (fun hit =>
               let neg :=
                 EngineV30.detectNegation (Engine.kb this)
                   (EngineV30.extractContext (Engine.kb this)
                      (EngineV30.tokenize input) (EngineV30.hit_position hit)) in
               EngineV30.negType neg <> Engine.Hard
               /\ EngineV30.hit_isNegated hit = EngineV30.isNegated neg
               /\ (EngineV30.hit_isNegated hit = true ->
                   EngineV30.negType neg = Engine.Soft
                   /\ EngineV30.strength neg = 0.6))
            (EngineV30.parseText this input)).
Proof.
  intro this.
  assert (Hhard : forall tokens i token,
             EngineV30.negType
               (EngineV30.detectNegation (Engine.kb this)
                  (EngineV30.extractContext (Engine.kb this) tokens i))
             = Engine.Hard ->
             EngineV30.parseToken this tokens i token = None).
  { intros tokens i token Hneg. unfold EngineV30.parseToken.
    destruct (get (lexicon (Engine.kb this)) token) as [marker|]; [|reflexivity].
    set (context := EngineV30.extractContext (Engine.kb this) tokens i) in *.
    pose proof (detectNegation_cases (Engine.kb this) context) as Hcases.
    cbv zeta in Hcases.
    destruct Hcases as [(_ & Hflag & Hone)|[(Hsoft & _)|(Hnone & _)]];
      [|congruence|congruence].
    match goal with |- context [ltb 0.3 ?w] =>
      assert (Hw : w <= 0.1); [|destruct (ltb 0.3 w) eqn:E; [|reflexivity];
                                 apply ltb_lt in E; lra] end.
    unfold EngineV30.calculateAdjustedWeight.
    destruct (negb (Engine.smatch _)); [lra|].
    rewrite Hflag, Hone. apply Q.max_lub; [lra|].
    match goal with |- ?a * (1 - 1) * ?m <= _ =>
      assert (E : a * (1 - 1) * m == 0) by ring; rewrite E; lra end. }
  split; [exact Hhard|].
  intro input. apply Forall_forall. intros hit Hin.
  apply v30_parseFrom_In in Hin. destruct Hin as (j & token & _ & Hp).
  cbn [Nat.add] in Hp. cbv zeta.
  assert (Hfields : EngineV30.hit_position hit = j
                    /\ EngineV30.hit_isNegated hit
                       = EngineV30.isNegated
                           (EngineV30.detectNegation (Engine.kb this)
                              (EngineV30.extractContext (Engine.kb this)
                                 (EngineV30.tokenize input) j))).
  { unfold EngineV30.parseToken in Hp.
    destruct (get (lexicon (Engine.kb this)) token) as [marker|]; [|discriminate].
    match type of Hp with context [ltb 0.3 ?w] => destruct (ltb 0.3 w) end;
      [|discriminate].
    inversion Hp. cbn. split; reflexivity. }
  destruct Hfields as [Hpos Hflag]. rewrite Hpos, Hflag.
  set (context := EngineV30.extractContext (Engine.kb this)
                    (EngineV30.tokenize input) j) in *.
  pose proof (detectNegation_cases (Engine.kb this) context) as Hcases.
  cbv zeta in Hcases.
  destruct Hcases as [(Hty & _)|[(Hty & Hneg & Hs)|(Hty & Hneg & Hs)]].
  - rewrite (Hhard _ _ token Hty) in Hp. discriminate.
  - rewrite Hty, Hneg, Hs. repeat split; congruence.
  - rewrite Hty, Hneg. repeat split; congruence.
Qed.

Lemma fold_squares_nonneg (avg : Q) (gs : list Q) :
  forall acc, 0 <= acc ->
    0 <= fold_left (fun a gap => a + (gap - avg) * (gap - avg)) gs acc.
Proof.
  induction gs as [|g gs IH]; intros acc Hacc; simpl; [exact Hacc|].
  apply IH.
  assert (Hsq : 0 <= (g - avg) * (g - avg)).
  { destruct (Qlt_le_dec (g - avg) 0).
    - setoid_replace ((g - avg) * (g - avg)) with ((avg - g) * (avg - g)) by ring.
      apply Qmult_le_0_compat; lra.
    - apply Qmult_le_0_compat; lra. }
  lra.
Qed.

Lemma fold_squares_zero (avg : Q) (gs : list Q) :
  Forall (fun g => g == avg) gs ->
  forall acc,
    fold_left (fun a gap => a + (gap - avg) * (gap - avg)) gs acc == acc.
Proof.
  induction 1 as [|g gs Hg _ IH]; intro acc; simpl; [reflexivity|].
  rewrite IH, Hg. ring.
Qed.

Lemma sum_constant (step : Q) (gs : list Q) :
  Forall (fun g => g == step) gs -> sum gs == num (length gs) * step.
Proof.
  induction 1 as [|g gs Hg _ IH].
  - unfold sum, num. simpl. ring.
  - change (g == step) in Hg. rewrite sum_cons, IH. cbn [length]. unfold num.
    setoid_rewrite Hg.
    rewrite Nat2Z.inj_succ, <- Z.add_1_r, inject_Z_plus. ring.
Qed.

(** The gaps of positions that are evenly spaced. *)
Lemma gaps_evenly_spaced (start step n : nat) :
  forall a,
    Forall (fun g => g == num step)
           (Engine.gaps (map (fun k => (start + k * step)%nat) (seq a n)))
    /\ length (Engine.gaps (map (fun k => (start + k * step)%nat) (seq a n)))
       = (n - 1)%nat.
Proof.
  induction n as [|n IH]; intro a; [split; [constructor | reflexivity]|].
  destruct n as [|n]; [split; [constructor | reflexivity]|].
  destruct (IH (S a)) as [Hall Hlen].
  cbn [seq map Engine.gaps] in *. split.
  - constructor; [|exact Hall]. unfold num, Qeq. simpl. nia.
  - cbn [length]. rewrite Hlen. lia.
Qed.

(** Property X24.
    [calculateDistributionScore] of version 3.0 lies between 0.1 and 1
    for a text with at least one marker.  It is 0.5 for fewer than two
    positions, and 1, the largest score, for two or more positions that
    are evenly spaced. *)
Theorem v30_distribution_score_bounds :
  forall (positions : list nat) (totalLength : nat),
    (0 < totalLength)%nat ->
    0.1 <= EngineV30.calculateDistributionScore positions totalLength
    /\ EngineV30.calculateDistributionScore positions totalLength <= 1
    /\ ((length positions < 2)%nat ->
        EngineV30.calculateDistributionScore positions totalLength == 0.5)
    /\ (forall start step n : nat,
          (2 <= n)%nat ->
          positions = map (fun k => (start + k * step)%nat) (seq 0 n) ->
          EngineV30.calculateDistributionScore positions totalLength == 1).
Proof.
  intros positions totalLength Hpos.
  unfold EngineV30.calculateDistributionScore.
  destruct (length positions <? 2)%nat eqn:E.
  - split; [lra|]. split; [lra|]. split; [intros _; reflexivity|].
    intros start step n Hn ->. apply Nat.ltb_lt in E.
    rewrite length_map, length_seq in E. lia.
  - apply Nat.ltb_ge in E.
    match goal with |- context [Qmin 1 ?x] =>
      assert (Hx : 0 <= x); [|pose proof (Q.le_min_l 1 x) as Hmin;
                               assert (Hmin0 : 0 <= Qmin 1 x)
                                 by (apply Q.min_glb; lra)]
    end.
    { apply div_nonneg.
      - apply div_nonneg; [apply fold_squares_nonneg; lra | apply num_nonneg].
      - match goal with |- 0 <= ?g * ?g =>
          assert (Hg : 0 <= g)
            by (apply div_nonneg; apply num_nonneg);
          apply Qmult_le_0_compat; exact Hg end. }
    split; [apply Q.le_max_l|]. split; [apply Q.max_lub; lra|].
    split; [lia|].
    intros start step n Hn Heq.
    destruct (gaps_evenly_spaced start step n 0) as [Hall Hlen].
    rewrite <- Heq in Hall, Hlen.
    set (gs := Engine.gaps positions) in *.
    assert (Hcount : 0 < num (length gs)) by (apply num_pos; lia).
    assert (Havg : sum gs / num (length gs) == num step).
    { rewrite (sum_constant _ _ Hall). field. lra. }
    assert (Hall' : Forall (fun g => g == sum gs / num (length gs)) gs).
    { revert Hall. apply Forall_impl. intros g Hg. now rewrite Havg. }
    rewrite (fold_squares_zero _ _ Hall' 0).
    match goal with |- Qmax 0.1 (1 - Qmin 1 (0 / ?c / ?d)) == 1 =>
      assert (Hzero : 0 / c / d == 0) by (unfold Qdiv; ring);
      rewrite Hzero
    end.
    vm_compute. reflexivity.
Qed.

Lemma v30_distribution_score_bounds_witness :
  EngineV30.calculateDistributionScore [0; 2; 3]%nat 3 == 3 # 4
  /\ 0.1 <= EngineV30.calculateDistributionScore [0; 2; 3]%nat 3
  /\ EngineV30.calculateDistributionScore [0; 2; 3]%nat 3 <= 1
  /\ EngineV30.calculateDistributionScore [1; 4; 7]%nat 3 == 1.
Proof.
  split; [vm_compute; reflexivity|].
  destruct (v30_distribution_score_bounds [0; 2; 3]%nat 3 ltac:(lia))
    as (Hlo & Hhi & _).
  split; [exact Hlo|]. split; [exact Hhi|].
  destruct (v30_distribution_score_bounds [1; 4; 7]%nat 3 ltac:(lia))
    as (_ & _ & _ & Heven).
  apply (Heven 1%nat 3%nat 3%nat); [lia | reflexivity].
Defined.

End VersionThree.

(* ================================================================== *)
(** ** Doubles *)
(* ================================================================== *)

Section Doubles.
Import JS Knowledge Conflicts Engine Runs Facts.

Lemma nearestEven_floor (x : Q) : (Qfloor x <= nearestEven x)%Z.
Proof.
  unfold nearestEven. cbv zeta.
  destruct (ltb _ _); [lia|]. destruct (ltb _ _); [lia|].
  destruct (Z.even _); lia.
Qed.

Lemma nearestEven_above (x : Q) (n : Z) :
  inject_Z n <= x -> (n <= nearestEven x)%Z.
Proof.
  intro H. apply Qfloor_resp_le in H. rewrite Qfloor_Z in H.
  pose proof (nearestEven_floor x). lia.
Qed.

Lemma two_power_pos (z : Z) : 0 < 2 ^ z.
Proof. apply Qpower_0_lt. reflexivity. Qed.

(** Rounding does not cross zero. *)
Lemma double_nonpos (q : Q) : q <= 0 -> double q <= 0.
Proof.
  intro Hq. unfold double. destruct (Qeq_bool q 0) eqn:E0; [apply Qle_refl|].
  cbv zeta.
  assert (Hm : 0 <= inject_Z (nearestEven (Qabs q / 2 ^ exponent (Qabs q)))
                    * 2 ^ exponent (Qabs q)).
  { apply Qmult_le_0_compat; [|apply Qlt_le_weak, two_power_pos].
    change 0 with (inject_Z 0). rewrite <- Zle_Qle.
    apply nearestEven_above. change (inject_Z 0) with 0.
    apply Qle_shift_div_l; [apply two_power_pos|].
    rewrite Qmult_0_l. apply Qabs_nonneg. }
  destruct (Qle_bool 0 q) eqn:E1.
  - apply Qle_bool_iff in E1. apply Qeq_bool_neq in E0.
    exfalso. apply E0. apply Qle_antisym; assumption.
  - lra.
Qed.

(** The logarithms of numerator and denominator bound a positive
    rational from below. *)
Lemma log2_lower (a : Q) :
  0 < a -> 2 ^ (Z.log2 (Qnum a) - Z.log2 (Zpos (Qden a)) - 1) <= a.
Proof.
  destruct a as [n d]. intro Hpos. cbn [Qnum Qden].
  assert (Hn : (0 < n)%Z).
  { unfold Qlt in Hpos. cbn in Hpos. lia. }
  destruct (Z.log2_spec n Hn) as [Hn1 _].
  destruct (Z.log2_spec (Zpos d) (Pos2Z.is_pos d)) as [_ Hd2].
  pose proof (Z.log2_nonneg n) as Hln. pose proof (Z.log2_nonneg (Zpos d)) as Hld.
  set (ln := Z.log2 n) in *. set (ld := Z.log2 (Zpos d)) in *.
  replace (ln - ld - 1)%Z with (ln - (ld + 1))%Z by lia.
  rewrite Qpower_minus by (intro H; discriminate H).
  change 2 with (inject_Z 2).
  rewrite <- !Zpower_Qpower by lia.
  rewrite (Qmake_Qdiv n d).
  assert (Hp1 : (0 < 2 ^ ln)%Z) by (apply Z.pow_pos_nonneg; lia).
  assert (Hp2 : (0 < 2 ^ (ld + 1))%Z) by (apply Z.pow_pos_nonneg; lia).
  apply Qle_shift_div_r.
  { change 0 with (inject_Z 0). rewrite <- Zlt_Qlt. exact Hp2. }
  unfold Qdiv. rewrite <- Qmult_assoc, (Qmult_comm (/ _)), Qmult_assoc.
  apply Qle_shift_div_l.
  { change 0 with (inject_Z 0). rewrite <- Zlt_Qlt. lia. }
  rewrite <- !inject_Z_mult, <- Zle_Qle.
  replace (Z.succ ld) with (ld + 1)%Z in Hd2 by lia.
  nia.
Qed.

Lemma exponent_lower (a : Q) : 0 < a -> 2 ^ (exponent a + 52) <= a.
Proof.
  intro Hpos. unfold exponent. cbv zeta.
  destruct (Qle_bool _ a) eqn:E.
  - apply Qle_bool_iff in E.
    now replace (Z.log2 (Qnum a) - Z.log2 (Z.pos (Qden a)) - 52 + 52)%Z
      with (Z.log2 (Qnum a) - Z.log2 (Z.pos (Qden a)))%Z by lia.
  - replace (Z.log2 (Qnum a) - Z.log2 (Z.pos (Qden a)) - 53 + 52)%Z
      with (Z.log2 (Qnum a) - Z.log2 (Z.pos (Qden a)) - 1)%Z by lia.
    now apply log2_lower.
Qed.

Lemma exponent_of_large (a : Q) : 1 <= a -> (-52 <= exponent a)%Z.
Proof.
  intro H1. unfold exponent. cbv zeta.
  assert (Hk : (0 <= Z.log2 (Qnum a) - Z.log2 (Z.pos (Qden a)))%Z).
  { assert (Hle : (Z.pos (Qden a) <= Qnum a)%Z).
    { unfold Qle in H1. cbn in H1. lia. }
    apply Z.log2_le_mono in Hle. lia. }
  destruct (Qle_bool _ a) eqn:E; [lia|].
  assert (Hk0 : (Z.log2 (Qnum a) - Z.log2 (Z.pos (Qden a)))%Z <> 0%Z).
  { intro H0. rewrite H0 in E. change (2 ^ 0) with 1 in E.
    apply Qle_bool_iff in H1. congruence. }
  lia.
Qed.

(** Rounding does not cross 1. *)
Lemma double_large (q : Q) : 1 <= q -> 1 <= double q.
Proof.
  intro H1. unfold double.
  destruct (Qeq_bool q 0) eqn:E0.
  { apply Qeq_bool_iff in E0. lra. }
  cbv zeta.
  assert (Hq : Qle_bool 0 q = true) by (apply Qle_bool_iff; lra).
  rewrite Hq.
  assert (Habs : Qabs q == q) by (apply Qabs_pos; lra).
  assert (Ha1 : 1 <= Qabs q) by (rewrite Habs; exact H1).
  set (a := Qabs q) in *.
  pose proof (exponent_lower a ltac:(lra)) as Hlow.
  pose proof (exponent_of_large a Ha1) as He.
  set (e := exponent a) in *.
  assert (Hm : (2 ^ 52 <= nearestEven (a / 2 ^ e))%Z).
  { apply nearestEven_above. apply Qle_shift_div_l; [apply two_power_pos|].
    rewrite Zpower_Qpower by lia. change (inject_Z 2) with 2.
    rewrite <- Qpower_plus by (intro H; discriminate H).
    now replace (52 + e)%Z with (e + 52)%Z by lia. }
  apply Qle_trans with (2 ^ (e + 52)).
  - apply Qpower_1_le; [lra | lia].
  - rewrite Qpower_plus by (intro H; discriminate H).
    rewrite (Qmult_comm (2 ^ e)).
    apply Qmult_le_compat_r; [|apply Qlt_le_weak, two_power_pos].
    change 2 with (inject_Z 2) at 1. rewrite <- Zpower_Qpower by lia.
    now rewrite <- Zle_Qle.
Qed.

(** The cutoff of the conflict module, [0.3 < max(0, 1 - n / 20)] in
    doubles, holds for the distances up to 14 and for no other. *)
Lemma cutoff_passes (n : Z) :
  (0 <= n)%Z ->
  ltb (double 0.3) (distanceFactorAt n) = true <-> (n <= 14)%Z.
Proof.
  intro Hn. unfold distanceFactorAt.
  destruct (Z_lt_le_dec n 20) as [Hsmall|Hlarge].
  - assert (Hk : exists k : nat, n = Z.of_nat k /\ (k < 20)%nat)
      by (exists (Z.to_nat n); lia).
    destruct Hk as (k & -> & Hk).
    do 20 (destruct k as [|k];
           [ split; intro H;
             first [ lia | vm_compute; reflexivity | vm_compute in H; discriminate H ]
           | ]).
    lia.
  - split; [|lia]. intro H. exfalso. apply ltb_lt in H.
    assert (H1 : 1 <= inject_Z n / 20).
    { apply Qle_shift_div_l; [reflexivity|]. rewrite Qmult_1_l.
      change 20 with (inject_Z 20). now rewrite <- Zle_Qle. }
    apply double_large in H1.
    assert (H0 : double (1 - double (inject_Z n / 20)) <= 0)
      by (apply double_nonpos; lra).
    assert (Hmax : Qmax 0 (double (1 - double (inject_Z n / 20))) == 0)
      by (apply Q.max_l; exact H0).
    rewrite Hmax in H.
    assert (Hpos : 0 < double 0.3) by (vm_compute; reflexivity).
    lra.
Qed.

(** Up to the distance 14 the factor in doubles is within one rounding
    of [1 - n / 20]. *)
Lemma factor_close (n : Z) :
  (0 <= n <= 14)%Z ->
  0.3 < distanceFactorAt n /\ distanceFactorAt n <= 1
  /\ Qabs (distanceFactorAt n - (1 - inject_Z n / 20)) <= 1 # 9007199254740992.
Proof.
  intro Hn.
  assert (Hk : exists k : nat, n = Z.of_nat k /\ (k < 15)%nat)
    by (exists (Z.to_nat n); lia).
  destruct Hk as (k & -> & Hk).
  do 15 (destruct k as [|k];
         [ split; [vm_compute; reflexivity | split; vm_compute; discriminate] | ]).
  lia.
Qed.

End Doubles.

(* ================================================================== *)
(** ** The conflict module on the hits of the engine *)
(* ================================================================== *)

Section NarrativeConflicts.
Import JS Knowledge Conflicts Engine Runs Facts.

Lemma narrative_scan_sound (kb : KnowledgeBase)
    (found : list ConflictResolver.HitView) (c : Conflict) :
  In c (ConflictResolver.lexicalScan kb found) ->
  exists i j hi hj,
    nth_error found i = Some hi /\ nth_error found j = Some hj
    /\ (i < j)%nat /\ In c (ConflictResolver.lexicalContradiction hi hj).
Proof.
  induction found as [|hit later IH]; cbn [ConflictResolver.lexicalScan];
    [intros []|].
  intro Hin. apply in_app_or in Hin. destruct Hin as [Hin|Hin].
  - destruct (get (lexicon kb) (ConflictResolver.word hit)) as [marker|];
      [|destruct Hin].
    apply in_flat_map in Hin. destruct Hin as (other & Hother & Hc).
    destruct (includes (contradicts marker) (ConflictResolver.word other));
      [|destruct Hc].
    apply In_nth_error in Hother. destruct Hother as [k Hk].
    exists 0%nat, (S k), hit, other. repeat split; try assumption; lia.
  - destruct (IH Hin) as (i & j & hi & hj & Hi & Hj & Hij & Hc).
    exists (S i), (S j), hi, hj. repeat split; try assumption; lia.
Qed.

Lemma narrative_other_kinds (kb : KnowledgeBase)
    (found : list ConflictResolver.HitView) (c : Conflict) :
  In c (ConflictResolver.detectNarrativeConflicts kb found) ->
  conflict_type c = lexical_contradiction ->
  In c (ConflictResolver.lexicalScan kb found).
Proof.
  unfold ConflictResolver.detectNarrativeConflicts. intros Hin Htype.
  apply in_app_or in Hin. destruct Hin as [Hin|Hin]; [exact Hin|].
  apply in_app_or in Hin. destruct Hin as [Hin|Hin];
    apply in_flat_map in Hin; destruct Hin as (hit & _ & Hc).
  - unfold ConflictResolver.selfNegation in Hc.
    destruct (_ && _); [|destruct Hc]. destruct Hc as [<-|[]]. discriminate.
  - unfold ConflictResolver.modifierConflict in Hc.
    destruct (ConflictResolver.modifiers hit); [|destruct Hc].
    destruct (_ && _); [|destruct Hc]. destruct Hc as [<-|[]]. discriminate.
Qed.

(** Property X25.
    The conflict module reports a lexical contradiction exactly for
    the contradicting pairs of hits at most fourteen token positions
    apart.  Every one it reports is between two such hits, with a
    distance factor above 0.3, at most 1, and within one rounding of
    [1 - distance / 20]; and every pair of hits at most fourteen
    positions apart of which the first lists the second's word under
    [contradicts] is reported.  The distance 14 itself passes the
    cutoff [distanceFactor > 0.3], since [1 - 14 / 20] is
    0.30000000000000004 in doubles.  The engine's own scan has no
    cutoff. *)
Theorem narrative_contradictions_are_close :
  forall (kb : KnowledgeBase) (found : list ConflictResolver.HitView),
    (forall c : Conflict,
        In c (ConflictResolver.detectNarrativeConflicts kb found) ->
        conflict_type c = lexical_contradiction ->
        exists i j hi hj d f,
          nth_error found i = Some hi /\ nth_error found j = Some hj /\ (i < j)%nat
          /\ words c = [ConflictResolver.word hi; ConflictResolver.word hj]
          /\ conflict_distance c = Some d /\ distanceFactor c = Some f
          /\ d == Qabs (inject_Z (Z.of_nat (ConflictResolver.position hj)
                                  - Z.of_nat (ConflictResolver.position hi)))
          /\ d <= 14 /\ 0.3 < f /\ f <= 1
          /\ Qabs (f - (1 - d / 20)) <= 1 # 9007199254740992)
    /\ (forall i j hi hj marker,
          nth_error found i = Some hi -> nth_error found j = Some hj -> (i < j)%nat ->
          get (lexicon kb) (ConflictResolver.word hi) = Some marker ->
          includes (contradicts marker) (ConflictResolver.word hj) = true ->
          (Z.abs (Z.of_nat (ConflictResolver.position hj)
                  - Z.of_nat (ConflictResolver.position hi)) <= 14)%Z ->
          exists c,
            In c (ConflictResolver.detectNarrativeConflicts kb found)
            /\ conflict_type c = lexical_contradiction
            /\ words c = [ConflictResolver.word hi; ConflictResolver.word hj]
            /\ conflict_positions c
               = [ConflictResolver.position hi; ConflictResolver.position hj]).
Proof.
  intros kb found. split.
  - intros c Hin Htype.
    apply narrative_other_kinds in Hin; [|exact Htype].
    apply narrative_scan_sound in Hin.
    destruct Hin as (i & j & hi & hj & Hi & Hj & Hij & Hc).
    unfold ConflictResolver.lexicalContradiction in Hc.
    change (Qabs (inject_Z (Z.of_nat (ConflictResolver.position hj)
                            - Z.of_nat (ConflictResolver.position hi))))
      with (inject_Z (Z.abs (Z.of_nat (ConflictResolver.position hj)
                             - Z.of_nat (ConflictResolver.position hi)))) in Hc.
    pose proof (Z.abs_nonneg (Z.of_nat (ConflictResolver.position hj)
                              - Z.of_nat (ConflictResolver.position hi))) as Hn.
    set (n := Z.abs (Z.of_nat (ConflictResolver.position hj)
                     - Z.of_nat (ConflictResolver.position hi))) in *.
    destruct (ltb (double 0.3) (distanceFactorAt n)) eqn:E;
      unfold distanceFactorAt in E; rewrite E in Hc; [|destruct Hc].
    destruct Hc as [<-|[]].
    apply (cutoff_passes n Hn) in E.
    destruct (factor_close n (conj Hn E)) as (Hlo & Hhi & Hnear).
    exists i, j, hi, hj, (inject_Z n), (distanceFactorAt n).
    cbn [words conflict_distance distanceFactor].
    repeat split; try assumption; try reflexivity.
    change 14 with (inject_Z 14). now rewrite <- Zle_Qle.
  - intros i j hi hj marker Hi Hj Hij Hget Hinc Hnear.
    pose proof (Z.abs_nonneg (Z.of_nat (ConflictResolver.position hj)
                              - Z.of_nat (ConflictResolver.position hi))) as Hn.
    apply (cutoff_passes _ Hn) in Hnear.
    eexists. split; [|split; [|split]].
    + unfold ConflictResolver.detectNarrativeConflicts. apply in_or_app. left.
      apply (narrative_scan_complete kb found i j hi hj marker); try assumption.
      unfold ConflictResolver.lexicalContradiction.
      change (Qabs (inject_Z (Z.of_nat (ConflictResolver.position hj)
                              - Z.of_nat (ConflictResolver.position hi))))
        with (inject_Z (Z.abs (Z.of_nat (ConflictResolver.position hj)
                               - Z.of_nat (ConflictResolver.position hi)))).
      unfold distanceFactorAt in Hnear. rewrite Hnear. left. reflexivity.
    + reflexivity.
    + reflexivity.
    + reflexivity.
Qed.

Lemma narrative_contradictions_are_close_witness :
  map (fun hit => (hit_word hit, hit_position hit)) fourteenApart
  = [("always", 0); ("sometimes", 14)]%string%nat
  /\ (exists c,
         In c (ConflictResolver.detectNarrativeConflicts contrastKB
                 (map ConflictResolver.ofHit fourteenApart))
         /\ conflict_type c = lexical_contradiction
         /\ conflict_positions c = [0; 14]%nat)
  /\ (forall c,
         In c (ConflictResolver.detectNarrativeConflicts contrastKB
                 (map ConflictResolver.ofHit contrastHits)) ->
         conflict_type c = lexical_contradiction ->
         exists d, conflict_distance c = Some d /\ d <= 14).
Proof.
  split; [vm_compute; reflexivity|].
  assert (H0 : exists hi, nth_error fourteenApart 0 = Some hi
                          /\ hit_position hi = 0%nat /\ hit_word hi = "always"%string)
    by (eexists; split; [vm_compute; reflexivity | split; reflexivity]).
  assert (H1 : exists hj, nth_error fourteenApart 1 = Some hj
                          /\ hit_position hj = 14%nat
                          /\ hit_word hj = "sometimes"%string)
    by (eexists; split; [vm_compute; reflexivity | split; reflexivity]).
  destruct H0 as (hi & Hi & Hpi & Hwi). destruct H1 as (hj & Hj & Hpj & Hwj).
  split.
  - assert (Hmarker : exists marker,
               get (lexicon contrastKB) (hit_word hi) = Some marker
               /\ includes (contradicts marker) (hit_word hj) = true).
    { rewrite Hwi, Hwj. eexists. split; [vm_compute; reflexivity | reflexivity]. }
    destruct Hmarker as (marker & Hget & Hinc).
    destruct (proj2 (narrative_contradictions_are_close contrastKB
                       (map ConflictResolver.ofHit fourteenApart))
                    0%nat 1%nat (ConflictResolver.ofHit hi) (ConflictResolver.ofHit hj)
                    marker)
      as (c & Hin & Htype & _ & Hpos).
    + rewrite nth_error_map, Hi. reflexivity.
    + rewrite nth_error_map, Hj. reflexivity.
    + lia.
    + exact Hget.
    + exact Hinc.
    + cbn [ConflictResolver.ofHit ConflictResolver.position]. rewrite Hpi, Hpj.
      vm_compute. discriminate.
    + exists c. split; [exact Hin|]. split; [exact Htype|].
      rewrite Hpos. cbn [ConflictResolver.ofHit ConflictResolver.position].
      rewrite Hpi, Hpj. reflexivity.
  - intros c Hin Htype.
    destruct (proj1 (narrative_contradictions_are_close contrastKB
                       (map ConflictResolver.ofHit contrastHits)) c Hin Htype)
      as (i & j & hi' & hj' & d & f & _ & _ & _ & _ & Hd & _ & _ & Hle & _).
    exists d. split; assumption.
Defined.

(** Property X26.
    The conflict module looks for a modifier conflict in the
    [modifiers] list of a hit, which the hits of version 3.0 have and
    the hits of the engine of version 3.2 do not: on the hits of the
    engine it never reports a [modifier_conflict], while the engine
    itself reports one for every hit that it flags with
    [hasModifierConflict]. *)
Theorem modifier_conflicts_are_lost_on_engine_hits :
  forall (kb : KnowledgeBase) (this : CognitiveEngine)
         (driverScores : list (string * DriverScore))
         (scores : list (string * PatternScore)) (found : list Hit),
    Forall (fun c => conflict_type c <> modifier_conflict)
           (ConflictResolver.detectNarrativeConflicts kb
              (map ConflictResolver.ofHit found))
    /\ Forall
         (fun hit =>
            hasModifierConflict hit = true ->
            exists c,
              In c (detectEnhancedConflicts this driverScores scores found)
              /\ conflict_type c = modifier_conflict
              /\ conflict_word c = Some (hit_word hit))
         found.
Proof.
  intros kb this driverScores scores found. split.
  - apply Forall_forall. intros c Hin Htype.
    unfold ConflictResolver.detectNarrativeConflicts in Hin.
    apply in_app_or in Hin. destruct Hin as [Hin|Hin].
    { apply narrative_scan_sound in Hin.
      destruct Hin as (i & j & hi & hj & _ & _ & _ & Hc).
      unfold ConflictResolver.lexicalContradiction in Hc.
      destruct (ltb _ _); [|destruct Hc]. destruct Hc as [<-|[]].
      discriminate Htype. }
    apply in_app_or in Hin. destruct Hin as [Hin|Hin];
      apply in_flat_map in Hin; destruct Hin as (hit & Hhit & Hc).
    + unfold ConflictResolver.selfNegation in Hc.
      destruct (_ && _); [|destruct Hc]. destruct Hc as [<-|[]]. discriminate.
    + apply in_map_iff in Hhit. destruct Hhit as (h & <- & _).
      destruct Hc.
  - apply Forall_forall. intros hit Hin Hflag.
    exists {| conflict_type := modifier_conflict;
              severity := adjustedWeight hit * 0.15;
              words := []; conflict_positions := [];
              conflict_distance := None; distanceFactor := None;
              conflict_drivers := None;
              conflict_word := Some (hit_word hit);
              conflict_weight := None;
              interpretation :=
                Some "Conflicting intensity modifiers suggest uncertainty about emotional expression."%string |}.
    split; [|split; reflexivity].
    unfold detectEnhancedConflicts, sortBySeverity. apply sort_In.
    apply in_or_app. right. apply in_or_app. right. apply in_or_app. right.
    apply in_flat_map. exists hit. split; [exact Hin|].
    unfold modifierConflict. rewrite Hflag. now left.
Qed.

End NarrativeConflicts.

(* ================================================================== *)
(** ** Calibration, bands and the overall confidence *)
(* ================================================================== *)

Section Reporting.
Import JS Knowledge Conflicts Engine Runs Facts.
Import ConfidenceScorer.

(** The base probability that the table holds for a pattern name, or
    the default 0.1 for a name that it does not hold, lies strictly
    between 0 and 1. *)
Lemma prior_bounds (pattern : string) :
  0 < or_num (get baseProbabilities_patterns pattern) 0.1
  /\ or_num (get baseProbabilities_patterns pattern) 0.1 < 1.
Proof.
  unfold baseProbabilities_patterns. cbn [get].
  repeat match goal with
         | |- context [if String.eqb ?a ?b then _ else _] =>
             destruct (String.eqb a b)
         end; cbn; split; lra.
Qed.

Lemma posterior_denominator (p l : Q) :
  0 < p -> p < 1 -> 0 <= l -> l <= 1 ->
  0 < p * l + (1 - p) * (1 - l).
Proof.
  intros Hp0 Hp1 Hl0 Hl1.
  destruct (Qlt_le_dec 0 l) as [H|H].
  - assert (0 < p * l) by (apply Qmult_lt_0_compat; lra).
    assert (0 <= (1 - p) * (1 - l)) by (apply Qmult_le_0_compat; lra). lra.
  - assert (E : l == 0) by lra. rewrite E.
    assert (0 < (1 - p) * (1 - 0)) by (apply Qmult_lt_0_compat; lra). lra.
Qed.

Lemma posterior_monotone (p l l' : Q) :
  0 < p -> p < 1 -> 0 <= l -> l <= l' -> l' <= 1 ->
  p * l / (p * l + (1 - p) * (1 - l))
  <= p * l' / (p * l' + (1 - p) * (1 - l')).
Proof.
  intros Hp0 Hp1 Hl0 Hll Hl1.
  assert (Hab : forall a b, 0 <= a -> 0 <= b -> 0 <= a * b)
    by (intros; now apply Qmult_le_0_compat).
  pose proof (posterior_denominator p l Hp0 Hp1 Hl0 ltac:(lra)) as HD.
  pose proof (posterior_denominator p l' Hp0 Hp1 ltac:(lra) Hl1) as HD'.
  set (D := p * l + (1 - p) * (1 - l)) in *.
  set (D' := p * l' + (1 - p) * (1 - l')) in *.
  apply Qle_shift_div_l; [exact HD'|].
  setoid_replace (p * l / D * D') with (p * l * D' / D) by (field; lra).
  apply Qle_shift_div_r; [exact HD|].
  unfold D, D'.
  assert (Hcross : 0 <= p * (1 - p) * (l' - l)).
  { apply Hab; [apply Hab; lra | lra]. }
  setoid_replace (p * l' * (p * l + (1 - p) * (1 - l)))
    with (p * l * (p * l' + (1 - p) * (1 - l')) + p * (1 - p) * (l' - l))
    by ring.
  lra.
Qed.

Lemma clamp_monotone (x y : Q) :
  x <= y -> Qmax 0.05 (Qmin 0.95 x) <= Qmax 0.05 (Qmin 0.95 y).
Proof.
  intro H. apply Q.max_le_compat_l. apply Q.min_le_compat_l. exact H.
Qed.

Lemma nonzero_test (x : Q) : ~ x == 0 -> Qeq_bool x 0 = false.
Proof.
  intro H. destruct (Qeq_bool x 0) eqn:E; [|reflexivity].
  apply Qeq_bool_iff in E. contradiction.
Qed.

Lemma Math_min_finite (a b : Q) :
  exists c, Math_min (Finite a) (Finite b) = Finite c /\ c == Qmin a b.
Proof.
  cbn [Math_min lt]. destruct (ltb b a) eqn:E.
  - apply ltb_lt in E. exists b. split; [reflexivity|].
    symmetry. apply Q.min_r. lra.
  - apply ltb_ge in E. exists a. split; [reflexivity|].
    symmetry. apply Q.min_l. exact E.
Qed.

Lemma Math_max_finite (a b : Q) :
  exists c, Math_max (Finite a) (Finite b) = Finite c /\ c == Qmax a b.
Proof.
  cbn [Math_max lt]. destruct (ltb a b) eqn:E.
  - apply ltb_lt in E. exists b. split; [reflexivity|].
    symmetry. apply Q.max_r. lra.
  - apply ltb_ge in E. exists a. split; [reflexivity|].
    symmetry. apply Q.max_l. exact E.
Qed.

(** For a pattern name that is not inherited and a likelihood in
    [0, 1] no division is by zero, and the calibration is the clamped
    posterior. *)
Lemma calibration_value (pattern : string) (e t : Q) :
  includes objectPrototypeMembers pattern = false ->
  0 < t -> 0 <= e -> e <= t ->
  let p := or_num (get baseProbabilities_patterns pattern) 0.1 in
  exists c,
    calibrateWithEvidence pattern e t = Finite c
    /\ c == Qmax 0.05
              (Qmin 0.95 (p * (e / t) / (p * (e / t) + (1 - p) * (1 - e / t)))).
Proof.
  intros Hown Ht He0 Het p.
  destruct (prior_bounds pattern) as [Hp0 Hp1]. fold p in Hp0, Hp1.
  assert (Hl0 : 0 <= e / t) by (apply div_nonneg; lra).
  assert (Hl1 : e / t <= 1) by (apply Qle_shift_div_r; lra).
  pose proof (posterior_denominator p (e / t) Hp0 Hp1 Hl0 Hl1) as HD.
  unfold calibrateWithEvidence. cbv zeta.
  assert (Hprior : number_or baseProbabilities_patterns pattern 0.1 = Finite p).
  { unfold number_or, p. destruct (get baseProbabilities_patterns pattern);
      [reflexivity|]. now rewrite Hown. }
  rewrite Hprior. cbn [div].
  rewrite (nonzero_test t) by lra. cbn [mul sub neg add div].
  rewrite (nonzero_test (p * (e / t) + (1 + - p) * (1 + - (e / t))))
    by (unfold Qminus in HD; lra).
  destruct (Math_min_finite 0.95
              (p * (e / t) / (p * (e / t) + (1 + - p) * (1 + - (e / t)))))
    as (lo & -> & Hlo).
  destruct (Math_max_finite 0.05 lo) as (c & -> & Hc).
  exists c. split; [reflexivity|]. rewrite Hc, Hlo. reflexivity.
Qed.

(** Property X27.
    [calibrateWithEvidence] on [totalObservations > 0] observations of
    which [evidenceCount] show the pattern.  For a pattern name that
    every object inherits, such as [constructor] or [toString], the
    prior is not a number and the result is [NaN].  For every other
    name, listed or not, the result lies in [0.05, 0.95]; it grows
    with the evidence; and whatever the prior, no evidence at all
    gives the floor 0.05 and evidence in every observation gives the
    cap 0.95. *)
Theorem calibration_follows_the_evidence :
  forall (pattern : string) (evidenceCount totalObservations : Q),
    0 < totalObservations ->
    0 <= evidenceCount -> evidenceCount <= totalObservations ->
    (includes objectPrototypeMembers pattern = true ->
     calibrateWithEvidence pattern evidenceCount totalObservations = NaN)
    /\ (includes objectPrototypeMembers pattern = false ->
        exists c,
          calibrateWithEvidence pattern evidenceCount totalObservations = Finite c
          /\ 0.05 <= c /\ c <= 0.95
          /\ (forall more,
                evidenceCount <= more -> more <= totalObservations ->
                exists c',
                  calibrateWithEvidence pattern more totalObservations = Finite c'
                  /\ c <= c')
          /\ (exists none,
                 calibrateWithEvidence pattern 0 totalObservations = Finite none
                 /\ none == 0.05)
          /\ (exists all,
                 calibrateWithEvidence pattern totalObservations totalObservations
                 = Finite all
                 /\ all == 0.95)).
Proof.
  intros pattern e t Ht He0 Het. split.
  - intro Hinherited. unfold calibrateWithEvidence. cbv zeta.
    apply (proj1 (base_probability_nan pattern 0.1)) in Hinherited.
    rewrite Hinherited. reflexivity.
  - intro Hown.
    destruct (prior_bounds pattern) as [Hp0 Hp1].
    set (p := or_num (get baseProbabilities_patterns pattern) 0.1) in *.
    assert (Hratio : forall x, 0 <= x -> x <= t -> 0 <= x / t /\ x / t <= 1).
    { intros x Hx0 Hxt. split.
      - apply div_nonneg; lra.
      - apply Qle_shift_div_r; lra. }
    destruct (calibration_value pattern e t Hown Ht He0 Het) as (c & Hc & Hv).
    fold p in Hv.
    exists c. split; [exact Hc|].
    split; [rewrite Hv; apply Q.le_max_l|].
    split; [rewrite Hv; apply Q.max_lub; [lra | apply Q.le_min_l]|].
    split; [|split].
    + intros more Hmore Hmt.
      destruct (calibration_value pattern more t Hown Ht ltac:(lra) Hmt)
        as (c' & Hc' & Hv').
      fold p in Hv'. exists c'. split; [exact Hc'|].
      rewrite Hv, Hv'. apply clamp_monotone.
      destruct (Hratio e He0 Het) as [Hl0 Hl1].
      destruct (Hratio more ltac:(lra) Hmt) as [Hm0 Hm1].
      apply posterior_monotone; try assumption.
      unfold Qdiv. apply Qmult_le_compat_r; [exact Hmore|].
      apply Qinv_le_0_compat. lra.
    + destruct (calibration_value pattern 0 t Hown Ht ltac:(lra) ltac:(lra))
        as (c0 & Hc0 & Hv0).
      fold p in Hv0. exists c0. split; [exact Hc0|]. rewrite Hv0.
      assert (Hzero : p * (0 / t) / (p * (0 / t) + (1 - p) * (1 - 0 / t)) == 0).
      { unfold Qdiv. ring. }
      rewrite Hzero. vm_compute. reflexivity.
    + destruct (calibration_value pattern t t Hown Ht ltac:(lra) ltac:(lra))
        as (c1 & Hc1 & Hv1).
      fold p in Hv1. exists c1. split; [exact Hc1|]. rewrite Hv1.
      assert (Hone : p * (t / t) / (p * (t / t) + (1 - p) * (1 - t / t)) == 1).
      { field. split; lra. }
      rewrite Hone. vm_compute. reflexivity.
Qed.

Lemma calibration_follows_the_evidence_witness :
  calibrateWithEvidence "constructor" 1 4 = NaN
  /\ (exists c c',
         calibrateWithEvidence "absolutist" 1 4 = Finite c /\ c == 1 # 18
         /\ calibrateWithEvidence "absolutist" 3 4 = Finite c' /\ c <= c')
  /\ (exists none,
         calibrateWithEvidence "absolutist" 0 4 = Finite none /\ none == 0.05).
Proof.
  assert (Ht : 0 < 4) by lra. assert (He : 0 <= 1) by lra.
  assert (Het : 1 <= 4) by lra.
  split.
  - apply (proj1 (calibration_follows_the_evidence "constructor" 1 4 Ht He Het)).
    reflexivity.
  - destruct (proj2 (calibration_follows_the_evidence "absolutist" 1 4 Ht He Het))
      as (c & Hc & _ & _ & Hmore & Hnone & _); [reflexivity|].
    split; [|exact Hnone].
    destruct (Hmore 3) as (c' & Hc' & Hle); [lra | lra |].
    exists c, c'. split; [exact Hc|]. split; [|split; [exact Hc' | exact Hle]].
    assert (Hval : match calibrateWithEvidence "absolutist" 1 4 with
                   | Finite v => v == 1 # 18
                   | _ => False
                   end) by (vm_compute; reflexivity).
    rewrite Hc in Hval. exact Hval.
Defined.

(** Property X28.
    For a confidence between 0 and 1, [getConfidenceBands] gives an
    interval inside [0, 1] that holds the confidence: the upper end is
    half way between the confidence and 1, and the lower end is the
    margin [(1 - confidence) / 2] below the confidence, except that it
    stops at 0, which it does for a confidence below one third. *)
Theorem confidence_bands_hold_the_confidence :
  forall confidence : Q,
    0 <= confidence -> confidence <= 1 ->
    let bands := getConfidenceBands confidence in
    0 <= lower bands /\ lower bands <= confidence
    /\ confidence <= upper bands /\ upper bands <= 1
    /\ margin bands == (1 - confidence) / 2
    /\ upper bands == (1 + confidence) / 2
    /\ (1 # 3 <= confidence -> lower bands == (3 * confidence - 1) / 2)
    /\ (confidence <= 1 # 3 -> lower bands == 0).
Proof.
  intros c Hc0 Hc1 bands. unfold bands, getConfidenceBands.
  cbn [lower upper margin].
  assert (Hm : (1 - c) * 0.5 == (1 - c) / 2) by field.
  rewrite Hm.
  assert (Hup : Qmin 1 (c + (1 - c) / 2) == (1 + c) / 2).
  { rewrite Q.min_r; [field | lra_div]. }
  rewrite Hup.
  split; [apply Q.le_max_l|]. split; [apply Q.max_lub; lra_div|].
  split; [lra_div|]. split; [lra_div|]. split; [reflexivity|].
  split; [reflexivity|]. split.
  - intro H. rewrite Q.max_r; [field | lra_div].
  - intro H. apply Q.max_l. lra_div.
Qed.

Lemma confidence_bands_hold_the_confidence_witness :
  lower (getConfidenceBands 0.8) == 0.7 /\ upper (getConfidenceBands 0.8) == 0.9
  /\ lower (getConfidenceBands 0.8) <= 0.8 /\ 0.8 <= upper (getConfidenceBands 0.8).
Proof.
  split; [vm_compute; reflexivity|]. split; [vm_compute; reflexivity|].
  assert (H0 : 0 <= 0.8) by lra. assert (H1 : 0.8 <= 1) by lra.
  destruct (confidence_bands_hold_the_confidence 0.8 H0 H1) as (_ & Hlo & Hhi & _).
  split; assumption.
Defined.

End Reporting.

(* ================================================================== *)
(** ** The overall confidence of an analysis *)
(* ================================================================== *)

Section OverallConfidence.
Import JS Knowledge Conflicts Engine Runs Facts.
Import ConfidenceScorer.

Lemma runPipeline_without_hits (this : CognitiveEngine) (text : string)
    (key : option string) (analysis : Analysis) :
  runPipeline this text key = Return analysis ->
  hits analysis = [] ->
  analysis_patterns analysis = [] /\ analysis_drivers analysis = []
  /\ conflicts analysis = []
  /\ coherence analysis = calculateEnhancedCoherence [] [] [].
Proof.
  unfold runPipeline.
  destruct (parseTextWithEnhancements this text) as [|hit found] eqn:E.
  - cbn. intro H. inversion H. cbn. auto.
  - destruct (aggregatePatternsWithClusters this (hit :: found)); [|discriminate].
    intro H. inversion H. cbn. discriminate.
Qed.

(** Property X29.
    An analysis without hits, which is what [analyze] returns for a
    text without markers, gets the same report from
    [calculateOverallConfidence] whatever the text: no pattern and no
    driver confidence, the neutral 50 for conflicts, the coherence 0.7
    as 70, and an overall confidence of 17, read as very low. *)
Theorem overall_confidence_without_markers :
  forall (this : CognitiveEngine) (st : EngineState) (text : string)
         (options : AnalyzeOptions) (analysis : Analysis),
    Reachable this st ->
    fst (analyze this st text options) = Return analysis ->
    hits analysis = [] ->
    calculateOverallConfidence analysis
    = {| overall := 17; component_patterns := 0; component_drivers := 0;
         component_conflicts := 50; component_coherence := 70;
         overall_level := level_very_low |}.
Proof.
  intros this st text options analysis Hreach Hret Hnone.
  assert (Hfields :
            hits analysis = [] ->
            analysis_patterns analysis = [] /\ analysis_drivers analysis = []
            /\ conflicts analysis = []
            /\ coherence analysis = calculateEnhancedCoherence [] [] []).
  { apply (analyze_result this
             (fun a => hits a = [] ->
                       analysis_patterns a = [] /\ analysis_drivers a = []
                       /\ conflicts a = []
                       /\ coherence a = calculateEnhancedCoherence [] [] []))
      with (st := st) (text := text) (options := options); try assumption.
    intros text' key a. apply runPipeline_without_hits. }
  destruct (Hfields Hnone) as (Hp & Hd & Hc & Hco).
  unfold calculateOverallConfidence. rewrite Hp, Hd, Hc, Hco.
  vm_compute. reflexivity.
Qed.

Lemma overall_confidence_without_markers_witness :
  exists analysis,
    fst (analyze sampleEngine initialState "hello world" {| opt_cache := None |})
    = Return analysis
    /\ hits analysis = []
    /\ overall (calculateOverallConfidence analysis) = 17%Z.
Proof.
  eexists.
  assert (Hret : fst (analyze sampleEngine initialState "hello world"
                              {| opt_cache := None |}) = Return _)
    by (vm_compute; reflexivity).
  split; [exact Hret|]. split; [reflexivity|].
  rewrite (overall_confidence_without_markers sampleEngine initialState
             "hello world" {| opt_cache := None |} _ (reach_initial _) Hret eq_refl).
  reflexivity.
Defined.

End OverallConfidence.

(* ================================================================== *)
(** ** Temporal segments *)
(* ================================================================== *)

Section Segments.
Import JS Knowledge Conflicts Engine Runs Facts.

Lemma below_share (p t k m : nat) :
  (0 < k)%nat ->
  (num p < num t / num k * num m <-> (k * p < m * t)%nat).
Proof.
  intro Hk. assert (Hk' : 0 < num k) by now apply num_pos.
  assert (Hnat : num p * num k < num t * num m <-> (k * p < m * t)%nat).
  { unfold num, Qlt. simpl. rewrite !Z.mul_1_r, <- !Nat2Z.inj_mul. split; intro H.
    - apply Nat2Z.inj_lt in H. lia.
    - apply Nat2Z.inj_lt. lia. }
  rewrite <- Hnat.
  assert (Heq : num t / num k * num m * num k == num t * num m) by (field; lra).
  rewrite <- Heq. symmetry. apply Qmult_lt_r. exact Hk'.
Qed.

(** Property X30.
    An engine is constructed with at least one temporal segment, three
    unless the options say otherwise.  With [k] segments, the token at
    [position] of [totalLength] tokens is [early] when
    [k * position < totalLength], [middle] when
    [totalLength <= k * position < 2 * totalLength], and [late] from
    there on: whatever [k] is, there are these three labels only, and
    everything after the second share of the text is [late]. *)
Theorem temporal_segments_split_the_text :
  forall (knowledgeBase : KnowledgeBase) (options : ConstructorOptions)
         (position totalLength : nat),
    let this := constructor knowledgeBase options in
    let k := temporalSegments this in
    (1 <= k)%nat
    /\ (opt_temporalSegments options = None -> k = 3%nat)
    /\ (getTemporalSegment this position totalLength = early
        <-> (k * position < totalLength)%nat)
    /\ (getTemporalSegment this position totalLength = middle
        <-> (totalLength <= k * position < 2 * totalLength)%nat)
    /\ (getTemporalSegment this position totalLength = late
        <-> (2 * totalLength <= k * position)%nat).
Proof.
  intros knowledgeBase options position totalLength this k.
  assert (Hk : (1 <= k)%nat).
  { unfold k, this, constructor. cbn [temporalSegments]. unfold or_nat.
    destruct (opt_temporalSegments options) as [[|n]|]; lia. }
  split; [exact Hk|]. split.
  { intro Hnone. unfold k, this, constructor. cbn [temporalSegments].
    now rewrite Hnone. }
  unfold getTemporalSegment. fold k.
  pose proof (below_share position totalLength k 1 Hk) as Hearly.
  pose proof (below_share position totalLength k 2 Hk) as Hmiddle.
  assert (E1 : num totalLength / num k * num 1 == num totalLength / num k)
    by (unfold num at 3; simpl; field; apply Qnot_eq_sym, Qlt_not_eq, num_pos; lia).
  assert (E2 : num totalLength / num k * num 2 == num totalLength / num k * 2)
    by reflexivity.
  rewrite E1 in Hearly. rewrite E2 in Hmiddle.
  destruct (ltb (num position) (num totalLength / num k)) eqn:Ea.
  - apply ltb_lt, Hearly in Ea.
    split; [split; [intros _; lia | reflexivity]|].
    split; split; try discriminate; lia.
  - apply ltb_ge in Ea.
    assert (Hnot : ~ (k * position < 1 * totalLength)%nat).
    { intro H. apply Hearly in H. lra. }
    destruct (ltb (num position) (num totalLength / num k * 2)) eqn:Eb.
    + apply ltb_lt, Hmiddle in Eb.
      split; [split; [discriminate | lia]|].
      split; [split; [intros _; lia | reflexivity]|].
      split; [discriminate | lia].
    + apply ltb_ge in Eb.
      assert (Hnot2 : ~ (k * position < 2 * totalLength)%nat).
      { intro H. apply Hmiddle in H. lra. }
      split; [split; [discriminate | lia]|].
      split; [split; [discriminate | lia]|].
      split; [intros _; lia | reflexivity].
Qed.

End Segments.
